(* ===== verification/_CoqProject ===== *)
-Q . S2P
Prelude.v
Api.v
Codec.v
Store.v
RaftStore.v
Registry.v
Cluster.v
Scheduler.v
Scheduling.v
Deployment.v
DeploymentCorrect.v
Float.v
Hpa.v
Controllers.v
Admission.v
Rbac.v
Services.v
ServicesCorrect.v
System.v
NetPolicy.v
Mesh.v
Agent.v
AgentCorrect.v
GitOps.v
Text.v
Path.v
Http.v
Files.v
Hostpath.v
Finops.v
Base64.v
Session.v
Dashboard.v
DashboardCorrect.v
Federation.v
Identity.v
Imagesign.v
Build.v
Containerd.v
Cli.v
Node.v
Replicas.v
Proxy.v
AgentTypes.v
Wasm.v
Processes.v
GitRepo.v
Rotation.v
Manager.v
Tls.v
Telemetry.v
Boot.v
