(* ===== verification/Prelude.v ===== *)
(** * NimbusCore: a verification library (root file)

    NimbusCore is a container orchestrator written in Go: an API server that
    keeps its objects in an encrypted, Raft-replicated store; controllers that
    run on the leader and move the stored objects towards what they ask for; an
    agent on each node that runs the assigned pods; a service mesh, a network
    policy engine, an identity authority, image signing, federation and a cost
    report beside them; a web dashboard and a command line client in front.  This
    library models that code as Rocq functions and proves what it guarantees.

    ** Parts of the program and files of the library

    - Prelude.v (this file): errors, results and panics; the state-and-error
      monad [M] in which handlers and controllers run; iteration over Go maps
      in an arbitrary order ([Shuffle]); int32 and int64 wrap-around; the string
      functions the code uses; the tactics and hint databases.
    - Api.v: the objects of api/v1, one [Record] per message with its nil-safe
      getters.  Codec.v: the interface [ProtoMessage] of a codec with its
      round-trip law, and a reference codec for examples.
    - Store.v (internal/store/store.go): the interface [Store] of a key-value
      store, its laws [StoreLaws], and the in-memory store.  RaftStore.v
      (store/raft.go, store/crypto.go): the replicated state machine, the
      encrypted store over it, key rotation, snapshots and restarts.
      Replicas.v: several of these stores over one log, with restarts, snapshots
      and changes of leadership.  Rotation.v (also controller/key_rotation.go): a
      re-encryption in steps, with requests of clients between them.
    - Registry.v (internal/registry): typed registries over any [Store].
      Cluster.v: the registries as cmd/nimbus-apiserver wires them, and the
      abstract state [cluster] (finite maps of pods, nodes, deployments and
      volumes) that a store [holds].
    - Scheduler.v (internal/scheduler): the basic scheduler behind the interface
      [Scheduler].  Scheduling.v (controller/scheduling.go, controller/pod.go,
      parts of controller/deployment.go): node usage, candidates, placement.
    - Deployment.v and DeploymentCorrect.v (controller/deployment.go): the
      deployment controller and its convergence.
    - Float.v, Hpa.v (controller/hpa.go, controller/capacity.go): float64 and
      the autoscaler.
    - Controllers.v (controller/node_health.go, key_rotation.go, manager.go):
      the loops and leadership; Manager.v: the goroutines of Manager.Run and
      RunWhileLeader, in every interleaving.
    - Admission.v (internal/admission, policy, imageregistry): the validators,
      which mutate the request, and the chain.  Rbac.v (internal/rbac,
      apiserver/rbac.go, apiserver/auth.go): bindings and the interceptor.
    - Services.v and ServicesCorrect.v (internal/apiserver): all handlers.
      System.v: handlers and controllers interleaved, as a step relation.
    - NetPolicy.v (internal/netpolicy), Mesh.v (internal/mesh).
    - Agent.v and AgentCorrect.v (internal/agent: agent.go, process.go,
      nodeport.go): the loop of a node.  AgentTypes.v: what stays well formed
      in its state.  Processes.v (agent/process.go): the goroutines that wait for
      processes and modules.  Proxy.v (agent/nodeport.go): the connections of a
      node port.  Wasm.v (internal/wasmrt): the WebAssembly runtime.
    - GitOps.v (internal/gitops): a synchronisation, given what the working copy
      answers; GitRepo.v: the working copy, fetched with Git.
    - Text.v, Path.v, Http.v, Base64.v: the parts of the Go library that the
      remaining files need: strings, path/filepath (with its lexical theory),
      requests and replies, the interface [OS] of a file system with its laws, a
      version that records all accesses and one in memory, and base64 with its
      round trip.
    - Files.v (agent/files.go, agent/logserver.go), Hostpath.v (csi/hostpath):
      the servers of files and logs and the volume driver, over any [OS].
      Build.v (agent/build.go): images built from Git.  Containerd.v
      (agent/containerd_client.go): the client of containerd, and the host that
      the agent of Agent.v runs on ([real_host]) made of these files.
    - Session.v and Dashboard.v (internal/dashboard) with DashboardCorrect.v;
      Finops.v (internal/finops, apiserver/finops_service.go); Federation.v
      (internal/federation, apiserver/federation_service.go).
    - Identity.v (internal/identity, apiserver/identity_service.go and
      loadOrBootstrapIdentity of cmd/nimbus-apiserver): the authority, the
      identities it issues and their rotation.  Imagesign.v (internal/imagesign,
      the signing commands of cmd/nimbusctl, loadImageVerifier).
    - Cli.v (cmd/nimbusctl, list flags of the servers): the commands as calls
      through the interceptor.  Node.v (cmd/nimbus-agent): registration and
      heartbeats.
    - Tls.v (identity/svid.go, identity/enroll.go, apiserver/server.go): the TLS
      configurations of both ends, a handshake between them and a call through
      it.  Telemetry.v (internal/telemetry).  Boot.v (cmd/nimbus-apiserver and
      cmd/nimbus-agent, main.go): the start and the end of the two servers, made
      of the parts of the other files.

    ** How the code is modelled

    A function that may fail returns a [result] or runs in [M S], the monad over
    the state [S] of the store: [Err] is an error value, which keeps the state
    reached so far, and [Panic] a Go panic, which nothing recovers from.
    Pointers are options, repeated fields lists, maps [gmap]s.  A loop over a map
    takes its order from [Shuffle], so every theorem holds for all orders.
    Arithmetic is written with its width ([wrap32], [wrap64]) and floats are IEEE
    doubles.  Log lines, locks held for a whole operation and contexts that only
    carry cancellation are left out.  Texts of errors keep their constant part.
    Where goroutines share state between their steps (the proxies, the process
    table and its queue, the manager, a re-encryption, the replicas) a step
    relation or a list of steps makes one step of one of them at a time, and the
    theorems hold for every order.  In Boot.v a main function is a sequence of
    steps that may end in log.Fatal, with the deferred calls and the goroutines it
    has collected so far.

    What is not under src/ is a parameter with the laws the code relies on: the
    protobuf codec (decoding inverts encoding), AES-GCM (opening with the key
    inverts sealing, another key fails), the Raft library (an entry applied
    without error reaches the local state machine; between replicas, the rules of
    [cstep]: one log that only grows, applied in order), CEL expressions, SPIFFE
    identities, X.509 and ECDSA (what is issued parses back and verifies in its
    validity, what is signed verifies), HMAC, JSON on ASCII text (decoding
    inverts encoding), containerd ([ContainerdLaws]: a call has its effect on the
    container it names or fails without one), the host of an agent, the file
    system and buildctl (arbitrary; where a proof
    needs that a file written is read back, [OSLaws] and [OSFrame] say so), Git
    ([GitLaws]: cloning and pulling bring a working copy to the branch of its
    origin or fail), wazero ([WazeroLaws]: closing releases) and the OpenTelemetry
    SDK ([OtelLaws]).  The handshake of crypto/tls is modelled as far as the
    configurations steer it; of a verified chain only the leaf is kept.  Each
    theorem with hypotheses has a witness on a concrete instance, next to it or in
    a Demo module.

    Recursion is structural throughout.  Where the source loops on a counter
    the number of rounds is explicit: the creation loop of the deployment
    controller has as fuel the pods to create plus the ordinals in use, which is
    proved to be enough for it to finish ([create_loop_runs]); the search for a
    node port visits the 2768 ports of its range; a call through the mesh makes
    the attempts of its policy; loops on a timer run on the list of their events;
    a re-encryption takes two steps more than there are values
    ([reencrypt_in_steps]).

    ** What is proved

    - Store: the replicated encrypted store refines the finite map; writes are
      refused away from the leader; snapshot and replay agree; key rotation
      loses nothing when it completes.  What is lost otherwise is proved too:
      [restart_after_rotation_unreadable], [rotation_after_failed_reencrypt].
      Across replicas: [replica_reads_exact], [replicas_agree], and
      [failover_after_rotation].  With clients: [rotation_with_clients] and
      [rotation_undoes_writes].
    - Registry: put, get, list and delete behave as on a map; keys identify
      objects exactly as long as names have no slash.
    - Scheduling: [schedule_optimal], [placement_fits]; and
      [batch_placement_port_conflict], since candidates are not updated within
      a pass.
    - Controllers: [deployment_converges], [creation_fills_gaps],
      [volume_claims_sticky], [negative_replicas_panic]; [hpa_scaling_bounds],
      [max_additional_exact]; [node_health_exact]; [leader_runs_controllers].
      With goroutines: [one_term_at_a_time], [cancel_drains], and
      [manager_refines_leader] (the goroutines implement the loop).
    - API: [admission_guarantees], [quota_respected], [policy_verdict],
      [volume_ownership]; [auth_fails_closed],
      [default_bindings_least_privilege]; node ports stay unique, endpoints are
      exact, deletion cascades, backups restore, status updates are authorised.
    - System: [cluster_stays_secure], an invariant of every interleaving of
      handlers and controllers (GitOps and the restoring of backups, which
      write past admission, are not among its steps).
    - Node: [agent_tick_converges], [exit_needs_three_misses],
      [restart_policy_honoured], [proxies_follow_services]; and two defects,
      [exit_burst_blocks] and [failed_restart_reported_running].  On its
      containerd client: [run_atomic], [remove_exact], [start_own_container],
      [orphans_removed], [run_order_irrelevant]; and what is missing there,
      [only_node_fields_matter], [dial_error_stops_pods].  With goroutines:
      [agent_stays_well_formed], [exits_drain], [proxy_delivers],
      [stopped_proxy_drains]; and [stale_exit_leaks_process],
      [completed_pod_runs_again], [half_close_truncates].  [wasm_no_leak].
    - Mesh and network: [circuit_breaker_history], [mesh_call_outcome],
      [netpolicy_allowed_iff].  GitOps: [gitops_applies],
      [gitops_follows_branch], [failed_fetch_keeps_cluster],
      [url_change_ignored].
    - Files: [file_server_confined], [volume_dirs_disjoint],
      [file_write_read_delete], [log_tail_exact], [hostpath_confined],
      [hostpath_meta_roundtrip]; and where the confinement ends,
      [namespace_escapes_volumes], [log_name_escapes],
      [hostpath_dotdot_deletes_base].  Builds: [synthesized_dockerfile],
      [node_dockerfile_lines], [dockerfile_name_ignored],
      [context_not_confined].
    - Dashboard: [dashboard_refines_api] (every request is a sequence of API
      steps of System.v), [dashboard_needs_session], [session_lasts_a_day],
      [metrics_match_scheduler], [restart_deletes_owned_pods]; and
      [edit_moves_node_port], [logs_default_namespace_refused].
    - Costs and federation: [cost_report_exact],
      [controller_pods_cost_nothing]; [federation_agrees] for operations one at
      a time and [federation_race] for concurrent ones.
    - Identity: [svid_validity], [request_svid_policy],
      [rotation_keeps_identity_valid], [bootstrap_identity_persists].
      Connections: [mutual_tls], [enrolled_caller_authorized] (from enrolment
      over the handshake to the handler), [anonymous_can_only_enrol],
      [enrolment_trusts_any_server].
      Images: [sign_image_trusted], [running_images_signed] (through the
      admission chain and the handlers), [unsigned_image_refused].
    - Command line and nodes: [run_then_get], [client_cannot_manage_nodes]
      (through enrolment, certificate and interceptor), [set_context_roundtrip],
      [accelerators_roundtrip]; [node_stays_ready] (heartbeats against health
      checks in any order), [deleted_node_stays_gone].
    - Start and end: [started_server] (what holds when the API server serves),
      [services_match_rbac], [started_server_runs_signed], [started_agent],
      [failed_start_shuts_nothing_down], [late_joiner_cannot_read];
      [setup_all_or_nothing], [shutdown_stops_at_tracer].

    ** What is not modelled

    The insides of the libraries named above, and what of the Go library does no
    more than carry bytes: sockets and listeners, signals, timers (they decide when
    a step happens, and every time is allowed), the parsing of flags; timeouts of
    containerd calls; the attributes of telemetry resources; cobra and the layout
    of tables in nimbusctl; the static pages of the dashboard.  Concurrent requests
    to the file server of an agent are left for later: each of its operations is a
    few calls of the file system, whose own interleaving is that of the operating
    system. *)

From stdpp Require Import gmap strings list fin_maps pretty.
From Stdlib Require Import Ascii ZArith Lia.

(** ** Bytes *)

Abbreviation bytes := (list Byte.byte).

#[export] Instance byte_eq_decision : EqDecision Byte.byte := Byte.byte_eq_dec.

(** ** Errors, results and panics

    A Go call that may fail returns [Ok v], an error value, or panics.  A
    panic is not an error value: nothing in the modelled code recovers from
    one, so it propagates through every caller. *)

Inductive code :=
  | InvalidArgument | NotFound | AlreadyExists | PermissionDenied
  | FailedPrecondition | Internal | Unavailable | Unauthenticated
  | DeadlineExceeded | ResourceExhausted | Unknown.

#[export] Instance code_eq_decision : EqDecision code.
Proof. solve_decision. Defined.

(** The errors of the program.  [Errorf s] is a fresh error; [Wrapf s e] is
    [fmt.Errorf("s: %w", e)], which [errors.Is] looks through; [Status c s] is
    a gRPC status error.  The text [s] is the constant part of the format. *)
Inductive error :=
  | ErrNotFound
  | ErrNotLeader
  | ErrNoNodeAvailable
  | ErrContextCanceled
  | Errorf (s : string)
  | Wrapf (s : string) (e : error)
  | Status (c : code) (s : string).

#[export] Instance error_eq_decision : EqDecision error.
Proof. solve_decision. Defined.

(** [errors.Is]: the error itself or anything it wraps. *)
Fixpoint errors_Is (e target : error) : bool :=
  bool_decide (e = target) ||
  match e with Wrapf _ e' => errors_Is e' target | _ => false end.

Inductive result (A : Type) :=
  | Ok (a : A)
  | Err (e : error)
  | Panic.
Arguments Ok {A} a.
Arguments Err {A} e.
Arguments Panic {A}.

#[export] Instance result_eq_decision `{EqDecision A} : EqDecision (result A).
Proof. solve_decision. Defined.

(** [fmt.Errorf("s: %w", err)] on the error path of a call. *)
Definition wrap_result {A} (s : string) (r : result A) : result A :=
  match r with Err e => Err (Wrapf s e) | r => r end.

Definition result_bind {A B} (f : A → result B) (r : result A) : result B :=
  match r with Ok a => f a | Err e => Err e | Panic => Panic end.

#[export] Instance result_ret : MRet result := @Ok.
#[export] Instance result_mbind : MBind result := @result_bind.

Definition is_Ok {A} (r : result A) : Prop := ∃ a, r = Ok a.

(** ** Nondeterministic map iteration

    Go iterates over a map in an unspecified order that changes from one
    loop to the next.  [shuffle n l] is the order of the [n]-th iteration of
    the run over the entries [l]; every theorem is proved for an arbitrary
    instance, hence for all iteration orders. *)
Class Shuffle := {
  shuffle : nat → ∀ {A : Type}, list A → list A;
  shuffle_perm : ∀ n A (l : list A), shuffle n l ≡ₚ l;
}.

(** The identity order, used to evaluate definitions on concrete inputs. *)
Definition shuffle_id : Shuffle :=
  {| shuffle := λ _ _ l, l; shuffle_perm := λ _ _ l, Permutation_refl l |}.

(** The reverse order on odd iterations: iteration orders may differ. *)
Program Definition shuffle_alt : Shuffle :=
  {| shuffle := λ n _ l, if Nat.even n then l else rev l |}.
Next Obligation. intros n A l; simpl. destruct (Nat.even n); [done|]. symmetry. apply Permutation_rev. Qed.

(** ** The state-and-error monad

    The world of the control plane is the state of the store it runs on and
    the number of map iterations executed so far.  A computation keeps the
    state it reached when it fails, as the Go code does. *)
Record world (S : Type) := World { w_store : S; w_tick : nat }.
Arguments World {S} w_store w_tick.
Arguments w_store {S} w.
Arguments w_tick {S} w.

Definition M (S A : Type) : Type := world S → result A * world S.

Definition M_ret {S A} (a : A) : M S A := λ w, (Ok a, w).
Definition M_bind {S A B} (f : A → M S B) (m : M S A) : M S B := λ w,
  match m w with
  | (Ok a, w') => f a w'
  | (Err e, w') => (Err e, w')
  | (Panic, w') => (Panic, w')
  end.

#[export] Instance M_mret {S} : MRet (M S) := @M_ret S.
#[export] Instance M_mbind {S} : MBind (M S) := @M_bind S.

Definition fail {S A} (e : error) : M S A := λ w, (Err e, w).
Definition panic {S A} : M S A := λ w, (Panic, w).
Definition lift {S A} (r : result A) : M S A := λ w, (r, w).

(** Run [m] and hand its error to the caller as a value; panics escape. *)
Definition attempt {S A} (m : M S A) : M S (result A) := λ w,
  match m w with
  | (Panic, w') => (Panic, w')
  | (r, w') => (Ok r, w')
  end.

(** [if err := m; err != nil { log.Printf(...) }]: the error is dropped. *)
Definition logged {S} (m : M S unit) : M S unit := λ w,
  match m w with
  | (Panic, w') => (Panic, w')
  | (_, w') => (Ok tt, w')
  end.

(** [fmt.Errorf("s: %w", err)] around the error of a call. *)
Definition wrapM {S A} (s : string) (m : M S A) : M S A := λ w,
  let '(r, w') := m w in (wrap_result s r, w').

(** [status.Errorf(c, "s: %v", err)]: the error becomes a gRPC status. *)
Definition statusM {S A} (c : code) (s : string) (m : M S A) : M S A := λ w,
  match m w with
  | (Err _, w') => (Err (Status c s), w')
  | rw => rw
  end.

(** One map iteration: the entries in the order chosen for this loop. *)
Definition range {Sh : Shuffle} {S A} (l : list A) : M S (list A) := λ w,
  (Ok (shuffle (w_tick w) l), World (w_store w) (Datatypes.S (w_tick w))).

(** [for _, x := range l { if err := f(x); err != nil { return err } }] *)
Fixpoint for_each {S A} (l : list A) (f : A → M S unit) : M S unit :=
  match l with
  | [] => mret ()
  | x :: l => _ ← f x; for_each l f
  end.

(** A loop over [l] that appends to an output slice. *)
Fixpoint map_each {S A B} (l : list A) (f : A → M S (list B)) : M S (list B) :=
  match l with
  | [] => mret []
  | x :: l => ys ← f x; zs ← map_each l f; mret (ys ++ zs)
  end.

(** ** Machine integers *)

Local Open Scope Z_scope.

Definition MaxInt32 : Z := 2147483647.
Definition MaxInt64 : Z := 9223372036854775807.

(** Two's complement wrap-around of Go's int32 and int64. *)
Definition wrap32 (z : Z) : Z := (z + 2 ^ 31) mod 2 ^ 32 - 2 ^ 31.
Definition wrap64 (z : Z) : Z := (z + 2 ^ 63) mod 2 ^ 64 - 2 ^ 63.

Definition in_int32 (z : Z) : Prop := - 2 ^ 31 ≤ z < 2 ^ 31.
Definition in_int64 (z : Z) : Prop := - 2 ^ 63 ≤ z < 2 ^ 63.

Lemma wrap32_id z : in_int32 z → wrap32 z = z.
Proof. unfold in_int32, wrap32. intros. rewrite Z.mod_small; lia. Qed.

Lemma wrap64_id z : in_int64 z → wrap64 z = z.
Proof. unfold in_int64, wrap64. intros. rewrite Z.mod_small; lia. Qed.

Lemma wrap32_range z : in_int32 (wrap32 z).
Proof.
  unfold in_int32, wrap32.
  pose proof (Z.mod_pos_bound (z + 2 ^ 31) (2 ^ 32)). lia.
Qed.

Lemma wrap64_range z : in_int64 (wrap64 z).
Proof.
  unfold in_int64, wrap64.
  pose proof (Z.mod_pos_bound (z + 2 ^ 63) (2 ^ 64)). lia.
Qed.

Lemma wrap64_add_l a b : wrap64 (wrap64 a + b) = wrap64 (a + b).
Proof.
  unfold wrap64. f_equal.
  replace ((a + 2 ^ 63) `mod` 2 ^ 64 - 2 ^ 63 + b + 2 ^ 63)
    with ((a + 2 ^ 63) `mod` 2 ^ 64 + b) by lia.
  rewrite Z.add_mod_idemp_l by lia. f_equal. lia.
Qed.

(** A Go map lookup on an integer-valued map: absent keys read as zero. *)
Definition zlookup `{Countable K} (m : gmap K Z) (k : K) : Z := default 0 (m !! k).

Local Close Scope Z_scope.

(** ** Strings *)

(** [strings.HasPrefix s p] *)
Definition HasPrefix (s p : string) : bool := String.prefix p s.

(** [strings.TrimPrefix s p] *)
Fixpoint TrimPrefix_go (s p : string) : option string :=
  match p, s with
  | EmptyString, s => Some s
  | String a p, String b s => if bool_decide (a = b) then TrimPrefix_go s p else None
  | _, _ => None
  end.
Definition TrimPrefix (s p : string) : string := default s (TrimPrefix_go s p).

(** Does the byte [c] occur in [s]? *)
Fixpoint contains_char (c : Ascii.ascii) (s : string) : bool :=
  match s with
  | EmptyString => false
  | String a s => bool_decide (a = c) || contains_char c s
  end.

Definition slash : Ascii.ascii := "/"%char.

(** [strconv.Atoi]: an optional sign, then one or more decimal digits, within
    the range of a 64-bit int; anything else is an error. *)
Definition digit_value (a : Ascii.ascii) : option Z :=
  let n := Z.of_nat (Ascii.nat_of_ascii a) in
  if (48 <=? n)%Z && (n <=? 57)%Z then Some (n - 48)%Z else None.

Fixpoint parse_digits (acc : Z) (s : string) : option Z :=
  match s with
  | EmptyString => Some acc
  | String a s => d ← digit_value a; parse_digits (acc * 10 + d)%Z s
  end.

Definition parse_unsigned (s : string) : option Z :=
  match s with EmptyString => None | _ => parse_digits 0 s end.

Definition parse_int64 (s : string) : option Z :=
  v ← match s with
      | String a s' =>
          if bool_decide (a = "-"%char) then Z.opp <$> parse_unsigned s'
          else if bool_decide (a = "+"%char) then parse_unsigned s'
          else parse_unsigned s
      | EmptyString => None
      end;
  if ((- 2 ^ 63 <=? v) && (v <? 2 ^ 63))%Z then Some v else None.

Definition Atoi (s : string) : option Z := parse_int64 s.

Lemma string_app_cons c (s t : string) : String c s +:+ t = String c (s +:+ t).
Proof. reflexivity. Qed.

Lemma string_app_nil_l (s : string) : "" +:+ s = s.
Proof. reflexivity. Qed.

Lemma string_app_assoc (a b c : string) : (a +:+ b) +:+ c = a +:+ (b +:+ c).
Proof. induction a as [|x a IH]; [done|]. by rewrite !string_app_cons, IH. Qed.

Lemma string_app_nil_r (a : string) : a +:+ "" = a.
Proof. induction a as [|x a IH]; [done|]. by rewrite string_app_cons, IH. Qed.

Lemma HasPrefix_iff s p : HasPrefix s p = true ↔ ∃ t, s = p +:+ t.
Proof.
  unfold HasPrefix. revert s. induction p as [|a p IH]; intros s; simpl.
  { destruct s; naive_solver. }
  destruct s as [|b s]; simpl; [by split; [|intros [t Ht]]|].
  setoid_rewrite string_app_cons.
  destruct (Ascii.ascii_dec a b) as [->|Hne].
  - rewrite IH. split; intros [t Ht]; exists t; congruence.
  - split; [done|]. intros [t Ht]. congruence.
Qed.

Lemma HasPrefix_app p t : HasPrefix (p +:+ t) p = true.
Proof. apply HasPrefix_iff. eauto. Qed.

Lemma TrimPrefix_app p t : TrimPrefix (p +:+ t) p = t.
Proof.
  unfold TrimPrefix. enough (TrimPrefix_go (p +:+ t) p = Some t) as -> by done.
  induction p as [|a p IH]; [by destruct t|]. rewrite string_app_cons; simpl.
  by rewrite bool_decide_eq_true_2.
Qed.

Lemma contains_char_app c a b :
  contains_char c (a +:+ b) = contains_char c a || contains_char c b.
Proof.
  induction a as [|x a IH]; [done|]. rewrite string_app_cons; simpl.
  rewrite IH. by destruct (bool_decide _).
Qed.

(** Splitting at the first separator is unambiguous. *)
Lemma app_sep_inj c a b s t :
  contains_char c a = false → contains_char c b = false →
  a +:+ String c s = b +:+ String c t → a = b ∧ s = t.
Proof.
  revert b. induction a as [|x a IH]; intros [|y b]; simpl;
    rewrite ?string_app_cons, ?string_app_nil_l; intros Ha Hb Heq; simplify_eq.
  - done.
  - by rewrite bool_decide_eq_true_2 in Hb.
  - by rewrite bool_decide_eq_true_2 in Ha.
  - apply orb_false_elim in Ha as [_ Ha]. apply orb_false_elim in Hb as [_ Hb].
    destruct (IH b Ha Hb) as [-> ->]; done.
Qed.

Lemma digit_value_pretty x :
  (x < 10)%N → digit_value (pretty_N_char x) = Some (Z.of_N x).
Proof.
  intros Hx.
  assert (∃ n : nat, x = N.of_nat n ∧ (n < 10)%nat) as (n & -> & Hn)
    by (exists (N.to_nat x); lia).
  do 10 (destruct n as [|n]; [reflexivity|]). lia.
Qed.

Lemma parse_digits_pretty_go x s :
  parse_digits 0 (pretty_N_go x s) = parse_digits (Z.of_N x) s.
Proof.
  revert s. induction (N.lt_wf_0 x) as [x _ IH]; intros s.
  destruct (decide (0 < x)%N) as [Hx|Hx].
  - rewrite pretty_N_go_step by done.
    rewrite IH by (apply N.div_lt; lia). simpl.
    rewrite digit_value_pretty by (apply N.mod_lt; lia). simpl.
    f_equal. pose proof (N.div_mod' x 10). lia.
  - assert (x = 0%N) as -> by lia. by rewrite pretty_N_go_0.
Qed.

Lemma pretty_N_go_head x s :
  (0 < x)%N → ∃ d t, pretty_N_go x s = String d t ∧ is_Some (digit_value d).
Proof.
  revert s. induction (N.lt_wf_0 x) as [x _ IH]; intros s Hx.
  rewrite pretty_N_go_step by done.
  destruct (decide (0 < x `div` 10)%N) as [Hd|Hd].
  - apply IH; [apply N.div_lt; lia|done].
  - apply N.nlt_ge, N.le_0_r in Hd. rewrite Hd, pretty_N_go_0.
    do 2 eexists. split; [done|].
    rewrite digit_value_pretty by (apply N.mod_lt; lia). eauto.
Qed.

(** [strconv.Atoi(fmt.Sprintf("%d", n)) = n] *)
Lemma Atoi_pretty (n : nat) :
  (Z.of_nat n < 2 ^ 63)%Z → Atoi (pretty n) = Some (Z.of_nat n).
Proof.
  intros Hn. unfold Atoi, parse_int64.
  assert (∃ d t, pretty n = String d t ∧ is_Some (digit_value d) ∧
            parse_unsigned (pretty n) = Some (Z.of_nat n)) as (d & t & Hp & [v Hv] & Hu).
  { destruct n as [|n]; [do 2 eexists; split_and!; [reflexivity|eexists; reflexivity|reflexivity]|].
    set (x := N.of_nat (S n)).
    assert (pretty (S n) = pretty_N_go x "") as Hpx.
    { unfold pretty, pretty_nat, pretty, pretty_N. rewrite decide_False; [done|lia]. }
    destruct (pretty_N_go_head x "") as (d & t & Hd & Hs); [unfold x; lia|].
    exists d, t. rewrite Hpx. split_and!; [done|done|].
    unfold parse_unsigned. rewrite Hd at 1.
    rewrite parse_digits_pretty_go. reflexivity. }
  rewrite Hp in Hu |- *.
  assert (d ≠ "-"%char ∧ d ≠ "+"%char) as [Hm Hpl].
  { split; intros ->; vm_compute in Hv; discriminate. }
  rewrite !bool_decide_eq_false_2 by done.
  rewrite Hu. simpl.
  rewrite (proj2 (Z.leb_le _ _)), (proj2 (Z.ltb_lt _ _)) by lia. done.
Qed.

(** The same for an int, and its decimal digits contain no slash. *)
Lemma Atoi_pretty_Z (i : Z) : (0 ≤ i < 2 ^ 63)%Z → Atoi (pretty i) = Some i.
Proof.
  intros Hi. rewrite <-(Z2Nat.id i) by lia.
  replace (pretty (Z.of_nat (Z.to_nat i))) with (pretty (Z.to_nat i)); [apply Atoi_pretty; lia|].
  destruct (Z.to_nat i) as [|n]; done.
Qed.

Lemma contains_pretty_go c x s :
  digit_value c = None → contains_char c (pretty_N_go x s) = contains_char c s.
Proof.
  intros Hc. revert s. induction (N.lt_wf_0 x) as [x _ IH]; intros s.
  destruct (decide (0 < x)%N) as [Hx|Hx].
  - rewrite pretty_N_go_step, IH by (done || apply N.div_lt; lia). simpl.
    rewrite bool_decide_eq_false_2; [done|]. intros Heq.
    pose proof (digit_value_pretty (x `mod` 10)) as Hd. rewrite Heq, Hc in Hd.
    by specialize (Hd ltac:(apply N.mod_lt; lia)).
  - assert (x = 0%N) as -> by lia. by rewrite pretty_N_go_0.
Qed.

(** A number is printed with digits and a minus sign. *)
Lemma contains_pretty c (i : Z) : digit_value c = None → c ≠ "-"%char → contains_char c (pretty i) = false.
Proof.
  intros Hc Hm. assert (∀ p : positive, contains_char c (pretty (N.pos p)) = false) as Hp.
  { intros p. unfold pretty, pretty_N. rewrite decide_False by done. by apply contains_pretty_go. }
  destruct i as [|p|p]; [|apply Hp|].
  - simpl. rewrite bool_decide_eq_false_2; [done|]. by intros <-.
  - unfold pretty, pretty_Z. rewrite contains_char_app. simpl. rewrite bool_decide_eq_false_2 by done. apply Hp.
Qed.

Lemma contains_slash_pretty_Z (i : Z) : contains_char slash (pretty i) = false.
Proof. by apply contains_pretty. Qed.

(** ** Maps and lists *)

Lemma and_iff_compat_l_weak (A B C : Prop) : (A → (B ↔ C)) → (A ∧ B ↔ A ∧ C).
Proof. tauto. Qed.

Lemma omap_length_le {A B} (f : A → option B) (l : list A) : (length (omap f l) ≤ length l)%nat.
Proof. induction l as [|x l IH]; simpl; [done|]. destruct (f x); [by apply le_n_S|by apply le_S]. Qed.

Lemma forallb_elem_of {A} (f : A → bool) (l : list A) :
  forallb f l = true ↔ ∀ x, x ∈ l → f x = true.
Proof. rewrite forallb_forall. by setoid_rewrite list_elem_of_In. Qed.

(** The values of a partially mapped map. *)
Lemma values_omap `{Countable K} {A B} (f : A → option B) (m : gmap K A) :
  (map_to_list (omap f m)).*2 ≡ₚ omap (λ kv, f kv.2) (map_to_list m).
Proof.
  induction m as [|i x m Hi IH] using map_ind.
  { by rewrite omap_empty, !map_to_list_empty. }
  rewrite omap_insert, (map_to_list_insert m) by done. simpl.
  destruct (f x) as [y|].
  - rewrite map_to_list_insert by (by rewrite lookup_omap, Hi). simpl. by rewrite IH.
  - by rewrite delete_id by (by rewrite lookup_omap, Hi).
Qed.

(** Counting the values of a map that satisfy a predicate. *)
Lemma length_filter_values `{Countable K} {A} (Q : A → Prop) `{∀ x, Decision (Q x)} (m : gmap K A) :
  length (filter Q (map_to_list m).*2) = size (filter (λ kv, Q kv.2) m).
Proof.
  rewrite <-length_map_to_list, map_filter_alt, map_to_list_to_map.
  - generalize (map_to_list m). intros l. induction l as [|[k x] l IH]; [done|].
    rewrite fmap_cons, !filter_cons. simpl. case_decide; simpl; by rewrite IH.
  - apply (sublist_NoDup _ (map_to_list m).*1); [apply NoDup_fst_map_to_list|apply fmap_sublist, sublist_filter].
Qed.

(** ** Monad inversion *)

Section monad_lemmas.
Context {S : Type}.

Lemma bind_Ok {A B} (m : M S A) (f : A → M S B) w b w' :
  (m ≫= f) w = (Ok b, w') ↔ ∃ a w1, m w = (Ok a, w1) ∧ f a w1 = (Ok b, w').
Proof.
  unfold mbind, M_mbind, M_bind. destruct (m w) as [[a|e|] w1].
  - split; [by eauto|]. by intros (? & ? & [= -> ->] & ?).
  - by split; [|intros (? & ? & ? & ?)].
  - by split; [|intros (? & ? & ? & ?)].
Qed.

Lemma bind_run_Ok {A B} (m : M S A) (f : A → M S B) w a w1 :
  m w = (Ok a, w1) → (m ≫= f) w = f a w1.
Proof. unfold mbind, M_mbind, M_bind. by intros ->. Qed.

Lemma bind_run_Err {A B} (m : M S A) (f : A → M S B) w e w1 :
  m w = (Err e, w1) → (m ≫= f) w = (Err e, w1).
Proof. unfold mbind, M_mbind, M_bind. by intros ->. Qed.

Lemma bind_run_Panic {A B} (m : M S A) (f : A → M S B) w w1 :
  m w = (Panic, w1) → (m ≫= f) w = (Panic, w1).
Proof. unfold mbind, M_mbind, M_bind. by intros ->. Qed.

Lemma wrapM_run_Ok {A} s (m : M S A) w a w1 :
  m w = (Ok a, w1) → wrapM s m w = (Ok a, w1).
Proof. unfold wrapM. by intros ->. Qed.

Lemma statusM_run_Ok {A} c s (m : M S A) w a w1 :
  m w = (Ok a, w1) → statusM c s m w = (Ok a, w1).
Proof. unfold statusM. by intros ->. Qed.

Lemma attempt_run_Ok {A} (m : M S A) w a w1 :
  m w = (Ok a, w1) → attempt m w = (Ok (Ok a), w1).
Proof. unfold attempt. by intros ->. Qed.

Lemma attempt_run_Err {A} (m : M S A) w e w1 :
  m w = (Err e, w1) → attempt m w = (Ok (Err e), w1).
Proof. unfold attempt. by intros ->. Qed.

Lemma logged_run_Ok (m : M S unit) w w1 :
  m w = (Ok tt, w1) → logged m w = (Ok tt, w1).
Proof. unfold logged. by intros ->. Qed.

Lemma for_each_app {A} (l k : list A) (f : A → M S unit) w w1 :
  for_each l f w = (Ok tt, w1) → for_each (l ++ k) f w = for_each k f w1.
Proof.
  revert w. induction l as [|x l IH]; intros w; simpl.
  { intros Heq. by injection Heq as ->. }
  intros ([] & w2 & Hx & Hl)%bind_Ok. by rewrite (bind_run_Ok _ _ _ _ _ Hx), (IH _ Hl).
Qed.

(** A loop whose body always succeeds and preserves [I] succeeds. *)
Lemma for_each_inv {A} (I : list A → world S → Prop) (f : A → M S unit) l w :
  I l w →
  (∀ x k w, I (x :: k) w → ∃ w', f x w = (Ok tt, w') ∧ I k w') →
  ∃ w', for_each l f w = (Ok tt, w') ∧ I [] w'.
Proof.
  intros HI Hf. revert w HI. induction l as [|x l IH]; intros w HI; simpl.
  { by exists w. }
  destruct (Hf x l w HI) as (w1 & Hx & HI1).
  destruct (IH w1 HI1) as (w2 & Hl & HI2).
  exists w2. split; [|done]. by rewrite (bind_run_Ok _ _ _ _ _ Hx).
Qed.
End monad_lemmas.

(** ** Automation *)

Create HintDb nimbus discriminated.
Create Rewrite HintDb nimbus_rw.
#[export] Hint Resolve wrap32_id wrap64_id wrap32_range wrap64_range : nimbus.
#[export] Hint Resolve HasPrefix_app : nimbus.
#[export] Hint Resolve shuffle_perm : nimbus.

(** Step a computation in the monad with an equation for its first call. *)
Ltac mstep H :=
  first [ rewrite (bind_run_Ok _ _ _ _ _ H)
        | rewrite (bind_run_Err _ _ _ _ _ H)
        | rewrite (bind_run_Panic _ _ _ _ H) ].

(** Split an [Ok] run of a monadic sequence into the runs of its parts. *)
Ltac minv H :=
  let a := fresh "a" in let w := fresh "w" in
  let H1 := fresh H in let H2 := fresh H in
  apply bind_Ok in H as (a & w & H1 & H2).

(** Case analysis on the innermost [match] of a hypothesis. *)
Ltac case_hyp H :=
  match type of H with
  | context [match ?x with _ => _ end] =>
      lazymatch x with
      | context [match _ with _ => _ end] => fail
      | _ => destruct x eqn:?
      end
  end.
