(* ===== verification/Api.v ===== *)
(** * Api: the object model (api/v1)

    The protobuf messages that the control plane stores and exchanges, one
    [Record] per Go struct of api/v1/*.pb.go with the struct's own fields in
    order.  A pointer to a message is an [option] ([None] is nil), a repeated
    field is a list, a map is a [gmap] (nil and empty maps are the same value,
    as they are on the wire), integers are [Z] within the width of the field.
    The bookkeeping fields of the protobuf runtime (state, unknownFields,
    sizeCache) are left out.  A getter is nil-safe as the generated Go getter
    is: on a nil receiver it returns the zero value of the field.

    The last part defines the accessors on non-nil objects and the field
    updates that the components use. *)

From stdpp Require Import gmap strings list.
From Stdlib Require Import ZArith.
From S2P Require Import Prelude.

(** [RestartPolicy] of pod.pb.go; proto3 enums are open, so any other number is kept. *)
Inductive RestartPolicy :=
  | RESTART_POLICY_UNSPECIFIED
  | RESTART_POLICY_ALWAYS
  | RESTART_POLICY_ON_FAILURE
  | RESTART_POLICY_NEVER
  | RestartPolicy_Other (n : Z).

#[export] Instance RestartPolicy_eq_decision : EqDecision RestartPolicy.
Proof. solve_decision. Defined.

(** [PodPhase] of pod.pb.go; proto3 enums are open, so any other number is kept. *)
Inductive PodPhase :=
  | POD_PHASE_UNSPECIFIED
  | POD_PHASE_PENDING
  | POD_PHASE_RUNNING
  | POD_PHASE_SUCCEEDED
  | POD_PHASE_FAILED
  | POD_PHASE_UNKNOWN
  | PodPhase_Other (n : Z).

#[export] Instance PodPhase_eq_decision : EqDecision PodPhase.
Proof. solve_decision. Defined.

(** [VolumePhase] of volume.pb.go; proto3 enums are open, so any other number is kept. *)
Inductive VolumePhase :=
  | VOLUME_PHASE_UNSPECIFIED
  | VOLUME_PHASE_PENDING
  | VOLUME_PHASE_BOUND
  | VOLUME_PHASE_FAILED
  | VolumePhase_Other (n : Z).

#[export] Instance VolumePhase_eq_decision : EqDecision VolumePhase.
Proof. solve_decision. Defined.

(** ** [ObjectMeta] (common.pb.go) *)

Record ObjectMeta := MkObjectMeta {
  ObjectMeta_Name : string;
  ObjectMeta_Namespace : string;
  ObjectMeta_Uid : string;
  ObjectMeta_ResourceVersion : string;
  ObjectMeta_Labels : gmap string string;
  ObjectMeta_CreatedAtUnix : Z;
}.

#[export] Instance ObjectMeta_eq_decision : EqDecision ObjectMeta.
Proof. solve_decision. Defined.

Definition ObjectMeta_zero : ObjectMeta :=
  MkObjectMeta "" "" "" "" ∅ 0%Z.

Definition ObjectMeta_GetName (x : option ObjectMeta) : string :=
  match x with Some x => ObjectMeta_Name x | None => "" end.
Definition ObjectMeta_GetNamespace (x : option ObjectMeta) : string :=
  match x with Some x => ObjectMeta_Namespace x | None => "" end.
Definition ObjectMeta_GetUid (x : option ObjectMeta) : string :=
  match x with Some x => ObjectMeta_Uid x | None => "" end.
Definition ObjectMeta_GetResourceVersion (x : option ObjectMeta) : string :=
  match x with Some x => ObjectMeta_ResourceVersion x | None => "" end.
Definition ObjectMeta_GetLabels (x : option ObjectMeta) : gmap string string :=
  match x with Some x => ObjectMeta_Labels x | None => ∅ end.
Definition ObjectMeta_GetCreatedAtUnix (x : option ObjectMeta) : Z :=
  match x with Some x => ObjectMeta_CreatedAtUnix x | None => 0%Z end.

(** ** [ResourceList] (common.pb.go) *)

Record ResourceList := MkResourceList {
  ResourceList_CpuMillis : Z;
  ResourceList_MemoryBytes : Z;
  ResourceList_Accelerators : gmap string Z;
}.

#[export] Instance ResourceList_eq_decision : EqDecision ResourceList.
Proof. solve_decision. Defined.

Definition ResourceList_zero : ResourceList :=
  MkResourceList 0%Z 0%Z ∅.

Definition ResourceList_GetCpuMillis (x : option ResourceList) : Z :=
  match x with Some x => ResourceList_CpuMillis x | None => 0%Z end.
Definition ResourceList_GetMemoryBytes (x : option ResourceList) : Z :=
  match x with Some x => ResourceList_MemoryBytes x | None => 0%Z end.
Definition ResourceList_GetAccelerators (x : option ResourceList) : gmap string Z :=
  match x with Some x => ResourceList_Accelerators x | None => ∅ end.

(** ** [ResourceRequirements] (common.pb.go) *)

Record ResourceRequirements := MkResourceRequirements {
  ResourceRequirements_Requests : option ResourceList;
  ResourceRequirements_Limits : option ResourceList;
}.

#[export] Instance ResourceRequirements_eq_decision : EqDecision ResourceRequirements.
Proof. solve_decision. Defined.

Definition ResourceRequirements_zero : ResourceRequirements :=
  MkResourceRequirements None None.

Definition ResourceRequirements_GetRequests (x : option ResourceRequirements) : option ResourceList :=
  match x with Some x => ResourceRequirements_Requests x | None => None end.
Definition ResourceRequirements_GetLimits (x : option ResourceRequirements) : option ResourceList :=
  match x with Some x => ResourceRequirements_Limits x | None => None end.

(** ** [Condition] (common.pb.go) *)

Record Condition := MkCondition {
  Condition_Type : string;
  Condition_Status : string;
  Condition_Reason : string;
  Condition_Message : string;
  Condition_LastTransitionUnix : Z;
}.

#[export] Instance Condition_eq_decision : EqDecision Condition.
Proof. solve_decision. Defined.

Definition Condition_zero : Condition :=
  MkCondition "" "" "" "" 0%Z.

Definition Condition_GetType (x : option Condition) : string :=
  match x with Some x => Condition_Type x | None => "" end.
Definition Condition_GetStatus (x : option Condition) : string :=
  match x with Some x => Condition_Status x | None => "" end.
Definition Condition_GetReason (x : option Condition) : string :=
  match x with Some x => Condition_Reason x | None => "" end.
Definition Condition_GetMessage (x : option Condition) : string :=
  match x with Some x => Condition_Message x | None => "" end.
Definition Condition_GetLastTransitionUnix (x : option Condition) : Z :=
  match x with Some x => Condition_LastTransitionUnix x | None => 0%Z end.

(** ** [VolumeSpec] (volume.pb.go) *)

Record VolumeSpec := MkVolumeSpec {
  VolumeSpec_RequestedBytes : Z;
}.

#[export] Instance VolumeSpec_eq_decision : EqDecision VolumeSpec.
Proof. solve_decision. Defined.

Definition VolumeSpec_zero : VolumeSpec :=
  MkVolumeSpec 0%Z.

Definition VolumeSpec_GetRequestedBytes (x : option VolumeSpec) : Z :=
  match x with Some x => VolumeSpec_RequestedBytes x | None => 0%Z end.

(** ** [VolumeStatus] (volume.pb.go) *)

Record VolumeStatus := MkVolumeStatus {
  VolumeStatus_Phase : VolumePhase;
  VolumeStatus_CapacityBytes : Z;
  VolumeStatus_Message : string;
  VolumeStatus_NodeName : string;
}.

#[export] Instance VolumeStatus_eq_decision : EqDecision VolumeStatus.
Proof. solve_decision. Defined.

Definition VolumeStatus_zero : VolumeStatus :=
  MkVolumeStatus VOLUME_PHASE_UNSPECIFIED 0%Z "" "".

Definition VolumeStatus_GetPhase (x : option VolumeStatus) : VolumePhase :=
  match x with Some x => VolumeStatus_Phase x | None => VOLUME_PHASE_UNSPECIFIED end.
Definition VolumeStatus_GetCapacityBytes (x : option VolumeStatus) : Z :=
  match x with Some x => VolumeStatus_CapacityBytes x | None => 0%Z end.
Definition VolumeStatus_GetMessage (x : option VolumeStatus) : string :=
  match x with Some x => VolumeStatus_Message x | None => "" end.
Definition VolumeStatus_GetNodeName (x : option VolumeStatus) : string :=
  match x with Some x => VolumeStatus_NodeName x | None => "" end.

(** ** [Volume] (volume.pb.go) *)

Record Volume := MkVolume {
  Volume_Metadata : option ObjectMeta;
  Volume_Spec : option VolumeSpec;
  Volume_Status : option VolumeStatus;
}.

#[export] Instance Volume_eq_decision : EqDecision Volume.
Proof. solve_decision. Defined.

Definition Volume_zero : Volume :=
  MkVolume None None None.

Definition Volume_GetMetadata (x : option Volume) : option ObjectMeta :=
  match x with Some x => Volume_Metadata x | None => None end.
Definition Volume_GetSpec (x : option Volume) : option VolumeSpec :=
  match x with Some x => Volume_Spec x | None => None end.
Definition Volume_GetStatus (x : option Volume) : option VolumeStatus :=
  match x with Some x => Volume_Status x | None => None end.

(** ** [VolumeMount] (volume.pb.go) *)

Record VolumeMount := MkVolumeMount {
  VolumeMount_VolumeName : string;
  VolumeMount_MountPath : string;
  VolumeMount_ReadOnly : bool;
}.

#[export] Instance VolumeMount_eq_decision : EqDecision VolumeMount.
Proof. solve_decision. Defined.

Definition VolumeMount_zero : VolumeMount :=
  MkVolumeMount "" "" false.

Definition VolumeMount_GetVolumeName (x : option VolumeMount) : string :=
  match x with Some x => VolumeMount_VolumeName x | None => "" end.
Definition VolumeMount_GetMountPath (x : option VolumeMount) : string :=
  match x with Some x => VolumeMount_MountPath x | None => "" end.
Definition VolumeMount_GetReadOnly (x : option VolumeMount) : bool :=
  match x with Some x => VolumeMount_ReadOnly x | None => false end.

(** ** [SecurityContext] (pod.pb.go) *)

Record SecurityContext := MkSecurityContext {
  SecurityContext_SeccompProfile : string;
  SecurityContext_AddCapabilities : list string;
  SecurityContext_Privileged : bool;
  SecurityContext_AllowPrivilegeEscalation : bool;
  SecurityContext_RunAsNonRoot : bool;
}.

#[export] Instance SecurityContext_eq_decision : EqDecision SecurityContext.
Proof. solve_decision. Defined.

Definition SecurityContext_zero : SecurityContext :=
  MkSecurityContext "" [] false false false.

Definition SecurityContext_GetSeccompProfile (x : option SecurityContext) : string :=
  match x with Some x => SecurityContext_SeccompProfile x | None => "" end.
Definition SecurityContext_GetAddCapabilities (x : option SecurityContext) : list string :=
  match x with Some x => SecurityContext_AddCapabilities x | None => [] end.
Definition SecurityContext_GetPrivileged (x : option SecurityContext) : bool :=
  match x with Some x => SecurityContext_Privileged x | None => false end.
Definition SecurityContext_GetAllowPrivilegeEscalation (x : option SecurityContext) : bool :=
  match x with Some x => SecurityContext_AllowPrivilegeEscalation x | None => false end.
Definition SecurityContext_GetRunAsNonRoot (x : option SecurityContext) : bool :=
  match x with Some x => SecurityContext_RunAsNonRoot x | None => false end.

(** ** [BuildSource] (pod.pb.go) *)

Record BuildSource := MkBuildSource {
  BuildSource_RepoUrl : string;
  BuildSource_Branch : string;
  BuildSource_DockerfilePath : string;
  BuildSource_ContextPath : string;
}.

#[export] Instance BuildSource_eq_decision : EqDecision BuildSource.
Proof. solve_decision. Defined.

Definition BuildSource_zero : BuildSource :=
  MkBuildSource "" "" "" "".

Definition BuildSource_GetRepoUrl (x : option BuildSource) : string :=
  match x with Some x => BuildSource_RepoUrl x | None => "" end.
Definition BuildSource_GetBranch (x : option BuildSource) : string :=
  match x with Some x => BuildSource_Branch x | None => "" end.
Definition BuildSource_GetDockerfilePath (x : option BuildSource) : string :=
  match x with Some x => BuildSource_DockerfilePath x | None => "" end.
Definition BuildSource_GetContextPath (x : option BuildSource) : string :=
  match x with Some x => BuildSource_ContextPath x | None => "" end.

(** ** [Container] (pod.pb.go) *)

Record Container := MkContainer {
  Container_Name : string;
  Container_Image : string;
  Container_Resources : option ResourceRequirements;
  Container_SecurityContext : option SecurityContext;
  Container_Command : list string;
  Container_WasmModulePath : string;
  Container_ContainerPorts : list Z;
  Container_Env : gmap string string;
  Container_BuildSource : option BuildSource;
}.

#[export] Instance Container_eq_decision : EqDecision Container.
Proof. solve_decision. Defined.

Definition Container_zero : Container :=
  MkContainer "" "" None None [] "" [] ∅ None.

Definition Container_GetName (x : option Container) : string :=
  match x with Some x => Container_Name x | None => "" end.
Definition Container_GetImage (x : option Container) : string :=
  match x with Some x => Container_Image x | None => "" end.
Definition Container_GetResources (x : option Container) : option ResourceRequirements :=
  match x with Some x => Container_Resources x | None => None end.
Definition Container_GetSecurityContext (x : option Container) : option SecurityContext :=
  match x with Some x => Container_SecurityContext x | None => None end.
Definition Container_GetCommand (x : option Container) : list string :=
  match x with Some x => Container_Command x | None => [] end.
Definition Container_GetWasmModulePath (x : option Container) : string :=
  match x with Some x => Container_WasmModulePath x | None => "" end.
Definition Container_GetContainerPorts (x : option Container) : list Z :=
  match x with Some x => Container_ContainerPorts x | None => [] end.
Definition Container_GetEnv (x : option Container) : gmap string string :=
  match x with Some x => Container_Env x | None => ∅ end.
Definition Container_GetBuildSource (x : option Container) : option BuildSource :=
  match x with Some x => Container_BuildSource x | None => None end.

(** ** [PodSpec] (pod.pb.go) *)

Record PodSpec := MkPodSpec {
  PodSpec_Containers : list Container;
  PodSpec_NodeName : string;
  PodSpec_Volumes : list VolumeMount;
  PodSpec_RestartPolicy : RestartPolicy;
}.

#[export] Instance PodSpec_eq_decision : EqDecision PodSpec.
Proof. solve_decision. Defined.

Definition PodSpec_zero : PodSpec :=
  MkPodSpec [] "" [] RESTART_POLICY_UNSPECIFIED.

Definition PodSpec_GetContainers (x : option PodSpec) : list Container :=
  match x with Some x => PodSpec_Containers x | None => [] end.
Definition PodSpec_GetNodeName (x : option PodSpec) : string :=
  match x with Some x => PodSpec_NodeName x | None => "" end.
Definition PodSpec_GetVolumes (x : option PodSpec) : list VolumeMount :=
  match x with Some x => PodSpec_Volumes x | None => [] end.
Definition PodSpec_GetRestartPolicy (x : option PodSpec) : RestartPolicy :=
  match x with Some x => PodSpec_RestartPolicy x | None => RESTART_POLICY_UNSPECIFIED end.

(** ** [PodStatus] (pod.pb.go) *)

Record PodStatus := MkPodStatus {
  PodStatus_Phase : PodPhase;
  PodStatus_Message : string;
  PodStatus_Conditions : list Condition;
  PodStatus_RestartCount : Z;
  PodStatus_MemoryUsageBytes : Z;
}.

#[export] Instance PodStatus_eq_decision : EqDecision PodStatus.
Proof. solve_decision. Defined.

Definition PodStatus_zero : PodStatus :=
  MkPodStatus POD_PHASE_UNSPECIFIED "" [] 0%Z 0%Z.

Definition PodStatus_GetPhase (x : option PodStatus) : PodPhase :=
  match x with Some x => PodStatus_Phase x | None => POD_PHASE_UNSPECIFIED end.
Definition PodStatus_GetMessage (x : option PodStatus) : string :=
  match x with Some x => PodStatus_Message x | None => "" end.
Definition PodStatus_GetConditions (x : option PodStatus) : list Condition :=
  match x with Some x => PodStatus_Conditions x | None => [] end.
Definition PodStatus_GetRestartCount (x : option PodStatus) : Z :=
  match x with Some x => PodStatus_RestartCount x | None => 0%Z end.
Definition PodStatus_GetMemoryUsageBytes (x : option PodStatus) : Z :=
  match x with Some x => PodStatus_MemoryUsageBytes x | None => 0%Z end.

(** ** [Pod] (pod.pb.go) *)

Record Pod := MkPod {
  Pod_Metadata : option ObjectMeta;
  Pod_Spec : option PodSpec;
  Pod_Status : option PodStatus;
}.

#[export] Instance Pod_eq_decision : EqDecision Pod.
Proof. solve_decision. Defined.

Definition Pod_zero : Pod :=
  MkPod None None None.

Definition Pod_GetMetadata (x : option Pod) : option ObjectMeta :=
  match x with Some x => Pod_Metadata x | None => None end.
Definition Pod_GetSpec (x : option Pod) : option PodSpec :=
  match x with Some x => Pod_Spec x | None => None end.
Definition Pod_GetStatus (x : option Pod) : option PodStatus :=
  match x with Some x => Pod_Status x | None => None end.

(** ** [NodeSpec] (node.pb.go) *)

Record NodeSpec := MkNodeSpec {
  NodeSpec_Unschedulable : bool;
}.

#[export] Instance NodeSpec_eq_decision : EqDecision NodeSpec.
Proof. solve_decision. Defined.

Definition NodeSpec_zero : NodeSpec :=
  MkNodeSpec false.

Definition NodeSpec_GetUnschedulable (x : option NodeSpec) : bool :=
  match x with Some x => NodeSpec_Unschedulable x | None => false end.

(** ** [NodeStatus] (node.pb.go) *)

Record NodeStatus := MkNodeStatus {
  NodeStatus_Capacity : option ResourceList;
  NodeStatus_Allocatable : option ResourceList;
  NodeStatus_Ready : bool;
  NodeStatus_Conditions : list Condition;
  NodeStatus_LastHeartbeatUnix : Z;
  NodeStatus_InternalIp : string;
}.

#[export] Instance NodeStatus_eq_decision : EqDecision NodeStatus.
Proof. solve_decision. Defined.

Definition NodeStatus_zero : NodeStatus :=
  MkNodeStatus None None false [] 0%Z "".

Definition NodeStatus_GetCapacity (x : option NodeStatus) : option ResourceList :=
  match x with Some x => NodeStatus_Capacity x | None => None end.
Definition NodeStatus_GetAllocatable (x : option NodeStatus) : option ResourceList :=
  match x with Some x => NodeStatus_Allocatable x | None => None end.
Definition NodeStatus_GetReady (x : option NodeStatus) : bool :=
  match x with Some x => NodeStatus_Ready x | None => false end.
Definition NodeStatus_GetConditions (x : option NodeStatus) : list Condition :=
  match x with Some x => NodeStatus_Conditions x | None => [] end.
Definition NodeStatus_GetLastHeartbeatUnix (x : option NodeStatus) : Z :=
  match x with Some x => NodeStatus_LastHeartbeatUnix x | None => 0%Z end.
Definition NodeStatus_GetInternalIp (x : option NodeStatus) : string :=
  match x with Some x => NodeStatus_InternalIp x | None => "" end.

(** ** [Node] (node.pb.go) *)

Record Node := MkNode {
  Node_Metadata : option ObjectMeta;
  Node_Spec : option NodeSpec;
  Node_Status : option NodeStatus;
}.

#[export] Instance Node_eq_decision : EqDecision Node.
Proof. solve_decision. Defined.

Definition Node_zero : Node :=
  MkNode None None None.

Definition Node_GetMetadata (x : option Node) : option ObjectMeta :=
  match x with Some x => Node_Metadata x | None => None end.
Definition Node_GetSpec (x : option Node) : option NodeSpec :=
  match x with Some x => Node_Spec x | None => None end.
Definition Node_GetStatus (x : option Node) : option NodeStatus :=
  match x with Some x => Node_Status x | None => None end.

(** ** [DeploymentSpec] (deployment.pb.go) *)

Record DeploymentSpec := MkDeploymentSpec {
  DeploymentSpec_Replicas : Z;
  DeploymentSpec_Selector : gmap string string;
  DeploymentSpec_Template : option PodSpec;
  DeploymentSpec_MinReplicas : Z;
  DeploymentSpec_MaxReplicas : Z;
}.

#[export] Instance DeploymentSpec_eq_decision : EqDecision DeploymentSpec.
Proof. solve_decision. Defined.

Definition DeploymentSpec_zero : DeploymentSpec :=
  MkDeploymentSpec 0%Z ∅ None 0%Z 0%Z.

Definition DeploymentSpec_GetReplicas (x : option DeploymentSpec) : Z :=
  match x with Some x => DeploymentSpec_Replicas x | None => 0%Z end.
Definition DeploymentSpec_GetSelector (x : option DeploymentSpec) : gmap string string :=
  match x with Some x => DeploymentSpec_Selector x | None => ∅ end.
Definition DeploymentSpec_GetTemplate (x : option DeploymentSpec) : option PodSpec :=
  match x with Some x => DeploymentSpec_Template x | None => None end.
Definition DeploymentSpec_GetMinReplicas (x : option DeploymentSpec) : Z :=
  match x with Some x => DeploymentSpec_MinReplicas x | None => 0%Z end.
Definition DeploymentSpec_GetMaxReplicas (x : option DeploymentSpec) : Z :=
  match x with Some x => DeploymentSpec_MaxReplicas x | None => 0%Z end.

(** ** [DeploymentStatus] (deployment.pb.go) *)

Record DeploymentStatus := MkDeploymentStatus {
  DeploymentStatus_Replicas : Z;
  DeploymentStatus_ReadyReplicas : Z;
}.

#[export] Instance DeploymentStatus_eq_decision : EqDecision DeploymentStatus.
Proof. solve_decision. Defined.

Definition DeploymentStatus_zero : DeploymentStatus :=
  MkDeploymentStatus 0%Z 0%Z.

Definition DeploymentStatus_GetReplicas (x : option DeploymentStatus) : Z :=
  match x with Some x => DeploymentStatus_Replicas x | None => 0%Z end.
Definition DeploymentStatus_GetReadyReplicas (x : option DeploymentStatus) : Z :=
  match x with Some x => DeploymentStatus_ReadyReplicas x | None => 0%Z end.

(** ** [Deployment] (deployment.pb.go) *)

Record Deployment := MkDeployment {
  Deployment_Metadata : option ObjectMeta;
  Deployment_Spec : option DeploymentSpec;
  Deployment_Status : option DeploymentStatus;
}.

#[export] Instance Deployment_eq_decision : EqDecision Deployment.
Proof. solve_decision. Defined.

Definition Deployment_zero : Deployment :=
  MkDeployment None None None.

Definition Deployment_GetMetadata (x : option Deployment) : option ObjectMeta :=
  match x with Some x => Deployment_Metadata x | None => None end.
Definition Deployment_GetSpec (x : option Deployment) : option DeploymentSpec :=
  match x with Some x => Deployment_Spec x | None => None end.
Definition Deployment_GetStatus (x : option Deployment) : option DeploymentStatus :=
  match x with Some x => Deployment_Status x | None => None end.

(** ** [ServiceSpec] (service.pb.go) *)

Record ServiceSpec := MkServiceSpec {
  ServiceSpec_Selector : gmap string string;
  ServiceSpec_Port : Z;
  ServiceSpec_TargetPort : Z;
  ServiceSpec_NodePort : Z;
}.

#[export] Instance ServiceSpec_eq_decision : EqDecision ServiceSpec.
Proof. solve_decision. Defined.

Definition ServiceSpec_zero : ServiceSpec :=
  MkServiceSpec ∅ 0%Z 0%Z 0%Z.

Definition ServiceSpec_GetSelector (x : option ServiceSpec) : gmap string string :=
  match x with Some x => ServiceSpec_Selector x | None => ∅ end.
Definition ServiceSpec_GetPort (x : option ServiceSpec) : Z :=
  match x with Some x => ServiceSpec_Port x | None => 0%Z end.
Definition ServiceSpec_GetTargetPort (x : option ServiceSpec) : Z :=
  match x with Some x => ServiceSpec_TargetPort x | None => 0%Z end.
Definition ServiceSpec_GetNodePort (x : option ServiceSpec) : Z :=
  match x with Some x => ServiceSpec_NodePort x | None => 0%Z end.

(** ** [ServiceEndpoint] (service.pb.go) *)

Record ServiceEndpoint := MkServiceEndpoint {
  ServiceEndpoint_PodName : string;
  ServiceEndpoint_NodeIp : string;
  ServiceEndpoint_NodePort : Z;
}.

#[export] Instance ServiceEndpoint_eq_decision : EqDecision ServiceEndpoint.
Proof. solve_decision. Defined.

Definition ServiceEndpoint_zero : ServiceEndpoint :=
  MkServiceEndpoint "" "" 0%Z.

Definition ServiceEndpoint_GetPodName (x : option ServiceEndpoint) : string :=
  match x with Some x => ServiceEndpoint_PodName x | None => "" end.
Definition ServiceEndpoint_GetNodeIp (x : option ServiceEndpoint) : string :=
  match x with Some x => ServiceEndpoint_NodeIp x | None => "" end.
Definition ServiceEndpoint_GetNodePort (x : option ServiceEndpoint) : Z :=
  match x with Some x => ServiceEndpoint_NodePort x | None => 0%Z end.

(** ** [ServiceStatus] (service.pb.go) *)

Record ServiceStatus := MkServiceStatus {
  ServiceStatus_Endpoints : list ServiceEndpoint;
}.

#[export] Instance ServiceStatus_eq_decision : EqDecision ServiceStatus.
Proof. solve_decision. Defined.

Definition ServiceStatus_zero : ServiceStatus :=
  MkServiceStatus [].

Definition ServiceStatus_GetEndpoints (x : option ServiceStatus) : list ServiceEndpoint :=
  match x with Some x => ServiceStatus_Endpoints x | None => [] end.

(** ** [Service] (service.pb.go) *)

Record Service := MkService {
  Service_Metadata : option ObjectMeta;
  Service_Spec : option ServiceSpec;
  Service_Status : option ServiceStatus;
}.

#[export] Instance Service_eq_decision : EqDecision Service.
Proof. solve_decision. Defined.

Definition Service_zero : Service :=
  MkService None None None.

Definition Service_GetMetadata (x : option Service) : option ObjectMeta :=
  match x with Some x => Service_Metadata x | None => None end.
Definition Service_GetSpec (x : option Service) : option ServiceSpec :=
  match x with Some x => Service_Spec x | None => None end.
Definition Service_GetStatus (x : option Service) : option ServiceStatus :=
  match x with Some x => Service_Status x | None => None end.

(** ** [NetworkPolicyPort] (networkpolicy.pb.go) *)

Record NetworkPolicyPort := MkNetworkPolicyPort {
  NetworkPolicyPort_Protocol : string;
  NetworkPolicyPort_Port : Z;
}.

#[export] Instance NetworkPolicyPort_eq_decision : EqDecision NetworkPolicyPort.
Proof. solve_decision. Defined.

Definition NetworkPolicyPort_zero : NetworkPolicyPort :=
  MkNetworkPolicyPort "" 0%Z.

Definition NetworkPolicyPort_GetProtocol (x : option NetworkPolicyPort) : string :=
  match x with Some x => NetworkPolicyPort_Protocol x | None => "" end.
Definition NetworkPolicyPort_GetPort (x : option NetworkPolicyPort) : Z :=
  match x with Some x => NetworkPolicyPort_Port x | None => 0%Z end.

(** ** [NetworkPolicyPeer] (networkpolicy.pb.go) *)

Record NetworkPolicyPeer := MkNetworkPolicyPeer {
  NetworkPolicyPeer_PodSelector : gmap string string;
}.

#[export] Instance NetworkPolicyPeer_eq_decision : EqDecision NetworkPolicyPeer.
Proof. solve_decision. Defined.

Definition NetworkPolicyPeer_zero : NetworkPolicyPeer :=
  MkNetworkPolicyPeer ∅.

Definition NetworkPolicyPeer_GetPodSelector (x : option NetworkPolicyPeer) : gmap string string :=
  match x with Some x => NetworkPolicyPeer_PodSelector x | None => ∅ end.

(** ** [NetworkPolicyIngressRule] (networkpolicy.pb.go) *)

Record NetworkPolicyIngressRule := MkNetworkPolicyIngressRule {
  NetworkPolicyIngressRule_From : list NetworkPolicyPeer;
  NetworkPolicyIngressRule_Ports : list NetworkPolicyPort;
}.

#[export] Instance NetworkPolicyIngressRule_eq_decision : EqDecision NetworkPolicyIngressRule.
Proof. solve_decision. Defined.

Definition NetworkPolicyIngressRule_zero : NetworkPolicyIngressRule :=
  MkNetworkPolicyIngressRule [] [].

Definition NetworkPolicyIngressRule_GetFrom (x : option NetworkPolicyIngressRule) : list NetworkPolicyPeer :=
  match x with Some x => NetworkPolicyIngressRule_From x | None => [] end.
Definition NetworkPolicyIngressRule_GetPorts (x : option NetworkPolicyIngressRule) : list NetworkPolicyPort :=
  match x with Some x => NetworkPolicyIngressRule_Ports x | None => [] end.

(** ** [NetworkPolicySpec] (networkpolicy.pb.go) *)

Record NetworkPolicySpec := MkNetworkPolicySpec {
  NetworkPolicySpec_PodSelector : gmap string string;
  NetworkPolicySpec_Ingress : list NetworkPolicyIngressRule;
}.

#[export] Instance NetworkPolicySpec_eq_decision : EqDecision NetworkPolicySpec.
Proof. solve_decision. Defined.

Definition NetworkPolicySpec_zero : NetworkPolicySpec :=
  MkNetworkPolicySpec ∅ [].

Definition NetworkPolicySpec_GetPodSelector (x : option NetworkPolicySpec) : gmap string string :=
  match x with Some x => NetworkPolicySpec_PodSelector x | None => ∅ end.
Definition NetworkPolicySpec_GetIngress (x : option NetworkPolicySpec) : list NetworkPolicyIngressRule :=
  match x with Some x => NetworkPolicySpec_Ingress x | None => [] end.

(** ** [NetworkPolicy] (networkpolicy.pb.go) *)

Record NetworkPolicy := MkNetworkPolicy {
  NetworkPolicy_Metadata : option ObjectMeta;
  NetworkPolicy_Spec : option NetworkPolicySpec;
}.

#[export] Instance NetworkPolicy_eq_decision : EqDecision NetworkPolicy.
Proof. solve_decision. Defined.

Definition NetworkPolicy_zero : NetworkPolicy :=
  MkNetworkPolicy None None.

Definition NetworkPolicy_GetMetadata (x : option NetworkPolicy) : option ObjectMeta :=
  match x with Some x => NetworkPolicy_Metadata x | None => None end.
Definition NetworkPolicy_GetSpec (x : option NetworkPolicy) : option NetworkPolicySpec :=
  match x with Some x => NetworkPolicy_Spec x | None => None end.

(** ** [PolicySpec] (policy.pb.go) *)

Record PolicySpec := MkPolicySpec {
  PolicySpec_Expression : string;
  PolicySpec_Message : string;
}.

#[export] Instance PolicySpec_eq_decision : EqDecision PolicySpec.
Proof. solve_decision. Defined.

Definition PolicySpec_zero : PolicySpec :=
  MkPolicySpec "" "".

Definition PolicySpec_GetExpression (x : option PolicySpec) : string :=
  match x with Some x => PolicySpec_Expression x | None => "" end.
Definition PolicySpec_GetMessage (x : option PolicySpec) : string :=
  match x with Some x => PolicySpec_Message x | None => "" end.

(** ** [Policy] (policy.pb.go) *)

Record Policy := MkPolicy {
  Policy_Metadata : option ObjectMeta;
  Policy_Spec : option PolicySpec;
}.

#[export] Instance Policy_eq_decision : EqDecision Policy.
Proof. solve_decision. Defined.

Definition Policy_zero : Policy :=
  MkPolicy None None.

Definition Policy_GetMetadata (x : option Policy) : option ObjectMeta :=
  match x with Some x => Policy_Metadata x | None => None end.
Definition Policy_GetSpec (x : option Policy) : option PolicySpec :=
  match x with Some x => Policy_Spec x | None => None end.

(** ** [Namespace] (namespace.pb.go) *)

Record Namespace := MkNamespace {
  Namespace_Metadata : option ObjectMeta;
}.

#[export] Instance Namespace_eq_decision : EqDecision Namespace.
Proof. solve_decision. Defined.

Definition Namespace_zero : Namespace :=
  MkNamespace None.

Definition Namespace_GetMetadata (x : option Namespace) : option ObjectMeta :=
  match x with Some x => Namespace_Metadata x | None => None end.

(** ** [Secret] (secret.pb.go) *)

Record Secret := MkSecret {
  Secret_Metadata : option ObjectMeta;
  Secret_Data : gmap string bytes;
}.

#[export] Instance Secret_eq_decision : EqDecision Secret.
Proof. solve_decision. Defined.

Definition Secret_zero : Secret :=
  MkSecret None ∅.

Definition Secret_GetMetadata (x : option Secret) : option ObjectMeta :=
  match x with Some x => Secret_Metadata x | None => None end.
Definition Secret_GetData (x : option Secret) : gmap string bytes :=
  match x with Some x => Secret_Data x | None => ∅ end.

(** ** [ImageRecord] (imageregistry.pb.go) *)

Record ImageRecord := MkImageRecord {
  ImageRecord_Reference : string;
  ImageRecord_Signature : bytes;
  ImageRecord_PushedAtUnix : Z;
}.

#[export] Instance ImageRecord_eq_decision : EqDecision ImageRecord.
Proof. solve_decision. Defined.

Definition ImageRecord_zero : ImageRecord :=
  MkImageRecord "" [] 0%Z.

Definition ImageRecord_GetReference (x : option ImageRecord) : string :=
  match x with Some x => ImageRecord_Reference x | None => "" end.
Definition ImageRecord_GetSignature (x : option ImageRecord) : bytes :=
  match x with Some x => ImageRecord_Signature x | None => [] end.
Definition ImageRecord_GetPushedAtUnix (x : option ImageRecord) : Z :=
  match x with Some x => ImageRecord_PushedAtUnix x | None => 0%Z end.

(** ** [BackupEntry] (backup.pb.go) *)

Record BackupEntry := MkBackupEntry {
  BackupEntry_Key : string;
  BackupEntry_Value : bytes;
}.

#[export] Instance BackupEntry_eq_decision : EqDecision BackupEntry.
Proof. solve_decision. Defined.

Definition BackupEntry_zero : BackupEntry :=
  MkBackupEntry "" [].

Definition BackupEntry_GetKey (x : option BackupEntry) : string :=
  match x with Some x => BackupEntry_Key x | None => "" end.
Definition BackupEntry_GetValue (x : option BackupEntry) : bytes :=
  match x with Some x => BackupEntry_Value x | None => [] end.

(** ** [RemoteCluster] (federation.pb.go) *)

Record RemoteCluster := MkRemoteCluster {
  RemoteCluster_Name : string;
  RemoteCluster_ApiAddr : string;
}.

#[export] Instance RemoteCluster_eq_decision : EqDecision RemoteCluster.
Proof. solve_decision. Defined.

Definition RemoteCluster_zero : RemoteCluster :=
  MkRemoteCluster "" "".

Definition RemoteCluster_GetName (x : option RemoteCluster) : string :=
  match x with Some x => RemoteCluster_Name x | None => "" end.
Definition RemoteCluster_GetApiAddr (x : option RemoteCluster) : string :=
  match x with Some x => RemoteCluster_ApiAddr x | None => "" end.
(** ** Accessors on non-nil objects

    [p.GetMetadata().GetName()] and the like, for a pointer [p] known to be
    non-nil. *)

Definition podName (p : Pod) : string := ObjectMeta_GetName (Pod_Metadata p).
Definition podNamespace (p : Pod) : string := ObjectMeta_GetNamespace (Pod_Metadata p).
Definition podLabels (p : Pod) : gmap string string := ObjectMeta_GetLabels (Pod_Metadata p).
Definition podNodeName (p : Pod) : string := PodSpec_GetNodeName (Pod_Spec p).
Definition podContainers (p : Pod) : list Container := PodSpec_GetContainers (Pod_Spec p).
Definition podPhase (p : Pod) : PodPhase := PodStatus_GetPhase (Pod_Status p).
Definition podMessage (p : Pod) : string := PodStatus_GetMessage (Pod_Status p).

Definition nodeName (n : Node) : string := ObjectMeta_GetName (Node_Metadata n).
Definition nodeIsReady (n : Node) : bool := NodeStatus_GetReady (Node_Status n).
Definition nodeUnschedulable (n : Node) : bool := NodeSpec_GetUnschedulable (Node_Spec n).
Definition nodeAllocatable (n : Node) : option ResourceList := NodeStatus_GetAllocatable (Node_Status n).

Definition depName (d : Deployment) : string := ObjectMeta_GetName (Deployment_Metadata d).
Definition depNamespace (d : Deployment) : string := ObjectMeta_GetNamespace (Deployment_Metadata d).
Definition depTemplate (d : Deployment) : option PodSpec := DeploymentSpec_GetTemplate (Deployment_Spec d).
Definition depReplicas (d : Deployment) : Z := DeploymentSpec_GetReplicas (Deployment_Spec d).

Definition volNodeName (v : Volume) : string := VolumeStatus_GetNodeName (Volume_Status v).
Definition volLabels (v : Volume) : gmap string string := ObjectMeta_GetLabels (Volume_Metadata v).

(** The resource requests of a container,
    [c.GetResources().GetRequests()]. *)
Definition containerRequests (c : Container) : option ResourceList :=
  ResourceRequirements_GetRequests (Container_Resources c).

(** A string-valued Go map read: absent keys read as the empty string. *)
Definition slookup (m : gmap string string) (k : string) : string := default "" (m !! k).

(** ** Field updates *)

Definition podspec_set_node (n : string) (s : PodSpec) : PodSpec :=
  MkPodSpec (PodSpec_Containers s) n (PodSpec_Volumes s) (PodSpec_RestartPolicy s).

Definition podstatus_set_message (m : string) (s : PodStatus) : PodStatus :=
  MkPodStatus (PodStatus_Phase s) m (PodStatus_Conditions s)
    (PodStatus_RestartCount s) (PodStatus_MemoryUsageBytes s).

Definition pod_set_spec (s : option PodSpec) (p : Pod) : Pod :=
  MkPod (Pod_Metadata p) s (Pod_Status p).

Definition pod_set_status (s : option PodStatus) (p : Pod) : Pod :=
  MkPod (Pod_Metadata p) (Pod_Spec p) s.

Definition node_set_status (s : option NodeStatus) (n : Node) : Node :=
  MkNode (Node_Metadata n) (Node_Spec n) s.

Definition nodestatus_set_ready (b : bool) (s : NodeStatus) : NodeStatus :=
  MkNodeStatus (NodeStatus_Capacity s) (NodeStatus_Allocatable s) b
    (NodeStatus_Conditions s) (NodeStatus_LastHeartbeatUnix s) (NodeStatus_InternalIp s).

Definition deployment_set_status (s : option DeploymentStatus) (d : Deployment) : Deployment :=
  MkDeployment (Deployment_Metadata d) (Deployment_Spec d) s.

Definition deployment_set_spec (s : option DeploymentSpec) (d : Deployment) : Deployment :=
  MkDeployment (Deployment_Metadata d) s (Deployment_Status d).

Definition depspec_set_replicas (r : Z) (s : DeploymentSpec) : DeploymentSpec :=
  MkDeploymentSpec r (DeploymentSpec_Selector s) (DeploymentSpec_Template s)
    (DeploymentSpec_MinReplicas s) (DeploymentSpec_MaxReplicas s).

Definition depspec_set_template (t : option PodSpec) (s : DeploymentSpec) : DeploymentSpec :=
  MkDeploymentSpec (DeploymentSpec_Replicas s) (DeploymentSpec_Selector s) t
    (DeploymentSpec_MinReplicas s) (DeploymentSpec_MaxReplicas s).

Definition meta_set_labels (l : gmap string string) (m : ObjectMeta) : ObjectMeta :=
  MkObjectMeta (ObjectMeta_Name m) (ObjectMeta_Namespace m) (ObjectMeta_Uid m)
    (ObjectMeta_ResourceVersion m) l (ObjectMeta_CreatedAtUnix m).

Definition volstatus_set_node (n : string) (s : VolumeStatus) : VolumeStatus :=
  MkVolumeStatus (VolumeStatus_Phase s) (VolumeStatus_CapacityBytes s) (VolumeStatus_Message s) n.

Definition volume_set_meta (m : option ObjectMeta) (v : Volume) : Volume :=
  MkVolume m (Volume_Spec v) (Volume_Status v).

Definition volume_set_status (s : option VolumeStatus) (v : Volume) : Volume :=
  MkVolume (Volume_Metadata v) (Volume_Spec v) s.

(** Updates through a pointer field that the code has just checked or
    allocated: a nil field is first replaced by the empty message. *)
Definition pod_assign_node (n : string) (p : Pod) : Pod :=
  pod_set_spec (Some (podspec_set_node n (default PodSpec_zero (Pod_Spec p)))) p.

Definition pod_record_message (m : string) (p : Pod) : Pod :=
  pod_set_status (Some (podstatus_set_message m (default PodStatus_zero (Pod_Status p)))) p.

Lemma podName_assign_node n p : podName (pod_assign_node n p) = podName p.
Proof. done. Qed.
Lemma podNamespace_assign_node n p : podNamespace (pod_assign_node n p) = podNamespace p.
Proof. done. Qed.
Lemma podLabels_assign_node n p : podLabels (pod_assign_node n p) = podLabels p.
Proof. done. Qed.
Lemma podNodeName_assign_node n p : podNodeName (pod_assign_node n p) = n.
Proof. done. Qed.
Lemma podPhase_assign_node n p : podPhase (pod_assign_node n p) = podPhase p.
Proof. done. Qed.
Lemma podContainers_assign_node n p : podContainers (pod_assign_node n p) = podContainers p.
Proof. by destruct p as [? [?|] ?]. Qed.
Lemma podNodeName_record_message m p : podNodeName (pod_record_message m p) = podNodeName p.
Proof. done. Qed.
Lemma podPhase_record_message m p : podPhase (pod_record_message m p) = podPhase p.
Proof. by destruct p as [? ? [?|]]. Qed.
Lemma podMessage_record_message m p : podMessage (pod_record_message m p) = m.
Proof. done. Qed.

#[export] Hint Rewrite podName_assign_node podNamespace_assign_node podLabels_assign_node
  podNodeName_assign_node podPhase_assign_node podContainers_assign_node
  podNodeName_record_message podPhase_record_message podMessage_record_message : nimbus_rw.
