(* ===== verification/Codec.v ===== *)
(** * Codec: the protobuf encoding as an interface

    proto.Marshal and proto.Unmarshal are third-party code: the components
    that store objects use them through the class [ProtoMessage], and
    [ProtoLaws] states what they rely on.  Marshalling fails only on strings
    that are not valid UTF-8, so [ProtoLaws] describes the messages the
    control plane handles.

    The rest of the file is one executable instance of the interface, a
    self-delimiting byte format with its round-trip lemma.  It is not the
    protobuf wire format: it shows that the laws can hold together and lets
    the definitions be evaluated on concrete inputs. *)

From stdpp Require Import gmap strings list.
From Stdlib Require Import ZArith Ascii Strings.Byte.
From S2P Require Import Prelude Api.

Class ProtoMessage (T : Type) := {
  Marshal : T → result bytes;
  Unmarshal : bytes → result T;
}.

Class ProtoLaws (T : Type) `{!ProtoMessage T} := {
  Marshal_total : ∀ x : T, is_Ok (Marshal x);
  Unmarshal_Marshal : ∀ (x : T) b, Marshal x = Ok b → Unmarshal b = Ok x;
}.

(** ** A self-delimiting format *)

Class Ser (A : Type) := {
  ser : A → bytes;
  des : bytes → option (A * bytes);
  des_ser : ∀ x rest, des (ser x ++ rest) = Some (x, rest);
}.

Lemma des_ser_nil `{Ser A} (x : A) : des (ser x) = Some (x, []).
Proof. by rewrite <-(app_nil_r (ser x)), des_ser. Qed.

Fixpoint ser_pos (p : positive) : bytes :=
  match p with
  | xI p => x01 :: ser_pos p
  | xO p => x00 :: ser_pos p
  | xH => [x02]
  end.

Fixpoint des_pos (b : bytes) : option (positive * bytes) :=
  match b with
  | x00 :: b => '(p, r) ← des_pos b; Some (xO p, r)
  | x01 :: b => '(p, r) ← des_pos b; Some (xI p, r)
  | x02 :: b => Some (xH, b)
  | _ => None
  end.

Lemma des_ser_pos p rest : des_pos (ser_pos p ++ rest) = Some (p, rest).
Proof. revert rest. induction p as [p IH|p IH|]; intros rest; simpl; by rewrite ?IH. Qed.

Definition ser_int (z : Z) : bytes :=
  match z with Z0 => [x00] | Zpos p => x01 :: ser_pos p | Zneg p => x02 :: ser_pos p end.

Definition des_int (b : bytes) : option (Z * bytes) :=
  match b with
  | x00 :: b => Some (Z0, b)
  | x01 :: b => '(p, r) ← des_pos b; Some (Zpos p, r)
  | x02 :: b => '(p, r) ← des_pos b; Some (Zneg p, r)
  | _ => None
  end.

#[export] Instance ser_Z : Ser Z.
Proof.
  refine {| ser := ser_int; des := des_int |}.
  intros [|p|p] rest; simpl; by rewrite ?des_ser_pos.
Defined.

#[export] Instance ser_bool : Ser bool.
Proof.
  refine {| ser := λ b : bool, if b then [x01] else [x00];
            des := λ b, match b with x00 :: b => Some (false, b) | x01 :: b => Some (true, b) | _ => None end |}.
  by intros [] rest.
Defined.

#[export] Instance ser_byte : Ser Byte.byte.
Proof.
  refine {| ser := λ b : Byte.byte, [b]; des := λ b, match b with a :: b => Some (a, b) | [] => None end |}.
  done.
Defined.

Fixpoint ser_str (s : string) : bytes :=
  match s with
  | EmptyString => [x00]
  | String a s => x01 :: byte_of_ascii a :: ser_str s
  end.

Fixpoint des_str (b : bytes) : option (string * bytes) :=
  match b with
  | x00 :: b => Some ("", b)
  | x01 :: a :: b => '(s, r) ← des_str b; Some (String (ascii_of_byte a) s, r)
  | _ => None
  end.

#[export] Instance ser_string : Ser string.
Proof.
  refine {| ser := ser_str; des := des_str |}.
  intros s; induction s as [|a s IH]; intros rest; simpl; [done|].
  by rewrite IH; simpl; rewrite ascii_of_byte_of_ascii.
Defined.

#[export] Instance ser_option `{Ser A} : Ser (option A).
Proof.
  refine {| ser := λ x : option A, match x with None => [x00] | Some a => x01 :: ser a end;
            des := λ b, match b with
                     | x00 :: b => Some (None, b)
                     | x01 :: b => '(a, r) ← des b; Some (Some a, r)
                     | _ => None
                     end |}.
  intros [a|] rest; simpl; [by rewrite des_ser|done].
Defined.

#[export] Instance ser_prod `{Ser A, Ser B} : Ser (A * B).
Proof.
  refine {| ser := λ x : A * B, ser x.1 ++ ser x.2;
            des := λ b, '(a, r) ← des b; '(b, r) ← des r; Some ((a, b), r) |}.
  intros [a b] rest; simpl. rewrite <-app_assoc, des_ser. simpl. by rewrite des_ser.
Defined.

Section ser_list.
Context `{Ser A}.

Fixpoint ser_elems (l : list A) : bytes :=
  match l with [] => [x00] | x :: l => x01 :: ser x ++ ser_elems l end.

Fixpoint des_elems (fuel : nat) (b : bytes) : option (list A * bytes) :=
  match fuel, b with
  | _, x00 :: b => Some ([], b)
  | S fuel, x01 :: b => '(x, r) ← des b; '(l, r) ← des_elems fuel r; Some (x :: l, r)
  | _, _ => None
  end.

Lemma des_elems_ser l rest fuel :
  length l ≤ fuel → des_elems fuel (ser_elems l ++ rest) = Some (l, rest).
Proof.
  revert fuel. induction l as [|x l IH]; intros fuel Hf; simpl.
  { by destruct fuel. }
  destruct fuel as [|fuel]; simpl in *; [lia|].
  rewrite <-app_assoc, des_ser. simpl. by rewrite IH by lia.
Qed.

Lemma ser_elems_length l : length l ≤ length (ser_elems l).
Proof. induction l as [|x l IH]; simpl; [lia|]. rewrite length_app. lia. Qed.
End ser_list.

#[export] Instance ser_list `{Ser A} : Ser (list A).
Proof.
  refine {| ser := ser_elems; des := λ b, des_elems (length b) b |}.
  intros l rest. apply des_elems_ser.
  rewrite length_app. pose proof (ser_elems_length l). lia.
Defined.

#[export] Instance ser_gmap `{Countable K, !Ser K, !Ser V} : Ser (gmap K V).
Proof.
  refine {| ser := λ m : gmap K V, ser (A := list (K * V)) (map_to_list m);
            des := λ b, '(l, r) ← des (A := list (K * V)) b; Some (list_to_map l : gmap K V, r) |}.
  intros m rest. rewrite (des_ser (A := list (K * V))). simpl.
  by rewrite list_to_map_to_list.
Defined.

(** A record is encoded through its tuple of fields. *)
Definition ser_iso {A B} `{Ser B} (f : A → B) (g : B → A) (Hgf : ∀ x, g (f x) = x) : Ser A.
Proof.
  refine {| ser := λ x : A, ser (f x); des := λ b, '(y, r) ← des b; Some (g y, r) |}.
  intros x rest; simpl. rewrite des_ser. simpl. by rewrite Hgf.
Defined.

(** ** The instance of each message *)


#[export] Instance ser_RestartPolicy : Ser RestartPolicy.
Proof.
  refine (ser_iso (λ x, match x with RESTART_POLICY_UNSPECIFIED => (0, 0) | RESTART_POLICY_ALWAYS => (1, 0) | RESTART_POLICY_ON_FAILURE => (2, 0) | RESTART_POLICY_NEVER => (3, 0) | RestartPolicy_Other n => (4, n) end%Z)
    (λ y, match y with (0, _) => RESTART_POLICY_UNSPECIFIED | (1, _) => RESTART_POLICY_ALWAYS | (2, _) => RESTART_POLICY_ON_FAILURE | (3, _) => RESTART_POLICY_NEVER | (_, n) => RestartPolicy_Other n end%Z) _).
  by intros [].
Defined.

#[export] Instance ser_PodPhase : Ser PodPhase.
Proof.
  refine (ser_iso (λ x, match x with POD_PHASE_UNSPECIFIED => (0, 0) | POD_PHASE_PENDING => (1, 0) | POD_PHASE_RUNNING => (2, 0) | POD_PHASE_SUCCEEDED => (3, 0) | POD_PHASE_FAILED => (4, 0) | POD_PHASE_UNKNOWN => (5, 0) | PodPhase_Other n => (6, n) end%Z)
    (λ y, match y with (0, _) => POD_PHASE_UNSPECIFIED | (1, _) => POD_PHASE_PENDING | (2, _) => POD_PHASE_RUNNING | (3, _) => POD_PHASE_SUCCEEDED | (4, _) => POD_PHASE_FAILED | (5, _) => POD_PHASE_UNKNOWN | (_, n) => PodPhase_Other n end%Z) _).
  by intros [].
Defined.

#[export] Instance ser_VolumePhase : Ser VolumePhase.
Proof.
  refine (ser_iso (λ x, match x with VOLUME_PHASE_UNSPECIFIED => (0, 0) | VOLUME_PHASE_PENDING => (1, 0) | VOLUME_PHASE_BOUND => (2, 0) | VOLUME_PHASE_FAILED => (3, 0) | VolumePhase_Other n => (4, n) end%Z)
    (λ y, match y with (0, _) => VOLUME_PHASE_UNSPECIFIED | (1, _) => VOLUME_PHASE_PENDING | (2, _) => VOLUME_PHASE_BOUND | (3, _) => VOLUME_PHASE_FAILED | (_, n) => VolumePhase_Other n end%Z) _).
  by intros [].
Defined.

#[export] Instance ser_ObjectMeta : Ser ObjectMeta.
Proof.
  refine (ser_iso (λ '(MkObjectMeta a0 a1 a2 a3 a4 a5), (a0, (a1, (a2, (a3, (a4, a5)))))) (λ '(a0, (a1, (a2, (a3, (a4, a5))))), MkObjectMeta a0 a1 a2 a3 a4 a5) _).
  by intros [].
Defined.

#[export] Instance ser_ResourceList : Ser ResourceList.
Proof.
  refine (ser_iso (λ '(MkResourceList a0 a1 a2), (a0, (a1, a2))) (λ '(a0, (a1, a2)), MkResourceList a0 a1 a2) _).
  by intros [].
Defined.

#[export] Instance ser_ResourceRequirements : Ser ResourceRequirements.
Proof.
  refine (ser_iso (λ '(MkResourceRequirements a0 a1), (a0, a1)) (λ '(a0, a1), MkResourceRequirements a0 a1) _).
  by intros [].
Defined.

#[export] Instance ser_Condition : Ser Condition.
Proof.
  refine (ser_iso (λ '(MkCondition a0 a1 a2 a3 a4), (a0, (a1, (a2, (a3, a4))))) (λ '(a0, (a1, (a2, (a3, a4)))), MkCondition a0 a1 a2 a3 a4) _).
  by intros [].
Defined.

#[export] Instance ser_VolumeSpec : Ser VolumeSpec.
Proof.
  refine (ser_iso (λ '(MkVolumeSpec a0), a0) (λ a0, MkVolumeSpec a0) _).
  by intros [].
Defined.

#[export] Instance ser_VolumeStatus : Ser VolumeStatus.
Proof.
  refine (ser_iso (λ '(MkVolumeStatus a0 a1 a2 a3), (a0, (a1, (a2, a3)))) (λ '(a0, (a1, (a2, a3))), MkVolumeStatus a0 a1 a2 a3) _).
  by intros [].
Defined.

#[export] Instance ser_Volume : Ser Volume.
Proof.
  refine (ser_iso (λ '(MkVolume a0 a1 a2), (a0, (a1, a2))) (λ '(a0, (a1, a2)), MkVolume a0 a1 a2) _).
  by intros [].
Defined.

#[export] Instance ser_VolumeMount : Ser VolumeMount.
Proof.
  refine (ser_iso (λ '(MkVolumeMount a0 a1 a2), (a0, (a1, a2))) (λ '(a0, (a1, a2)), MkVolumeMount a0 a1 a2) _).
  by intros [].
Defined.

#[export] Instance ser_SecurityContext : Ser SecurityContext.
Proof.
  refine (ser_iso (λ '(MkSecurityContext a0 a1 a2 a3 a4), (a0, (a1, (a2, (a3, a4))))) (λ '(a0, (a1, (a2, (a3, a4)))), MkSecurityContext a0 a1 a2 a3 a4) _).
  by intros [].
Defined.

#[export] Instance ser_BuildSource : Ser BuildSource.
Proof.
  refine (ser_iso (λ '(MkBuildSource a0 a1 a2 a3), (a0, (a1, (a2, a3)))) (λ '(a0, (a1, (a2, a3))), MkBuildSource a0 a1 a2 a3) _).
  by intros [].
Defined.

#[export] Instance ser_Container : Ser Container.
Proof.
  refine (ser_iso (λ '(MkContainer a0 a1 a2 a3 a4 a5 a6 a7 a8), (a0, (a1, (a2, (a3, (a4, (a5, (a6, (a7, a8))))))))) (λ '(a0, (a1, (a2, (a3, (a4, (a5, (a6, (a7, a8)))))))), MkContainer a0 a1 a2 a3 a4 a5 a6 a7 a8) _).
  by intros [].
Defined.

#[export] Instance ser_PodSpec : Ser PodSpec.
Proof.
  refine (ser_iso (λ '(MkPodSpec a0 a1 a2 a3), (a0, (a1, (a2, a3)))) (λ '(a0, (a1, (a2, a3))), MkPodSpec a0 a1 a2 a3) _).
  by intros [].
Defined.

#[export] Instance ser_PodStatus : Ser PodStatus.
Proof.
  refine (ser_iso (λ '(MkPodStatus a0 a1 a2 a3 a4), (a0, (a1, (a2, (a3, a4))))) (λ '(a0, (a1, (a2, (a3, a4)))), MkPodStatus a0 a1 a2 a3 a4) _).
  by intros [].
Defined.

#[export] Instance ser_Pod : Ser Pod.
Proof.
  refine (ser_iso (λ '(MkPod a0 a1 a2), (a0, (a1, a2))) (λ '(a0, (a1, a2)), MkPod a0 a1 a2) _).
  by intros [].
Defined.

#[export] Instance ser_NodeSpec : Ser NodeSpec.
Proof.
  refine (ser_iso (λ '(MkNodeSpec a0), a0) (λ a0, MkNodeSpec a0) _).
  by intros [].
Defined.

#[export] Instance ser_NodeStatus : Ser NodeStatus.
Proof.
  refine (ser_iso (λ '(MkNodeStatus a0 a1 a2 a3 a4 a5), (a0, (a1, (a2, (a3, (a4, a5)))))) (λ '(a0, (a1, (a2, (a3, (a4, a5))))), MkNodeStatus a0 a1 a2 a3 a4 a5) _).
  by intros [].
Defined.

#[export] Instance ser_Node : Ser Node.
Proof.
  refine (ser_iso (λ '(MkNode a0 a1 a2), (a0, (a1, a2))) (λ '(a0, (a1, a2)), MkNode a0 a1 a2) _).
  by intros [].
Defined.

#[export] Instance ser_DeploymentSpec : Ser DeploymentSpec.
Proof.
  refine (ser_iso (λ '(MkDeploymentSpec a0 a1 a2 a3 a4), (a0, (a1, (a2, (a3, a4))))) (λ '(a0, (a1, (a2, (a3, a4)))), MkDeploymentSpec a0 a1 a2 a3 a4) _).
  by intros [].
Defined.

#[export] Instance ser_DeploymentStatus : Ser DeploymentStatus.
Proof.
  refine (ser_iso (λ '(MkDeploymentStatus a0 a1), (a0, a1)) (λ '(a0, a1), MkDeploymentStatus a0 a1) _).
  by intros [].
Defined.

#[export] Instance ser_Deployment : Ser Deployment.
Proof.
  refine (ser_iso (λ '(MkDeployment a0 a1 a2), (a0, (a1, a2))) (λ '(a0, (a1, a2)), MkDeployment a0 a1 a2) _).
  by intros [].
Defined.

#[export] Instance ser_ServiceSpec : Ser ServiceSpec.
Proof.
  refine (ser_iso (λ '(MkServiceSpec a0 a1 a2 a3), (a0, (a1, (a2, a3)))) (λ '(a0, (a1, (a2, a3))), MkServiceSpec a0 a1 a2 a3) _).
  by intros [].
Defined.

#[export] Instance ser_ServiceEndpoint : Ser ServiceEndpoint.
Proof.
  refine (ser_iso (λ '(MkServiceEndpoint a0 a1 a2), (a0, (a1, a2))) (λ '(a0, (a1, a2)), MkServiceEndpoint a0 a1 a2) _).
  by intros [].
Defined.

#[export] Instance ser_ServiceStatus : Ser ServiceStatus.
Proof.
  refine (ser_iso (λ '(MkServiceStatus a0), a0) (λ a0, MkServiceStatus a0) _).
  by intros [].
Defined.

#[export] Instance ser_Service : Ser Service.
Proof.
  refine (ser_iso (λ '(MkService a0 a1 a2), (a0, (a1, a2))) (λ '(a0, (a1, a2)), MkService a0 a1 a2) _).
  by intros [].
Defined.

#[export] Instance ser_NetworkPolicyPort : Ser NetworkPolicyPort.
Proof.
  refine (ser_iso (λ '(MkNetworkPolicyPort a0 a1), (a0, a1)) (λ '(a0, a1), MkNetworkPolicyPort a0 a1) _).
  by intros [].
Defined.

#[export] Instance ser_NetworkPolicyPeer : Ser NetworkPolicyPeer.
Proof.
  refine (ser_iso (λ '(MkNetworkPolicyPeer a0), a0) (λ a0, MkNetworkPolicyPeer a0) _).
  by intros [].
Defined.

#[export] Instance ser_NetworkPolicyIngressRule : Ser NetworkPolicyIngressRule.
Proof.
  refine (ser_iso (λ '(MkNetworkPolicyIngressRule a0 a1), (a0, a1)) (λ '(a0, a1), MkNetworkPolicyIngressRule a0 a1) _).
  by intros [].
Defined.

#[export] Instance ser_NetworkPolicySpec : Ser NetworkPolicySpec.
Proof.
  refine (ser_iso (λ '(MkNetworkPolicySpec a0 a1), (a0, a1)) (λ '(a0, a1), MkNetworkPolicySpec a0 a1) _).
  by intros [].
Defined.

#[export] Instance ser_NetworkPolicy : Ser NetworkPolicy.
Proof.
  refine (ser_iso (λ '(MkNetworkPolicy a0 a1), (a0, a1)) (λ '(a0, a1), MkNetworkPolicy a0 a1) _).
  by intros [].
Defined.

#[export] Instance ser_PolicySpec : Ser PolicySpec.
Proof.
  refine (ser_iso (λ '(MkPolicySpec a0 a1), (a0, a1)) (λ '(a0, a1), MkPolicySpec a0 a1) _).
  by intros [].
Defined.

#[export] Instance ser_Policy : Ser Policy.
Proof.
  refine (ser_iso (λ '(MkPolicy a0 a1), (a0, a1)) (λ '(a0, a1), MkPolicy a0 a1) _).
  by intros [].
Defined.

#[export] Instance ser_Namespace : Ser Namespace.
Proof.
  refine (ser_iso (λ '(MkNamespace a0), a0) (λ a0, MkNamespace a0) _).
  by intros [].
Defined.

#[export] Instance ser_Secret : Ser Secret.
Proof.
  refine (ser_iso (λ '(MkSecret a0 a1), (a0, a1)) (λ '(a0, a1), MkSecret a0 a1) _).
  by intros [].
Defined.

#[export] Instance ser_ImageRecord : Ser ImageRecord.
Proof.
  refine (ser_iso (λ '(MkImageRecord a0 a1 a2), (a0, (a1, a2))) (λ '(a0, (a1, a2)), MkImageRecord a0 a1 a2) _).
  by intros [].
Defined.

#[export] Instance ser_BackupEntry : Ser BackupEntry.
Proof.
  refine (ser_iso (λ '(MkBackupEntry a0 a1), (a0, a1)) (λ '(a0, a1), MkBackupEntry a0 a1) _).
  by intros [].
Defined.

#[export] Instance ser_RemoteCluster : Ser RemoteCluster.
Proof.
  refine (ser_iso (λ '(MkRemoteCluster a0 a1), (a0, a1)) (λ '(a0, a1), MkRemoteCluster a0 a1) _).
  by intros [].
Defined.


(** ** The interface, instantiated *)

Module Reference.

#[export] Instance reference_message `{Ser T} : ProtoMessage T := {|
  Marshal x := Ok (ser x);
  Unmarshal b := match des b with Some (x, []) => Ok x | _ => Err (Errorf "proto: cannot parse") end;
|}.

#[export] Instance reference_laws `{Ser T} : ProtoLaws T.
Proof.
  split; [by eexists|]. intros x b [= <-]. simpl.
  by rewrite des_ser_nil.
Qed.

End Reference.
