(* ===== verification/Store.v ===== *)
(** * Store: the key-value store interface and its in-memory implementation

    internal/store/store.go.  [Store] is the Go interface; [StoreLaws] is what
    its clients may rely on while the store is healthy: the four operations
    behave as those of a finite map, the abstraction [store_view].  [memStore]
    is the in-memory implementation and satisfies the laws unconditionally;
    the replicated implementation is in RaftStore.v. *)

From stdpp Require Import gmap strings list.
From S2P Require Import Prelude.

(** [type Store interface]; the context argument is not modelled. *)
Class Store (S : Type) := {
  store_Get : string → S → result bytes;
  store_Put : string → bytes → S → result unit * S;
  store_Delete : string → S → result unit * S;
  store_List : string → S → result (gmap string bytes);
}.

(** The entries of a map whose key has a prefix: the loop of [List]. *)
Definition with_prefix {V} (prefix : string) (m : gmap string V) : gmap string V :=
  filter (λ kv, HasPrefix kv.1 prefix = true) m.

(** The contract of the interface on the abstraction [store_view]. *)
Class StoreLaws (S : Type) `{!Store S} := {
  store_view : S → gmap string bytes;
  store_healthy : S → Prop;
  store_Get_law s k : store_healthy s →
    store_Get k s = match store_view s !! k with Some v => Ok v | None => Err ErrNotFound end;
  store_Put_law s k v : store_healthy s →
    ∃ s', store_Put k v s = (Ok tt, s') ∧ store_healthy s' ∧
          store_view s' = <[k := v]> (store_view s);
  store_Delete_law s k : store_healthy s →
    ∃ s', store_Delete k s = (Ok tt, s') ∧ store_healthy s' ∧
          store_view s' = delete k (store_view s);
  store_List_law s p : store_healthy s →
    store_List p s = Ok (with_prefix p (store_view s));
}.

Lemma with_prefix_lookup {V} p (m : gmap string V) k v :
  with_prefix p m !! k = Some v ↔ m !! k = Some v ∧ HasPrefix k p = true.
Proof. unfold with_prefix. by rewrite map_lookup_filter_Some. Qed.

Lemma with_prefix_empty {V} (m : gmap string V) : with_prefix "" m = m.
Proof.
  apply map_filter_id. intros k v _. simpl. by rewrite HasPrefix_iff; exists k.
Qed.

(** ** The in-memory store *)

Record memStore := MkMemStore { mem_data : gmap string bytes }.

Definition NewMemStore : memStore := MkMemStore ∅.

Definition mem_Get (key : string) (s : memStore) : result bytes :=
  match mem_data s !! key with
  | None => Err ErrNotFound
  | Some v => Ok v
  end.

Definition mem_Put (key : string) (value : bytes) (s : memStore) : result unit * memStore :=
  (Ok tt, MkMemStore (<[key := value]> (mem_data s))).

Definition mem_Delete (key : string) (s : memStore) : result unit * memStore :=
  (Ok tt, MkMemStore (delete key (mem_data s))).

Definition mem_List (prefix : string) (s : memStore) : result (gmap string bytes) :=
  Ok (with_prefix prefix (mem_data s)).

#[export] Instance memStore_Store : Store memStore := {|
  store_Get := mem_Get;
  store_Put := mem_Put;
  store_Delete := mem_Delete;
  store_List := mem_List;
|}.

#[export] Instance memStore_laws : StoreLaws memStore.
Proof.
  refine {| store_view := mem_data; store_healthy := λ _, True |}.
  - intros s k _. simpl. unfold mem_Get. by destruct (mem_data s !! k).
  - intros s k v _. by eexists.
  - intros s k _. by eexists.
  - done.
Defined.

(** ** Operation sequences

    A client is a sequence of operations; its observations are the results
    it sees.  Two stores are compared by their observations. *)

Inductive store_op :=
  | OpGet (k : string)
  | OpPut (k : string) (v : bytes)
  | OpDelete (k : string)
  | OpList (p : string).

Inductive observation :=
  | ObsGet (r : result bytes)
  | ObsUnit (r : result unit)
  | ObsList (r : result (gmap string bytes)).

Section run.
Context {S} `{!Store S}.

Definition run_op (o : store_op) (s : S) : observation * S :=
  match o with
  | OpGet k => (ObsGet (store_Get k s), s)
  | OpPut k v => let '(r, s') := store_Put k v s in (ObsUnit r, s')
  | OpDelete k => let '(r, s') := store_Delete k s in (ObsUnit r, s')
  | OpList p => (ObsList (store_List p s), s)
  end.

Fixpoint run_ops (os : list store_op) (s : S) : list observation * S :=
  match os with
  | [] => ([], s)
  | o :: os =>
      let '(r, s1) := run_op o s in
      let '(rs, s2) := run_ops os s1 in (r :: rs, s2)
  end.
End run.

(** A healthy store is observationally a finite map: whatever its clients do,
    they see what the in-memory store would show them. *)
Lemma run_ops_simulates_map {S} `{!Store S, !StoreLaws S} (os : list store_op) (s : S) :
  store_healthy s →
  let '(rs, s') := run_ops os s in
  let '(rs', m') := run_ops os (MkMemStore (store_view s)) in
  rs = rs' ∧ store_healthy s' ∧ store_view s' = mem_data m'.
Proof.
  revert s. induction os as [|o os IH]; intros s Hs; simpl; [done|].
  destruct o as [k|k v|k|p]; simpl.
  - specialize (IH s Hs). unfold mem_Get; simpl.
    rewrite store_Get_law by done.
    destruct (run_ops os s), (run_ops os (MkMemStore (store_view s))).
    destruct IH as (-> & ? & ?). by destruct (store_view s !! k).
  - destruct (store_Put_law s k v Hs) as (s1 & -> & Hs1 & Hv).
    specialize (IH s1 Hs1). rewrite Hv in IH.
    destruct (run_ops os s1), (run_ops os (MkMemStore _)). naive_solver.
  - destruct (store_Delete_law s k Hs) as (s1 & -> & Hs1 & Hv).
    specialize (IH s1 Hs1). rewrite Hv in IH.
    destruct (run_ops os s1), (run_ops os (MkMemStore _)). naive_solver.
  - specialize (IH s Hs). rewrite store_List_law by done.
    destruct (run_ops os s), (run_ops os (MkMemStore (store_view s))). naive_solver.
Qed.
