(* ===== verification/RaftStore.v ===== *)
(** * RaftStore: the replicated, encrypted store

    internal/store/raft.go and internal/store/crypto.go.  A [RaftStore] is
    the local replica: the state machine [fsm] fed by the Raft log, the
    current and previous encryption keys, the handle on the Raft instance.

    Third-party and environment code enters through [RaftEnv]: the hashicorp
    Raft instance, the JSON encodings, AES-GCM and the random source.
    [RaftEnvLaws] states the documented behaviour the code relies on.  The
    results: while the replica leads a reliable cluster the store implements
    the map contract [StoreLaws]; rotating the key and re-encrypting keeps
    every value readable; the cases where a rotated key makes the data
    unreadable. *)

From stdpp Require Import gmap strings list.
From Stdlib Require Import Strings.Byte.
From S2P Require Import Prelude Store Codec.

(** ** Data *)

Record command := MkCommand { cmd_Op : string; cmd_Key : string; cmd_Value : bytes }.

#[export] Instance command_eq_decision : EqDecision command.
Proof. solve_decision. Defined.

Record RaftConfig := MkRaftConfig {
  cfg_NodeID : string;
  cfg_BindAddr : string;
  cfg_DataDir : string;
  cfg_Bootstrap : bool;
  cfg_EncryptionKey : bytes;
}.

Definition EncryptionKeySize : nat := 32.

(** ** The environment *)

Class RaftEnv := {
  raft : Type;
  (** [s.raft.State() == raft.Leader] *)
  raft_is_leader : raft → bool;
  (** [s.raft.Apply(b, timeout).Error()], and whether the entry reached the
      local state machine. *)
  raft_Apply : bytes → raft → result unit * bool * raft;
  (** [s.raft.AddVoter(id, addr, 0, timeout).Error()] *)
  raft_AddVoter : string → string → raft → result unit * raft;
  (** Opening the data directory, transport, log and snapshot stores and
      starting Raft: the instance and the recovered state machine. *)
  raft_open : RaftConfig → result (raft * gmap string bytes);
  json_Marshal_command : command → result bytes;
  json_Unmarshal_command : bytes → result command;
  json_Encode_map : gmap string bytes → result bytes;
  json_Decode_map : bytes → result (gmap string bytes);
  aes_NewCipher : bytes → result unit;
  gcm_NonceSize : nat;
  gcm_Seal : bytes → bytes → bytes → bytes;
  gcm_Open : bytes → bytes → bytes → result bytes;
  (** [io.ReadFull(rand.Reader, buf)]: the [i]-th read, of [n] bytes. *)
  rand_Read : nat → nat → result bytes;
}.

(** Documented behaviour of the environment.  [gcm_wrong_key] is the
    authentication property of AES-GCM, idealised: a message sealed under one
    key is rejected under any other. *)
Class RaftEnvLaws `{!RaftEnv} := {
  json_command_roundtrip c b :
    json_Marshal_command c = Ok b → json_Unmarshal_command b = Ok c;
  json_command_total c : is_Ok (json_Marshal_command c);
  json_map_roundtrip m b : json_Encode_map m = Ok b → json_Decode_map b = Ok m;
  aes_key_size k : length k = EncryptionKeySize → aes_NewCipher k = Ok tt;
  gcm_roundtrip k n p :
    length k = EncryptionKeySize → length n = gcm_NonceSize →
    gcm_Open k n (gcm_Seal k n p) = Ok p;
  gcm_wrong_key k k' n p :
    k ≠ k' → ∃ e, gcm_Open k' n (gcm_Seal k n p) = Err e;
  rand_Read_length i n b : rand_Read i n = Ok b → length b = n;
}.

Section raft_store.
Context `{!RaftEnv}.

(** ** crypto.go *)

Definition newGCM (key : bytes) : result unit :=
  if decide (length key ≠ EncryptionKeySize) then
    Err (Errorf "store: encryption key must be 32 bytes")
  else wrap_result "store: init cipher" (aes_NewCipher key).

(** [i] numbers the reads of the random source. *)
Definition encryptValue (i : nat) (key plaintext : bytes) : result bytes :=
  _ ← newGCM key;
  nonce ← wrap_result "store: generate nonce" (rand_Read i gcm_NonceSize);
  Ok (nonce ++ gcm_Seal key nonce plaintext).

Definition decryptValue (key ciphertext : bytes) : result bytes :=
  _ ← newGCM key;
  if decide (length ciphertext < gcm_NonceSize) then
    Err (Errorf "store: ciphertext shorter than nonce")
  else
    gcm_Open key (take gcm_NonceSize ciphertext) (drop gcm_NonceSize ciphertext).

(** ** The replicated state machine *)

Record fsm := MkFsm { fsm_data : gmap string bytes }.

(** [fsm.Apply]: the response to a log entry and the new state. *)
Definition fsm_Apply (log : bytes) (f : fsm) : result unit * fsm :=
  match json_Unmarshal_command log with
  | Ok cmd =>
      if decide (cmd_Op cmd = "put") then
        (Ok tt, MkFsm (<[cmd_Key cmd := cmd_Value cmd]> (fsm_data f)))
      else if decide (cmd_Op cmd = "delete") then
        (Ok tt, MkFsm (delete (cmd_Key cmd) (fsm_data f)))
      else (Ok tt, f)
  | Err e => (Err e, f)
  | Panic => (Panic, f)
  end.

Definition fsm_get (key : string) (f : fsm) : result bytes :=
  match fsm_data f !! key with
  | None => Err ErrNotFound
  | Some v => Ok v
  end.

Definition fsm_list (prefix : string) (f : fsm) : gmap string bytes :=
  with_prefix prefix (fsm_data f).

(** A snapshot is a copy of the data, persisted as JSON. *)
Definition fsm_Snapshot (f : fsm) : gmap string bytes := fsm_data f.
Definition fsmSnapshot_Persist (snap : gmap string bytes) : result bytes := json_Encode_map snap.
Definition fsm_Restore (rc : bytes) (f : fsm) : result unit * fsm :=
  match json_Decode_map rc with
  | Ok data => (Ok tt, MkFsm data)
  | Err e => (Err e, f)
  | Panic => (Panic, f)
  end.

(** A replica applies the committed entries in log order. *)
Fixpoint fsm_replay (log : list bytes) (f : fsm) : fsm :=
  match log with
  | [] => f
  | b :: log => fsm_replay log (fsm_Apply b f).2
  end.

(** ** The store *)

Record RaftStore := MkRaftStore {
  rs_raft : raft;
  rs_fsm : fsm;
  rs_encKey : bytes;
  rs_prevEncKey : bytes;
  rs_reads : nat;  (** reads made of the random source *)
}.

Definition rs_set_fsm (r : raft) (f : fsm) (s : RaftStore) : RaftStore :=
  MkRaftStore r f (rs_encKey s) (rs_prevEncKey s) (rs_reads s).
Definition rs_set_keys (key prev : bytes) (s : RaftStore) : RaftStore :=
  MkRaftStore (rs_raft s) (rs_fsm s) key prev (rs_reads s).
Definition rs_next_read (s : RaftStore) : RaftStore :=
  MkRaftStore (rs_raft s) (rs_fsm s) (rs_encKey s) (rs_prevEncKey s) (S (rs_reads s)).

Definition NewRaftStore (cfg : RaftConfig) : result RaftStore :=
  if decide (cfg_NodeID cfg = "") then Err (Errorf "store: NodeID is required")
  else if decide (cfg_EncryptionKey cfg ≠ [] ∧ length (cfg_EncryptionKey cfg) ≠ EncryptionKeySize) then
    Err (Errorf "store: encryption key must be 32 bytes")
  else
    '(r, data) ← raft_open cfg;
    Ok (MkRaftStore r (MkFsm data) (cfg_EncryptionKey cfg) [] 0).

Definition IsLeader (s : RaftStore) : bool := raft_is_leader (rs_raft s).

Definition AddVoter (nodeID addr : string) (s : RaftStore) : result unit * RaftStore :=
  if negb (IsLeader s) then (Err ErrNotLeader, s)
  else let '(r, rf) := raft_AddVoter nodeID addr (rs_raft s) in (r, rs_set_fsm rf (rs_fsm s) s).

(** [apply]: propose the command and wait for it. *)
Definition rs_apply (cmd : command) (s : RaftStore) : result unit * RaftStore :=
  if negb (IsLeader s) then (Err ErrNotLeader, s)
  else
    match json_Marshal_command cmd with
    | Ok b =>
        let '(r, applied, rf) := raft_Apply b (rs_raft s) in
        (r, rs_set_fsm rf (if applied : bool then (fsm_Apply b (rs_fsm s)).2 else rs_fsm s) s)
    | Err e => (Err e, s)
    | Panic => (Panic, s)
    end.

Definition rs_encrypt (plaintext : bytes) (s : RaftStore) : result bytes * RaftStore :=
  match rs_encKey s with
  | [] => (Ok plaintext, s)
  | key => (encryptValue (rs_reads s) key plaintext, rs_next_read s)
  end.

Definition rs_decrypt (stored : bytes) (s : RaftStore) : result bytes :=
  match rs_encKey s with
  | [] => Ok stored
  | key =>
      match decryptValue key stored with
      | Ok plain => Ok plain
      | Panic => Panic
      | Err err =>
          match rs_prevEncKey s with
          | [] => Err err
          | prevKey =>
              match decryptValue prevKey stored with
              | Ok plain => Ok plain
              | Panic => Panic
              | Err _ => Err err
              end
          end
      end
  end.

Definition rs_Get (key : string) (s : RaftStore) : result bytes :=
  stored ← fsm_get key (rs_fsm s);
  rs_decrypt stored s.

Definition rs_Put (key : string) (value : bytes) (s : RaftStore) : result unit * RaftStore :=
  match rs_encrypt value s with
  | (Ok stored, s') => rs_apply (MkCommand "put" key stored) s'
  | (Err e, s') => (Err e, s')
  | (Panic, s') => (Panic, s')
  end.

Definition rs_Delete (key : string) (s : RaftStore) : result unit * RaftStore :=
  rs_apply (MkCommand "delete" key []) s.

(** The loop of [List] over the stored entries: the first value that does not
    decrypt fails the call. *)
Fixpoint decrypt_entries (s : RaftStore) (l : list (string * bytes)) : result (gmap string bytes) :=
  match l with
  | [] => Ok ∅
  | (k, v) :: l =>
      plain ← wrap_result "store: decrypt" (rs_decrypt v s);
      out ← decrypt_entries s l;
      Ok (<[k := plain]> out)
  end.

Definition rs_List (prefix : string) (s : RaftStore) : result (gmap string bytes) :=
  decrypt_entries s (map_to_list (fsm_list prefix (rs_fsm s))).

#[export] Instance RaftStore_Store : Store RaftStore := {|
  store_Get := rs_Get;
  store_Put := rs_Put;
  store_Delete := rs_Delete;
  store_List := rs_List;
|}.

Definition RotateEncryptionKey (newKey : bytes) (s : RaftStore) : result unit * RaftStore :=
  if decide (length newKey ≠ EncryptionKeySize) then
    (Err (Errorf "store: encryption key must be 32 bytes"), s)
  else (Ok tt, rs_set_keys newKey (rs_encKey s) s).

(** The loop of [ReencryptAll] over the decrypted entries: the count of
    entries written, and the error that stopped it if any. *)
Fixpoint reencrypt_loop (count : nat) (l : list (string * bytes)) (s : RaftStore)
    : nat * result unit * RaftStore :=
  match l with
  | [] => (count, Ok tt, s)
  | (k, v) :: l =>
      let '(r, s') := rs_Put k v s in
      match r with
      | Ok _ => reencrypt_loop (S count) l s'
      | r => (count, wrap_result "store: re-encrypt" r, s')
      end
  end.

(** [order] is the order in which Go visits the entries. *)
Definition ReencryptAll (order : list (string * bytes) → list (string * bytes)) (s : RaftStore)
    : nat * result unit * RaftStore :=
  match rs_List "" s with
  | Ok all =>
      let '(count, r, s') := reencrypt_loop 0 (order (map_to_list all)) s in
      match r with
      | Ok _ => (count, Ok tt, rs_set_keys (rs_encKey s') [] s')
      | r => (count, r, s')
      end
  | Err e => (0, Err (Wrapf "store: list values to re-encrypt" e), s)
  | Panic => (0, Panic, s)
  end.

(** ** Healthy replicas

    [raft_stable] is a Raft instance that leads its cluster and commits what
    is proposed to it; a reliable random source never fails. *)

Class RaftReliable := {
  raft_stable : raft → Prop;
  raft_stable_leader r : raft_stable r → raft_is_leader r = true;
  raft_stable_apply r b : raft_stable r →
    ∃ r', raft_Apply b r = (Ok tt, true, r') ∧ raft_stable r';
  rand_reliable i n : is_Ok (rand_Read i n);
}.

(** [sealed k c p]: the stored value [c] is [p] encrypted under [k]. *)
Definition sealed (k c p : bytes) : Prop :=
  ∃ n, length n = gcm_NonceSize ∧ c = n ++ gcm_Seal k n p.

Definition valid_key (k : bytes) : Prop := length k = EncryptionKeySize.

Definition readable (s : RaftStore) : Prop :=
  map_Forall (λ _ c, is_Ok (rs_decrypt c s)) (fsm_data (rs_fsm s)).

(** The plaintext contents of a replica. *)
Definition plain_view (s : RaftStore) : gmap string bytes :=
  omap (λ c, match rs_decrypt c s with Ok p => Some p | _ => None end) (fsm_data (rs_fsm s)).

Context `{!RaftEnvLaws, !RaftReliable}.

Definition rs_healthy (s : RaftStore) : Prop :=
  raft_stable (rs_raft s) ∧ (rs_encKey s = [] ∨ valid_key (rs_encKey s)) ∧ readable s.

(** Decryption only looks at the keys. *)
Lemma rs_decrypt_keys c s s' :
  rs_encKey s = rs_encKey s' → rs_prevEncKey s = rs_prevEncKey s' →
  rs_decrypt c s = rs_decrypt c s'.
Proof. unfold rs_decrypt. by intros -> ->. Qed.

Lemma newGCM_valid k : valid_key k → newGCM k = Ok tt.
Proof.
  intros Hk. unfold newGCM. rewrite decide_False by (unfold valid_key in Hk; lia).
  by rewrite aes_key_size.
Qed.

Lemma decryptValue_sealed k c p : valid_key k → sealed k c p → decryptValue k c = Ok p.
Proof.
  intros Hk (n & Hn & ->). unfold decryptValue. rewrite newGCM_valid by done. simpl.
  rewrite decide_False by (rewrite length_app; lia).
  rewrite <-Hn, take_app_length, drop_app_length. by apply gcm_roundtrip.
Qed.

Lemma decryptValue_wrong_key k k' c p :
  valid_key k' → k ≠ k' → sealed k c p → ∃ e, decryptValue k' c = Err e.
Proof.
  intros Hk' Hne (n & Hn & ->). unfold decryptValue. rewrite newGCM_valid by done. simpl.
  rewrite decide_False by (rewrite length_app; lia).
  rewrite <-Hn, take_app_length, drop_app_length. by apply gcm_wrong_key.
Qed.

Lemma encryptValue_sealed i k p : valid_key k → ∃ c, encryptValue i k p = Ok c ∧ sealed k c p.
Proof.
  intros Hk. unfold encryptValue. rewrite newGCM_valid by done. simpl.
  destruct (rand_reliable i gcm_NonceSize) as [n Hn]. rewrite Hn. simpl.
  eexists. split; [done|]. exists n. split; [|done]. by eapply rand_Read_length.
Qed.

(** A value sealed under either key is read back, whichever key is current. *)
Lemma rs_decrypt_current s c p :
  valid_key (rs_encKey s) → sealed (rs_encKey s) c p → rs_decrypt c s = Ok p.
Proof.
  intros Hk Hc. unfold rs_decrypt. destruct (rs_encKey s); [done|].
  by rewrite (decryptValue_sealed _ _ _ Hk Hc).
Qed.

Lemma rs_decrypt_previous s c p :
  valid_key (rs_encKey s) → valid_key (rs_prevEncKey s) → rs_prevEncKey s ≠ rs_encKey s →
  sealed (rs_prevEncKey s) c p → rs_decrypt c s = Ok p.
Proof.
  intros Hk Hp Hne Hc. unfold rs_decrypt.
  destruct (rs_encKey s), (rs_prevEncKey s); try done.
  destruct (decryptValue_wrong_key _ _ _ _ Hk Hne Hc) as [e ->].
  by rewrite (decryptValue_sealed _ _ _ Hp Hc).
Qed.

(** A value sealed under a key the replica no longer holds is lost to it. *)
Lemma rs_decrypt_lost s k c p :
  valid_key (rs_encKey s) → k ≠ rs_encKey s →
  (rs_prevEncKey s = [] ∨ valid_key (rs_prevEncKey s)) → k ≠ rs_prevEncKey s →
  sealed k c p → ∃ e, rs_decrypt c s = Err e.
Proof.
  intros Hk Hne Hp Hnp Hc. unfold rs_decrypt.
  destruct (rs_encKey s); [done|].
  destruct (decryptValue_wrong_key _ _ _ _ Hk Hne Hc) as [e ->].
  destruct (rs_prevEncKey s); [by eauto|].
  destruct Hp as [?|Hp]; [done|].
  destruct (decryptValue_wrong_key _ _ _ _ Hp Hnp Hc) as [e' ->]. eauto.
Qed.

Lemma rs_apply_stable cmd s :
  raft_stable (rs_raft s) →
  ∃ r' b, json_Marshal_command cmd = Ok b ∧ raft_stable r' ∧
    rs_apply cmd s = (Ok tt, rs_set_fsm r' (fsm_Apply b (rs_fsm s)).2 s).
Proof.
  intros Hr. unfold rs_apply, IsLeader. rewrite raft_stable_leader by done. simpl.
  destruct (json_command_total cmd) as [b Hb]. rewrite Hb.
  destruct (raft_stable_apply _ b Hr) as (r' & -> & Hr'). eauto 6.
Qed.

(** A write on a stable leader stores a value that decrypts to what was
    written, under the current key. *)
Lemma rs_Put_stable k v s :
  raft_stable (rs_raft s) → rs_encKey s = [] ∨ valid_key (rs_encKey s) →
  ∃ s' c, rs_Put k v s = (Ok tt, s') ∧ raft_stable (rs_raft s') ∧
    rs_encKey s' = rs_encKey s ∧ rs_prevEncKey s' = rs_prevEncKey s ∧
    fsm_data (rs_fsm s') = <[k := c]> (fsm_data (rs_fsm s)) ∧
    rs_decrypt c s' = Ok v ∧ (valid_key (rs_encKey s) → sealed (rs_encKey s) c v).
Proof.
  intros Hr Hk. unfold rs_Put.
  assert (∃ c s1, rs_encrypt v s = (Ok c, s1) ∧ rs_raft s1 = rs_raft s ∧ rs_fsm s1 = rs_fsm s ∧
    rs_encKey s1 = rs_encKey s ∧ rs_prevEncKey s1 = rs_prevEncKey s ∧ rs_decrypt c s1 = Ok v ∧
    (valid_key (rs_encKey s) → sealed (rs_encKey s) c v)) as (c & s1 & -> & Hr1 & Hf1 & Hk1 & Hp1 & Hd & Hse).
  { unfold rs_encrypt. destruct (rs_encKey s) as [|b kk] eqn:E.
    - exists v, s. split_and!; try done. unfold rs_decrypt. by rewrite E.
    - destruct Hk as [?|Hk]; [done|].
      destruct (encryptValue_sealed (rs_reads s) (b :: kk) v Hk) as (c & -> & Hc).
      exists c, (rs_next_read s). split_and!; try done.
      apply rs_decrypt_current; simpl; by rewrite E. }
  destruct (rs_apply_stable (MkCommand "put" k c) s1) as (r' & b & Hb & Hr' & ->); [congruence|].
  eexists _, c. split; [done|]. simpl. split_and!; try done.
  unfold fsm_Apply. rewrite (json_command_roundtrip _ _ Hb). simpl. by rewrite Hf1.
Qed.

Lemma rs_Delete_stable k s :
  raft_stable (rs_raft s) →
  ∃ s', rs_Delete k s = (Ok tt, s') ∧ raft_stable (rs_raft s') ∧
    rs_encKey s' = rs_encKey s ∧ rs_prevEncKey s' = rs_prevEncKey s ∧
    fsm_data (rs_fsm s') = delete k (fsm_data (rs_fsm s)).
Proof.
  intros Hr. destruct (rs_apply_stable (MkCommand "delete" k []) s Hr) as (r' & b & Hb & Hr' & Heq).
  unfold rs_Delete. rewrite Heq. eexists. split; [done|]. simpl. split_and!; try done.
  unfold fsm_Apply. by rewrite (json_command_roundtrip _ _ Hb).
Qed.

(** Reading back through the view. *)
Lemma plain_view_lookup s k :
  plain_view s !! k =
    c ← fsm_data (rs_fsm s) !! k; match rs_decrypt c s with Ok p => Some p | _ => None end.
Proof. apply lookup_omap. Qed.

(** The view follows a write to the data when the keys do not move. *)
Lemma plain_view_insert s s' k c p :
  rs_encKey s' = rs_encKey s → rs_prevEncKey s' = rs_prevEncKey s →
  fsm_data (rs_fsm s') = <[k := c]> (fsm_data (rs_fsm s)) → rs_decrypt c s' = Ok p →
  plain_view s' = <[k := p]> (plain_view s).
Proof.
  intros Hk Hp Hd Hc. unfold plain_view. rewrite Hd, omap_insert, Hc. f_equal.
  apply map_eq. intros j. rewrite !lookup_omap.
  destruct (fsm_data _ !! j) as [d|]; [simpl|done]. by rewrite (rs_decrypt_keys d s' s).
Qed.

Lemma plain_view_delete s s' k :
  rs_encKey s' = rs_encKey s → rs_prevEncKey s' = rs_prevEncKey s →
  fsm_data (rs_fsm s') = delete k (fsm_data (rs_fsm s)) →
  plain_view s' = delete k (plain_view s).
Proof.
  intros Hk Hp Hd. unfold plain_view. rewrite Hd, omap_delete. f_equal.
  apply map_eq. intros j. rewrite !lookup_omap.
  destruct (fsm_data _ !! j) as [d|]; [simpl|done]. by rewrite (rs_decrypt_keys d s' s).
Qed.

Lemma readable_insert s s' k c p :
  rs_encKey s' = rs_encKey s → rs_prevEncKey s' = rs_prevEncKey s →
  fsm_data (rs_fsm s') = <[k := c]> (fsm_data (rs_fsm s)) → rs_decrypt c s' = Ok p →
  readable s → readable s'.
Proof.
  intros Hk Hp Hd Hc Hs j d. rewrite Hd, lookup_insert_Some. intros [[_ <-]|[_ Hj]].
  - by eexists.
  - rewrite (rs_decrypt_keys d s' s) by done. by eapply Hs.
Qed.

Lemma readable_delete s s' k :
  rs_encKey s' = rs_encKey s → rs_prevEncKey s' = rs_prevEncKey s →
  fsm_data (rs_fsm s') = delete k (fsm_data (rs_fsm s)) → readable s → readable s'.
Proof.
  intros Hk Hp Hd Hs j d. rewrite Hd, lookup_delete_Some. intros [_ Hj].
  rewrite (rs_decrypt_keys d s' s) by done. by eapply Hs.
Qed.

(** Decrypting a list of readable entries yields the map of plaintexts. *)
Lemma decrypt_entries_Ok s l :
  Forall (λ kv, is_Ok (rs_decrypt kv.2 s)) l → NoDup l.*1 →
  decrypt_entries s l =
    Ok (omap (λ c, match rs_decrypt c s with Ok p => Some p | _ => None end) (list_to_map l)).
Proof.
  induction l as [|[k c] l IH]; simpl; intros Hl Hnd.
  { by rewrite omap_empty. }
  apply Forall_cons in Hl as [[p Hp] Hl]. apply NoDup_cons in Hnd as [Hk Hnd].
  simpl in Hp. rewrite Hp. simpl. rewrite IH by done. simpl. by rewrite omap_insert, Hp.
Qed.

Lemma rs_List_readable s p :
  readable s → rs_List p s = Ok (with_prefix p (plain_view s)).
Proof.
  intros Hs. unfold rs_List. rewrite decrypt_entries_Ok.
  - rewrite list_to_map_to_list. f_equal. apply map_eq. intros k.
    rewrite lookup_omap. unfold with_prefix, fsm_list, plain_view.
    apply option_eq. intros v. rewrite map_lookup_filter_Some, lookup_omap, bind_Some.
    setoid_rewrite with_prefix_lookup. rewrite bind_Some.
    split; [intros (c & [? ?] & ?)|intros [(c & ? & ?) ?]]; eauto.
  - apply Forall_forall. intros [k c] Hkc%elem_of_map_to_list. simpl.
    apply with_prefix_lookup in Hkc as [Hkc _]. by eapply Hs.
  - apply NoDup_fst_map_to_list.
Qed.

#[export] Instance RaftStore_laws : StoreLaws RaftStore.
Proof.
  refine {| store_view := plain_view; store_healthy := rs_healthy |}.
  - intros s k (_ & _ & Hs). simpl. unfold rs_Get, fsm_get. rewrite plain_view_lookup.
    destruct (fsm_data (rs_fsm s) !! k) as [c|] eqn:E; [simpl|done].
    destruct (Hs k c E) as [p Hp]. by rewrite Hp.
  - intros s k v (Hr & Hk & Hs). simpl.
    destruct (rs_Put_stable k v s Hr Hk) as (s' & c & -> & Hr' & Hk' & Hp' & Hd & Hc & _).
    exists s'. split_and!; [done| |by eapply plain_view_insert].
    split_and!; [done|by rewrite Hk'|by eapply readable_insert].
  - intros s k (Hr & Hk & Hs). simpl.
    destruct (rs_Delete_stable k s Hr) as (s' & -> & Hr' & Hk' & Hp' & Hd).
    exists s'. split_and!; [done| |by eapply plain_view_delete].
    split_and!; [done|by rewrite Hk'|by eapply readable_delete].
  - intros s p (_ & _ & Hs). simpl. by apply rs_List_readable.
Defined.

(** ** Key rotation *)

(** The data is [m] with every value sealed under [k]. *)
Definition sealed_as (k : bytes) (m data : gmap string bytes) : Prop :=
  ∀ key, option_Forall2 (λ p c, sealed k c p) (m !! key) (data !! key).

Lemma plain_view_sealed s m k :
  sealed_as k m (fsm_data (rs_fsm s)) →
  (∀ c p, sealed k c p → rs_decrypt c s = Ok p) → plain_view s = m ∧ readable s.
Proof.
  intros Hm Hd. split.
  - apply map_eq. intros key. rewrite plain_view_lookup. specialize (Hm key).
    inversion Hm as [p c Hc Hp He|]; simpl; [by rewrite (Hd _ _ Hc)|done].
  - intros key c Hc. specialize (Hm key). rewrite Hc in Hm.
    inversion Hm as [p c' Hs|]; subst. by exists p; apply Hd.
Qed.

(** Where the entries [l] still to be rewritten are sealed under the old key
    and all the others under the new one. *)
Definition rotating (k0 k1 : bytes) (m : gmap string bytes) (l : list (string * bytes))
    (data : gmap string bytes) : Prop :=
  (∀ key, option_Forall2 (λ p c, sealed k1 c p ∨ (sealed k0 c p ∧ (key, p) ∈ l)) (m !! key) (data !! key)) ∧
  (∀ kv, kv ∈ l → m !! kv.1 = Some kv.2).

Lemma rotating_step k0 k1 m key p l data c :
  rotating k0 k1 m ((key, p) :: l) data → sealed k1 c p →
  rotating k0 k1 m l (<[key := c]> data).
Proof.
  intros [Hd Hl] Hc. split; [|intros kv Hkv; apply Hl; by right].
  intros j. destruct (decide (j = key)) as [->|Hj].
  - rewrite lookup_insert_eq. assert (m !! key = Some p) as -> by (apply (Hl (key, p)); left).
    constructor. by left.
  - rewrite lookup_insert_ne by done. specialize (Hd j).
    inversion Hd as [q d [?|[? Hin]]|]; subst; constructor; [by left|].
    right. split; [done|]. apply elem_of_cons in Hin as [[= -> ->]|?]; done.
Qed.

Lemma reencrypt_loop_Ok k0 k1 m l count s :
  raft_stable (rs_raft s) → valid_key k1 → rs_encKey s = k1 →
  rotating k0 k1 m l (fsm_data (rs_fsm s)) →
  ∃ s', reencrypt_loop count l s = (count + length l, Ok tt, s') ∧
    raft_stable (rs_raft s') ∧ rs_encKey s' = k1 ∧ rotating k0 k1 m [] (fsm_data (rs_fsm s')).
Proof.
  revert count s. induction l as [|[key p] l IH]; intros count s Hr Hk1 Hk Hrot; simpl.
  { exists s. by rewrite Nat.add_0_r. }
  destruct (rs_Put_stable key p s Hr) as (s1 & c & -> & Hr1 & Hk1' & _ & Hd & _ & Hc).
  { right. by rewrite Hk. }
  destruct (IH (S count) s1) as (s' & Hs' & ?); [done|done|congruence| |].
  { rewrite Hd. eapply rotating_step; [done|]. rewrite <-Hk. apply Hc. by rewrite Hk. }
  exists s'. split; [|done]. rewrite Hs'. by rewrite Nat.add_succ_comm.
Qed.

Lemma sealed_as_rotating k0 k1 m l data :
  l ≡ₚ map_to_list m → sealed_as k0 m data → rotating k0 k1 m l data.
Proof.
  intros Hl Hd. split.
  - intros key. specialize (Hd key).
    inversion Hd as [p c Hc Hp|]; subst; constructor. right. split; [done|].
    rewrite Hl. by apply elem_of_map_to_list.
  - intros [k v]. rewrite Hl. apply elem_of_map_to_list.
Qed.

Lemma rotating_done k0 k1 m data : rotating k0 k1 m [] data → sealed_as k1 m data.
Proof.
  intros [Hd _] key. specialize (Hd key).
  inversion Hd as [p c [?|[_ Hin]]|]; subst; constructor; [done|]. by apply not_elem_of_nil in Hin.
Qed.

(** The whole rotation, [RotateEncryptionKey] then [ReencryptAll]. *)
Lemma rotation_correct k0 k1 m s order :
  raft_stable (rs_raft s) → valid_key k0 → valid_key k1 → k0 ≠ k1 →
  rs_encKey s = k0 → sealed_as k0 m (fsm_data (rs_fsm s)) → (∀ l, order l ≡ₚ l) →
  ∃ s1 s2, RotateEncryptionKey k1 s = (Ok tt, s1) ∧
    plain_view s1 = m ∧ readable s1 ∧
    ReencryptAll order s1 = (size m, Ok tt, s2) ∧
    rs_encKey s2 = k1 ∧ rs_prevEncKey s2 = [] ∧
    sealed_as k1 m (fsm_data (rs_fsm s2)) ∧ plain_view s2 = m ∧ raft_stable (rs_raft s2).
Proof.
  intros Hr Hk0 Hk1 Hne Hk Hm Ho. unfold RotateEncryptionKey.
  rewrite decide_False by (unfold valid_key in Hk1; lia).
  set (s1 := rs_set_keys k1 (rs_encKey s) s).
  destruct (plain_view_sealed s1 m k0) as [Hv1 Hr1]; [done| |].
  { intros c p Hc. apply rs_decrypt_previous; simpl; by rewrite ?Hk. }
  destruct (reencrypt_loop_Ok k0 k1 m (order (map_to_list m)) 0 s1)
    as (s2 & Hloop & Hst & Hk2 & Hrot%rotating_done); [done..| |].
  { by apply sealed_as_rotating. }
  exists s1, (rs_set_keys k1 [] s2). split_and!; try done.
  - unfold ReencryptAll. rewrite rs_List_readable, with_prefix_empty, Hv1 by done.
    rewrite Hloop. simpl. rewrite Hk2. do 2 f_equal. by rewrite Ho, length_map_to_list.
  - apply (plain_view_sealed _ m k1); [done|]. intros c p Hc. by apply rs_decrypt_current.
Qed.

(** ** Theorems *)

(** C3: while the replica is healthy (a stable leader, a usable key, readable
    values) the replicated store refines the finite map: for every sequence of
    operations its clients observe exactly what the in-memory store would show
    them on the plaintext view, it stays healthy, and its view tracks the map. *)
Theorem raft_store_refines_map (os : list store_op) (s : RaftStore) :
  rs_healthy s →
  let '(rs, s') := run_ops os s in
  let '(rs', m') := run_ops os (MkMemStore (plain_view s)) in
  rs = rs' ∧ rs_healthy s' ∧ plain_view s' = mem_data m'.
Proof. exact (run_ops_simulates_map (S := RaftStore) os s). Qed.

(** Rotating to a fresh key and re-encrypting, in whatever order Go visits
    the entries, loses nothing: between the two steps every value is still
    readable through the previous key, [ReencryptAll] rewrites all of them and
    reports their number, and afterwards every value is sealed under the new
    key alone and the previous key is forgotten. *)
Theorem rotation_preserves_data k0 k1 m s order :
  raft_stable (rs_raft s) → valid_key k0 → valid_key k1 → k0 ≠ k1 →
  rs_encKey s = k0 → sealed_as k0 m (fsm_data (rs_fsm s)) → (∀ l, order l ≡ₚ l) →
  ∃ s1 s2, RotateEncryptionKey k1 s = (Ok tt, s1) ∧
    plain_view s1 = m ∧ readable s1 ∧
    ReencryptAll order s1 = (size m, Ok tt, s2) ∧
    rs_encKey s2 = k1 ∧ rs_prevEncKey s2 = [] ∧
    sealed_as k1 m (fsm_data (rs_fsm s2)) ∧ plain_view s2 = m.
Proof.
  intros. destruct (rotation_correct k0 k1 m s order) as (s1 & s2 & ?); [done..|].
  exists s1, s2. naive_solver.
Qed.

(** The rotated key lives only in memory.  A replica that restarts with the
    key it was configured with, over data re-encrypted under a rotated key,
    opens successfully and then fails to read every stored value. *)
Theorem restart_after_rotation_unreadable cfg r data m k0 k1 s key p :
  valid_key k0 → valid_key k1 → k0 ≠ k1 → cfg_EncryptionKey cfg = k0 →
  raft_open cfg = Ok (r, data) → NewRaftStore cfg = Ok s →
  sealed_as k1 m data → m !! key = Some p →
  ∃ e, rs_Get key s = Err e.
Proof.
  intros Hk0 Hk1 Hne Hcfg Hopen Hnew Hm Hp. unfold NewRaftStore in Hnew.
  repeat case_decide; try done. rewrite Hopen in Hnew. injection Hnew as <-.
  specialize (Hm key). rewrite Hp in Hm. inversion Hm as [? c Hc Hq Hdc|]; subst.
  unfold rs_Get, fsm_get. simpl. rewrite <-Hdc. simpl.
  eapply rs_decrypt_lost; simpl; [done| |by left| |done]; [done|by intros ->].
Qed.

(** Only a leader accepts writes; elsewhere the write is refused with
    [ErrNotLeader] and the replicated data is untouched. *)
Theorem follower_refuses_writes k v s c s1 :
  IsLeader s = false → rs_encrypt v s = (Ok c, s1) →
  rs_Put k v s = (Err ErrNotLeader, s1) ∧ rs_fsm s1 = rs_fsm s ∧
  rs_Delete k s = (Err ErrNotLeader, s) ∧ AddVoter k k s = (Err ErrNotLeader, s).
Proof.
  intros Hl He. unfold rs_Put, rs_Delete, AddVoter, rs_apply. rewrite He, Hl.
  assert (rs_fsm s1 = rs_fsm s ∧ IsLeader s1 = IsLeader s) as [-> ->].
  { unfold rs_encrypt in He. by destruct (rs_encKey s); simplify_eq. }
  by rewrite Hl.
Qed.

(** A snapshot followed by the rest of the log rebuilds the same replica:
    restoring what [Persist] wrote after the first entries and replaying the
    others gives the state reached by replaying the whole log. *)
Theorem snapshot_restore_replay (l1 l2 : list bytes) f g snap :
  fsmSnapshot_Persist (fsm_Snapshot (fsm_replay l1 f)) = Ok snap →
  fsm_replay (l1 ++ l2) f = fsm_replay l2 (fsm_Restore snap g).2 ∧
  (fsm_Restore snap g).1 = Ok tt.
Proof.
  unfold fsmSnapshot_Persist, fsm_Snapshot, fsm_Restore. intros Hs.
  rewrite (json_map_roundtrip _ _ Hs). split; [|done]. clear Hs.
  revert f. induction l1 as [|b l1 IH]; intros f; simpl; [by destruct f|]. apply IH.
Qed.

End raft_store.

(** ** A concrete environment

    An instance of [RaftEnv] that satisfies the laws: a one-node Raft that
    commits everything, an authenticated toy cipher (the message tagged with
    its key) and a constant random source. *)

Module DemoRaft.

Definition demo_seal (k n p : bytes) : bytes := ser (A := bytes) k ++ p.
Definition demo_open (k n c : bytes) : result bytes :=
  match des (A := bytes) c with
  | Some (k', p) => if decide (k = k') then Ok p else Err (Errorf "cipher: message authentication failed")
  | None => Err (Errorf "cipher: message authentication failed")
  end.

Definition demo_marshal (c : command) : result bytes :=
  Ok (ser (cmd_Op c, (cmd_Key c, cmd_Value c))).
Definition demo_unmarshal (b : bytes) : result command :=
  match des (A := string * (string * bytes)) b with
  | Some ((o, (k, v)), _) => Ok (MkCommand o k v)
  | None => Err (Errorf "json")
  end.
Definition demo_encode (m : gmap string bytes) : result bytes := Ok (ser m).
Definition demo_decode (b : bytes) : result (gmap string bytes) :=
  match des (A := gmap string bytes) b with Some (m, _) => Ok m | None => Err (Errorf "json") end.

Definition key0 : bytes := replicate 32 x01.
Definition key1 : bytes := replicate 32 x02.
Definition nonce0 : bytes := replicate 12 x00.
Definition contents : gmap string bytes := {[ "/registry/pods/default/web-0" := [x2a] ]}.
Definition sealed_contents (k : bytes) : gmap string bytes :=
  (λ p, nonce0 ++ demo_seal k nonce0 p) <$> contents.

(** The data directory holds the contents re-encrypted under [key1]. *)
#[export] Instance demo_env : RaftEnv := {|
  raft := bool;
  raft_is_leader r := r;
  raft_Apply b r := (Ok tt, true, r);
  raft_AddVoter _ _ r := (Ok tt, r);
  raft_open cfg := Ok (true, sealed_contents key1);
  json_Marshal_command := demo_marshal;
  json_Unmarshal_command := demo_unmarshal;
  json_Encode_map := demo_encode;
  json_Decode_map := demo_decode;
  aes_NewCipher k := Ok tt;
  gcm_NonceSize := 12;
  gcm_Seal := demo_seal;
  gcm_Open := demo_open;
  rand_Read i n := Ok (replicate n x00);
|}.

#[export] Instance demo_laws : RaftEnvLaws.
Proof.
  split; cbn [json_Marshal_command json_Unmarshal_command json_Encode_map json_Decode_map
    aes_NewCipher gcm_NonceSize gcm_Seal gcm_Open rand_Read demo_env].
  - intros [o k v] b Hb. assert (b = ser (o, (k, v))) as -> by (symmetry; injection Hb; done).
    unfold demo_unmarshal. by rewrite des_ser_nil.
  - by eexists.
  - intros m b Hb. assert (b = ser m) as -> by (symmetry; injection Hb; done).
    unfold demo_decode. by rewrite des_ser_nil.
  - done.
  - intros k n p _ _. unfold demo_open, demo_seal. rewrite des_ser. by rewrite decide_True.
  - intros k k' n p Hne. unfold demo_open, demo_seal. rewrite des_ser.
    rewrite decide_False by congruence. eauto.
  - intros i n b [= <-]. apply length_replicate.
Qed.

#[export] Instance demo_reliable : RaftReliable.
Proof.
  refine {| raft_stable (r : raft) := r = true |}; simpl.
  - done.
  - intros r b ->. by exists true.
  - by eexists.
Defined.

Definition leader : RaftStore := MkRaftStore true (MkFsm (sealed_contents key0)) key0 [] 0.
Definition follower : RaftStore := MkRaftStore false (MkFsm (sealed_contents key0)) key0 [] 0.
Definition restarted : RaftStore := MkRaftStore true (MkFsm (sealed_contents key1)) key0 [] 0.
Definition restart_cfg : RaftConfig := MkRaftConfig "n1" ":7946" "./data" true key0.

Lemma sealed_contents_ok k : sealed_as k contents (sealed_contents k).
Proof.
  intros key. unfold sealed_contents. rewrite lookup_fmap.
  destruct (contents !! key) as [p|]; simpl; constructor. by exists nonce0.
Qed.

Lemma leader_healthy : rs_healthy leader.
Proof.
  split; [done|]. split; [by right|].
  eapply (plain_view_sealed leader contents key0); [apply sealed_contents_ok|].
  intros c p Hc. by apply rs_decrypt_current.
Qed.

Lemma raft_store_refines_map_witness :
  rs_healthy leader ∧
  (run_ops [OpPut "a" [x07]; OpGet "a"; OpDelete "a"; OpGet "a"] leader).1 =
  [ObsUnit (Ok tt); ObsGet (Ok [x07]); ObsUnit (Ok tt); ObsGet (Err ErrNotFound)].
Proof.
  split; [apply leader_healthy|].
  pose proof (raft_store_refines_map [OpPut "a" [x07]; OpGet "a"; OpDelete "a"; OpGet "a"]
    leader leader_healthy) as H.
  destruct (run_ops _ leader) as [rs s'].
  destruct (run_ops _ (MkMemStore _)) as [rs' m'] eqn:E. destruct H as (-> & _ & _).
  simpl in E. injection E as <- _. reflexivity.
Defined.

Lemma rotation_preserves_data_witness :
  ∃ s1 s2, RotateEncryptionKey key1 leader = (Ok tt, s1) ∧
    ReencryptAll (@rev _) s1 = (1, Ok tt, s2) ∧ plain_view s2 = contents.
Proof.
  destruct (rotation_preserves_data key0 key1 contents leader (@rev _))
    as (s1 & s2 & H1 & _ & _ & H2 & _ & _ & _ & H3);
    [reflexivity|reflexivity|reflexivity|discriminate|reflexivity|apply sealed_contents_ok
    |intros l; symmetry; apply Permutation_rev|].
  exists s1, s2. split; [exact H1|]. split; [exact H2|exact H3].
Defined.

Lemma restart_after_rotation_unreadable_witness :
  ∃ s e, NewRaftStore restart_cfg = Ok s ∧ rs_Get "/registry/pods/default/web-0" s = Err e.
Proof.
  destruct (restart_after_rotation_unreadable restart_cfg (true : @raft demo_env) (sealed_contents key1) contents
    key0 key1 restarted
    "/registry/pods/default/web-0" [x2a]) as [e He];
    [reflexivity|reflexivity|discriminate|reflexivity|reflexivity|reflexivity
    |apply sealed_contents_ok|reflexivity|].
  do 2 eexists. split; [reflexivity|exact He].
Defined.

Lemma follower_refuses_writes_witness :
  ∃ s1, rs_Put "a" [x07] follower = (Err ErrNotLeader, s1) ∧ rs_fsm s1 = rs_fsm follower.
Proof.
  destruct (follower_refuses_writes "a" [x07] follower
    (nonce0 ++ demo_seal key0 nonce0 [x07]) (rs_next_read follower)) as (H1 & H2 & _);
    [reflexivity|reflexivity|].
  exists (rs_next_read follower). split; [exact H1|exact H2].
Defined.

Lemma snapshot_restore_replay_witness :
  ∃ b snap, demo_marshal (MkCommand "put" "k" [x01]) = Ok b ∧
    fsmSnapshot_Persist (fsm_Snapshot (fsm_replay [b] (MkFsm ∅))) = Ok snap ∧
    fsm_data (fsm_replay [b] (fsm_Restore snap (MkFsm ∅)).2) = {[ "k" := [x01] ]}.
Proof.
  set (b := ser ("put", ("k", [x01]))).
  set (snap := ser ({[ "k" := [x01] ]} : gmap string bytes)).
  destruct (snapshot_restore_replay [b] [b] (MkFsm ∅) (MkFsm ∅) snap) as [H _];
    [vm_compute; reflexivity|].
  exists b, snap. split; [reflexivity|]. split; [vm_compute; reflexivity|].
  rewrite <-H. vm_compute. reflexivity.
Defined.

End DemoRaft.
