(* ===== verification/Registry.v ===== *)
(** * Registry: typed object registries over a store

    internal/registry/registry.go.  A registry stores the objects of one kind
    under "/registry/<kind>/[<namespace>/]<name>".  The definitions run in the
    monad of Prelude.v over any [Store] and any protobuf codec; the lemmas
    show that on a healthy store a registry is a finite map of decoded
    objects, [objs], that kinds do not interfere, and when keys collide. *)

From stdpp Require Import gmap strings list.
From S2P Require Import Prelude Api Codec Store.

Record Registry (T : Type) := NewRegistry { reg_kind : string }.
Arguments NewRegistry {T} reg_kind.
Arguments reg_kind {T} r.

Definition reg_prefix {T} (r : Registry T) (namespace : string) : string :=
  if decide (namespace = "") then "/registry/" +:+ reg_kind r +:+ "/"
  else "/registry/" +:+ reg_kind r +:+ "/" +:+ namespace +:+ "/".

Definition reg_key {T} (r : Registry T) (namespace name : string) : string :=
  if decide (namespace = "") then "/registry/" +:+ reg_kind r +:+ "/" +:+ name
  else "/registry/" +:+ reg_kind r +:+ "/" +:+ namespace +:+ "/" +:+ name.

Section registry.
Context {S : Type} `{!Store S} {Sh : Shuffle}.

(** The store operations, lifted to the monad. *)
Definition s_get (k : string) : M S bytes := λ w, (store_Get k (w_store w), w).
Definition s_put (k : string) (v : bytes) : M S unit := λ w,
  let '(r, s) := store_Put k v (w_store w) in (r, World s (w_tick w)).
Definition s_delete (k : string) : M S unit := λ w,
  let '(r, s) := store_Delete k (w_store w) in (r, World s (w_tick w)).
Definition s_list (p : string) : M S (gmap string bytes) := λ w, (store_List p (w_store w), w).

Context {T : Type} `{!ProtoMessage T}.

Definition reg_Put (r : Registry T) (namespace name : string) (obj : T) : M S unit :=
  b ← lift (wrap_result "registry: marshal" (Marshal obj));
  s_put (reg_key r namespace name) b.

Definition reg_Get (r : Registry T) (namespace name : string) : M S T :=
  b ← s_get (reg_key r namespace name);
  lift (wrap_result "registry: unmarshal" (Unmarshal b)).

Definition reg_Delete (r : Registry T) (namespace name : string) : M S unit :=
  s_delete (reg_key r namespace name).

(** The loop of [List] over the raw entries. *)
Fixpoint unmarshal_all (l : list (string * bytes)) : result (list T) :=
  match l with
  | [] => Ok []
  | (_, b) :: l =>
      obj ← wrap_result "registry: unmarshal" (Unmarshal b);
      out ← unmarshal_all l;
      Ok (obj :: out)
  end.

Definition reg_List (r : Registry T) (namespace : string) : M S (list T) :=
  raw ← wrapM "registry: list" (s_list (reg_prefix r namespace));
  entries ← range (map_to_list raw);
  lift (unmarshal_all entries).

End registry.

(** ** The abstraction: a map of objects *)

(** The objects of a registry, by full key, in the contents [m] of a store. *)
Definition objs {T} `{!ProtoMessage T} (r : Registry T) (m : gmap string bytes) : gmap string T :=
  omap (λ b, match Unmarshal b with Ok x => Some x | _ => None end) (with_prefix (reg_prefix r "") m).

(** Every stored entry of the registry decodes. *)
Definition decodable {T} `{!ProtoMessage T} (r : Registry T) (m : gmap string bytes) : Prop :=
  ∀ k b, m !! k = Some b → HasPrefix k (reg_prefix r "") = true → is_Ok (Unmarshal b : result T).

(** Kinds are path segments: they contain no separator. *)
Definition simple (s : string) : Prop := contains_char slash s = false.

Lemma reg_prefix_root {T} (r : Registry T) : reg_prefix r "" = "/registry/" +:+ reg_kind r +:+ "/".
Proof. reflexivity. Qed.

Lemma reg_prefix_ns {T} (r : Registry T) ns :
  ns ≠ "" → reg_prefix r ns = reg_prefix r "" +:+ ns +:+ "/".
Proof.
  intros Hns. rewrite reg_prefix_root. unfold reg_prefix. rewrite decide_False by done.
  by rewrite !string_app_assoc.
Qed.

Lemma reg_key_prefix {T} (r : Registry T) ns name : HasPrefix (reg_key r ns name) (reg_prefix r "") = true.
Proof.
  apply HasPrefix_iff. rewrite reg_prefix_root. unfold reg_key. case_decide.
  - exists name. by rewrite !string_app_assoc.
  - exists (ns +:+ "/" +:+ name). by rewrite !string_app_assoc.
Qed.

(** A key starts with the prefix of the namespace it was built for. *)
Lemma reg_key_prefix_ns {T} (r : Registry T) ns name :
  HasPrefix (reg_key r ns name) (reg_prefix r ns) = true.
Proof.
  apply HasPrefix_iff. exists name. unfold reg_key, reg_prefix.
  case_decide; by rewrite !string_app_assoc.
Qed.

Lemma HasPrefix_ns_kind {T} (r : Registry T) ns k :
  HasPrefix k (reg_prefix r ns) = true → HasPrefix k (reg_prefix r "") = true.
Proof.
  destruct (decide (ns = "")) as [->|Hns]; [done|].
  rewrite !HasPrefix_iff, (reg_prefix_ns _ _ Hns). intros [t ->].
  eexists. by rewrite string_app_assoc.
Qed.

(** Different kinds never share a key. *)
Lemma kinds_disjoint {T U} (r : Registry T) (q : Registry U) k :
  simple (reg_kind r) → simple (reg_kind q) → reg_kind r ≠ reg_kind q →
  HasPrefix k (reg_prefix r "") = true → HasPrefix k (reg_prefix q "") = false.
Proof.
  intros Hr Hq Hne Hkr. apply not_true_is_false. intros Hkq. apply Hne.
  apply HasPrefix_iff in Hkr as [t Ht]. apply HasPrefix_iff in Hkq as [u Hu].
  rewrite !reg_prefix_root in *. rewrite Ht in Hu. rewrite !string_app_assoc in Hu.
  apply (inj (String.append _)) in Hu. by apply (app_sep_inj slash) in Hu as [? _].
Qed.

(** Registry keys are injective on path-segment namespaces and names. *)
Lemma reg_key_inj {T} (r : Registry T) ns ns' n n' :
  simple ns → simple ns' → simple n → simple n' →
  reg_key r ns n = reg_key r ns' n' → ns = ns' ∧ n = n'.
Proof.
  unfold simple, reg_key. intros Hns Hns' Hn Hn'.
  assert (∀ a b c, contains_char slash a = false → a = b +:+ "/" +:+ c → False) as Hno.
  { intros a b c Ha ->. rewrite contains_char_app in Ha.
    by apply orb_false_elim in Ha as [_ ?]. }
  repeat case_decide; intros Heq; repeat apply (inj (String.append _)) in Heq.
  - by subst.
  - by destruct (Hno _ _ _ Hn Heq).
  - by destruct (Hno _ _ _ Hn' (eq_sym Heq)).
  - by apply (app_sep_inj slash) in Heq.
Qed.

Section registry_laws.
Context {T : Type} `{!ProtoMessage T}.

Lemma objs_lookup (r : Registry T) m k x :
  objs r m !! k = Some x ↔
  ∃ b, m !! k = Some b ∧ HasPrefix k (reg_prefix r "") = true ∧ Unmarshal b = Ok x.
Proof.
  unfold objs. rewrite lookup_omap, bind_Some. setoid_rewrite with_prefix_lookup.
  split.
  - intros (b & [Hb Hp] & Hx). exists b. split_and!; [done..|]. by destruct (Unmarshal b); simplify_eq.
  - intros (b & Hb & Hp & Hx). exists b. by rewrite Hx.
Qed.

Lemma objs_insert `{!ProtoLaws T} (r : Registry T) m ns name x b :
  Marshal x = Ok b →
  objs r (<[reg_key r ns name := b]> m) = <[reg_key r ns name := x]> (objs r m).
Proof.
  intros Hb. apply map_eq. intros k. apply option_eq. intros y.
  rewrite objs_lookup, lookup_insert_Some.
  destruct (decide (reg_key r ns name = k)) as [<-|Hk].
  - setoid_rewrite lookup_insert_eq. split.
    + intros (b' & [= <-] & _ & Hy). rewrite (Unmarshal_Marshal _ _ Hb) in Hy. left. by simplify_eq.
    + intros [[_ <-]|[? _]]; [|done]. exists b.
      split_and!; [done|apply reg_key_prefix|by apply Unmarshal_Marshal].
  - setoid_rewrite lookup_insert_ne; [|done..]. rewrite objs_lookup. naive_solver.
Qed.

Lemma objs_delete (r : Registry T) m k : objs r (delete k m) = delete k (objs r m).
Proof.
  apply map_eq. intros j. apply option_eq. intros y.
  rewrite objs_lookup, lookup_delete_Some, objs_lookup. setoid_rewrite lookup_delete_Some. naive_solver.
Qed.

(** Writes to another kind leave the registry alone. *)
Lemma objs_other_insert (r : Registry T) m k b :
  HasPrefix k (reg_prefix r "") = false → objs r (<[k := b]> m) = objs r m.
Proof.
  intros Hk. apply map_eq. intros j. apply option_eq. intros y. rewrite !objs_lookup.
  destruct (decide (k = j)) as [<-|Hne].
  - split; intros (? & ? & ? & ?); congruence.
  - by setoid_rewrite lookup_insert_ne.
Qed.

Lemma objs_other_delete (r : Registry T) m k :
  HasPrefix k (reg_prefix r "") = false → objs r (delete k m) = objs r m.
Proof.
  intros Hk. rewrite objs_delete. apply delete_id.
  destruct (objs r m !! k) as [x|] eqn:E; [|done].
  apply objs_lookup in E as (? & ? & ? & ?). congruence.
Qed.

Lemma decodable_insert `{!ProtoLaws T} (r : Registry T) m k b x :
  Marshal x = Ok b → decodable r m → decodable r (<[k := b]> m).
Proof.
  intros Hb Hm j c. rewrite lookup_insert_Some. intros [[_ <-]|[_ Hj]] Hp; [|by eapply Hm].
  exists x. by apply Unmarshal_Marshal.
Qed.

Lemma decodable_other_insert (r : Registry T) m k b :
  HasPrefix k (reg_prefix r "") = false → decodable r m → decodable r (<[k := b]> m).
Proof.
  intros Hk Hm j c. rewrite lookup_insert_Some. intros [[<- _]|[_ Hj]] Hp; [congruence|by eapply Hm].
Qed.

Lemma decodable_delete (r : Registry T) m k : decodable r m → decodable r (delete k m).
Proof. intros Hm j c. rewrite lookup_delete_Some. intros [_ Hj]. by eapply Hm. Qed.

Lemma unmarshal_all_Ok (l : list (string * bytes)) :
  Forall (λ kv, is_Ok (Unmarshal kv.2 : result T)) l →
  unmarshal_all l =
    Ok (omap (λ kv, match Unmarshal kv.2 with Ok x => Some x | _ => None end) l : list T).
Proof.
  induction l as [|[k b] l IH]; simpl; [done|]. intros [[x Hx] Hl]%Forall_cons. simpl in Hx.
  rewrite Hx. simpl. by rewrite IH.
Qed.

(** ** The operations on a healthy store *)

Context {S : Type} `{!Store S, !StoreLaws S} {Sh : Shuffle}.

Definition w_view (w : world S) : gmap string bytes := store_view (w_store w).
Definition w_healthy (w : world S) : Prop := store_healthy (w_store w).

Lemma reg_Put_spec `{!ProtoLaws T} (r : Registry T) ns name x (w : world S) :
  w_healthy w →
  ∃ w' b, reg_Put r ns name x w = (Ok tt, w') ∧ w_healthy w' ∧ Marshal x = Ok b ∧
    w_view w' = <[reg_key r ns name := b]> (w_view w).
Proof.
  intros Hw. destruct (Marshal_total x) as [b Hb].
  unfold reg_Put. rewrite Hb. unfold mbind, M_mbind, M_bind, lift; simpl. unfold s_put.
  destruct (store_Put_law (w_store w) (reg_key r ns name) b Hw) as (s' & -> & Hs' & Hv).
  by exists (World s' (w_tick w)), b.
Qed.

Lemma reg_Delete_spec (r : Registry T) ns name (w : world S) :
  w_healthy w →
  ∃ w', reg_Delete r ns name w = (Ok tt, w') ∧ w_healthy w' ∧
    w_view w' = delete (reg_key r ns name) (w_view w).
Proof.
  intros Hw. unfold reg_Delete, s_delete.
  destruct (store_Delete_law (w_store w) (reg_key r ns name) Hw) as (s' & -> & Hs' & Hv).
  by exists (World s' (w_tick w)).
Qed.

Lemma reg_Get_spec (r : Registry T) ns name (w : world S) :
  w_healthy w → decodable r (w_view w) →
  reg_Get r ns name w =
    (match objs r (w_view w) !! reg_key r ns name with Some x => Ok x | None => Err ErrNotFound end, w).
Proof.
  intros Hw Hd. unfold reg_Get, mbind, M_mbind, M_bind, s_get.
  rewrite store_Get_law by done. change (store_view (w_store w)) with (w_view w).
  destruct (w_view w !! reg_key r ns name) as [b|] eqn:Hb.
  - destruct (Hd _ _ Hb (reg_key_prefix r ns name)) as [x Hx].
    assert (objs r (w_view w) !! reg_key r ns name = Some x) as ->.
    { apply objs_lookup. eauto using reg_key_prefix. }
    unfold lift. by rewrite Hx.
  - destruct (objs _ _ !! _) as [x|] eqn:E; [|done].
    apply objs_lookup in E as (? & ? & _). congruence.
Qed.

(** The objects of a namespace: those whose key has the namespace prefix. *)
Definition objs_in (r : Registry T) (ns : string) (m : gmap string bytes) : gmap string T :=
  with_prefix (reg_prefix r ns) (objs r m).

(** [List] returns each object of the namespace once, in some order. *)
Lemma reg_List_spec (r : Registry T) ns (w : world S) :
  w_healthy w → decodable r (w_view w) →
  ∃ l w', reg_List r ns w = (Ok l, w') ∧ w_store w' = w_store w ∧
    l ≡ₚ (map_to_list (objs_in r ns (w_view w))).*2.
Proof.
  intros Hw Hd. unfold reg_List.
  assert (wrapM "registry: list" (s_list (reg_prefix r ns)) w =
    (Ok (with_prefix (reg_prefix r ns) (w_view w)), w)) as Hl.
  { unfold wrapM, s_list. by rewrite store_List_law. }
  mstep Hl. set (raw := with_prefix (reg_prefix r ns) (w_view w)).
  set (es := shuffle (w_tick w) (map_to_list raw)).
  assert (es ≡ₚ map_to_list raw) as Hes by apply shuffle_perm.
  assert (range (map_to_list raw) w = (Ok es, World (w_store w) (Datatypes.S (w_tick w)))) as Hr by done.
  mstep Hr. unfold lift. rewrite unmarshal_all_Ok.
  2: { rewrite Hes. apply Forall_forall. intros [k b] Hkb%elem_of_map_to_list. simpl.
       apply with_prefix_lookup in Hkb as [Hb Hp]. eapply Hd; [done|]. by eapply HasPrefix_ns_kind. }
  do 2 eexists. split; [done|]. split; [done|].
  rewrite Hes. etrans; [symmetry; apply (values_omap
    (λ b, match Unmarshal b with Ok x => Some x | _ => None end : option T))|].
  f_equiv. f_equiv. apply map_eq. intros k. apply option_eq. intros x.
  unfold objs_in. rewrite with_prefix_lookup, objs_lookup, lookup_omap, bind_Some. unfold raw.
  setoid_rewrite with_prefix_lookup. split.
  - intros (b & [Hb Hp] & Hx). split; [|done]. exists b.
    split_and!; [done|by eapply HasPrefix_ns_kind|]. by destruct (Unmarshal b); simplify_eq.
  - intros [(b & Hb & _ & Hx) Hp]. exists b. by rewrite Hx.
Qed.
End registry_laws.

(** ** Theorems *)

Section registry_theorems.
Context {T : Type} `{!ProtoMessage T, !ProtoLaws T}.
Context {S : Type} `{!Store S, !StoreLaws S} {Sh : Shuffle}.

(** Storing an object and reading it back.  On a healthy store [Put]
    succeeds; [Get] with the same namespace and name returns the object; the
    registry as a whole is the old one with that entry replaced, so listing
    the namespace now returns the object; a registry of any other kind is
    unchanged. *)
Theorem registry_put_get_list (r : Registry T) ns name x (w : world S) :
  w_healthy w → decodable r (w_view w) → simple (reg_kind r) →
  ∃ w', reg_Put r ns name x w = (Ok tt, w') ∧ w_healthy w' ∧
    reg_Get r ns name w' = (Ok x, w') ∧
    objs r (w_view w') = <[reg_key r ns name := x]> (objs r (w_view w)) ∧
    (∃ l w2, reg_List r ns w' = (Ok l, w2) ∧ x ∈ l) ∧
    (∀ U (HU : ProtoMessage U) (q : Registry U), simple (reg_kind q) → reg_kind q ≠ reg_kind r →
       objs q (w_view w') = objs q (w_view w)).
Proof.
  intros Hw Hd Hr. destruct (reg_Put_spec r ns name x w Hw) as (w' & b & Hput & Hw' & Hb & Hv).
  assert (decodable r (w_view w')) as Hd' by (rewrite Hv; by eapply decodable_insert).
  assert (objs r (w_view w') = <[reg_key r ns name := x]> (objs r (w_view w))) as Ho
    by (rewrite Hv; by apply objs_insert).
  exists w'. split_and!; [done|done| |done| |].
  - by rewrite reg_Get_spec, Ho, lookup_insert_eq by done.
  - destruct (reg_List_spec r ns w' Hw' Hd') as (l & w2 & Hl & _ & Hp). exists l, w2. split; [done|].
    rewrite Hp. apply list_elem_of_fmap. exists (reg_key r ns name, x). split; [done|].
    apply elem_of_map_to_list, with_prefix_lookup. rewrite Ho, lookup_insert_eq.
    split; [done|apply reg_key_prefix_ns].
  - intros U HU q Hq Hne. rewrite Hv. apply objs_other_insert.
    eapply (kinds_disjoint r q); [done..|by apply not_eq_sym|apply reg_key_prefix].
Qed.

(** Deleting an object removes that entry and nothing else. *)
Theorem registry_delete (r : Registry T) ns name (w : world S) :
  w_healthy w → decodable r (w_view w) →
  ∃ w', reg_Delete r ns name w = (Ok tt, w') ∧
    reg_Get r ns name w' = (Err ErrNotFound, w') ∧
    objs r (w_view w') = delete (reg_key r ns name) (objs r (w_view w)).
Proof.
  intros Hw Hd. destruct (reg_Delete_spec r ns name w Hw) as (w' & Hdel & Hw' & Hv).
  assert (decodable r (w_view w')) as Hd' by (rewrite Hv; by apply decodable_delete).
  exists w'. rewrite reg_Get_spec, Hv, objs_delete, lookup_delete_eq by done. done.
Qed.

End registry_theorems.

(** Two objects of a kind have the same key only if they have the same
    namespace and name, as long as neither contains a slash. *)
Theorem registry_key_injective {T} (r : Registry T) ns ns' n n' :
  simple ns → simple ns' → simple n → simple n' →
  reg_key r ns n = reg_key r ns' n' → ns = ns' ∧ n = n'.
Proof. apply reg_key_inj. Qed.

(** Names are not checked for slashes, and with them keys do collide: an
    object named "a/b" outside any namespace has the key of the object "b" of
    the namespace "a", so creating one overwrites the other. *)
Theorem registry_key_collision {T} (r : Registry T) a b :
  a ≠ "" → reg_key r "" (a +:+ "/" +:+ b) = reg_key r a b.
Proof. intros Ha. unfold reg_key. by rewrite (decide_False (P := a = "")). Qed.

(** ** Witnesses *)

Import Codec.Reference.

Definition demo_pods : Registry Pod := NewRegistry "pods".
Definition demo_pod : Pod := MkPod (Some (MkObjectMeta "web" "default" "" "" ∅ 0)) None None.
Definition demo_world : world memStore := World NewMemStore 0.

Lemma demo_world_decodable : decodable demo_pods (w_view demo_world).
Proof. by intros k b Hk. Qed.

Lemma registry_put_get_list_witness :
  ∃ w', reg_Get demo_pods "default" "web" w' = (Ok demo_pod, w').
Proof.
  destruct (registry_put_get_list (Sh := shuffle_id) demo_pods "default" "web" demo_pod demo_world)
    as (w' & _ & _ & H & _); [exact I|apply demo_world_decodable|reflexivity|].
  exists w'. exact H.
Defined.

Lemma registry_delete_witness :
  ∃ w', reg_Get demo_pods "default" "web" w' = (Err ErrNotFound, w').
Proof.
  destruct (registry_delete demo_pods "default" "web" demo_world) as (w' & _ & H & _);
    [exact I|apply demo_world_decodable|].
  exists w'. exact H.
Defined.

Lemma registry_key_injective_witness :
  reg_key demo_pods "default" "web" = reg_key demo_pods "default" "web" ∧ "web" = "web".
Proof.
  split; [reflexivity|].
  apply (registry_key_injective demo_pods "default" "default" "web" "web"); reflexivity.
Defined.

Lemma registry_key_collision_witness : reg_key demo_pods "" "default/web" = reg_key demo_pods "default" "web".
Proof. apply (registry_key_collision demo_pods "default" "web"). discriminate. Defined.
