(* ===== verification/Cluster.v ===== *)
(** * Cluster: the registries of the control plane and its abstract state

    The registries that cmd/nimbus-apiserver/main.go and the gRPC services of
    internal/apiserver create over one shared store.  The abstract state of
    the cluster, [cluster], is what the registries of pods, nodes, deployments
    and volumes hold; [holds w c] says that the store of [w] is healthy and
    represents [c].  The lemmas give each registry operation its effect on
    the abstract state, so that the controllers are verified against maps of
    objects and not against encoded bytes. *)

From stdpp Require Import gmap strings list.
From S2P Require Import Prelude Api Codec Store Registry.

(** The kinds, as the source spells them. *)
Definition nodesR : Registry Node := NewRegistry "nodes".
Definition deploymentsR : Registry Deployment := NewRegistry "deployments".
Definition podsR : Registry Pod := NewRegistry "pods".
Definition volumesR : Registry Volume := NewRegistry "volumes".
Definition policiesR : Registry Policy := NewRegistry "policies".
Definition servicesR : Registry Service := NewRegistry "services".
Definition secretsR : Registry Secret := NewRegistry "secrets".
Definition namespacesR : Registry Namespace := NewRegistry "namespaces".
Definition networkpoliciesR : Registry NetworkPolicy := NewRegistry "networkpolicies".
Definition imagesR : Registry ImageRecord := NewRegistry "images".

(** The key of a deployment. *)
Definition dep_key (d : Deployment) : string := reg_key deploymentsR (depNamespace d) (depName d).

(** The codecs of the stored messages, bundled. *)
Class ApiMessages := {
  msg_Pod :: ProtoMessage Pod;
  msg_Node :: ProtoMessage Node;
  msg_Deployment :: ProtoMessage Deployment;
  msg_Volume :: ProtoMessage Volume;
}.

Class ApiLaws `{!ApiMessages} := {
  laws_Pod :: ProtoLaws Pod;
  laws_Node :: ProtoLaws Node;
  laws_Deployment :: ProtoLaws Deployment;
  laws_Volume :: ProtoLaws Volume;
}.

(** ** Frames: which kinds a computation may write *)

Section frame.
Context {S : Type} `{!Store S, !StoreLaws S}.

(** [w'] agrees with [w] on every key outside the kinds [ks]. *)
Definition touches (ks : list string) (w w' : world S) : Prop :=
  ∀ k, (∀ kind, kind ∈ ks → HasPrefix k ("/registry/" +:+ kind +:+ "/") = false) →
    w_view w' !! k = w_view w !! k.

Lemma touches_refl ks w : touches ks w w.
Proof. by intros k _. Qed.

Lemma touches_trans ks w1 w2 w3 : touches ks w1 w2 → touches ks w2 w3 → touches ks w1 w3.
Proof. intros H1 H2 k Hk. by rewrite H2, H1. Qed.

Lemma touches_mono ks ks' w w' : ks ⊆ ks' → touches ks w w' → touches ks' w w'.
Proof. intros Hsub H k Hk. apply H. intros kind Hkind. apply Hk. by apply Hsub. Qed.

Lemma touches_store ks w w' : w_store w' = w_store w → touches ks w w'.
Proof. intros Heq k _. unfold w_view. by rewrite Heq. Qed.

Lemma touches_other {T} `{!ProtoMessage T} (q : Registry T) ks w w' :
  touches ks w w' → simple (reg_kind q) → Forall simple ks → reg_kind q ∉ ks →
  objs q (w_view w') = objs q (w_view w) ∧ (decodable q (w_view w) → decodable q (w_view w')).
Proof.
  intros Ht Hq Hks Hni.
  assert (∀ k, HasPrefix k (reg_prefix q "") = true → w_view w' !! k = w_view w !! k) as Hk.
  { intros k Hk. apply Ht. intros kind Hkind.
    apply (kinds_disjoint q (NewRegistry (T:=T) kind)); simpl; [done| |by intros <-|done].
    rewrite Forall_forall in Hks. by apply Hks. }
  split.
  - apply map_eq. intros k. apply option_eq. intros x. rewrite !objs_lookup.
    split; intros (b & Hb & Hp & Hx); exists b; specialize (Hk k Hp); split_and!; congruence.
  - intros Hd k b Hb Hp. apply (Hd k b); [|done]. by rewrite <-Hk.
Qed.

Lemma touches_put {T} `{!ProtoMessage T} (r : Registry T) ns n b (w w' : world S) :
  w_view w' = <[reg_key r ns n := b]> (w_view w) → touches [reg_kind r] w w'.
Proof.
  intros Hv k Hk. rewrite Hv, lookup_insert_ne; [done|]. intros <-.
  specialize (Hk (reg_kind r)). rewrite list_elem_of_singleton in Hk. specialize (Hk eq_refl).
  change (HasPrefix (reg_key r ns n) (reg_prefix r "") = false) in Hk.
  by rewrite reg_key_prefix in Hk.
Qed.

Lemma touches_delete {T} `{!ProtoMessage T} (r : Registry T) ns n (w w' : world S) :
  w_view w' = delete (reg_key r ns n) (w_view w) → touches [reg_kind r] w w'.
Proof.
  intros Hv k Hk. rewrite Hv, lookup_delete_ne; [done|]. intros <-.
  specialize (Hk (reg_kind r)). rewrite list_elem_of_singleton in Hk. specialize (Hk eq_refl).
  change (HasPrefix (reg_key r ns n) (reg_prefix r "") = false) in Hk.
  by rewrite reg_key_prefix in Hk.
Qed.

End frame.

(** ** The abstract state *)

Record cluster := MkCluster {
  c_pods : gmap string Pod;
  c_nodes : gmap string Node;
  c_deployments : gmap string Deployment;
  c_volumes : gmap string Volume;
}.

Section cluster.
Context {S : Type} `{!Store S, !StoreLaws S} {Sh : Shuffle} `{AM : !ApiMessages, AL : !ApiLaws}.

(** [w] is healthy and represents the objects of [c]. *)
Record holds (w : world S) (c : cluster) : Prop := {
  h_healthy : w_healthy w;
  h_dpods : decodable podsR (w_view w);
  h_dnodes : decodable nodesR (w_view w);
  h_ddeps : decodable deploymentsR (w_view w);
  h_dvols : decodable volumesR (w_view w);
  h_pods : objs podsR (w_view w) = c_pods c;
  h_nodes : objs nodesR (w_view w) = c_nodes c;
  h_deps : objs deploymentsR (w_view w) = c_deployments c;
  h_vols : objs volumesR (w_view w) = c_volumes c;
}.

Lemma holds_store w w' c : w_store w' = w_store w → holds w c → holds w' c.
Proof.
  intros Heq H. assert (w_view w' = w_view w) as Hv by (unfold w_view; by rewrite Heq).
  assert (w_healthy w') by (unfold w_healthy; rewrite Heq; apply H).
  destruct H. by constructor; rewrite ?Hv.
Qed.

(** A write to one of the four kinds leaves the other three as they are. *)
Ltac frame_other Ht H :=
  let q := match goal with
    | |- decodable ?q _ => q | |- objs ?q _ = _ => q end in
  let Ho := fresh in let Hd := fresh in
  destruct (touches_other q _ _ _ Ht) as [Ho Hd];
    [done|by repeat constructor|by set_solver|first [apply Hd; apply H | rewrite Ho; apply H]].

Ltac put_tac r x := intros H;
  let w' := fresh "w'" in let b := fresh in let Hp := fresh in let Hh := fresh in
  let Hb := fresh in let Hv := fresh in let Ht := fresh "Ht" in
  match goal with |- ∃ _, reg_Put _ ?ns ?n _ ?w = _ ∧ _ =>
    destruct (reg_Put_spec r ns n x w (h_healthy _ _ H)) as (w' & b & Hp & Hh & Hb & Hv)
  end;
  pose proof (touches_put r _ _ _ _ _ Hv) as Ht;
  exists w'; split; [done|]; constructor; simpl;
  [done|first [by rewrite Hv; eapply decodable_insert; [|apply H]
        | by rewrite Hv, (objs_insert r _ _ _ _ _ Hb); f_equal; apply H
        | frame_other Ht H]..].

Lemma put_pod w c ns n p : holds w c →
  ∃ w', reg_Put podsR ns n p w = (Ok tt, w') ∧
    holds w' (MkCluster (<[reg_key podsR ns n := p]> (c_pods c)) (c_nodes c) (c_deployments c) (c_volumes c)).
Proof. put_tac podsR p. Qed.

Lemma put_node w c ns n x : holds w c →
  ∃ w', reg_Put nodesR ns n x w = (Ok tt, w') ∧
    holds w' (MkCluster (c_pods c) (<[reg_key nodesR ns n := x]> (c_nodes c)) (c_deployments c) (c_volumes c)).
Proof. put_tac nodesR x. Qed.

Lemma put_deployment w c ns n x : holds w c →
  ∃ w', reg_Put deploymentsR ns n x w = (Ok tt, w') ∧
    holds w' (MkCluster (c_pods c) (c_nodes c) (<[reg_key deploymentsR ns n := x]> (c_deployments c)) (c_volumes c)).
Proof. put_tac deploymentsR x. Qed.

Lemma put_volume w c ns n x : holds w c →
  ∃ w', reg_Put volumesR ns n x w = (Ok tt, w') ∧
    holds w' (MkCluster (c_pods c) (c_nodes c) (c_deployments c) (<[reg_key volumesR ns n := x]> (c_volumes c))).
Proof. put_tac volumesR x. Qed.

Ltac delete_tac r := intros H;
  let w' := fresh "w'" in let Hp := fresh in let Hh := fresh in let Hv := fresh in let Ht := fresh "Ht" in
  match goal with |- ∃ _, reg_Delete _ ?ns ?n ?w = _ ∧ _ =>
    destruct (reg_Delete_spec r ns n w (h_healthy _ _ H)) as (w' & Hp & Hh & Hv)
  end;
  pose proof (touches_delete r _ _ _ _ Hv) as Ht;
  exists w'; split; [done|]; constructor; simpl;
  [done|first [by rewrite Hv; apply decodable_delete; apply H
        | by rewrite Hv, objs_delete; f_equal; apply H
        | frame_other Ht H]..].

Lemma delete_pod w c ns n : holds w c →
  ∃ w', reg_Delete podsR ns n w = (Ok tt, w') ∧
    holds w' (MkCluster (delete (reg_key podsR ns n) (c_pods c)) (c_nodes c) (c_deployments c) (c_volumes c)).
Proof. delete_tac podsR. Qed.

Lemma delete_node w c ns n : holds w c →
  ∃ w', reg_Delete nodesR ns n w = (Ok tt, w') ∧
    holds w' (MkCluster (c_pods c) (delete (reg_key nodesR ns n) (c_nodes c)) (c_deployments c) (c_volumes c)).
Proof. delete_tac nodesR. Qed.

Lemma delete_deployment w c ns n : holds w c →
  ∃ w', reg_Delete deploymentsR ns n w = (Ok tt, w') ∧
    holds w' (MkCluster (c_pods c) (c_nodes c) (delete (reg_key deploymentsR ns n) (c_deployments c)) (c_volumes c)).
Proof. delete_tac deploymentsR. Qed.

Lemma delete_volume w c ns n : holds w c →
  ∃ w', reg_Delete volumesR ns n w = (Ok tt, w') ∧
    holds w' (MkCluster (c_pods c) (c_nodes c) (c_deployments c) (delete (reg_key volumesR ns n) (c_volumes c))).
Proof. delete_tac volumesR. Qed.

(** The result of a lookup by key. *)
Definition lookup_result {T} (o : option T) : result T :=
  match o with Some x => Ok x | None => Err ErrNotFound end.

Lemma get_pod w c ns n : holds w c →
  reg_Get podsR ns n w = (lookup_result (c_pods c !! reg_key podsR ns n), w).
Proof. intros []. rewrite reg_Get_spec by done. by rewrite h_pods0. Qed.

Lemma get_node w c ns n : holds w c →
  reg_Get nodesR ns n w = (lookup_result (c_nodes c !! reg_key nodesR ns n), w).
Proof. intros []. rewrite reg_Get_spec by done. by rewrite h_nodes0. Qed.

Lemma get_deployment w c ns n : holds w c →
  reg_Get deploymentsR ns n w = (lookup_result (c_deployments c !! reg_key deploymentsR ns n), w).
Proof. intros []. rewrite reg_Get_spec by done. by rewrite h_deps0. Qed.

Lemma get_volume w c ns n : holds w c →
  reg_Get volumesR ns n w = (lookup_result (c_volumes c !! reg_key volumesR ns n), w).
Proof. intros []. rewrite reg_Get_spec by done. by rewrite h_vols0. Qed.

Lemma list_pods w c ns : holds w c →
  ∃ l w', reg_List podsR ns w = (Ok l, w') ∧ holds w' c ∧
    l ≡ₚ (map_to_list (with_prefix (reg_prefix podsR ns) (c_pods c))).*2.
Proof.
  intros H. destruct (reg_List_spec podsR ns w) as (l & w' & Hl & Hs & Hp); [apply H..|].
  exists l, w'. split; [done|]. split; [by eapply holds_store|].
  unfold objs_in in Hp. by rewrite (h_pods _ _ H) in Hp.
Qed.

Lemma list_nodes w c ns : holds w c →
  ∃ l w', reg_List nodesR ns w = (Ok l, w') ∧ holds w' c ∧
    l ≡ₚ (map_to_list (with_prefix (reg_prefix nodesR ns) (c_nodes c))).*2.
Proof.
  intros H. destruct (reg_List_spec nodesR ns w) as (l & w' & Hl & Hs & Hp); [apply H..|].
  exists l, w'. split; [done|]. split; [by eapply holds_store|].
  unfold objs_in in Hp. by rewrite (h_nodes _ _ H) in Hp.
Qed.

Lemma list_deployments w c ns : holds w c →
  ∃ l w', reg_List deploymentsR ns w = (Ok l, w') ∧ holds w' c ∧
    l ≡ₚ (map_to_list (with_prefix (reg_prefix deploymentsR ns) (c_deployments c))).*2.
Proof.
  intros H. destruct (reg_List_spec deploymentsR ns w) as (l & w' & Hl & Hs & Hp); [apply H..|].
  exists l, w'. split; [done|]. split; [by eapply holds_store|].
  unfold objs_in in Hp. by rewrite (h_deps _ _ H) in Hp.
Qed.

End cluster.

(** ** Well-formed pod maps

    Every pod is stored under the key of its own namespace and name, and
    these are path segments. *)

Definition pod_key (p : Pod) : string := reg_key podsR (podNamespace p) (podName p).

Definition wf_pods (P : gmap string Pod) : Prop :=
  ∀ k p, P !! k = Some p → k = pod_key p ∧ simple (podNamespace p) ∧ simple (podName p).

Lemma wf_pods_insert P p :
  wf_pods P → simple (podNamespace p) → simple (podName p) → wf_pods (<[pod_key p := p]> P).
Proof. intros HP Hns Hn k q [[<- <-]|[_ Hq]]%lookup_insert_Some; [done|by apply HP]. Qed.

Lemma wf_pods_delete P k : wf_pods P → wf_pods (delete k P).
Proof. intros HP j q [_ Hq]%lookup_delete_Some. by apply HP. Qed.

(** In a well-formed map, the keys with the prefix of a namespace are the
    pods of that namespace. *)
Lemma wf_pods_namespace P k p ns :
  wf_pods P → P !! k = Some p → simple ns → ns ≠ "" →
  HasPrefix k (reg_prefix podsR ns) = true ↔ podNamespace p = ns.
Proof.
  intros HP Hk Hns Hne. destruct (HP _ _ Hk) as (-> & Hpn & Hpm). unfold pod_key.
  split; [|intros <-; apply reg_key_prefix_ns].
  intros [t Ht]%HasPrefix_iff. rewrite (reg_prefix_ns _ _ Hne) in Ht.
  unfold reg_key in Ht. rewrite reg_prefix_root in Ht. rewrite !string_app_assoc in Ht.
  case_decide as Hd; repeat apply (inj (String.append _)) in Ht.
  - unfold simple in Hpm. rewrite Ht, contains_char_app in Hpm.
    by apply orb_false_elim in Hpm as [_ ?].
  - by apply (app_sep_inj slash) in Ht as [-> _].
Qed.

(** Keys of one namespace determine the name. *)
Lemma reg_key_name_inj {T} (r : Registry T) ns n n' : reg_key r ns n = reg_key r ns n' → n = n'.
Proof. unfold reg_key. case_decide; intros Heq; by repeat apply (inj (String.append _)) in Heq. Qed.

(** ** Sets of stored pods

    The effect of a loop that deletes, or stores, the pods of a list. *)

Definition remove_pods (l : list Pod) (P : gmap string Pod) : gmap string Pod :=
  foldl (λ P p, delete (pod_key p) P) P l.

Definition add_pods (l : list Pod) (P : gmap string Pod) : gmap string Pod :=
  foldl (λ P p, <[pod_key p := p]> P) P l.

Lemma lookup_remove_pods l P k q :
  remove_pods l P !! k = Some q ↔ P !! k = Some q ∧ k ∉ (pod_key <$> l).
Proof.
  revert P. induction l as [|p l IH]; intros P; simpl.
  { rewrite elem_of_nil. tauto. }
  unfold remove_pods in *. simpl. rewrite IH, lookup_delete_Some, elem_of_cons. naive_solver.
Qed.

Lemma lookup_add_pods l P k q :
  NoDup (pod_key <$> l) →
  add_pods l P !! k = Some q ↔ ((q ∈ l) ∧ pod_key q = k) ∨ ((k ∉ (pod_key <$> l)) ∧ P !! k = Some q).
Proof.
  revert P. induction l as [|p l IH]; intros P; simpl.
  { rewrite !elem_of_nil. naive_solver. }
  intros [Hp Hl]%NoDup_cons. unfold add_pods in *. simpl. rewrite IH by done.
  rewrite lookup_insert_Some, !elem_of_cons.
  split; [naive_solver|].
  intros [[[->|Hq] <-]|[Hk Hq]]; [|by left|right].
  - right. split; [done|by left].
  - split; [|right]; naive_solver.
Qed.

Lemma wf_pods_remove l P : wf_pods P → wf_pods (remove_pods l P).
Proof. intros HP k q [Hq _]%lookup_remove_pods. by apply HP. Qed.

(** The values of a well-formed map have distinct keys, and are stored under
    them. *)
Lemma wf_values_keys P : wf_pods P → (pod_key <$> (map_to_list P).*2) = (map_to_list P).*1.
Proof.
  intros HP. rewrite <-list_fmap_compose. apply list_fmap_ext. intros i [k p] Hi.
  simpl. symmetry. apply HP. apply elem_of_map_to_list. by eapply list_elem_of_lookup_2.
Qed.

Lemma wf_values_NoDup P : wf_pods P → NoDup (pod_key <$> (map_to_list P).*2).
Proof. intros HP. rewrite wf_values_keys by done. apply NoDup_fst_map_to_list. Qed.

Lemma wf_values_elem P p : wf_pods P → p ∈ (map_to_list P).*2 ↔ P !! pod_key p = Some p.
Proof.
  intros HP. rewrite list_elem_of_fmap. split.
  - intros ([k q] & -> & Hq%elem_of_map_to_list). simpl. by destruct (HP _ _ Hq) as (<- & _).
  - intros Hp. exists (pod_key p, p). split; [done|]. by apply elem_of_map_to_list.
Qed.

Lemma length_values {K A} `{Countable K} (m : gmap K A) : length (map_to_list m).*2 = size m.
Proof. by rewrite length_fmap, length_map_to_list. Qed.

(** A list with distinct keys holds exactly the values of the map when it
    holds only values of it and has their number. *)
Lemma values_perm P l :
  wf_pods P → NoDup (pod_key <$> l) → (∀ p, p ∈ l ↔ P !! pod_key p = Some p) →
  l ≡ₚ (map_to_list P).*2.
Proof.
  intros HP Hnd Hl. apply NoDup_Permutation.
  - by eapply NoDup_fmap_1.
  - eapply NoDup_fmap_1. by apply wf_values_NoDup.
  - intros p. by rewrite Hl, wf_values_elem.
Qed.

Lemma size_add_pods l P :
  NoDup (pod_key <$> l) → (∀ p, p ∈ l → P !! pod_key p = None) →
  size (add_pods l P) = (size P + length l)%nat.
Proof.
  revert P. induction l as [|p l IH]; intros P; simpl; [intros; unfold add_pods; simpl; lia|].
  intros [Hp Hl]%NoDup_cons Hnone. unfold add_pods in *. simpl. rewrite IH; [|done|].
  - rewrite map_size_insert_None by (apply Hnone; left). lia.
  - intros q Hq. rewrite lookup_insert_ne; [apply Hnone; by right|].
    intros Heq. apply Hp. rewrite Heq. by apply list_elem_of_fmap_2.
Qed.

Lemma wf_pods_add l P :
  NoDup (pod_key <$> l) → wf_pods P → Forall (λ p, simple (podNamespace p) ∧ simple (podName p)) l →
  wf_pods (add_pods l P).
Proof.
  intros Hnd HP Hl k p [[Hp <-]|[_ Hp]]%lookup_add_pods; [|by apply HP|done].
  rewrite Forall_forall in Hl. by destruct (Hl p Hp).
Qed.
