(* ===== verification/Scheduler.v ===== *)
(** * Scheduler: placing a pod on a node

    internal/scheduler/scheduler.go.  [Schedule] scans the candidates and
    keeps the first one with the greatest free capacity among those that fit.
    [SchedulerLaws] is what the controllers rely on; [basic] satisfies it, and
    is shown to pick an optimal candidate whenever one fits. *)

From stdpp Require Import gmap strings list.
From Stdlib Require Import ZArith Lia.
From S2P Require Import Prelude.

Local Open Scope Z_scope.

Record NodeCandidate := MkNodeCandidate {
  nc_Name : string;
  nc_CPUCapacity : Z;
  nc_MemCapacity : Z;
  nc_CPUUsed : Z;
  nc_MemUsed : Z;
  nc_AcceleratorCapacity : gmap string Z;
  nc_AcceleratorUsed : gmap string Z;
  nc_UsedPorts : gset Z;  (** the ports mapped to true *)
}.

Record PodRequest := MkPodRequest {
  pr_Name : string;
  pr_CPURequest : Z;
  pr_MemRequest : Z;
  pr_AcceleratorsRequested : gmap string Z;
  pr_ContainerPorts : list Z;
}.

(** [type Scheduler interface] *)
Class Scheduler := { Schedule : PodRequest → list NodeCandidate → result string }.

(** The loop over the requested accelerators; its verdict does not depend on
    the order in which Go visits them ([acceleratorsFit_spec]). *)
Definition acceleratorsFit (requested capacity used : gmap string Z) : bool :=
  forallb (λ kv,
    if kv.2 <=? 0 then true
    else negb (wrap64 (zlookup capacity kv.1 - zlookup used kv.1) <? kv.2))
    (map_to_list requested).

Definition portsFit (requested : list Z) (used : gset Z) : bool :=
  forallb (λ port, negb (bool_decide (port ∈ used))) requested.

Definition freeCPU (n : NodeCandidate) : Z := wrap64 (nc_CPUCapacity n - nc_CPUUsed n).
Definition freeMem (n : NodeCandidate) : Z := wrap64 (nc_MemCapacity n - nc_MemUsed n).
Definition score (n : NodeCandidate) : Z := wrap64 (freeCPU n + freeMem n).

(** The three guards of the loop body. *)
Definition fits (pod : PodRequest) (n : NodeCandidate) : bool :=
  negb ((freeCPU n <? pr_CPURequest pod) || (freeMem n <? pr_MemRequest pod)) &&
  acceleratorsFit (pr_AcceleratorsRequested pod) (nc_AcceleratorCapacity n) (nc_AcceleratorUsed n) &&
  portsFit (pr_ContainerPorts pod) (nc_UsedPorts n).

(** The loop of [Schedule], from the current best and its score. *)
Fixpoint schedule_loop (pod : PodRequest) (nodes : list NodeCandidate)
    (best : option NodeCandidate) (bestScore : Z) : option NodeCandidate :=
  match nodes with
  | [] => best
  | n :: nodes =>
      if negb (fits pod n) then schedule_loop pod nodes best bestScore
      else if bestScore <? score n then schedule_loop pod nodes (Some n) (score n)
      else schedule_loop pod nodes best bestScore
  end.

Definition basic_Schedule (pod : PodRequest) (nodes : list NodeCandidate) : result string :=
  match schedule_loop pod nodes None (-1) with
  | None => Err ErrNoNodeAvailable
  | Some best => Ok (nc_Name best)
  end.

#[export] Instance basic : Scheduler := {| Schedule := basic_Schedule |}.

(** The contract of the interface: a placement names a candidate that fits;
    the only failure is [ErrNoNodeAvailable]. *)
Class SchedulerLaws `{!Scheduler} := {
  Schedule_sound pod nodes name : Schedule pod nodes = Ok name →
    ∃ n, n ∈ nodes ∧ nc_Name n = name ∧ fits pod n = true;
  Schedule_error pod nodes e : Schedule pod nodes = Err e → e = ErrNoNodeAvailable;
  Schedule_no_panic pod nodes : Schedule pod nodes ≠ Panic;
}.

(** ** Lemmas *)

Lemma acceleratorsFit_spec requested capacity used :
  acceleratorsFit requested capacity used = true ↔
  ∀ a want, requested !! a = Some want → 0 < want →
    want ≤ wrap64 (zlookup capacity a - zlookup used a).
Proof.
  unfold acceleratorsFit. rewrite forallb_elem_of. split.
  - intros H a want Ha Hw. specialize (H (a, want)).
    rewrite elem_of_map_to_list in H. specialize (H Ha). simpl in H.
    destruct (Z.leb_spec want 0); [lia|]. apply negb_true_iff, Z.ltb_ge in H. lia.
  - intros H [a want] Ha%elem_of_map_to_list. simpl. destruct (Z.leb_spec want 0); [done|].
    apply negb_true_iff, Z.ltb_ge. by apply H.
Qed.

Lemma portsFit_spec requested used :
  portsFit requested used = true ↔ ∀ p, p ∈ requested → p ∉ used.
Proof.
  unfold portsFit. rewrite forallb_elem_of.
  setoid_rewrite negb_true_iff. by setoid_rewrite bool_decide_eq_false.
Qed.

Lemma fits_spec pod n :
  fits pod n = true ↔
  pr_CPURequest pod ≤ freeCPU n ∧ pr_MemRequest pod ≤ freeMem n ∧
  acceleratorsFit (pr_AcceleratorsRequested pod) (nc_AcceleratorCapacity n) (nc_AcceleratorUsed n) = true ∧
  portsFit (pr_ContainerPorts pod) (nc_UsedPorts n) = true.
Proof.
  unfold fits. rewrite !andb_true_iff, negb_true_iff, orb_false_iff, !Z.ltb_ge. tauto.
Qed.

(** What the loop returns: the running best, or a later fitting node with a
    strictly greater score that no other fitting node beats, the first such. *)
Lemma schedule_loop_spec pod nodes best bs :
  match schedule_loop pod nodes best bs with
  | Some n =>
      (Some n = best ∧ Forall (λ m, fits pod m = true → score m ≤ bs) nodes) ∨
      (∃ l1 l2, nodes = l1 ++ n :: l2 ∧ fits pod n = true ∧ bs < score n ∧
        Forall (λ m, fits pod m = true → score m < score n) l1 ∧
        Forall (λ m, fits pod m = true → score m ≤ score n) l2)
  | None => best = None ∧ Forall (λ m, fits pod m = true → score m ≤ bs) nodes
  end.
Proof.
  revert best bs. induction nodes as [|n nodes IH]; intros best bs; simpl.
  { destruct best; [left|]; by rewrite ?Forall_nil. }
  destruct (fits pod n) eqn:Hf; simpl.
  2: { specialize (IH best bs). destruct (schedule_loop pod nodes best bs) as [m|].
       - destruct IH as [[? ?]|(l1 & l2 & -> & ? & ? & ? & ?)]; [left|right].
         + split; [done|]. constructor; [congruence|done].
         + exists (n :: l1), l2. split_and!; try done. constructor; [congruence|done].
       - destruct IH. split; [done|]. constructor; [congruence|done]. }
  destruct (Z.ltb_spec bs (score n)) as [Hlt|Hge].
  - specialize (IH (Some n) (score n)).
    destruct (schedule_loop pod nodes (Some n) (score n)) as [m|]; [|by destruct IH].
    destruct IH as [[[= ->] Hall]|(l1 & l2 & -> & ? & ? & Hl1 & ?)]; right.
    + exists [], nodes. by split_and!.
    + exists (n :: l1), l2. split_and!; try done; [lia|]. by constructor.
  - specialize (IH best bs). destruct (schedule_loop pod nodes best bs) as [m|].
    + destruct IH as [[? ?]|(l1 & l2 & -> & ? & ? & ? & ?)]; [left|right].
      * split; [done|]. by constructor.
      * exists (n :: l1), l2. split_and!; try done. constructor; [intros; lia|done].
    + destruct IH. split; [done|]. by constructor.
Qed.

#[export] Instance basic_laws : SchedulerLaws.
Proof.
  split; simpl; unfold basic_Schedule; intros pod nodes;
    pose proof (schedule_loop_spec pod nodes None (-1)) as H;
    destruct (schedule_loop pod nodes None (-1)) as [n|]; try done.
  - intros name [= <-]. destruct H as [[? _]|(l1 & l2 & -> & ? & _)]; [done|].
    exists n. split_and!; try done. apply elem_of_app. right. left.
  - intros name [= <-]. done.
Qed.

(** Free capacity small enough that the score does not wrap around. *)
Definition moderate (n : NodeCandidate) : Prop :=
  0 ≤ nc_CPUCapacity n < 2 ^ 61 ∧ 0 ≤ nc_MemCapacity n < 2 ^ 61 ∧
  0 ≤ nc_CPUUsed n < 2 ^ 61 ∧ 0 ≤ nc_MemUsed n < 2 ^ 61.

Lemma moderate_free n : moderate n →
  freeCPU n = nc_CPUCapacity n - nc_CPUUsed n ∧ freeMem n = nc_MemCapacity n - nc_MemUsed n ∧
  score n = freeCPU n + freeMem n.
Proof.
  intros (? & ? & ? & ?). unfold score, freeCPU, freeMem.
  rewrite !wrap64_id; [done|..]; unfold in_int64; rewrite ?wrap64_id; unfold in_int64; lia.
Qed.

(** ** Theorems *)

(** C5: [Schedule] is sound, complete and optimal.  For a request that asks for
    non-negative resources among candidates whose capacities do not overflow:
    it fails, with [ErrNoNodeAvailable], exactly when no candidate fits;
    otherwise it returns the name of a fitting candidate whose free CPU plus
    memory is maximal among the fitting ones, the first of them in list order. *)
Theorem schedule_optimal pod nodes :
  0 ≤ pr_CPURequest pod → 0 ≤ pr_MemRequest pod → Forall moderate nodes →
  (∀ e, Schedule pod nodes = Err e ↔
     e = ErrNoNodeAvailable ∧ Forall (λ n, fits pod n = false) nodes) ∧
  (∀ name, Schedule pod nodes = Ok name →
     ∃ l1 n l2, nodes = l1 ++ n :: l2 ∧ nc_Name n = name ∧ fits pod n = true ∧
       Forall (λ m, fits pod m = true → freeCPU m + freeMem m < freeCPU n + freeMem n) l1 ∧
       Forall (λ m, fits pod m = true → freeCPU m + freeMem m ≤ freeCPU n + freeMem n) l2).
Proof.
  intros Hcpu Hmem Hnodes. simpl. unfold basic_Schedule.
  assert (∀ n, n ∈ nodes → score n = freeCPU n + freeMem n) as Hscore.
  { intros n Hn. rewrite Forall_forall in Hnodes. by apply moderate_free, Hnodes. }
  pose proof (schedule_loop_spec pod nodes None (-1)) as H.
  destruct (schedule_loop pod nodes None (-1)) as [n|].
  - destruct H as [[? _]|(l1 & l2 & -> & Hf & _ & H1 & H2)]; [done|]. split.
    + intros e. split; [done|]. intros [_ Hall]. rewrite Forall_app, Forall_cons in Hall.
      destruct Hall as (_ & Hn & _). congruence.
    + intros name [= <-]. exists l1, n, l2. split_and!; try done.
      * apply Forall_forall. intros m Hm Hfm. rewrite <-!Hscore by set_solver.
        by apply (proj1 (Forall_forall _ _) H1).
      * apply Forall_forall. intros m Hm Hfm. rewrite <-!Hscore by set_solver.
        by apply (proj1 (Forall_forall _ _) H2).
  - destruct H as [_ H]. split; [|done]. intros e. split; [|intros [-> _]; done].
    intros [= <-]. split; [done|]. rewrite Forall_forall in H |- *. intros n Hn.
    apply not_true_is_false. intros Hf. specialize (H n Hn Hf).
    apply fits_spec in Hf as (? & ? & _). rewrite Hscore in H by done. lia.
Qed.

(** ** Witnesses *)

Definition demo_busy : NodeCandidate := MkNodeCandidate "busy" 4000 (2 ^ 33) 0 0 ∅ ∅ {[80]}.
Definition demo_free : NodeCandidate := MkNodeCandidate "free" 4000 (2 ^ 33) 0 0 ∅ ∅ ∅.
Definition demo_request : PodRequest := MkPodRequest "web" 500 (2 ^ 28) ∅ [80].

Example schedule_avoids_port : Schedule demo_request [demo_busy; demo_free] = Ok "free".
Proof. vm_compute. reflexivity. Qed.

Lemma schedule_optimal_witness :
  ∃ l1 n l2, [demo_busy; demo_free] = l1 ++ n :: l2 ∧ nc_Name n = "free" ∧ fits demo_request n = true.
Proof.
  destruct (schedule_optimal demo_request [demo_busy; demo_free]) as [_ H].
  - vm_compute. discriminate.
  - vm_compute. discriminate.
  - repeat constructor; vm_compute; congruence.
  - destruct (H "free") as (l1 & n & l2 & H1 & H2 & H3 & _); [vm_compute; reflexivity|].
    exists l1, n, l2. split; [exact H1|]. split; [exact H2|exact H3].
Defined.
