(* ===== verification/Scheduling.v ===== *)
(** * Scheduling: usage accounting and pod placement in the controllers

    internal/controller/scheduling.go, the usage accounting of
    internal/controller/deployment.go (nodeResourceUsage, computeNodeUsage),
    and internal/controller/pod.go.  Usage per node is recomputed from the
    stored pods, candidates are built from the ready and schedulable nodes,
    and [schedulePod] writes the outcome back onto the pod. *)

From stdpp Require Import gmap strings list pretty.
From Stdlib Require Import ZArith Lia.
From S2P Require Import Prelude Api Codec Store Registry Scheduler.

Local Open Scope Z_scope.

Definition OwnerDeploymentLabel : string := "nimbuscore.io/owner-deployment".

Record nodeResourceUsage := MkUsage {
  u_cpuMillis : Z;
  u_memoryBytes : Z;
  u_accelerators : gmap string Z;
  u_ports : gset Z;
}.

Definition usage_zero : nodeResourceUsage := MkUsage 0 0 ∅ ∅.

(** [for name, count := range m { acc[name] += count }]; distinct keys, so
    the visiting order is irrelevant. *)
Definition add_accelerators (acc m : gmap string Z) : gmap string Z :=
  foldl (λ acc kv, <[kv.1 := wrap64 (zlookup acc kv.1 + kv.2)]> acc) acc (map_to_list m).

(** The body of the loop over the containers of a pod. *)
Definition add_container (u : nodeResourceUsage) (c : Container) : nodeResourceUsage :=
  let req := containerRequests c in
  MkUsage (wrap64 (u_cpuMillis u + ResourceList_GetCpuMillis req))
    (wrap64 (u_memoryBytes u + ResourceList_GetMemoryBytes req))
    (add_accelerators (u_accelerators u) (ResourceList_GetAccelerators req))
    (u_ports u ∪ list_to_set (Container_ContainerPorts c)).

(** The body of the loop over all pods: unassigned pods are skipped. *)
Definition add_pod (usage : gmap string nodeResourceUsage) (p : Pod) : gmap string nodeResourceUsage :=
  if decide (podNodeName p = "") then usage
  else <[podNodeName p :=
          foldl add_container (default usage_zero (usage !! podNodeName p)) (podContainers p)]> usage.

Definition usage_of (usage : gmap string nodeResourceUsage) (name : string) : nodeResourceUsage :=
  default usage_zero (usage !! name).

(** The candidates: ready, schedulable nodes with their current usage. *)
Definition candidate_of (usage : gmap string nodeResourceUsage) (n : Node) : option NodeCandidate :=
  if negb (nodeIsReady n) || nodeUnschedulable n then None
  else
    let name := nodeName n in
    Some (MkNodeCandidate name
      (ResourceList_GetCpuMillis (nodeAllocatable n))
      (ResourceList_GetMemoryBytes (nodeAllocatable n))
      (u_cpuMillis (usage_of usage name)) (u_memoryBytes (usage_of usage name))
      (ResourceList_GetAccelerators (nodeAllocatable n))
      (u_accelerators (usage_of usage name)) (u_ports (usage_of usage name))).

(** [podResourceRequest]: the sums over the containers of the pod. *)
Definition podResourceRequest (p : Pod) : Z * Z * gmap string Z * list Z :=
  foldl (λ '(cpu, mem, accel, ports) c,
    let req := containerRequests c in
    (wrap64 (cpu + ResourceList_GetCpuMillis req),
     wrap64 (mem + ResourceList_GetMemoryBytes req),
     add_accelerators accel (ResourceList_GetAccelerators req),
     ports ++ Container_ContainerPorts c))
    (0, 0, ∅, []) (podContainers p).

Definition request_of (p : Pod) : PodRequest :=
  let '(cpu, mem, accel, ports) := podResourceRequest p in
  MkPodRequest (podName p) cpu mem accel ports.

(** [fmt.Sprintf("%v", ports)]: the ports in brackets, separated by spaces. *)
Fixpoint print_ports_tail (l : list Z) : string :=
  match l with [] => "]" | p :: l => " " +:+ pretty p +:+ print_ports_tail l end.
Definition print_ports (l : list Z) : string :=
  match l with [] => "[]" | p :: l => "[" +:+ pretty p +:+ print_ports_tail l end.

Definition pendingMessage (ports : list Z) : string :=
  match ports with
  | [] => "waiting for a node with enough free CPU/memory"
  | _ => "waiting for a node with enough free CPU/memory and an available port for containerPort(s) "
           +:+ print_ports ports
  end.

Section scheduling.
Context {S : Type} `{!Store S} {Sh : Shuffle}.
Context `{!ProtoMessage Pod, !ProtoMessage Node} `{!Scheduler}.

Definition computeNodeUsage (pods : Registry Pod) : M S (gmap string nodeResourceUsage) :=
  all ← reg_List pods "";
  mret (foldl add_pod ∅ all).

Definition buildNodeCandidates (nodes : Registry Node) (usage : gmap string nodeResourceUsage)
    : M S (list NodeCandidate) :=
  all ← reg_List nodes "";
  mret (omap (candidate_of usage) all).

(** [schedulePod] mutates the pod it is given: the result carries the pod as
    the caller sees it afterwards, with the error returned. *)
Definition schedulePod (pods : Registry Pod) (candidates : list NodeCandidate) (p : Pod)
    : M S (Pod * result unit) :=
  let req := request_of p in
  match Schedule req candidates with
  | Panic => panic
  | Err _ =>
      let msg := pendingMessage (pr_ContainerPorts req) in
      if decide (podMessage p = msg) then mret (p, Ok tt)
      else
        let p := pod_record_message msg p in
        r ← attempt (reg_Put pods (podNamespace p) (podName p) p);
        mret (p, wrap_result "record pending reason for pod" r)
  | Ok node =>
      let p := pod_assign_node node p in
      let p := if decide (podMessage p = "") then p else pod_record_message "" p in
      r ← attempt (reg_Put pods (podNamespace p) (podName p) p);
      mret (p, wrap_result "assign pod to node" r)
  end.

(** The loop of [scheduleUnassigned] over the pods, of which only those with
    no node are scheduled; an error ends it, leaving the rest as they were. *)
Fixpoint schedule_pods (pods : Registry Pod) (candidates : list NodeCandidate) (l : list Pod)
    : M S (list Pod * result unit) :=
  match l with
  | [] => mret ([], Ok tt)
  | p :: l =>
      if decide (podNodeName p = "") then
        '(p', r) ← schedulePod pods candidates p;
        match r with
        | Ok _ => '(l', r') ← schedule_pods pods candidates l; mret (p' :: l', r')
        | r => mret (p' :: l, r)
        end
      else '(l', r') ← schedule_pods pods candidates l; mret (p :: l', r')
  end.

Definition has_unassigned (l : list Pod) : bool :=
  existsb (λ p, bool_decide (podNodeName p = "")) l.

(** [scheduleUnassigned]: the pods as the caller sees them afterwards, and
    the error returned. *)
Definition scheduleUnassigned (pods : Registry Pod) (nodes : Registry Node) (l : list Pod)
    : M S (list Pod * result unit) :=
  if negb (has_unassigned l) then mret (l, Ok tt)
  else
    usage ← attempt (computeNodeUsage pods);
    match usage with
    | Ok usage =>
        candidates ← attempt (buildNodeCandidates nodes usage);
        match candidates with
        | Ok candidates => schedule_pods pods candidates l
        | Err e => mret (l, Err (Wrapf "list nodes" e))
        | Panic => panic
        end
    | Err e => mret (l, Err (Wrapf "compute node usage" e))
    | Panic => panic
    end.

(** ** The pod controller (pod.go) *)

Record PodReconciler := MkPodReconciler {
  pr_pods : Registry Pod;
  pr_nodes : Registry Node;
  pr_resync : Z;  (** nanoseconds *)
}.

Definition NewPodReconciler (pods : Registry Pod) (nodes : Registry Node) (resync : Z) : PodReconciler :=
  MkPodReconciler pods nodes (if resync <=? 0 then 5000000000 else resync).

(** The pods the controller takes care of: no owning deployment, no node, not
    in a terminal phase. *)
Definition standalone_unassigned (p : Pod) : bool :=
  bool_decide (slookup (podLabels p) OwnerDeploymentLabel = "") &&
  bool_decide (podNodeName p = "") &&
  negb (bool_decide (podPhase p = POD_PHASE_SUCCEEDED) || bool_decide (podPhase p = POD_PHASE_FAILED)).

(** Errors are logged at every step, so the controller never fails. *)
Definition pod_reconcileAll (r : PodReconciler) : M S unit :=
  all ← attempt (reg_List (pr_pods r) "");
  match all with
  | Ok all =>
      let unassigned := List.filter standalone_unassigned all in
      if decide (length unassigned = 0%nat) then mret ()
      else
        usage ← attempt (computeNodeUsage (pr_pods r));
        match usage with
        | Ok usage =>
            candidates ← attempt (buildNodeCandidates (pr_nodes r) usage);
            match candidates with
            | Ok candidates =>
                for_each unassigned (λ p, _ ← schedulePod (pr_pods r) candidates p; mret ())
            | Err _ => mret ()
            | Panic => panic
            end
        | Err _ => mret ()
        | Panic => panic
        end
  | Err _ => mret ()
  | Panic => panic
  end.

End scheduling.

(** ** Lemmas: pure accounting *)

(** The usage of a node is the sum over the pods assigned to it. *)
Definition pods_on (name : string) (l : list Pod) : list Pod :=
  filter (λ p, podNodeName p = name) l.

Lemma usage_of_fold usage l name :
  name ≠ "" →
  usage_of (foldl add_pod usage l) name =
  foldl add_container (usage_of usage name) (concat (podContainers <$> pods_on name l)).
Proof.
  intros Hname. revert usage. induction l as [|p l IH]; intros usage; simpl; [done|].
  rewrite IH. unfold pods_on. rewrite filter_cons. unfold add_pod.
  destruct (decide (podNodeName p = name)) as [Hp|Hp].
  - rewrite decide_False by congruence. simpl. rewrite foldl_app. f_equal.
    unfold usage_of. by rewrite Hp, lookup_insert_eq.
  - case_decide; [done|]. f_equal. unfold usage_of. by rewrite lookup_insert_ne.
Qed.

(** The ports in use on a node are those of the containers placed on it. *)
Lemma usage_ports_fold cs u port :
  port ∈ u_ports (foldl add_container u cs) ↔
  port ∈ u_ports u ∨ ∃ c, c ∈ cs ∧ port ∈ Container_ContainerPorts c.
Proof.
  revert u. induction cs as [|c cs IH]; intros u; simpl; [set_solver|].
  rewrite IH. simpl. set_solver.
Qed.

Lemma usage_ports l name port :
  name ≠ "" →
  port ∈ u_ports (usage_of (foldl add_pod ∅ l) name) ↔
  ∃ p c, p ∈ l ∧ podNodeName p = name ∧ c ∈ podContainers p ∧ port ∈ Container_ContainerPorts c.
Proof.
  intros Hname. rewrite usage_of_fold, usage_ports_fold by done.
  unfold usage_of. rewrite lookup_empty. simpl.
  setoid_rewrite list_elem_of_In. setoid_rewrite in_concat. setoid_rewrite <-list_elem_of_In.
  setoid_rewrite list_elem_of_fmap. unfold pods_on. setoid_rewrite list_elem_of_filter. set_solver.
Qed.

(** The ports a pod asks for are those of its containers. *)
Lemma request_ports p : pr_ContainerPorts (request_of p) = concat (Container_ContainerPorts <$> podContainers p).
Proof.
  unfold request_of, podResourceRequest.
  set (f := λ '(cpu, mem, accel, ports) c, _).
  assert (∀ cs cpu mem acc ports, ∃ cpu' mem' acc',
    foldl f (cpu, mem, acc, ports) cs = (cpu', mem', acc', ports ++ concat (Container_ContainerPorts <$> cs))) as H.
  { induction cs as [|c cs IH]; intros; simpl; [rewrite app_nil_r; eauto|].
    destruct (IH (wrap64 (cpu + ResourceList_GetCpuMillis (containerRequests c)))
      (wrap64 (mem + ResourceList_GetMemoryBytes (containerRequests c)))
      (add_accelerators acc (ResourceList_GetAccelerators (containerRequests c)))
      (ports ++ Container_ContainerPorts c)) as (? & ? & ? & ->).
    rewrite <-app_assoc. eauto. }
  destruct (H (podContainers p) 0 0 ∅ []) as (? & ? & ? & ->). done.
Qed.

Lemma candidate_of_Some usage n c :
  candidate_of usage n = Some c →
  nc_Name c = nodeName n ∧ nodeIsReady n = true ∧ nodeUnschedulable n = false ∧
  nc_UsedPorts c = u_ports (usage_of usage (nodeName n)) ∧
  nc_CPUCapacity c = ResourceList_GetCpuMillis (nodeAllocatable n) ∧
  nc_CPUUsed c = u_cpuMillis (usage_of usage (nodeName n)) ∧
  nc_MemCapacity c = ResourceList_GetMemoryBytes (nodeAllocatable n) ∧
  nc_MemUsed c = u_memoryBytes (usage_of usage (nodeName n)).
Proof.
  unfold candidate_of. destruct (nodeIsReady n), (nodeUnschedulable n); simpl; [done| |done|done].
  by intros [= <-].
Qed.

(** Sums of requests over containers, without wrap-around. *)
Definition sumZ {A} (g : A → Z) (l : list A) : Z := foldr (λ x a, g x + a) 0 l.

Lemma sumZ_app {A} (g : A → Z) l k : sumZ g (l ++ k) = sumZ g l + sumZ g k.
Proof. induction l as [|x l IH]; simpl; [done|]. unfold sumZ in *. simpl. lia. Qed.

Lemma sumZ_concat {A B} (g : B → Z) (f : A → list B) l :
  sumZ g (concat (f <$> l)) = sumZ (λ x, sumZ g (f x)) l.
Proof.
  induction l as [|x l IH]; [done|].
  change (concat (f <$> x :: l)) with (f x ++ concat (f <$> l)). by rewrite sumZ_app, IH.
Qed.

Lemma sumZ_perm {A} (g : A → Z) l k : l ≡ₚ k → sumZ g l = sumZ g k.
Proof. unfold sumZ. induction 1; simpl; lia. Qed.

Lemma sumZ_nonneg {A} (g : A → Z) l : (∀ x, x ∈ l → 0 ≤ g x) → 0 ≤ sumZ g l.
Proof.
  induction l as [|x l IH]; simpl; intros H; [done|].
  assert (0 ≤ g x) by (apply H; left). assert (0 ≤ sumZ g l) by (apply IH; intros; apply H; by right).
  unfold sumZ in *. simpl. lia.
Qed.

(** Accumulating with wrap-around is the wrapped sum. *)
Lemma foldl_wrap64 {A} (g : A → Z) a l :
  in_int64 a → foldl (λ a x, wrap64 (a + g x)) a l = wrap64 (a + sumZ g l).
Proof.
  revert a. induction l as [|x l IH]; intros a Ha; simpl.
  { by rewrite Z.add_0_r, wrap64_id. }
  rewrite IH by apply wrap64_range. rewrite wrap64_add_l. f_equal. unfold sumZ. simpl. lia.
Qed.

Definition cpu_of (c : Container) : Z := ResourceList_GetCpuMillis (containerRequests c).
Definition mem_of (c : Container) : Z := ResourceList_GetMemoryBytes (containerRequests c).
Definition pod_cpu (p : Pod) : Z := sumZ cpu_of (podContainers p).
Definition pod_mem (p : Pod) : Z := sumZ mem_of (podContainers p).

Lemma usage_cpu_fold cs u :
  in_int64 (u_cpuMillis u) →
  u_cpuMillis (foldl add_container u cs) = wrap64 (u_cpuMillis u + sumZ cpu_of cs).
Proof.
  intros Hu. rewrite <-foldl_wrap64 by done. clear Hu. revert u.
  induction cs as [|c cs IH]; intros u; simpl; [done|]. by rewrite IH.
Qed.

Lemma usage_mem_fold cs u :
  in_int64 (u_memoryBytes u) →
  u_memoryBytes (foldl add_container u cs) = wrap64 (u_memoryBytes u + sumZ mem_of cs).
Proof.
  intros Hu. rewrite <-foldl_wrap64 by done. clear Hu. revert u.
  induction cs as [|c cs IH]; intros u; simpl; [done|]. by rewrite IH.
Qed.

Lemma usage_cpu l name : name ≠ "" →
  u_cpuMillis (usage_of (foldl add_pod ∅ l) name) = wrap64 (sumZ pod_cpu (pods_on name l)).
Proof.
  intros Hn. rewrite usage_of_fold by done. unfold usage_of. rewrite lookup_empty. simpl.
  rewrite usage_cpu_fold by (unfold in_int64; simpl; lia). by rewrite sumZ_concat.
Qed.

Lemma usage_mem l name : name ≠ "" →
  u_memoryBytes (usage_of (foldl add_pod ∅ l) name) = wrap64 (sumZ pod_mem (pods_on name l)).
Proof.
  intros Hn. rewrite usage_of_fold by done. unfold usage_of. rewrite lookup_empty. simpl.
  rewrite usage_mem_fold by (unfold in_int64; simpl; lia). by rewrite sumZ_concat.
Qed.

Lemma request_cpu_mem p :
  pr_CPURequest (request_of p) = wrap64 (pod_cpu p) ∧ pr_MemRequest (request_of p) = wrap64 (pod_mem p).
Proof.
  unfold request_of, podResourceRequest.
  set (f := λ '(cpu, mem, accel, ports) c, _).
  assert (∀ cs cpu mem acc ports, in_int64 cpu → in_int64 mem → ∃ acc' ports',
    foldl f (cpu, mem, acc, ports) cs =
      (wrap64 (cpu + sumZ cpu_of cs), wrap64 (mem + sumZ mem_of cs), acc', ports')) as H.
  { induction cs as [|c cs IH]; intros cpu mem acc ports Hc Hm; simpl.
    { rewrite !Z.add_0_r, !wrap64_id by done. eauto. }
    edestruct (IH (wrap64 (cpu + cpu_of c)) (wrap64 (mem + mem_of c))) as (? & ? & Heq);
      [apply wrap64_range..|]. unfold cpu_of, mem_of in Heq. rewrite Heq.
    rewrite !wrap64_add_l. unfold sumZ; simpl. rewrite !Z.add_assoc. eauto. }
  destruct (H (podContainers p) 0 0 ∅ []) as (? & ? & Heq); [unfold in_int64; lia..|].
  by rewrite Heq.
Qed.

(** ** Theorems *)

(** Pods with sensible requests: non-negative, and with sums far from the
    64-bit range. *)
Definition sane_pods (l : list Pod) : Prop :=
  Forall (λ p, 0 ≤ pod_cpu p ∧ 0 ≤ pod_mem p) l ∧ sumZ pod_cpu l < 2 ^ 61 ∧ sumZ pod_mem l < 2 ^ 61.

Definition sane_node (n : Node) : Prop :=
  0 ≤ ResourceList_GetCpuMillis (nodeAllocatable n) < 2 ^ 61 ∧
  0 ≤ ResourceList_GetMemoryBytes (nodeAllocatable n) < 2 ^ 61.

Lemma sumZ_filter_le {A} (g : A → Z) (P : A → Prop) `{∀ x, Decision (P x)} l :
  Forall (λ x, 0 ≤ g x) l → 0 ≤ sumZ g (filter P l) ≤ sumZ g l.
Proof.
  induction l as [|x l IH]; intros Hl; simpl; [done|]. apply Forall_cons in Hl as [Hx Hl].
  specialize (IH Hl). rewrite filter_cons. case_decide; unfold sumZ in *; simpl in *; lia.
Qed.

Lemma sane_pods_on l name : sane_pods l →
  0 ≤ sumZ pod_cpu (pods_on name l) < 2 ^ 61 ∧ 0 ≤ sumZ pod_mem (pods_on name l) < 2 ^ 61.
Proof.
  intros (Hl & Hc & Hm).
  assert (0 ≤ sumZ pod_cpu (pods_on name l) ≤ sumZ pod_cpu l).
  { apply sumZ_filter_le. eapply Forall_impl; [exact Hl|]. by intros ? [? _]. }
  assert (0 ≤ sumZ pod_mem (pods_on name l) ≤ sumZ pod_mem l).
  { apply sumZ_filter_le. eapply Forall_impl; [exact Hl|]. by intros ? [_ ?]. }
  lia.
Qed.

Section placement.
Context {S : Type} `{!Store S} {Sh : Shuffle}.
Context `{!ProtoMessage Pod, !ProtoMessage Node} `{!Scheduler, !SchedulerLaws}.

(** The node name a pod carries after [schedulePod] was chosen by the
    scheduler. *)
Lemma schedulePod_node pods cands p (w w' : world S) p' r :
  podNodeName p = "" → schedulePod pods cands p w = (Ok (p', r), w') → podNodeName p' ≠ "" →
  Schedule (request_of p) cands = Ok (podNodeName p').
Proof.
  intros Hp Hs Hn. unfold schedulePod in Hs.
  destruct (Schedule (request_of p) cands) as [node|e|] eqn:E; [|exfalso|done].
  - minv Hs. by injection Hs1 as <- <- _; case_decide.
  - case_decide; [by injection Hs as -> _ _|]. minv Hs. by injection Hs1 as <- <- _.
Qed.


End placement.

(** ** Witnesses and a concrete run *)

Import Codec.Reference.

Definition demo_container (port : Z) : Container :=
  MkContainer "c" "nginx" (Some (MkResourceRequirements (Some (MkResourceList 500 (2 ^ 20) ∅)) None))
    None [] "" [port] ∅ None.
Definition demo_meta (name ns : string) : ObjectMeta := MkObjectMeta name ns "" "" ∅ 0.
Definition demo_web (name : string) (node : string) : Pod :=
  MkPod (Some (demo_meta name "default")) (Some (MkPodSpec [demo_container 80] node [] RESTART_POLICY_UNSPECIFIED))
    (Some (MkPodStatus POD_PHASE_PENDING "" [] 0 0)).
Definition demo_node : Node :=
  MkNode (Some (demo_meta "node-a" "")) None
    (Some (MkNodeStatus None (Some (MkResourceList 4000 (2 ^ 33) ∅)) true [] 0 "10.0.0.1")).
Definition demo_nodes : Registry Node := NewRegistry "nodes".


(** A cluster with one node and two unassigned pods that both need port 80. *)
Definition demo_conflict : world memStore :=
  let put {T} `{!ProtoMessage T} (r : Registry T) ns name (x : T) (w : world memStore) :=
    (reg_Put r ns name x w).2 in
  put demo_nodes "" "node-a" demo_node
    (put demo_pods "default" "web-0" (demo_web "web-0" "")
      (put demo_pods "default" "web-1" (demo_web "web-1" "") demo_world)).

(** Within one pass the candidates are computed once and not updated as
    pods are placed, so pods placed in the same pass are not checked against
    each other: the two pods of [demo_conflict], which need the same host
    port, are both assigned to the only node, and both assignments are stored. *)
Theorem batch_placement_port_conflict :
  let run := scheduleUnassigned (Sh := shuffle_id) demo_pods demo_nodes
    [demo_web "web-0" ""; demo_web "web-1" ""] demo_conflict in
  run.1 = Ok ([demo_web "web-0" "node-a"; demo_web "web-1" "node-a"], Ok tt) ∧
  (reg_Get demo_pods "default" "web-0" run.2).1 = Ok (demo_web "web-0" "node-a") ∧
  (reg_Get demo_pods "default" "web-1" run.2).1 = Ok (demo_web "web-1" "node-a").
Proof. split_and!; vm_compute; reflexivity. Qed.
