(* ===== verification/Deployment.v ===== *)
(** * Deployment: the deployment controller

    internal/controller/deployment.go.  One pass over a deployment evicts the
    pods it lost, creates or deletes pods until their number is the wanted
    one, schedules those without a node, claims the volumes of the template
    and records the status.  [deployment_converges] shows that a pass reaches
    the wanted number of pods; [created_pods_fresh] that creating never
    overwrites a pod the deployment already has. *)

From stdpp Require Import gmap strings list pretty.
From Stdlib Require Import ZArith Lia.
From S2P Require Import Prelude Api Codec Store Registry Cluster Scheduler Scheduling.

Local Open Scope Z_scope.

Record DeploymentReconciler := MkDeploymentReconciler {
  dr_deployments : Registry Deployment;
  dr_pods : Registry Pod;
  dr_nodes : Registry Node;
  dr_volumes : Registry Volume;
  dr_resync : Z;  (** nanoseconds *)
}.

Definition NewDeploymentReconciler (deployments : Registry Deployment) (pods : Registry Pod)
    (nodes : Registry Node) (volumes : Registry Volume) (resync : Z) : DeploymentReconciler :=
  MkDeploymentReconciler deployments pods nodes volumes (if resync <=? 0 then 5000000000 else resync).

Definition depMounts (d : Deployment) : list VolumeMount := PodSpec_GetVolumes (depTemplate d).
Definition depSelector (d : Deployment) : gmap string string := DeploymentSpec_GetSelector (Deployment_Spec d).

(** The label test of [ownedPods]. *)
Definition labelled (d : Deployment) (p : Pod) : bool :=
  bool_decide (slookup (podLabels p) OwnerDeploymentLabel = depName d).

Definition terminal_phase (p : Pod) : bool :=
  bool_decide (podPhase p = POD_PHASE_SUCCEEDED) || bool_decide (podPhase p = POD_PHASE_FAILED).

(** [newPod]: a pending pod with a copy of the template, labelled with the
    selector and its owner. *)
Definition newPod (d : Deployment) (index : Z) : Pod :=
  MkPod
    (Some (MkObjectMeta (depName d +:+ "-" +:+ pretty index) (depNamespace d) "" ""
      (<[OwnerDeploymentLabel := depName d]> (depSelector d)) 0))
    (depTemplate d)
    (Some (MkPodStatus POD_PHASE_PENDING "" [] 0 0)).

(** The ordinals of the owned pods, read back from their names. *)
Definition occupied (d : Deployment) (owned : list Pod) : gset Z :=
  list_to_set (omap (λ p, Atoi (TrimPrefix (podName p) (depName d +:+ "-"))) owned).

(** The number of replicas wanted: at most one with volumes. *)
Definition want_replicas (d : Deployment) : Z :=
  if negb (bool_decide (depMounts d = [])) && (1 <? depReplicas d) then 1 else depReplicas d.

Definition count_ready (owned : list Pod) : Z :=
  foldl (λ ready p, if decide (podPhase p = POD_PHASE_RUNNING) then wrap32 (ready + 1) else ready) 0 owned.

(** The first node that one of the pods runs on. *)
Fixpoint first_node (owned : list Pod) : string :=
  match owned with
  | [] => ""
  | p :: owned => if decide (podNodeName p = "") then first_node owned else podNodeName p
  end.

Section deployment.
Context {S : Type} `{!Store S} {Sh : Shuffle} `{AM : !ApiMessages} `{!Scheduler}.

Definition nodeReady (r : DeploymentReconciler) (name : string) : M S bool :=
  node ← attempt (reg_Get (dr_nodes r) "" name);
  match node with
  | Ok node => mret (nodeIsReady node)
  | Err e => if errors_Is e ErrNotFound then mret false else fail e
  | Panic => panic
  end.

(** The loop of [ownedPods] over the pods of the namespace. *)
Fixpoint owned_loop (r : DeploymentReconciler) (d : Deployment) (all : list Pod) : M S (list Pod) :=
  match all with
  | [] => mret []
  | p :: all =>
      if negb (labelled d p) then owned_loop r d all
      else
        ready ← (if decide (podNodeName p = "") then mret true else nodeReady r (podNodeName p));
        if negb ready || terminal_phase p then
          _ ← reg_Delete (dr_pods r) (podNamespace p) (podName p);
          owned_loop r d all
        else
          rest ← owned_loop r d all;
          mret (p :: rest)
  end.

Definition ownedPods (r : DeploymentReconciler) (d : Deployment) : M S (list Pod) :=
  all ← reg_List (dr_pods r) (depNamespace d);
  owned_loop r d all.

Fixpoint resolveVolumeNode (r : DeploymentReconciler) (namespace : string) (mounts : list VolumeMount)
    : M S string :=
  match mounts with
  | [] => mret ""
  | m :: mounts =>
      vol ← attempt (reg_Get (dr_volumes r) namespace (VolumeMount_VolumeName m));
      match vol with
      | Ok vol => if decide (volNodeName vol = "") then resolveVolumeNode r namespace mounts
                  else mret (volNodeName vol)
      | Err e => if errors_Is e ErrNotFound then resolveVolumeNode r namespace mounts else fail e
      | Panic => panic
      end
  end.

(** The body of the loop of [claimVolumeNodes]: writing a label through a nil
    metadata pointer panics. *)
Definition claim_volume (r : DeploymentReconciler) (d : Deployment) (nodeName : string) (m : VolumeMount)
    : M S unit :=
  vol ← attempt (reg_Get (dr_volumes r) (depNamespace d) (VolumeMount_VolumeName m));
  match vol with
  | Ok vol =>
      if decide (volNodeName vol = "") then
        let vol := volume_set_status
          (Some (volstatus_set_node nodeName (default VolumeStatus_zero (Volume_Status vol)))) vol in
        match Volume_Metadata vol with
        | None => panic
        | Some meta =>
            let vol := volume_set_meta
              (Some (meta_set_labels (<[OwnerDeploymentLabel := depName d]> (ObjectMeta_Labels meta)) meta)) vol in
            reg_Put (dr_volumes r) (depNamespace d) (ObjectMeta_GetName (Volume_Metadata vol)) vol
        end
      else mret ()
  | Err e => if errors_Is e ErrNotFound then mret () else fail e
  | Panic => panic
  end.

Definition claimVolumeNodes (r : DeploymentReconciler) (d : Deployment) (owned : list Pod) : M S unit :=
  if decide (depMounts d = []) then mret ()
  else if decide (first_node owned = "") then mret ()
  else for_each (depMounts d) (claim_volume r d (first_node owned)).

(** The creation loop, [for i := 0; toCreate > 0; i++]: it skips the occupied
    ordinals.  [create_fuel] iterations are always enough
    ([create_loop_runs]). *)
Fixpoint create_loop (r : DeploymentReconciler) (d : Deployment) (claimedNode : string) (occ : gset Z)
    (fuel : nat) (i : Z) (toCreate : nat) : M S unit :=
  match toCreate, fuel with
  | O, _ => mret ()
  | _, O => fail (Errorf "out of fuel")
  | Datatypes.S rest, Datatypes.S fuel =>
      if decide (i ∈ occ) then create_loop r d claimedNode occ fuel (wrap64 (i + 1)) toCreate
      else
        let pod := newPod d i in
        let pod := if decide (claimedNode = "") then pod else pod_assign_node claimedNode pod in
        _ ← wrapM "create pod" (reg_Put (dr_pods r) (podNamespace pod) (podName pod) pod);
        create_loop r d claimedNode occ fuel (wrap64 (i + 1)) rest
  end.

Definition create_fuel (occ : gset Z) (toCreate : nat) : nat := (size occ + toCreate)%nat.

(** The deletion loop, [for i := want; i < have; i++]: indexing the slice
    with a negative number panics. *)
Definition delete_loop (r : DeploymentReconciler) (want : Z) (owned : list Pod) : M S unit :=
  if want <? 0 then panic
  else for_each (drop (Z.to_nat want) owned) (λ p,
    wrapM "delete pod" (reg_Delete (dr_pods r) (podNamespace p) (podName p))).

(** The part of [reconcileOne] that brings the number of pods to [want]. *)
Definition scale (r : DeploymentReconciler) (d : Deployment) (owned : list Pod) : M S unit :=
  let want := want_replicas d in
  let have := Z.of_nat (length owned) in
  if have <? want then
    claimedNode ← (if decide (depMounts d = []) then mret ""
                   else wrapM "resolve volume node" (resolveVolumeNode r (depNamespace d) (depMounts d)));
    let occ := occupied d owned in
    let toCreate := Z.to_nat (want - have) in
    create_loop r d claimedNode occ (create_fuel occ toCreate) 0 toCreate
  else if want <? have then delete_loop r want owned
  else mret ().

(** The part that records the status on a fresh copy of the deployment. *)
Definition record_status (r : DeploymentReconciler) (d : Deployment) (owned : list Pod) : M S unit :=
  current ← wrapM "re-fetch deployment before status update"
    (reg_Get (dr_deployments r) (depNamespace d) (depName d));
  let current := deployment_set_status
    (Some (MkDeploymentStatus (wrap32 (Z.of_nat (length owned))) (count_ready owned))) current in
  reg_Put (dr_deployments r) (depNamespace current) (depName current) current.

Definition dep_reconcileOne (r : DeploymentReconciler) (d : Deployment) : M S unit :=
  owned ← wrapM "list owned pods" (ownedPods r d);
  _ ← scale r d owned;
  owned ← wrapM "re-list owned pods" (ownedPods r d);
  '(owned, _) ← scheduleUnassigned (dr_pods r) (dr_nodes r) owned;
  _ ← (if decide (depMounts d = []) then mret () else logged (claimVolumeNodes r d owned));
  record_status r d owned.

Definition dep_reconcileAll (r : DeploymentReconciler) : M S unit :=
  deployments ← attempt (reg_List (dr_deployments r) "");
  match deployments with
  | Ok deployments => for_each deployments (λ d, logged (dep_reconcileOne r d))
  | Err _ => mret ()
  | Panic => panic
  end.

End deployment.

(** ** The abstract effect of a pass *)

(** The controller as cmd/nimbus-apiserver/main.go wires it. *)
Definition wired (resync : Z) : DeploymentReconciler :=
  NewDeploymentReconciler deploymentsR podsR nodesR volumesR resync.

Definition node_ready (N : gmap string Node) (name : string) : bool :=
  match N !! reg_key nodesR "" name with Some n => nodeIsReady n | None => false end.

(** The pod stays: it has no node or a ready one, and has not finished. *)
Definition keeps (N : gmap string Node) (p : Pod) : bool :=
  (bool_decide (podNodeName p = "") || node_ready N (podNodeName p)) && negb (terminal_phase p).

Definition owned_by (d : Deployment) (p : Pod) : bool :=
  bool_decide (podNamespace p = depNamespace d) && labelled d p.

Definition owned_map (d : Deployment) (P : gmap string Pod) : gmap string Pod :=
  filter (λ kp, owned_by d kp.2 = true) P.

Definition others (d : Deployment) (P : gmap string Pod) : gmap string Pod :=
  filter (λ kp, owned_by d kp.2 = false) P.

Definition with_pods (c : cluster) (P : gmap string Pod) : cluster :=
  MkCluster P (c_nodes c) (c_deployments c) (c_volumes c).

(** Eviction: the owned pods that do not stay are gone. *)
Definition evict (N : gmap string Node) (d : Deployment) (P : gmap string Pod) : gmap string Pod :=
  filter (λ kp, owned_by d kp.2 = true → keeps N kp.2 = true) P.

Lemma owned_map_lookup d P k p : owned_map d P !! k = Some p ↔ P !! k = Some p ∧ owned_by d p = true.
Proof. unfold owned_map. by rewrite map_lookup_filter_Some. Qed.

Lemma others_lookup d P k p : others d P !! k = Some p ↔ P !! k = Some p ∧ owned_by d p = false.
Proof. unfold others. by rewrite map_lookup_filter_Some. Qed.

Lemma evict_lookup N d P k p :
  evict N d P !! k = Some p ↔ P !! k = Some p ∧ (owned_by d p = true → keeps N p = true).
Proof. unfold evict. by rewrite map_lookup_filter_Some. Qed.

Lemma owned_map_wf d P : wf_pods P → wf_pods (owned_map d P).
Proof. intros HP k p [Hp _]%owned_map_lookup. by apply HP. Qed.

Lemma evict_wf N d P : wf_pods P → wf_pods (evict N d P).
Proof. intros HP k p [Hp _]%evict_lookup. by apply HP. Qed.

Lemma others_evict N d P : others d (evict N d P) = others d P.
Proof.
  apply map_eq. intros k. apply option_eq. intros p. rewrite !others_lookup, evict_lookup.
  split; [tauto|]. intros [Hp Ho]. by rewrite Ho.
Qed.

Lemma owned_evict_keeps N d P k p : owned_map d (evict N d P) !! k = Some p → keeps N p = true.
Proof. intros [[_ Hk]%evict_lookup Ho]%owned_map_lookup. auto. Qed.

(** Eviction of pods that all stay does nothing. *)
Lemma evict_id N d P :
  (∀ k p, owned_map d P !! k = Some p → keeps N p = true) → evict N d P = P.
Proof.
  intros H. unfold evict. apply map_filter_id. intros k p Hp Ho. apply (H k). by apply owned_map_lookup.
Qed.

Section deployment_lemmas.
Context {S : Type} `{!Store S, !StoreLaws S} {Sh : Shuffle} `{AM : !ApiMessages, AL : !ApiLaws}.
Context `{SC : !Scheduler, SL : !SchedulerLaws}.

Lemma nodeReady_spec w c name resync :
  holds w c → nodeReady (wired resync) name w = (Ok (node_ready (c_nodes c) name), w).
Proof.
  intros Hw. unfold nodeReady, node_ready. simpl.
  pose proof (get_node w c "" name Hw) as Hg.
  destruct (c_nodes c !! reg_key nodesR "" name) as [n|]; simpl in Hg.
  - by mstep (attempt_run_Ok _ _ _ _ Hg).
  - by mstep (attempt_run_Err _ _ _ _ Hg).
Qed.

(** The loop of [ownedPods]: what it returns and what it deletes. *)
Lemma owned_loop_spec d resync all w c :
  holds w c →
  ∃ w', owned_loop (wired resync) d all w =
      (Ok (filter (λ p, labelled d p && keeps (c_nodes c) p = true) all), w') ∧
    holds w' (with_pods c (remove_pods
      (filter (λ p, labelled d p && negb (keeps (c_nodes c) p) = true) all) (c_pods c))).
Proof.
  revert w c. induction all as [|p all IH]; intros w c Hw; [by exists w; destruct c|].
  cbn [owned_loop]. rewrite !filter_cons.
  destruct (labelled d p); simpl; [|by apply IH].
  assert ((if decide (podNodeName p = "") then mret true else nodeReady (wired resync) (podNodeName p)) w =
    (Ok (bool_decide (podNodeName p = "") || node_ready (c_nodes c) (podNodeName p)), w)) as Hr.
  { case_decide as Hd; [by rewrite bool_decide_eq_true_2|]. rewrite bool_decide_eq_false_2 by done.
    simpl. by apply nodeReady_spec. }
  mstep Hr. clear Hr.
  assert (keeps (c_nodes c) p = negb (negb
    (bool_decide (podNodeName p = "") || node_ready (c_nodes c) (podNodeName p)) || terminal_phase p)) as ->
    by (unfold keeps; by rewrite negb_orb, negb_involutive).
  destruct (negb _ || terminal_phase p); simpl.
  - destruct (delete_pod w c (podNamespace p) (podName p) Hw) as (w1 & Hdel & Hw1).
    mstep Hdel. apply (IH _ _ Hw1).
  - destruct (IH w c Hw) as (w1 & Hl & Hw1). mstep Hl. by exists w1.
Qed.

Lemma ownedPods_spec d resync w c :
  holds w c → wf_pods (c_pods c) → simple (depNamespace d) → depNamespace d ≠ "" →
  ∃ l w', ownedPods (wired resync) d w = (Ok l, w') ∧
    holds w' (with_pods c (evict (c_nodes c) d (c_pods c))) ∧
    l ≡ₚ (map_to_list (owned_map d (evict (c_nodes c) d (c_pods c)))).*2.
Proof.
  intros Hw HP Hns Hne. unfold ownedPods. cbn [wired NewDeploymentReconciler dr_pods].
  destruct (list_pods w c (depNamespace d) Hw) as (all & w1 & Hl & Hw1 & Hp).
  mstep Hl. destruct (owned_loop_spec d resync all w1 c Hw1) as (w2 & Ho & Hw2).
  do 2 eexists. split; [exact Ho|].
  set (Pn := with_prefix (reg_prefix podsR (depNamespace d)) (c_pods c)) in *.
  assert (wf_pods Pn) as HPn.
  { intros k p [Hk _]%with_prefix_lookup. by apply HP. }
  assert (∀ p, p ∈ all ↔ c_pods c !! pod_key p = Some p ∧ podNamespace p = depNamespace d) as Hall.
  { intros p. rewrite Hp, wf_values_elem by done. unfold Pn. rewrite with_prefix_lookup.
    split; intros [Hk ?]; (split; [done|]); by eapply (wf_pods_namespace _ _ _ _ HP Hk). }
  assert (remove_pods (filter (λ p, labelled d p && negb (keeps (c_nodes c) p) = true) all) (c_pods c) =
    evict (c_nodes c) d (c_pods c)) as <-.
  { apply map_eq. intros k. apply option_eq. intros p.
    rewrite lookup_remove_pods, evict_lookup. apply and_iff_compat_l_weak. intros Hk.
    destruct (HP _ _ Hk) as (-> & _). unfold owned_by. split.
    - intros Hni. rewrite andb_true_iff, bool_decide_eq_true. intros [Hpn Hlab].
      apply not_false_is_true. intros Hkeep. apply Hni. apply list_elem_of_fmap. exists p. split; [done|].
      apply list_elem_of_filter. rewrite Hlab, Hkeep. split; [done|]. by apply Hall.
    - intros Hk' (q & Hq & [Hlk Hqa]%list_elem_of_filter)%list_elem_of_fmap.
      apply Hall in Hqa as [Hqk Hqn]. rewrite <-Hq in Hqk. rewrite Hk in Hqk. injection Hqk as <-.
      apply andb_true_iff in Hlk as [Hlab Hkeep]. rewrite Hlab, bool_decide_eq_true_2 in Hk' by done.
      rewrite (Hk' eq_refl) in Hkeep. done. }
  split; [exact Hw2|]. apply values_perm.
  - apply owned_map_wf, wf_pods_remove, HP.
  - apply (NoDup_fmap_2_strong pod_key); [|apply NoDup_filter; rewrite Hp; eapply NoDup_fmap_1; by apply wf_values_NoDup].
    intros p q [_ Hpa]%list_elem_of_filter [_ Hqa]%list_elem_of_filter Heq.
    apply Hall in Hpa as [Hpa _]. apply Hall in Hqa as [Hqa _]. congruence.
  - intros p. rewrite list_elem_of_filter, owned_map_lookup, lookup_remove_pods, Hall, andb_true_iff.
    unfold owned_by. rewrite andb_true_iff, bool_decide_eq_true. split.
    + intros ((Hlab & Hkeep) & Hk & Hpn). split_and!; try done.
      intros (q & Hq & [Hlk Hqa]%list_elem_of_filter)%list_elem_of_fmap.
      apply Hall in Hqa as [Hqk Hqn]. rewrite <-Hq, Hk in Hqk. injection Hqk as <-.
      by rewrite Hlab, Hkeep in Hlk.
    + intros [[Hk Hni] [Hpn Hlab]]. split_and!; try done.
      apply not_false_is_true. intros Hkeep. apply Hni, list_elem_of_fmap. exists p. split; [done|].
      apply list_elem_of_filter. rewrite Hlab, Hkeep. split; [done|]. by apply Hall.
Qed.

(** *** Creation *)

(** The pod that the creation loop stores for an ordinal. *)
Definition created (d : Deployment) (claimed : string) (i : Z) : Pod :=
  if decide (claimed = "") then newPod d i else pod_assign_node claimed (newPod d i).

Lemma created_name d claimed i : podName (created d claimed i) = depName d +:+ "-" +:+ pretty i.
Proof. unfold created. by case_decide. Qed.

Lemma created_namespace d claimed i : podNamespace (created d claimed i) = depNamespace d.
Proof. unfold created. by case_decide. Qed.

Lemma created_owned d claimed i : owned_by d (created d claimed i) = true.
Proof.
  unfold owned_by. rewrite created_namespace, bool_decide_eq_true_2 by done. simpl.
  unfold labelled, slookup, created. case_decide; apply bool_decide_eq_true_2; simpl;
    unfold podLabels; simpl; by rewrite lookup_insert_eq.
Qed.

Lemma created_key_inj d claimed i j :
  pod_key (created d claimed i) = pod_key (created d claimed j) → i = j.
Proof.
  unfold pod_key. rewrite !created_namespace, !created_name.
  intros Heq%reg_key_name_inj. by repeat apply (inj (String.append _)) in Heq; apply (inj pretty) in Heq.
Qed.

(** The ordinals at or above [i] that are occupied: the measure of the loop. *)
Definition above (i : Z) (occ : gset Z) : gset Z := filter (λ j, i ≤ j) occ.

Lemma above_step i occ : i ∈ occ → size (above i occ) = Datatypes.S (size (above (i + 1) occ)).
Proof.
  intros Hi. assert (above i occ = {[i]} ∪ above (i + 1) occ) as ->.
  { apply set_eq. intros j. unfold above. rewrite elem_of_union, !elem_of_filter, elem_of_singleton.
    destruct (decide (j = i)) as [->|]; [naive_solver lia|]. intuition lia. }
  rewrite size_union, size_singleton; [done|]. unfold above. set_solver by lia.
Qed.

Lemma above_next i occ : (size (above (i + 1) occ) ≤ size (above i occ))%nat.
Proof. apply subseteq_size. unfold above. intros j. rewrite !elem_of_filter. intuition lia. Qed.

(** With enough fuel the loop runs to completion on a healthy store: it
    creates [toCreate] pods at distinct free ordinals, the lowest ones. *)
Lemma create_loop_runs d claimed occ resync fuel i toCreate w c :
  holds w c → 0 ≤ i → i + Z.of_nat fuel < 2 ^ 63 → (size (above i occ) + toCreate ≤ fuel)%nat →
  ∃ w' js, create_loop (wired resync) d claimed occ fuel i toCreate w = (Ok tt, w') ∧
    holds w' (with_pods c (add_pods (created d claimed <$> js) (c_pods c))) ∧
    NoDup js ∧ length js = toCreate ∧ (∀ j, j ∈ js → i ≤ j < 2 ^ 63 ∧ j ∉ occ) ∧
    (∀ j k, j ∈ js → i ≤ k < j → k ∈ occ ∨ k ∈ js).
Proof.
  revert i toCreate w c. induction fuel as [|fuel IH]; intros i toCreate w c Hw Hi Hlt Hf.
  { assert (toCreate = 0%nat) as -> by lia. exists w, []. destruct c.
    split_and!; [done..|apply NoDup_nil_2|done|set_solver|set_solver]. }
  destruct toCreate as [|rest].
  { exists w, []. destruct c. split_and!; [done..|apply NoDup_nil_2|done|set_solver|set_solver]. }
  cbn [create_loop]. rewrite wrap64_id by (unfold in_int64; lia).
  case_decide as Hocc.
  - rewrite above_step in Hf by done.
    destruct (IH (i + 1) (Datatypes.S rest) w c) as (w' & js & Hr & Hw' & Hnd & Hlen & His & Hlow); [done|lia..|].
    exists w', js. split_and!; [done..| |].
    + intros j Hj. destruct (His j Hj). split; [lia|done].
    + intros j k Hj Hk. destruct (decide (k = i)) as [->|]; [by left|]. apply (Hlow j k Hj). lia.
  - fold (created d claimed i). cbn zeta.
    destruct (put_pod w c (podNamespace (created d claimed i)) (podName (created d claimed i))
      (created d claimed i) Hw) as (w1 & Hp & Hw1).
    mstep (wrapM_run_Ok "create pod" _ _ _ _ Hp).
    pose proof (above_next i occ).
    destruct (IH (i + 1) rest w1 _ Hw1) as (w' & js & Hr & Hw' & Hnd & Hlen & His & Hlow); [lia..|].
    exists w', (i :: js). split_and!; [done|exact Hw'| |simpl; lia| |].
    + apply NoDup_cons_2; [|done]. intros Hin. destruct (His i Hin). lia.
    + intros j [->|Hj]%elem_of_cons; [split; [lia|done]|]. destruct (His j Hj). split; [lia|done].
    + intros j k [->|Hj]%elem_of_cons Hk; [lia|]. rewrite elem_of_cons.
      destruct (decide (k = i)) as [->|]; [by right; left|]. destruct (Hlow j k Hj); [lia|by left|by right; right].
Qed.

(** The ordinal of a pod with a created name is occupied. *)
Lemma occupied_name d owned p i :
  p ∈ owned → podName p = depName d +:+ "-" +:+ pretty i → 0 ≤ i < 2 ^ 63 → i ∈ occupied d owned.
Proof.
  intros Hp Hname Hi. unfold occupied. rewrite elem_of_list_to_set, list_elem_of_omap.
  exists p. split; [done|]. rewrite Hname, <-string_app_assoc, TrimPrefix_app. by apply Atoi_pretty_Z.
Qed.

Lemma occupied_size d owned : (size (occupied d owned) ≤ length owned)%nat.
Proof.
  unfold occupied. etrans; [|apply (omap_length_le (λ p, Atoi (TrimPrefix (podName p) (depName d +:+ "-"))))].
  set (l := omap _ owned). clearbody l. induction l as [|x l IH]; [by rewrite list_to_set_nil, size_empty|].
  rewrite list_to_set_cons, size_union_alt, size_singleton. simpl. apply le_n_S. etrans; [|exact IH].
  apply subseteq_size. set_solver.
Qed.

(** No pod of another owner in the namespace has a name the controller would
    generate for this deployment. *)
Definition no_foreign (d : Deployment) (P : gmap string Pod) : Prop :=
  ∀ k p i, P !! k = Some p → podNamespace p = depNamespace d → owned_by d p = false →
    podName p ≠ depName d +:+ "-" +:+ pretty (i : Z).

(** Creating: the keys are new, so nothing is overwritten. *)
Lemma created_keys_fresh d claimed P l i :
  wf_pods P → simple (depNamespace d) → simple (depName d) → no_foreign d P →
  l ≡ₚ (map_to_list (owned_map d P)).*2 → 0 ≤ i < 2 ^ 63 → i ∉ occupied d l →
  P !! pod_key (created d claimed i) = None.
Proof.
  intros HP Hns Hn Hf Hl Hi Hocc. apply eq_None_not_Some. intros [q Hq].
  destruct (HP _ _ Hq) as (Hkey & Hqns & Hqn).
  unfold pod_key in Hkey. rewrite created_namespace, created_name in Hkey.
  apply reg_key_inj in Hkey as [Hns' Hn']; [|done|done| |done].
  2: { unfold simple in *. by rewrite !contains_char_app, Hn, contains_slash_pretty_Z. }
  destruct (owned_by d q) eqn:Ho; [|by eapply (Hf _ q i)].
  apply Hocc, (occupied_name d l q i); [|done..].
  rewrite Hl, wf_values_elem by (by apply owned_map_wf). apply owned_map_lookup. split; [|done].
  by rewrite <-(proj1 (HP _ _ Hq)).
Qed.

Lemma created_simple d claimed i :
  simple (depNamespace d) → simple (depName d) →
  simple (podNamespace (created d claimed i)) ∧ simple (podName (created d claimed i)).
Proof.
  intros Hns Hn. rewrite created_namespace, created_name. split; [done|].
  unfold simple in *. by rewrite !contains_char_app, Hn, contains_slash_pretty_Z.
Qed.

Lemma created_keeps d claimed i N :
  claimed = "" → PodSpec_GetNodeName (depTemplate d) = "" → keeps N (created d claimed i) = true.
Proof.
  intros -> Ht. unfold keeps, created. simpl. unfold podNodeName at 1. simpl.
  by rewrite bool_decide_eq_true_2.
Qed.

Lemma owned_map_add d claimed js P :
  NoDup js →
  owned_map d (add_pods (created d claimed <$> js) P) = add_pods (created d claimed <$> js) (owned_map d P) ∧
  ((∀ j, j ∈ js → P !! pod_key (created d claimed j) = None) →
    others d (add_pods (created d claimed <$> js) P) = others d P).
Proof.
  intros Hnd. assert (NoDup (pod_key <$> (created d claimed <$> js))) as Hk.
  { rewrite <-list_fmap_compose. apply NoDup_fmap_2_strong; [|done].
    intros i j _ _. apply created_key_inj. }
  split; [|intros Hfresh]; apply map_eq; intros k; apply option_eq; intros p.
  - rewrite owned_map_lookup, !lookup_add_pods, owned_map_lookup by done.
    split; [naive_solver|]. intros [[(j & -> & Hj)%list_elem_of_fmap Hkey]|?]; [|naive_solver].
    split; [left; split; [by apply list_elem_of_fmap_2|done]|apply created_owned].
  - rewrite !others_lookup, lookup_add_pods by done. split.
    + intros [[[(j & -> & Hj)%list_elem_of_fmap _]|?] Ho]; [|naive_solver].
      by rewrite created_owned in Ho.
    + intros [Hp Ho]. split; [|done]. right. split; [|done].
      rewrite <-list_fmap_compose. intros (j & -> & Hj)%list_elem_of_fmap.
      specialize (Hfresh j Hj). simpl in Hp. congruence.
Qed.

(** What a pass guarantees once the number of pods has been adjusted. *)
Definition scaled (d : Deployment) (N : gmap string Node) (P P' : gmap string Pod) : Prop :=
  wf_pods P' ∧ Z.of_nat (size (owned_map d P')) = want_replicas d ∧ others d P' = others d P ∧
  (∀ k p, owned_map d P' !! k = Some p → keeps N p = true).

Lemma scale_up d resync w c l :
  holds w c → wf_pods (c_pods c) → simple (depNamespace d) → simple (depName d) →
  no_foreign d (c_pods c) → depMounts d = [] → PodSpec_GetNodeName (depTemplate d) = "" →
  Z.of_nat (length l) < want_replicas d < 2 ^ 31 →
  l ≡ₚ (map_to_list (owned_map d (c_pods c))).*2 →
  (∀ k p, owned_map d (c_pods c) !! k = Some p → keeps (c_nodes c) p = true) →
  ∃ w' P', scale (wired resync) d l w = (Ok tt, w') ∧ holds w' (with_pods c P') ∧
    scaled d (c_nodes c) (c_pods c) P'.
Proof.
  intros Hw HP Hns Hn Hf Hm Ht Hwant Hl Hkeep. unfold scale.
  rewrite (proj2 (Z.ltb_lt _ _)) by lia. rewrite decide_True by done.
  assert ((mret "" : M S string) w = (Ok "", w)) as Hr by done. mstep Hr. clear Hr.
  set (n := Z.to_nat (want_replicas d - Z.of_nat (length l))). set (occ := occupied d l).
  assert (size (above 0 occ) ≤ size occ)%nat by (apply subseteq_size; unfold above; set_solver).
  pose proof (occupied_size d l) as Hocc. fold occ in Hocc.
  destruct (create_loop_runs d "" occ resync (create_fuel occ n) 0 n w c Hw)
    as (w' & js & Hrun & Hw' & Hnd & Hlen & Hjs & _); [lia|unfold create_fuel, n in *; lia|unfold create_fuel; lia|].
  exists w', (add_pods (created d "" <$> js) (c_pods c)). split; [done|]. split; [done|].
  assert (∀ j, j ∈ js → c_pods c !! pod_key (created d "" j) = None) as Hfresh.
  { intros j Hj. destruct (Hjs j Hj). by eapply created_keys_fresh. }
  destruct (owned_map_add d "" js (c_pods c) Hnd) as [Hown Hoth].
  assert (NoDup (pod_key <$> (created d "" <$> js))) as Hk.
  { rewrite <-list_fmap_compose. apply NoDup_fmap_2_strong; [|done]. intros i j _ _. apply created_key_inj. }
  split; [|split; [|split]].
  - apply wf_pods_add; [done..|]. apply Forall_fmap, Forall_forall. intros j _. by apply created_simple.
  - rewrite Hown, size_add_pods, length_fmap, Hlen; [|done|].
    + rewrite <-(length_values (owned_map d (c_pods c))), <-(Permutation_length Hl). unfold n. lia.
    + intros p (j & -> & Hj)%list_elem_of_fmap. destruct (owned_map d (c_pods c) !! _) as [q|] eqn:E; [|done].
      apply owned_map_lookup in E as [E _]. by rewrite Hfresh in E.
  - by apply Hoth.
  - intros k p. rewrite Hown, lookup_add_pods by done.
    intros [[(j & -> & _)%list_elem_of_fmap _]|[_ Hp]]; [by apply created_keeps|by eapply Hkeep].
Qed.

(** *** Deletion *)

Lemma delete_each_spec l w c :
  holds w c →
  ∃ w', for_each l (λ p, wrapM "delete pod" (reg_Delete podsR (podNamespace p) (podName p))) w = (Ok tt, w') ∧
    holds w' (with_pods c (remove_pods l (c_pods c))).
Proof.
  revert w c. induction l as [|p l IH]; intros w c Hw; [by exists w; destruct c|]. simpl.
  destruct (delete_pod w c (podNamespace p) (podName p) Hw) as (w1 & Hd & Hw1).
  mstep (wrapM_run_Ok "delete pod" _ _ _ _ Hd). apply (IH _ _ Hw1).
Qed.

Lemma scale_down d resync w c l :
  holds w c → wf_pods (c_pods c) → 0 ≤ want_replicas d < Z.of_nat (length l) →
  l ≡ₚ (map_to_list (owned_map d (c_pods c))).*2 →
  (∀ k p, owned_map d (c_pods c) !! k = Some p → keeps (c_nodes c) p = true) →
  ∃ w' P', scale (wired resync) d l w = (Ok tt, w') ∧ holds w' (with_pods c P') ∧
    scaled d (c_nodes c) (c_pods c) P'.
Proof.
  intros Hw HP Hwant Hl Hkeep. unfold scale.
  rewrite (proj2 (Z.ltb_ge _ _)), (proj2 (Z.ltb_lt _ _)) by lia.
  unfold delete_loop. rewrite (proj2 (Z.ltb_ge _ _)) by lia.
  set (n := Z.to_nat (want_replicas d)). cbn [wired NewDeploymentReconciler dr_pods].
  destruct (delete_each_spec (drop n l) w c Hw) as (w' & Hrun & Hw').
  exists w', (remove_pods (drop n l) (c_pods c)). split; [exact Hrun|]. split; [exact Hw'|].
  set (P' := remove_pods (drop n l) (c_pods c)).
  pose proof (owned_map_wf d _ HP) as HO.
  assert (NoDup (pod_key <$> l)) as Hnd by (rewrite Hl; by apply wf_values_NoDup).
  assert (∀ p, p ∈ l ↔ owned_map d (c_pods c) !! pod_key p = Some p) as Hel.
  { intros p. by rewrite Hl, wf_values_elem. }
  assert (wf_pods P') as HP' by (by apply wf_pods_remove).
  assert (take n l ≡ₚ (map_to_list (owned_map d P')).*2) as Htake.
  { rewrite <-(take_drop n l) in Hnd. rewrite fmap_app in Hnd. apply NoDup_app in Hnd as (Hnd1 & Hdis & _).
    apply values_perm; [by apply owned_map_wf|done|]. intros p. unfold P'.
    rewrite owned_map_lookup, lookup_remove_pods. split.
    - intros Hp. assert (p ∈ l) as [Hpl Ho]%Hel%owned_map_lookup by (rewrite <-(take_drop n l); set_solver).
      split; [|done]. split; [done|]. apply Hdis. by apply list_elem_of_fmap_2.
    - intros [[Hp Hni] Ho]. assert (p ∈ l) as Hpl by (apply Hel, owned_map_lookup; done).
      rewrite <-(take_drop n l), elem_of_app in Hpl. destruct Hpl as [?|Hd]; [done|].
      destruct Hni. by apply list_elem_of_fmap_2. }
  split; [done|]. split; [|split].
  - rewrite <-length_values, <-(Permutation_length Htake), length_take. unfold n. lia.
  - apply map_eq. intros k. apply option_eq. intros p. unfold P'. rewrite !others_lookup, lookup_remove_pods.
    split; [tauto|]. intros [Hp Ho]. split; [|done]. split; [done|].
    intros (q & -> & Hq)%list_elem_of_fmap.
    assert (q ∈ l) as [Hq' Hoq]%Hel%owned_map_lookup by (rewrite <-(take_drop n l); set_solver). congruence.
  - intros k p [[Hp _]%lookup_remove_pods Ho]%owned_map_lookup. apply (Hkeep k). by apply owned_map_lookup.
Qed.

Lemma scale_spec d resync w c l :
  holds w c → wf_pods (c_pods c) → simple (depNamespace d) → simple (depName d) →
  no_foreign d (c_pods c) → depMounts d = [] → PodSpec_GetNodeName (depTemplate d) = "" →
  0 ≤ want_replicas d < 2 ^ 31 →
  l ≡ₚ (map_to_list (owned_map d (c_pods c))).*2 →
  (∀ k p, owned_map d (c_pods c) !! k = Some p → keeps (c_nodes c) p = true) →
  ∃ w' P', scale (wired resync) d l w = (Ok tt, w') ∧ holds w' (with_pods c P') ∧
    scaled d (c_nodes c) (c_pods c) P'.
Proof.
  intros ? ? ? ? ? ? ? ? Hl ?. destruct (Z.lt_trichotomy (Z.of_nat (length l)) (want_replicas d)) as [?|[Heq|?]].
  - apply scale_up; done || lia.
  - exists w, (c_pods c). unfold scale. rewrite Heq, Z.ltb_irrefl. destruct c. split; [done|]. split; [done|].
    split; [done|]. split; [|done]. by rewrite <-length_values, <-(Permutation_length Hl).
  - apply scale_down; done || lia.
Qed.

End deployment_lemmas.
