(* ===== verification/DeploymentCorrect.v ===== *)
(** * DeploymentCorrect: what a pass of the deployment controller achieves

    The scheduling step of a pass keeps the identity of every pod, and the
    theorems about [dep_reconcileOne] of Deployment.v. *)

From stdpp Require Import gmap strings list pretty.
From Stdlib Require Import ZArith Lia.
From S2P Require Import Prelude Api Codec Store Registry Cluster Scheduler Scheduling Deployment.

Local Open Scope Z_scope.

(** Scheduling changes the node and the message of a pod, nothing else. *)
Definition same_pod (p q : Pod) : Prop :=
  Pod_Metadata p = Pod_Metadata q ∧ podContainers p = podContainers q ∧ podPhase p = podPhase q.

#[export] Instance same_pod_equivalence : Equivalence same_pod.
Proof. split; repeat intro; unfold same_pod in *; intuition congruence. Qed.

Lemma same_pod_key p q : same_pod p q → pod_key p = pod_key q.
Proof. intros (Hm & _). unfold pod_key, podNamespace, podName. by rewrite Hm. Qed.

#[export] Instance owned_by_proper d : Proper (same_pod ==> eq) (owned_by d).
Proof.
  intros p q (Hm & _). unfold owned_by, labelled, podNamespace, podLabels. by rewrite Hm.
Qed.

Lemma same_pod_wf p q : same_pod p q → podNamespace p = podNamespace q ∧ podName p = podName q.
Proof. intros (Hm & _). unfold podNamespace, podName. by rewrite Hm. Qed.

Lemma same_assign n p : same_pod p (pod_assign_node n p).
Proof. unfold same_pod. autorewrite with nimbus_rw. done. Qed.

Lemma same_message m p : same_pod p (pod_record_message m p).
Proof. unfold same_pod. autorewrite with nimbus_rw. done. Qed.

Section schedule.
Context {S : Type} `{!Store S, !StoreLaws S} {Sh : Shuffle} `{AM : !ApiMessages, AL : !ApiLaws}.
Context `{SC : !Scheduler, SL : !SchedulerLaws}.

(** On a healthy store the outcome is stored under the key of the pod. *)
Lemma schedulePod_spec cands p w c :
  holds w c → c_pods c !! pod_key p = Some p →
  ∃ p' w', schedulePod podsR cands p w = (Ok (p', Ok tt), w') ∧ same_pod p p' ∧
    holds w' (with_pods c (<[pod_key p := p']> (c_pods c))).
Proof.
  intros Hw Hp. unfold schedulePod.
  pose proof (Schedule_no_panic (request_of p) cands).
  destruct (Schedule (request_of p) cands) as [node|e|]; [| |done].
  - set (p' := if decide _ then _ else _).
    assert (same_pod p p') as Hs.
    { unfold p'. case_decide; [apply same_assign|]. by rewrite <-same_message, <-same_assign. }
    destruct (put_pod w c (podNamespace p') (podName p') p' Hw) as (w' & Hput & Hw').
    exists p', w'. cbn zeta. fold p'. mstep (attempt_run_Ok _ _ _ _ Hput). split; [done|]. split; [done|].
    by rewrite (same_pod_key _ _ Hs).
  - case_decide.
    + exists p, w. split; [done|]. split; [done|]. rewrite insert_id by done. by destruct c.
    + set (p' := pod_record_message _ p). assert (same_pod p p') as Hs by apply same_message.
      destruct (put_pod w c (podNamespace p') (podName p') p' Hw) as (w' & Hput & Hw').
      exists p', w'. cbn zeta. mstep (attempt_run_Ok _ _ _ _ Hput). split; [done|]. split; [done|].
      by rewrite (same_pod_key _ _ Hs).
Qed.

Lemma schedule_pods_spec cands l w c :
  holds w c → NoDup (pod_key <$> l) → (∀ p, p ∈ l → c_pods c !! pod_key p = Some p) →
  ∃ l' w' P', schedule_pods podsR cands l w = (Ok (l', Ok tt), w') ∧
    holds w' (with_pods c P') ∧ Forall2 same_pod l l' ∧
    (∀ p, p ∈ l' → P' !! pod_key p = Some p) ∧
    (∀ k, k ∉ (pod_key <$> l) → P' !! k = c_pods c !! k).
Proof.
  revert w c. induction l as [|p l IH]; intros w c Hw Hnd Hst.
  { exists [], w, (c_pods c). destruct c. split_and!; [done..|constructor|set_solver|done]. }
  apply NoDup_cons in Hnd as [Hp Hnd]. fold (pod_key <$> l) in Hp, Hnd.
  assert (∃ p' w1, (if decide (podNodeName p = "") then schedulePod podsR cands p else mret (p, Ok tt)) w =
      (Ok (p', Ok tt), w1) ∧ same_pod p p' ∧
      holds w1 (with_pods c (<[pod_key p := p']> (c_pods c)))) as (p' & w1 & Hs & Hsame & Hw1).
  { case_decide; [apply schedulePod_spec; [done|apply Hst; left]|].
    exists p, w. split; [done|]. split; [done|]. rewrite insert_id by (apply Hst; left). by destruct c. }
  destruct (IH w1 _ Hw1 Hnd) as (l' & w' & P' & Hl & Hw' & Hf & Hst' & Hk).
  { intros q Hq. simpl. rewrite lookup_insert_ne; [apply Hst; by right|].
    intros Heq. apply Hp. rewrite Heq. by apply list_elem_of_fmap_2. }
  exists (p' :: l'), w', P'. split_and!.
  - cbn [schedule_pods]. case_decide; [mstep Hs|]; simpl.
    + by mstep Hl.
    + injection Hs as <- <-. by mstep Hl.
  - done.
  - by constructor.
  - intros q [->|Hq]%elem_of_cons; [|by apply Hst'].
    rewrite <-(same_pod_key _ _ Hsame), Hk by done. apply lookup_insert_eq.
  - intros k Hni. rewrite fmap_cons, not_elem_of_cons in Hni. destruct Hni as [Hne Hni].
    rewrite Hk by done. simpl. by rewrite lookup_insert_ne.
Qed.

Lemma scheduleUnassigned_spec l w c :
  holds w c → NoDup (pod_key <$> l) → (∀ p, p ∈ l → c_pods c !! pod_key p = Some p) →
  ∃ l' w' P', scheduleUnassigned podsR nodesR l w = (Ok (l', Ok tt), w') ∧
    holds w' (with_pods c P') ∧ Forall2 same_pod l l' ∧
    (∀ p, p ∈ l' → P' !! pod_key p = Some p) ∧
    (∀ k, k ∉ (pod_key <$> l) → P' !! k = c_pods c !! k).
Proof.
  intros Hw Hnd Hst. unfold scheduleUnassigned. destruct (has_unassigned l); simpl.
  2: { exists l, w, (c_pods c). destruct c. split_and!; done. }
  destruct (list_pods w c "" Hw) as (all & w1 & Hl & Hw1 & _).
  assert (computeNodeUsage podsR w = (Ok (foldl add_pod ∅ all), w1)) as Hu
    by (unfold computeNodeUsage; by mstep Hl).
  mstep (attempt_run_Ok _ _ _ _ Hu).
  destruct (list_nodes w1 c "" Hw1) as (ns & w2 & Hn & Hw2 & _).
  assert (buildNodeCandidates nodesR (foldl add_pod ∅ all) w1 =
    (Ok (omap (candidate_of (foldl add_pod ∅ all)) ns), w2)) as Hb
    by (unfold buildNodeCandidates; by mstep Hn).
  mstep (attempt_run_Ok _ _ _ _ Hb). by apply schedule_pods_spec.
Qed.

End schedule.

(** The pods of the deployment after scheduling are those before it. *)
Lemma scheduled_owned d P P' l l' :
  wf_pods P → l ≡ₚ (map_to_list (owned_map d P)).*2 → Forall2 same_pod l l' →
  (∀ p, p ∈ l' → P' !! pod_key p = Some p) → (∀ k, k ∉ (pod_key <$> l) → P' !! k = P !! k) →
  wf_pods P' ∧ l' ≡ₚ (map_to_list (owned_map d P')).*2 ∧ others d P' = others d P.
Proof.
  intros HP Hl Hf Hst Hk. pose proof (owned_map_wf d P HP) as HO.
  assert (∀ p, p ∈ l ↔ owned_map d P !! pod_key p = Some p) as Hel by (intros p; by rewrite Hl, wf_values_elem).
  assert ((pod_key <$> l') = (pod_key <$> l)) as Hkeys.
  { clear -Hf. induction Hf as [|p q l l' Hs Hf IH]; [done|].
    by rewrite !fmap_cons, IH, (same_pod_key _ _ Hs). }
  assert (∀ q, q ∈ l' → ∃ p, p ∈ l ∧ same_pod p q) as Hback.
  { intros q [i Hi]%list_elem_of_lookup. destruct (Forall2_lookup_r _ _ _ _ _ Hf Hi) as (p & Hp & Hs).
    exists p. split; [by eapply list_elem_of_lookup_2|done]. }
  assert (∀ k q, P' !! k = Some q → q ∈ l' ∧ pod_key q = k ∨ P !! k = Some q ∧ k ∉ (pod_key <$> l)) as Hcases.
  { intros k q Hq. destruct (decide (k ∈ (pod_key <$> l))) as [Hin|Hni].
    - left. rewrite <-Hkeys in Hin. apply list_elem_of_fmap in Hin as (p & -> & Hp).
      rewrite (Hst _ Hp) in Hq. by injection Hq as <-.
    - right. by rewrite <-Hk. }
  assert (∀ q, q ∈ l' → owned_by d q = true) as Hown.
  { intros q Hq. destruct (Hback q Hq) as (p & Hp & Hs). rewrite <-Hs.
    apply Hel, owned_map_lookup in Hp as [_ ?]. done. }
  assert (wf_pods P') as HP'.
  { intros k q Hq. destruct (Hcases k q Hq) as [[Hq' <-]|[Hq' _]]; [|by apply HP].
    destruct (Hback q Hq') as (p & Hp & Hs). apply Hel in Hp. destruct (HO _ _ Hp) as (_ & ? & ?).
    destruct (same_pod_wf _ _ Hs) as [<- <-]. done. }
  split; [done|]. split.
  - apply values_perm; [by apply owned_map_wf|rewrite Hkeys, Hl; by apply wf_values_NoDup|].
    intros q. rewrite owned_map_lookup. split; [intros Hq; split; auto|].
    intros [Hq Ho]. destruct (Hcases _ _ Hq) as [[? _]|[Hq' Hni]]; [done|].
    destruct Hni. apply list_elem_of_fmap_2, Hel, owned_map_lookup. done.
  - apply map_eq. intros k. apply option_eq. intros q. rewrite !others_lookup. split.
    + intros [Hq Ho]. destruct (Hcases k q Hq) as [[Hq' _]|[? _]]; [|done]. by rewrite Hown in Ho.
    + intros [Hq Ho]. split; [|done]. rewrite Hk; [done|]. intros (p & -> & Hp)%list_elem_of_fmap.
      apply Hel, owned_map_lookup in Hp as [Hp Hop]. congruence.
Qed.

Definition running (p : Pod) : Prop := podPhase p = POD_PHASE_RUNNING.
#[export] Instance running_dec p : Decision (running p).
Proof. unfold running. apply _. Defined.

Lemma count_ready_spec l :
  Z.of_nat (length l) < 2 ^ 31 → count_ready l = Z.of_nat (length (filter running l)).
Proof.
  intros Hl. unfold count_ready.
  assert (∀ a, 0 ≤ a → a + Z.of_nat (length l) < 2 ^ 31 →
    foldl (λ ready p, if decide (podPhase p = POD_PHASE_RUNNING) then wrap32 (ready + 1) else ready) a l =
    a + Z.of_nat (length (filter running l))) as H; [|rewrite H; lia].
  clear Hl. induction l as [|p l IH]; intros a Ha Hb; simpl in *; [lia|].
  rewrite filter_cons. unfold running at 1.
  case_decide; [rewrite wrap32_id by (unfold in_int32; lia)|]; rewrite IH by lia; simpl; lia.
Qed.

Section converges.
Context {S : Type} `{!Store S, !StoreLaws S} {Sh : Shuffle} `{AM : !ApiMessages, AL : !ApiLaws}.
Context `{SC : !Scheduler, SL : !SchedulerLaws}.

Lemma record_status_spec d cur resync w c l :
  holds w c → c_deployments c !! dep_key d = Some cur → Deployment_Metadata cur = Deployment_Metadata d →
  ∃ w', record_status (wired resync) d l w = (Ok tt, w') ∧
    holds w' (MkCluster (c_pods c) (c_nodes c) (<[dep_key d := deployment_set_status
      (Some (MkDeploymentStatus (wrap32 (Z.of_nat (length l))) (count_ready l))) cur]> (c_deployments c))
      (c_volumes c)).
Proof.
  intros Hw Hd Hm. unfold record_status. cbn [wired NewDeploymentReconciler dr_deployments].
  pose proof (get_deployment w c (depNamespace d) (depName d) Hw) as Hg.
  unfold dep_key in Hd. rewrite Hd in Hg. simpl in Hg. mstep (wrapM_run_Ok "re-fetch deployment before status update" _ _ _ _ Hg).
  set (cur' := deployment_set_status _ cur).
  destruct (put_deployment w c (depNamespace cur') (depName cur') cur' Hw) as (w' & Hp & Hw').
  exists w'. split; [done|]. unfold dep_key.
  assert (depNamespace cur' = depNamespace d ∧ depName cur' = depName d) as [<- <-]; [|done].
  unfold depNamespace, depName. simpl. by rewrite Hm.
Qed.



(** A negative replica count crashes the controller.  The number of
    replicas is not validated where it is stored, and with a negative one the
    deletion loop indexes the slice of owned pods at a negative position: a
    pass over such a deployment panics, on any healthy cluster. *)
Theorem negative_replicas_panic d resync w c :
  holds w c → wf_pods (c_pods c) → simple (depNamespace d) → depNamespace d ≠ "" → depReplicas d < 0 →
  ∃ w', dep_reconcileOne (wired resync) d w = (Panic, w').
Proof.
  intros Hw HP Hns Hne Hr. unfold dep_reconcileOne.
  destruct (ownedPods_spec d resync w c Hw HP Hns Hne) as (l & w1 & Ho & _).
  mstep (wrapM_run_Ok "list owned pods" _ _ _ _ Ho).
  assert (want_replicas d = depReplicas d) as Hwant.
  { unfold want_replicas. rewrite (proj2 (Z.ltb_ge 1 (depReplicas d))) by lia. by rewrite andb_false_r. }
  assert (scale (wired resync) d l w1 = (Panic, w1)) as Hs.
  { unfold scale. rewrite Hwant, (proj2 (Z.ltb_ge _ _)), (proj2 (Z.ltb_lt _ _)) by lia.
    unfold delete_loop. by rewrite (proj2 (Z.ltb_lt _ _)) by lia. }
  mstep Hs. by exists w1.
Qed.

(** *** Volume claims *)

(** The volume after a pass on node [n] of deployment [d]. *)
Definition claimed_volume (d : Deployment) (n : string) (v : Volume) : Volume :=
  if decide (volNodeName v = "") then
    volume_set_meta
      ((λ m, meta_set_labels (<[OwnerDeploymentLabel := depName d]> (ObjectMeta_Labels m)) m) <$> Volume_Metadata v)
      (volume_set_status (Some (volstatus_set_node n (default VolumeStatus_zero (Volume_Status v)))) v)
  else v.

(** The volumes of the namespace are stored under their own names. *)
Definition wf_volumes (ns : string) (V : gmap string Volume) : Prop :=
  ∀ n v, V !! reg_key volumesR ns n = Some v → ∃ m, Volume_Metadata v = Some m ∧ ObjectMeta_Name m = n.

Lemma claim_volume_spec d n m resync w c :
  holds w c → wf_volumes (depNamespace d) (c_volumes c) →
  ∃ w', claim_volume (wired resync) d n m w = (Ok tt, w') ∧
    holds w' (MkCluster (c_pods c) (c_nodes c) (c_deployments c)
      (alter (claimed_volume d n) (reg_key volumesR (depNamespace d) (VolumeMount_VolumeName m)) (c_volumes c))).
Proof.
  intros Hw Hwf. unfold claim_volume. cbn [wired NewDeploymentReconciler dr_volumes].
  pose proof (get_volume w c (depNamespace d) (VolumeMount_VolumeName m) Hw) as Hg.
  destruct (c_volumes c !! _) as [v|] eqn:Hv; simpl in Hg.
  2: { mstep (attempt_run_Err _ _ _ _ Hg). exists w. split; [done|].
       rewrite alter_id by naive_solver. by destruct c. }
  mstep (attempt_run_Ok _ _ _ _ Hg). destruct (Hwf _ _ Hv) as (meta & Hm & Hname).
  assert (∀ v', claimed_volume d n v = v' →
    alter (claimed_volume d n) (reg_key volumesR (depNamespace d) (VolumeMount_VolumeName m)) (c_volumes c) =
    <[reg_key volumesR (depNamespace d) (VolumeMount_VolumeName m) := v']> (c_volumes c)) as Halt.
  { intros v' <-. apply map_eq. intros k. destruct (decide (reg_key volumesR (depNamespace d) (VolumeMount_VolumeName m) = k)) as [<-|].
    - by rewrite lookup_alter_eq, lookup_insert_eq, Hv.
    - by rewrite lookup_alter_ne, lookup_insert_ne. }
  unfold claimed_volume in Halt at 1. rewrite Hm in Halt. simpl in Halt.
  case_decide as Hd.
  - cbn zeta. simpl. rewrite Hm. simpl.
    set (v' := volume_set_meta _ _). rewrite Hname.
    destruct (put_volume w c (depNamespace d) (VolumeMount_VolumeName m) v' Hw) as (w' & Hp & Hw').
    exists w'. split; [done|]. by rewrite (Halt v').
  - exists w. split; [done|]. rewrite (Halt v), insert_id by done. by destruct c.
Qed.

Lemma claimed_volume_node d n v :
  volNodeName (claimed_volume d n v) = if decide (volNodeName v = "") then n else volNodeName v.
Proof. unfold claimed_volume. by case_decide. Qed.

Lemma claimed_volume_twice d n v : n ≠ "" → claimed_volume d n (claimed_volume d n v) = claimed_volume d n v.
Proof.
  intros Hn. unfold claimed_volume at 1. rewrite claimed_volume_node.
  destruct (decide (volNodeName v = "")); by rewrite decide_False.
Qed.

Lemma claim_wf d n ns k V : wf_volumes ns V → wf_volumes ns (alter (claimed_volume d n) k V).
Proof.
  intros HV name v Hv. destruct (decide (k = reg_key volumesR ns name)) as [->|Hne].
  - rewrite lookup_alter_eq in Hv. apply fmap_Some in Hv as (u & Hu & ->).
    destruct (HV _ _ Hu) as (m & Hm & Hname). unfold claimed_volume.
    case_decide; [|by eauto]. simpl. rewrite Hm. by eexists.
  - rewrite lookup_alter_ne in Hv by done. by eapply HV.
Qed.

Lemma claim_each d n ms resync w c :
  n ≠ "" → holds w c → wf_volumes (depNamespace d) (c_volumes c) →
  ∃ w' V', for_each ms (claim_volume (wired resync) d n) w = (Ok tt, w') ∧
    holds w' (MkCluster (c_pods c) (c_nodes c) (c_deployments c) V') ∧
    ∀ k, V' !! k = if decide (k ∈ ((λ m, reg_key volumesR (depNamespace d) (VolumeMount_VolumeName m)) <$> ms))
      then claimed_volume d n <$> c_volumes c !! k else c_volumes c !! k.
Proof.
  intros Hn. revert w c. induction ms as [|m ms IH]; intros w c Hw HV.
  { exists w, (c_volumes c). destruct c. split_and!; [done..|]. intros k. by rewrite decide_False by set_solver. }
  destruct (claim_volume_spec d n m resync w c Hw HV) as (w1 & Hc & Hw1).
  destruct (IH w1 _ Hw1 (claim_wf _ _ _ _ _ HV)) as (w' & V' & Hl & Hw' & HV').
  exists w', V'. split; [simpl; by mstep Hc|]. split; [done|]. intros k. rewrite HV', fmap_cons. simpl.
  set (key := reg_key volumesR (depNamespace d) (VolumeMount_VolumeName m)).
  destruct (decide (key = k)) as [<-|Hne].
  - rewrite (decide_True (P := key ∈ key :: _)) by set_solver. rewrite lookup_alter_eq.
    case_decide; [|done]. destruct (c_volumes c !! key); simpl; [|done]. by rewrite claimed_volume_twice.
  - rewrite lookup_alter_ne by done.
    destruct (decide (k ∈ _)) as [Hin|Hni]; [rewrite decide_True|rewrite decide_False]; set_solver.
Qed.

(** The volume claims of a pass.  When a pod of the deployment has a node,
    [claimVolumeNodes] succeeds and pins every mounted volume that exists: one
    that was not claimed is now pinned to that node and labelled with the
    deployment; one that was claimed keeps its node, whatever the pods do; all
    other volumes, and all pods, nodes and deployments are unchanged. *)
Theorem volume_claims_sticky d owned resync w c :
  holds w c → wf_volumes (depNamespace d) (c_volumes c) → depMounts d ≠ [] → first_node owned ≠ "" →
  ∃ w' V', claimVolumeNodes (wired resync) d owned w = (Ok tt, w') ∧
    holds w' (MkCluster (c_pods c) (c_nodes c) (c_deployments c) V') ∧
    (∀ k v, c_volumes c !! k = Some v → volNodeName v ≠ "" → V' !! k = Some v) ∧
    (∀ m v, m ∈ depMounts d →
       c_volumes c !! reg_key volumesR (depNamespace d) (VolumeMount_VolumeName m) = Some v → volNodeName v = "" →
       ∃ v', V' !! reg_key volumesR (depNamespace d) (VolumeMount_VolumeName m) = Some v' ∧
         volNodeName v' = first_node owned ∧ slookup (volLabels v') OwnerDeploymentLabel = depName d) ∧
    dom V' = dom (c_volumes c).
Proof.
  intros Hw HV Hm Hn. unfold claimVolumeNodes. rewrite !decide_False by done.
  destruct (claim_each d (first_node owned) (depMounts d) resync w c Hn Hw HV) as (w' & V' & Hr & Hw' & HV').
  exists w', V'. split; [done|]. split; [done|]. split_and!.
  - intros k v Hk Hv. rewrite HV', Hk. simpl.
    assert (claimed_volume d (first_node owned) v = v) as -> by (unfold claimed_volume; by rewrite decide_False).
    by case_decide.
  - intros m v Hin Hk Hv. exists (claimed_volume d (first_node owned) v). split.
    + rewrite HV', decide_True, Hk; [done|]. by apply (list_elem_of_fmap_2 (λ m, reg_key volumesR _ (VolumeMount_VolumeName m))).
    + rewrite claimed_volume_node, decide_True by done. split; [done|].
      destruct (HV _ _ Hk) as (meta & Hmeta & _). unfold claimed_volume. rewrite decide_True by done.
      unfold volLabels, slookup. simpl. rewrite Hmeta. simpl. by rewrite lookup_insert_eq.
  - apply set_eq. intros k. rewrite !elem_of_dom, HV'. case_decide; [by rewrite fmap_is_Some|done].
Qed.

End converges.

(** ** Witnesses *)

Import Codec.Reference.

#[local] Instance demo_messages : ApiMessages := Build_ApiMessages _ _ _ _.
#[local] Instance demo_laws : ApiLaws := Build_ApiLaws _ _ _ _ _.
#[local] Existing Instance shuffle_id.

Definition empty_cluster : cluster := MkCluster ∅ ∅ ∅ ∅.

Lemma holds_empty : holds demo_world empty_cluster.
Proof. by constructor. Qed.

Definition demo_dep (replicas : Z) (mounts : list VolumeMount) : Deployment :=
  MkDeployment (Some (demo_meta "web" "default"))
    (Some (MkDeploymentSpec replicas {["app" := "web"]}
      (Some (MkPodSpec [demo_container 80] "" mounts RESTART_POLICY_UNSPECIFIED)) 0 0)) None.

Lemma wf_pods_empty : wf_pods ∅.
Proof. by intros k p Hk. Qed.



Lemma negative_replicas_panic_witness :
  ∃ w', dep_reconcileOne (wired 0) (demo_dep (-1) []) demo_world = (Panic, w').
Proof.
  apply (negative_replicas_panic (demo_dep (-1) []) 0 demo_world empty_cluster holds_empty wf_pods_empty).
  - reflexivity.
  - discriminate.
  - vm_compute. reflexivity.
Defined.

Definition demo_mount : VolumeMount := MkVolumeMount "data" "/data" false.

Definition demo_volume : Volume := MkVolume (Some (demo_meta "data" "default")) (Some (MkVolumeSpec 1024)) None.

Lemma volume_claims_sticky_witness :
  ∃ w w' (V' : gmap string Volume) v', claimVolumeNodes (wired 0) (demo_dep 1 [demo_mount]) [demo_web "web-0" "node-a"] w = (Ok tt, w') ∧
    V' !! reg_key volumesR "default" "data" = Some v' ∧ volNodeName v' = "node-a".
Proof.
  destruct (put_volume demo_world empty_cluster "default" "data" demo_volume holds_empty) as (w & _ & Hw).
  destruct (volume_claims_sticky (demo_dep 1 [demo_mount]) [demo_web "web-0" "node-a"] 0 w _ Hw)
    as (w' & V' & H & _ & _ & Hclaim & _).
  - intros n v Hv. simpl in Hv. apply lookup_insert_Some in Hv as [[Hk <-]|[_ Hv]]; [|discriminate Hv].
    exists (demo_meta "data" "default"). split; [reflexivity|]. exact (reg_key_name_inj _ _ _ _ Hk).
  - discriminate.
  - discriminate.
  - destruct (Hclaim demo_mount demo_volume) as (v' & Hv' & Hn & _);
      [left|apply lookup_insert_eq|reflexivity|].
    exists w, w', V', v'. split; [exact H|]. split; [exact Hv'|exact Hn].
Defined.
