(* ===== verification/Float.v ===== *)
(** * Float: Go's float64

    Binary64 arithmetic by the Standard Library's [SpecFloat] (round to nearest
    even), with the conversions the controllers and the service mesh use.
    Converting an out-of-range float to an integer is implementation-defined in
    Go: it is a parameter, of which only the range of the result is known. *)

From stdpp Require Import base numbers.
From Stdlib Require Import ZArith Lia SpecFloat.
From S2P Require Import Prelude.

Local Open Scope Z_scope.

(** ** float64 *)

Definition float64 := spec_float.
Definition f_of_int (z : Z) : float64 := binary_normalize 53 1024 z 0 false.
Definition f_add : float64 → float64 → float64 := SFadd 53 1024.
Definition f_mul : float64 → float64 → float64 := SFmul 53 1024.
Definition f_div : float64 → float64 → float64 := SFdiv 53 1024.

(** [math.Ceil] *)
Definition f_ceil (x : float64) : float64 :=
  match x with
  | S754_finite s m e =>
      if 0 <=? e then x
      else binary_normalize 53 1024 (- ((- cond_Zopp s (Zpos m)) / 2 ^ (- e))) 0 s
  | x => x
  end.

(** The integer part, when the float is a number. *)
Definition f_trunc (x : float64) : option Z :=
  match x with
  | S754_zero _ => Some 0
  | S754_finite s m e =>
      Some (cond_Zopp s (if 0 <=? e then Zpos m * 2 ^ e else Zpos m / 2 ^ (- e)))
  | _ => None
  end.

(** What the implementation does with [int32(x)] and [int64(x)] out of range. *)
Class FloatConv := {
  f2i_oob : float64 → Z;
  f2i_oob_range : ∀ x, in_int32 (f2i_oob x);
  f2l_oob : float64 → Z;
  f2l_oob_range : ∀ x, in_int64 (f2l_oob x);
}.

Definition f_to_int32 {FC : FloatConv} (x : float64) : Z :=
  match f_trunc x with
  | Some z => if (- 2 ^ 31 <=? z) && (z <? 2 ^ 31) then z else f2i_oob x
  | None => f2i_oob x
  end.

Definition f_to_int64 {FC : FloatConv} (x : float64) : Z :=
  match f_trunc x with
  | Some z => if (- 2 ^ 63 <=? z) && (z <? 2 ^ 63) then z else f2l_oob x
  | None => f2l_oob x
  end.

(** amd64: the "integer indefinite" value of the width. *)
Program Definition amd64_conv : FloatConv :=
  {| f2i_oob := λ _, - 2 ^ 31; f2l_oob := λ _, - 2 ^ 63 |}.
Next Obligation. intros. unfold in_int32. lia. Qed.
Next Obligation. intros. unfold in_int64. lia. Qed.
