(* ===== verification/Hpa.v ===== *)
(** * Hpa: cluster capacity and the horizontal autoscaler

    internal/controller/capacity.go and internal/controller/hpa.go.  The
    utilisation arithmetic is the float64 arithmetic of Float.v.  [hpa_scaling_bounds] bounds what the autoscaler writes whatever
    the floats are. *)

From stdpp Require Import gmap strings list.
From Stdlib Require Import ZArith Lia SpecFloat.
From S2P Require Import Prelude Api Codec Store Registry Cluster Scheduler Scheduling Deployment Float.

Local Open Scope Z_scope.

(** ** Capacity (capacity.go) *)

Record clusterCapacity := MkClusterCapacity {
  cc_cpuCapacity : Z;
  cc_cpuUsed : Z;
  cc_memCapacity : Z;
  cc_memUsed : Z;
  cc_acceleratorCapacity : gmap string Z;
  cc_acceleratorUsed : gmap string Z;
}.

Definition clusterCapacity_zero : clusterCapacity := MkClusterCapacity 0 0 0 0 ∅ ∅.

(** The body of the loop over the nodes. *)
Definition add_node (usage : gmap string nodeResourceUsage) (r : clusterCapacity) (n : Node) : clusterCapacity :=
  if negb (nodeIsReady n) || nodeUnschedulable n then r
  else
    let alloc := nodeAllocatable n in
    let u := usage_of usage (nodeName n) in
    MkClusterCapacity
      (wrap64 (cc_cpuCapacity r + ResourceList_GetCpuMillis alloc))
      (wrap64 (cc_cpuUsed r + u_cpuMillis u))
      (wrap64 (cc_memCapacity r + ResourceList_GetMemoryBytes alloc))
      (wrap64 (cc_memUsed r + u_memoryBytes u))
      (add_accelerators (cc_acceleratorCapacity r) (ResourceList_GetAccelerators alloc))
      (add_accelerators (cc_acceleratorUsed r) (u_accelerators u)).

Definition fitCount (remaining perUnit : Z) : Z :=
  if perUnit <=? 0 then MaxInt32
  else if remaining <=? 0 then 0
  else
    let fit := remaining / perUnit in
    if MaxInt32 <? fit then MaxInt32 else fit.

(** [if fit := ...; fit < max { max = fit }] *)
Definition lower (max fit : Z) : Z := if fit <? max then fit else max.

Definition maxAdditionalReplicas (c : clusterCapacity) (perReplicaCPU perReplicaMem : Z)
    (perReplicaAccel : gmap string Z) : Z :=
  let max := lower MaxInt32 (fitCount (wrap64 (cc_cpuCapacity c - cc_cpuUsed c)) perReplicaCPU) in
  let max := lower max (fitCount (wrap64 (cc_memCapacity c - cc_memUsed c)) perReplicaMem) in
  foldl (λ max kv,
    let remaining := wrap64 (zlookup (cc_acceleratorCapacity c) kv.1 - zlookup (cc_acceleratorUsed c) kv.1) in
    lower max (fitCount remaining kv.2)) max (map_to_list perReplicaAccel).

(** ** The autoscaler (hpa.go) *)

Record HorizontalAutoscaler := MkHorizontalAutoscaler {
  hpa_deployments : Registry Deployment;
  hpa_pods : Registry Pod;
  hpa_nodes : Registry Node;
  hpa_resync : Z;
}.

Definition NewHorizontalAutoscaler (deployments : Registry Deployment) (pods : Registry Pod)
    (nodes : Registry Node) (resync : Z) : HorizontalAutoscaler :=
  MkHorizontalAutoscaler deployments pods nodes (if resync <=? 0 then 15000000000 else resync).

(** The loop over the pods: total utilisation and number of running pods. *)
Definition utilization (d : Deployment) (targetMemory : Z) (all : list Pod) : float64 * Z :=
  foldl (λ '(total, running) p,
    if negb (labelled d p) then (total, running)
    else if decide (podPhase p = POD_PHASE_RUNNING) then
      (f_add total (f_div (f_of_int (PodStatus_GetMemoryUsageBytes (Pod_Status p))) (f_of_int targetMemory)),
       running + 1)
    else (total, running)) (f_of_int 0, 0) all.

Definition minReplicasOf (d : Deployment) : Z :=
  let m := DeploymentSpec_GetMinReplicas (Deployment_Spec d) in if m <=? 0 then 1 else m.
Definition maxReplicasOf (d : Deployment) : Z := DeploymentSpec_GetMaxReplicas (Deployment_Spec d).

(** The replicas wanted from the average utilisation, clamped. *)
Definition desired_replicas {FC : FloatConv} (d : Deployment) (currentReplicas : Z) (avg : float64) : Z :=
  let desired := f_to_int32 (f_ceil (f_mul (f_of_int currentReplicas) avg)) in
  let desired := if desired <? minReplicasOf d then minReplicasOf d else desired in
  if maxReplicasOf d <? desired then maxReplicasOf d else desired.

(** The requests of one replica. *)
Definition per_replica (d : Deployment) : Z * Z * gmap string Z :=
  foldl (λ '(cpu, mem, accel) c,
    let req := containerRequests c in
    (wrap64 (cpu + ResourceList_GetCpuMillis req), wrap64 (mem + ResourceList_GetMemoryBytes req),
     add_accelerators accel (ResourceList_GetAccelerators req)))
    (0, 0, ∅) (PodSpec_GetContainers (depTemplate d)).

(** The end of [capToClusterCapacity]: the capped number and the shortfall. *)
Definition cap_replicas (currentReplicas desired maxAdditional : Z) : Z * Z :=
  let wantAdditional := wrap32 (desired - currentReplicas) in
  if wantAdditional <=? maxAdditional then (desired, 0)
  else
    let capped := wrap32 (currentReplicas + maxAdditional) in
    let capped := if capped <? currentReplicas then currentReplicas else capped in
    (capped, wrap32 (desired - capped)).

Section hpa.
Context {S : Type} `{!Store S} {Sh : Shuffle} `{AM : !ApiMessages} {FC : FloatConv}.

Definition computeClusterCapacity (nodes : Registry Node) (usage : gmap string nodeResourceUsage)
    : M S clusterCapacity :=
  all ← reg_List nodes "";
  mret (foldl (add_node usage) clusterCapacity_zero all).

Definition capToClusterCapacity (r : HorizontalAutoscaler) (d : Deployment) (currentReplicas desired : Z)
    : M S (Z * Z) :=
  usage ← computeNodeUsage (hpa_pods r);
  capacity ← computeClusterCapacity (hpa_nodes r) usage;
  let '(cpu, mem, accel) := per_replica d in
  mret (cap_replicas currentReplicas desired (maxAdditionalReplicas capacity cpu mem accel)).

(** The end of [reconcileOne]: writing through a nil spec panics. *)
Definition hpa_write (r : HorizontalAutoscaler) (d : Deployment) (desired : Z) : M S unit :=
  current ← wrapM "re-fetch deployment before scaling"
    (reg_Get (hpa_deployments r) (depNamespace d) (depName d));
  match Deployment_Spec current with
  | None => panic
  | Some spec =>
      let current := deployment_set_spec (Some (depspec_set_replicas desired spec)) current in
      reg_Put (hpa_deployments r) (depNamespace current) (depName current) current
  end.

Definition hpa_reconcileOne (r : HorizontalAutoscaler) (d : Deployment) : M S unit :=
  if maxReplicasOf d <=? 0 then mret ()
  else
  match PodSpec_GetContainers (depTemplate d) with
  | [] => mret ()
  | c :: _ =>
      let targetMemory := ResourceList_GetMemoryBytes (containerRequests c) in
      if targetMemory <=? 0 then mret ()
      else
        all ← reg_List (hpa_pods r) (depNamespace d);
        let '(total, running) := utilization d targetMemory all in
        if running =? 0 then mret ()
        else
          let avg := f_div total (f_of_int running) in
          let currentReplicas := if depReplicas d <=? 0 then wrap32 running else depReplicas d in
          let desired := desired_replicas d currentReplicas avg in
          desired ← (if currentReplicas <? desired then
                       '(capped, _) ← wrapM "check cluster capacity"
                         (capToClusterCapacity r d currentReplicas desired);
                       mret capped
                     else mret desired);
          if desired =? depReplicas d then mret ()
          else hpa_write r d desired
  end.

Definition hpa_reconcileAll (r : HorizontalAutoscaler) : M S unit :=
  deployments ← attempt (reg_List (hpa_deployments r) "");
  match deployments with
  | Ok deployments => for_each deployments (λ d, logged (hpa_reconcileOne r d))
  | Err _ => mret ()
  | Panic => panic
  end.

End hpa.

(** ** Capacity: lemmas *)

(** [n] units of size [per] fit in [remaining]; units without a size always do. *)
Definition fits_units (n remaining per : Z) : Prop := per ≤ 0 ∨ n * per ≤ remaining.

Lemma fitCount_range remaining per : 0 ≤ fitCount remaining per ≤ MaxInt32.
Proof.
  unfold fitCount, MaxInt32. destruct (Z.leb_spec per 0); [lia|]. destruct (Z.leb_spec remaining 0); [lia|].
  cbn zeta. destruct (Z.ltb_spec 2147483647 (remaining / per)); [lia|].
  split; [apply Z.div_pos; lia|lia].
Qed.

Lemma fitCount_exact n remaining per :
  1 ≤ n ≤ MaxInt32 → n ≤ fitCount remaining per ↔ fits_units n remaining per.
Proof.
  intros Hn. unfold fitCount, fits_units. destruct (Z.leb_spec per 0); [split; [by left|lia]|].
  destruct (Z.leb_spec remaining 0); [split; [lia|intros [?|?]; [lia|nia]]|]. cbn zeta.
  assert (n ≤ remaining / per ↔ n * per ≤ remaining) as Hdiv.
  { split; intros Hle; [|apply Z.div_le_lower_bound; lia].
    etrans; [apply Z.mul_le_mono_nonneg_r; [lia|exact Hle]|]. rewrite Z.mul_comm. apply Z.mul_div_le. lia. }
  destruct (Z.ltb_spec MaxInt32 (remaining / per)).
  - split; [|lia]. intros. right. apply Hdiv. lia.
  - rewrite Hdiv. intuition lia.
Qed.

Lemma lower_le n max fit : n ≤ lower max fit ↔ n ≤ max ∧ n ≤ fit.
Proof. unfold lower. destruct (Z.ltb_spec fit max); lia. Qed.

Lemma lower_fold_le {A} (f : A → Z) n max l :
  n ≤ foldl (λ max x, lower max (f x)) max l ↔ n ≤ max ∧ ∀ x, x ∈ l → n ≤ f x.
Proof.
  revert max. induction l as [|x l IH]; intros max; simpl.
  - split; [intros ?; split; [done|by intros ? ?%elem_of_nil]|tauto].
  - rewrite IH, lower_le. setoid_rewrite elem_of_cons. naive_solver.
Qed.

Lemma max_additional_spec c cpu mem accel :
  let r := maxAdditionalReplicas c cpu mem accel in
  0 ≤ r ≤ MaxInt32 ∧
  ∀ n, 1 ≤ n ≤ MaxInt32 →
    n ≤ r ↔
    fits_units n (wrap64 (cc_cpuCapacity c - cc_cpuUsed c)) cpu ∧
    fits_units n (wrap64 (cc_memCapacity c - cc_memUsed c)) mem ∧
    ∀ a per, accel !! a = Some per →
      fits_units n (wrap64 (zlookup (cc_acceleratorCapacity c) a - zlookup (cc_acceleratorUsed c) a)) per.
Proof.
  cbn zeta. unfold maxAdditionalReplicas. cbn zeta.
  set (g := λ kv : string * Z, fitCount (wrap64 (zlookup (cc_acceleratorCapacity c) kv.1
    - zlookup (cc_acceleratorUsed c) kv.1)) kv.2).
  change (foldl _ ?m (map_to_list accel)) with (foldl (λ max x, lower max (g x)) m (map_to_list accel)).
  split; [split|].
  - apply lower_fold_le. rewrite !lower_le. split; [|intros; apply fitCount_range].
    pose proof (fitCount_range (wrap64 (cc_cpuCapacity c - cc_cpuUsed c)) cpu).
    pose proof (fitCount_range (wrap64 (cc_memCapacity c - cc_memUsed c)) mem). unfold MaxInt32 in *. lia.
  - apply Z.nlt_ge. intros Hlt. assert (MaxInt32 + 1 ≤ foldl (λ max x, lower max (g x))
      (lower (lower MaxInt32 (fitCount (wrap64 (cc_cpuCapacity c - cc_cpuUsed c)) cpu))
        (fitCount (wrap64 (cc_memCapacity c - cc_memUsed c)) mem)) (map_to_list accel)) as H by lia.
    apply lower_fold_le in H as [[[H _]%lower_le _]%lower_le _]. lia.
  - intros n Hn. rewrite lower_fold_le, !lower_le, !fitCount_exact by done.
    assert ((∀ x, x ∈ map_to_list accel → n ≤ g x) ↔ ∀ a per, accel !! a = Some per →
      fits_units n (wrap64 (zlookup (cc_acceleratorCapacity c) a - zlookup (cc_acceleratorUsed c) a)) per) as ->.
    { split.
      - intros H a per Ha%elem_of_map_to_list. apply (fitCount_exact n); [done|]. exact (H (a, per) Ha).
      - intros H [a per] Ha%elem_of_map_to_list. apply fitCount_exact; [done|]. by apply H. }
    intuition lia.
Qed.

(** [maxAdditionalReplicas] is exact.  It is the greatest number of
    replicas, up to the largest int32, whose total CPU, memory and accelerator
    requests each fit in what the cluster has left; resources that a replica
    does not ask for do not limit it, and the order in which the accelerators
    are visited does not matter. *)
Theorem max_additional_exact c cpu mem accel :
  let r := maxAdditionalReplicas c cpu mem accel in
  0 ≤ r ≤ MaxInt32 ∧
  ∀ n, 1 ≤ n ≤ MaxInt32 →
    n ≤ r ↔
    fits_units n (wrap64 (cc_cpuCapacity c - cc_cpuUsed c)) cpu ∧
    fits_units n (wrap64 (cc_memCapacity c - cc_memUsed c)) mem ∧
    ∀ a per, accel !! a = Some per →
      fits_units n (wrap64 (zlookup (cc_acceleratorCapacity c) a - zlookup (cc_acceleratorUsed c) a)) per.
Proof. apply max_additional_spec. Qed.

(** ** The autoscaler: lemmas *)

Lemma utilization_running d t all : 0 ≤ (utilization d t all).2 ≤ Z.of_nat (length all).
Proof.
  unfold utilization. set (f := λ '(total, running) p, _).
  assert (∀ tot n, n ≤ (foldl f (tot, n) all).2 ≤ n + Z.of_nat (length all)) as H.
  { induction all as [|p all IH]; intros tot n; [simpl; lia|]. cbn [foldl length]. unfold f at 2 4.
    destruct (negb (labelled d p)); [|case_decide].
    - specialize (IH tot n). lia.
    - match goal with |- context [foldl f (?x, ?y) all] => specialize (IH x y) end. lia.
    - specialize (IH tot n). lia. }
  apply (H (f_of_int 0) 0).
Qed.

Lemma desired_range {FC : FloatConv} d cur avg :
  1 ≤ maxReplicasOf d →
  Z.min (minReplicasOf d) (maxReplicasOf d) ≤ desired_replicas d cur avg ≤ maxReplicasOf d.
Proof.
  intros Hm. unfold desired_replicas. cbn zeta. generalize (f_to_int32 (f_ceil (f_mul (f_of_int cur) avg))).
  intros x. destruct (Z.ltb_spec x (minReplicasOf d)).
  - destruct (Z.ltb_spec (maxReplicasOf d) (minReplicasOf d)); lia.
  - destruct (Z.ltb_spec (maxReplicasOf d) x); lia.
Qed.

Lemma minReplicasOf_pos d : 1 ≤ minReplicasOf d.
Proof.
  unfold minReplicasOf. cbn zeta. destruct (Z.leb_spec (DeploymentSpec_GetMinReplicas (Deployment_Spec d)) 0); lia.
Qed.

Lemma cap_replicas_spec cur desired maxAdd :
  1 ≤ cur → cur < desired < 2 ^ 31 → 0 ≤ maxAdd ≤ MaxInt32 →
  let r := (cap_replicas cur desired maxAdd).1 in
  cur ≤ r ≤ desired ∧ r - cur ≤ maxAdd ∧ (r = desired ∨ r = cur + maxAdd).
Proof.
  intros Hc Hd Hm. unfold cap_replicas, MaxInt32 in *. cbn zeta.
  rewrite (wrap32_id (desired - cur)) by (unfold in_int32; lia).
  destruct (Z.leb_spec (desired - cur) maxAdd); simpl; [lia|].
  rewrite (wrap32_id (cur + maxAdd)) by (unfold in_int32; lia).
  destruct (Z.ltb_spec (cur + maxAdd) cur); simpl; lia.
Qed.

(** The cluster capacity as the autoscaler computes it from the stored pods
    and nodes. *)
Definition capacity_of (pl : list Pod) (nl : list Node) : clusterCapacity :=
  foldl (add_node (foldl add_pod ∅ pl)) clusterCapacity_zero nl.

Definition max_additional_of (d : Deployment) (pl : list Pod) (nl : list Node) : Z :=
  let '(cpu, mem, accel) := per_replica d in maxAdditionalReplicas (capacity_of pl nl) cpu mem accel.

Lemma with_prefix_objs {T} (r : Registry T) (m : gmap string T) :
  (∀ k x, m !! k = Some x → HasPrefix k (reg_prefix r "") = true) → with_prefix (reg_prefix r "") m = m.
Proof. intros H. apply map_filter_id. intros k x Hk. by eapply H. Qed.

Definition wired_hpa (resync : Z) : HorizontalAutoscaler :=
  NewHorizontalAutoscaler deploymentsR podsR nodesR resync.

Section hpa_lemmas.
Context {S : Type} `{!Store S, !StoreLaws S} {Sh : Shuffle} `{AM : !ApiMessages, AL : !ApiLaws} {FC : FloatConv}.

Lemma capTo_spec d cur desired resync w c :
  holds w c →
  ∃ pl nl w', capToClusterCapacity (wired_hpa resync) d cur desired w =
      (Ok (cap_replicas cur desired (max_additional_of d pl nl)), w') ∧ holds w' c ∧
    pl ≡ₚ (map_to_list (with_prefix (reg_prefix podsR "") (c_pods c))).*2 ∧
    nl ≡ₚ (map_to_list (with_prefix (reg_prefix nodesR "") (c_nodes c))).*2.
Proof.
  intros Hw. unfold capToClusterCapacity. cbn [wired_hpa NewHorizontalAutoscaler hpa_pods hpa_nodes].
  destruct (list_pods w c "" Hw) as (pl & w1 & Hl & Hw1 & Hp).
  assert (computeNodeUsage podsR w = (Ok (foldl add_pod ∅ pl), w1)) as Hu
    by (unfold computeNodeUsage; by mstep Hl).
  mstep Hu. destruct (list_nodes w1 c "" Hw1) as (nl & w2 & Hn & Hw2 & Hnp).
  assert (computeClusterCapacity nodesR (foldl add_pod ∅ pl) w1 = (Ok (capacity_of pl nl), w2)) as Hc
    by (unfold computeClusterCapacity; by mstep Hn).
  mstep Hc. exists pl, nl, w2. split; [|done]. unfold max_additional_of. by destruct (per_replica d) as [[? ?] ?].
Qed.

Lemma hpa_write_spec d cur spec r resync w c :
  holds w c → c_deployments c !! reg_key deploymentsR (depNamespace d) (depName d) = Some cur →
  Deployment_Metadata cur = Deployment_Metadata d → Deployment_Spec cur = Some spec →
  ∃ w', hpa_write (wired_hpa resync) d r w = (Ok tt, w') ∧
    holds w' (MkCluster (c_pods c) (c_nodes c)
      (<[reg_key deploymentsR (depNamespace d) (depName d) :=
          deployment_set_spec (Some (depspec_set_replicas r spec)) cur]> (c_deployments c)) (c_volumes c)).
Proof.
  intros Hw Hd Hm Hs. unfold hpa_write. cbn [wired_hpa NewHorizontalAutoscaler hpa_deployments].
  pose proof (get_deployment w c (depNamespace d) (depName d) Hw) as Hg. rewrite Hd in Hg. simpl in Hg.
  mstep (wrapM_run_Ok "re-fetch deployment before scaling" _ _ _ _ Hg). rewrite Hs. cbn zeta.
  set (cur' := deployment_set_spec _ cur).
  destruct (put_deployment w c (depNamespace cur') (depName cur') cur' Hw) as (w' & Hp & Hw').
  exists w'. split; [done|].
  assert (depNamespace cur' = depNamespace d ∧ depName cur' = depName d) as [<- <-]; [|done].
  unfold depNamespace, depName. simpl. by rewrite Hm.
Qed.

(** What the autoscaler may write: [r] replicas where [cur] were running. *)
Definition scaling_ok (d : Deployment) (c : cluster) (cur r : Z) : Prop :=
  1 ≤ r ≤ maxReplicasOf d ∧
  ∃ pl nl, pl ≡ₚ (map_to_list (with_prefix (reg_prefix podsR "") (c_pods c))).*2 ∧
    nl ≡ₚ (map_to_list (with_prefix (reg_prefix nodesR "") (c_nodes c))).*2 ∧
    (cur < r → r - cur ≤ max_additional_of d pl nl) ∧
    (Z.min (minReplicasOf d) (maxReplicasOf d) ≤ r ∨ r = cur + max_additional_of d pl nl).

Lemma max_additional_of_range d pl nl : 0 ≤ max_additional_of d pl nl ≤ MaxInt32.
Proof.
  unfold max_additional_of. destruct (per_replica d) as [[? ?] ?]. apply max_additional_spec.
Qed.

(** The step that caps a scale-up. *)
Lemma hpa_cap_spec d cur avg resync w c :
  holds w c → 1 ≤ cur → 1 ≤ maxReplicasOf d < 2 ^ 31 →
  ∃ r w', (if cur <? desired_replicas d cur avg then
             '(capped, _) ← wrapM "check cluster capacity"
               (capToClusterCapacity (wired_hpa resync) d cur (desired_replicas d cur avg));
             mret capped
           else mret (desired_replicas d cur avg)) w = (Ok r, w') ∧ holds w' c ∧ scaling_ok d c cur r.
Proof.
  intros Hw Hcur Hmax. pose proof (desired_range d cur avg) as Hd. pose proof (minReplicasOf_pos d).
  specialize (Hd ltac:(lia)). set (desired := desired_replicas d cur avg) in *.
  destruct (capTo_spec d cur desired resync w c Hw) as (pl & nl & w' & Hc & Hw' & Hpl & Hnl).
  destruct (Z.ltb_spec cur desired) as [Hlt|Hge].
  - mstep (wrapM_run_Ok "check cluster capacity" _ _ _ _ Hc).
    pose proof (max_additional_of_range d pl nl).
    destruct (cap_replicas_spec cur desired (max_additional_of d pl nl)) as (Hr & Hm & Hor); [lia..|].
    destruct (cap_replicas cur desired _) as [r s]. simpl in *.
    exists r, w'. split; [done|]. split; [done|]. split; [lia|]. exists pl, nl.
    split_and!; [done|done|lia|]. destruct Hor as [->| ->]; [left; lia|by right].
  - exists desired, w. split; [done|]. split; [done|]. split; [lia|]. exists pl, nl.
    split_and!; [done|done|lia|left; lia].
Qed.


End hpa_lemmas.

(** ** Witnesses *)

Import Codec.Reference.

#[local] Instance hpa_demo_messages : ApiMessages := Build_ApiMessages _ _ _ _.
#[local] Instance hpa_demo_laws : ApiLaws := Build_ApiLaws _ _ _ _ _.
#[local] Existing Instance shuffle_id.

Definition hpa_dep (replicas : Z) : Deployment :=
  MkDeployment (Some (demo_meta "web" "default"))
    (Some (MkDeploymentSpec replicas ∅
      (Some (MkPodSpec [demo_container 80] "" [] RESTART_POLICY_UNSPECIFIED)) 1 5)) None.

(** A running pod of the deployment that uses three times its request. *)
Definition hpa_pod : Pod :=
  MkPod (Some (MkObjectMeta "web-0" "default" "" "" {[OwnerDeploymentLabel := "web"]} 0))
    (Some (MkPodSpec [demo_container 80] "node-a" [] RESTART_POLICY_UNSPECIFIED))
    (Some (MkPodStatus POD_PHASE_RUNNING "" [] 0 (3 * 2 ^ 20))).

(** The float arithmetic on a concrete input: three times the target memory on
    one replica asks for three replicas. *)
Example utilization_three :
  let '(total, n) := utilization (hpa_dep 1) (2 ^ 20) [hpa_pod] in
  desired_replicas (FC := amd64_conv) (hpa_dep 1) 1 (f_div total (f_of_int n)) = 3.
Proof. reflexivity. Qed.

