(* ===== verification/Controllers.v ===== *)
(** * Controllers: node health, key rotation, the manager and leadership

    internal/controller/node_health.go, key_rotation.go and manager.go.  The
    loops of the controllers are driven by a list of events, the ticks of
    their timer and the end of their context; [RunWhileLeader] is a state
    machine driven by what it observes at each poll. *)

From stdpp Require Import gmap strings list.
From Stdlib Require Import ZArith Lia.
From S2P Require Import Prelude Api Codec Store RaftStore Registry Cluster.

Local Open Scope Z_scope.

(** ** The timer loop shared by the controllers *)

Inductive event := Tick | Done.

(** [for { select { case <-ctx.Done(): return ctx.Err(); case <-ticker.C: body } }]
    on the events so far; on a finite prefix without [Done] the loop is still
    running. *)
Fixpoint Reconcile {S} (body : M S unit) (es : list event) : M S unit :=
  match es with
  | [] => mret ()
  | Done :: _ => fail ErrContextCanceled
  | Tick :: es => _ ← body; Reconcile body es
  end.

(** ** Node health *)

Record NodeHealthReconciler := MkNodeHealthReconciler {
  nh_nodes : Registry Node;
  nh_timeout : Z;  (** nanoseconds *)
  nh_resync : Z;
}.

Definition NewNodeHealthReconciler (nodes : Registry Node) (timeout resync : Z) : NodeHealthReconciler :=
  MkNodeHealthReconciler nodes (if timeout <=? 0 then 15000000000 else timeout)
    (if resync <=? 0 then 5000000000 else resync).

Definition nodeHeartbeat (n : Node) : Z := NodeStatus_GetLastHeartbeatUnix (Node_Status n).

(** [time.Now().Add(-r.timeout).Unix()], from the time in nanoseconds. *)
Definition cutoff_of (now timeout : Z) : Z := (now - timeout) / 1000000000.

(** [n.Status.Ready = false] *)
Definition mark_not_ready (n : Node) : Node :=
  node_set_status (nodestatus_set_ready false <$> Node_Status n) n.

Definition stale (cutoff : Z) (n : Node) : bool :=
  nodeIsReady n && negb (cutoff <=? nodeHeartbeat n).

Section node_health.
Context {S : Type} `{!Store S} {Sh : Shuffle} `{AM : !ApiMessages}.

Definition checkAll (r : NodeHealthReconciler) (now : Z) : M S unit :=
  nodes ← attempt (reg_List (nh_nodes r) "");
  match nodes with
  | Ok nodes =>
      let cutoff := cutoff_of now (nh_timeout r) in
      for_each nodes (λ n,
        if negb (nodeIsReady n) then mret ()
        else if cutoff <=? nodeHeartbeat n then mret ()
        else logged (reg_Put (nh_nodes r) "" (nodeName n) (mark_not_ready n)))
  | Err _ => mret ()
  | Panic => panic
  end.
End node_health.

(** Nodes are stored under their own name, outside any namespace. *)
Definition wf_nodes (N : gmap string Node) : Prop :=
  ∀ k n, N !! k = Some n → k = reg_key nodesR "" (nodeName n).

Definition refresh (cutoff : Z) (n : Node) : Node := if stale cutoff n then mark_not_ready n else n.

Section node_health_lemmas.
Context {S : Type} `{!Store S, !StoreLaws S} {Sh : Shuffle} `{AM : !ApiMessages, AL : !ApiLaws}.

Lemma check_each cutoff l w c :
  holds w c → (∀ n, n ∈ l → c_nodes c !! reg_key nodesR "" (nodeName n) = Some n) →
  NoDup ((λ n, reg_key nodesR "" (nodeName n)) <$> l) →
  ∃ w' N', for_each l (λ n,
        if negb (nodeIsReady n) then mret ()
        else if cutoff <=? nodeHeartbeat n then mret ()
        else logged (reg_Put nodesR "" (nodeName n) (mark_not_ready n))) w = (Ok tt, w') ∧
    holds w' (MkCluster (c_pods c) N' (c_deployments c) (c_volumes c)) ∧
    (∀ n, n ∈ l → N' !! reg_key nodesR "" (nodeName n) = Some (refresh cutoff n)) ∧
    (∀ k, k ∉ ((λ n, reg_key nodesR "" (nodeName n)) <$> l) → N' !! k = c_nodes c !! k).
Proof.
  revert w c. induction l as [|n l IH]; intros w c Hw Hst Hnd.
  { exists w, (c_nodes c). destruct c. split_and!; [done..|set_solver|done]. }
  rewrite fmap_cons in Hnd. apply NoDup_cons in Hnd as [Hn Hnd].
  assert (∃ w1, (if negb (nodeIsReady n) then mret ()
      else if cutoff <=? nodeHeartbeat n then mret ()
      else logged (reg_Put nodesR "" (nodeName n) (mark_not_ready n))) w = (Ok tt, w1) ∧
      holds w1 (MkCluster (c_pods c) (<[reg_key nodesR "" (nodeName n) := refresh cutoff n]> (c_nodes c))
        (c_deployments c) (c_volumes c))) as (w1 & Hs & Hw1).
  { assert (holds w (MkCluster (c_pods c) (<[reg_key nodesR "" (nodeName n) := n]> (c_nodes c))
      (c_deployments c) (c_volumes c))) as Hid.
    { rewrite insert_id by (apply Hst; left). by destruct c. }
    unfold refresh, stale. destruct (nodeIsReady n); simpl; [|by exists w].
    destruct (cutoff <=? nodeHeartbeat n); simpl; [by exists w|].
    destruct (put_node w c "" (nodeName n) (mark_not_ready n) Hw) as (w1 & Hp & Hw1).
    exists w1. by rewrite (logged_run_Ok _ _ _ Hp). }
  destruct (IH w1 _ Hw1) as (w' & N' & Hl & Hw' & HN & Hoth); [|done|].
  { intros m Hm. simpl. rewrite lookup_insert_ne; [apply Hst; by right|].
    intros Heq. apply Hn. rewrite Heq. by apply (list_elem_of_fmap_2 (λ n, reg_key nodesR "" (nodeName n))). }
  exists w', N'. split; [simpl; by mstep Hs|]. split; [done|]. split.
  - intros m [->|Hm]%elem_of_cons; [|by apply HN]. rewrite Hoth by done. apply lookup_insert_eq.
  - intros k [Hk Hni]%not_elem_of_cons. rewrite Hoth by done. simpl. by rewrite lookup_insert_ne.
Qed.

Lemma checkAll_spec timeout resync now w c :
  holds w c → wf_nodes (c_nodes c) →
  let r := NewNodeHealthReconciler nodesR timeout resync in
  ∃ w', checkAll r now w = (Ok tt, w') ∧
    holds w' (MkCluster (c_pods c) (refresh (cutoff_of now (nh_timeout r)) <$> c_nodes c)
      (c_deployments c) (c_volumes c)).
Proof.
  intros Hw Hwf r. unfold checkAll. cbn [r NewNodeHealthReconciler nh_nodes].
  destruct (list_nodes w c "" Hw) as (l & w1 & Hl & Hw1 & Hp).
  mstep (attempt_run_Ok _ _ _ _ Hl). cbn zeta.
  assert (∀ n, n ∈ l ↔ c_nodes c !! reg_key nodesR "" (nodeName n) = Some n) as Hel.
  { intros n. rewrite Hp, list_elem_of_fmap. split.
    - intros ([k m] & -> & [Hm _]%elem_of_map_to_list%with_prefix_lookup). simpl. by rewrite <-(Hwf _ _ Hm).
    - intros Hn. exists (reg_key nodesR "" (nodeName n), n). split; [done|].
      apply elem_of_map_to_list, with_prefix_lookup. split; [done|apply reg_key_prefix]. }
  assert (NoDup ((λ n, reg_key nodesR "" (nodeName n)) <$> l)) as Hnd.
  { apply NoDup_fmap_2_strong.
    - intros n m Hn%Hel Hm%Hel Heq. simpl in Heq. congruence.
    - rewrite Hp. apply (NoDup_fmap_1 (λ n, reg_key nodesR "" (nodeName n))).
      rewrite <-list_fmap_compose. erewrite list_fmap_ext; [apply NoDup_fst_map_to_list|].
      intros i [k m] Hi. simpl. symmetry. apply Hwf.
      apply list_elem_of_lookup_2, elem_of_map_to_list, with_prefix_lookup in Hi. apply Hi. }
  destruct (check_each (cutoff_of now (nh_timeout r)) l w1 c Hw1) as (w' & N' & Hc & Hw' & HN & Hoth);
    [by intros n Hn%Hel|done|].
  exists w'. split; [done|]. replace (refresh _ <$> c_nodes c) with N'; [done|].
  apply map_eq. intros k. rewrite lookup_fmap.
  destruct (decide (k ∈ ((λ n, reg_key nodesR "" (nodeName n)) <$> l))) as [Hin|Hni].
  - apply list_elem_of_fmap in Hin as (n & -> & Hn). rewrite HN by done. apply Hel in Hn. by rewrite Hn.
  - rewrite Hoth by done. destruct (c_nodes c !! k) as [n|] eqn:Hk; [|done].
    destruct Hni. rewrite (Hwf _ _ Hk) in Hk |- *.
    apply (list_elem_of_fmap_2 (λ n, reg_key nodesR "" (nodeName n))). by apply Hel.
Qed.

(** A health check marks exactly the stale nodes.  On a healthy store
    [checkAll] turns every stored node that is ready and whose last heartbeat
    is older than the timeout into a node that is not ready, and leaves every
    other node, and every pod, deployment and volume, as it was. *)
Theorem node_health_exact timeout resync now w c :
  holds w c → wf_nodes (c_nodes c) →
  let r := NewNodeHealthReconciler nodesR timeout resync in
  ∃ w', checkAll r now w = (Ok tt, w') ∧
    holds w' (MkCluster (c_pods c) (refresh (cutoff_of now (nh_timeout r)) <$> c_nodes c)
      (c_deployments c) (c_volumes c)).
Proof. apply checkAll_spec. Qed.

End node_health_lemmas.

(** ** Key rotation *)

(** [type KeyRotator interface]; the order argument is the map order in which
    the values are rewritten. *)
Class KeyRotator (S : Type) := {
  kr_RotateEncryptionKey : bytes → S → result unit * S;
  kr_ReencryptAll : (list (string * bytes) → list (string * bytes)) → S → nat * result unit * S;
}.

#[export] Instance raft_key_rotator `{!RaftEnv} : KeyRotator RaftStore := {|
  kr_RotateEncryptionKey := RotateEncryptionKey;
  kr_ReencryptAll := ReencryptAll;
|}.

(** [rotate], where [rnd] is what reading 32 random bytes gave: every error is
    logged and ends the rotation where it is. *)
Definition rotate {S} `{!KeyRotator S} (rnd : result bytes)
    (order : list (string * bytes) → list (string * bytes)) (s : S) : S :=
  match rnd with
  | Ok newKey =>
      match kr_RotateEncryptionKey newKey s with
      | (Ok _, s) => let '(_, _, s) := kr_ReencryptAll order s in s
      | (_, s) => s
      end
  | _ => s
  end.

Section rotation.
Context {RE : RaftEnv} {REL : RaftEnvLaws} {RR : RaftReliable}.

(** Fresh keys: each of the right size and different from the one before. *)
Fixpoint fresh_keys (k : bytes) (ks : list bytes) : Prop :=
  match ks with [] => True | k' :: ks => valid_key k' ∧ k ≠ k' ∧ fresh_keys k' ks end.

Lemma last_cons_default {A} (x y : A) l : List.last (x :: l) y = List.last l x.
Proof. revert x y. induction l as [|z l IH]; intros x y; [done|]. change (List.last (z :: l) y = List.last (z :: l) x). by rewrite !IH. Qed.

Definition rotate_all (ks : list bytes) order (s : RaftStore) : RaftStore :=
  foldl (λ s k, rotate (Ok k) order s) s ks.

(** Rotating the key any number of times keeps the data.  On a stable
    leader whose values are sealed under its key, after each of a sequence of
    rotations to fresh keys the replica shows the same plaintext contents, all
    sealed under the last key, and no older key is kept. *)
Theorem rotations_preserve_data k0 ks m s order :
  raft_stable (rs_raft s) → valid_key k0 → rs_encKey s = k0 →
  sealed_as k0 m (fsm_data (rs_fsm s)) → (∀ l, order l ≡ₚ l) → fresh_keys k0 ks →
  let s' := rotate_all ks order s in
  plain_view s' = m ∧ raft_stable (rs_raft s') ∧ rs_encKey s' = List.last ks k0 ∧
  sealed_as (List.last ks k0) m (fsm_data (rs_fsm s')) ∧ (ks ≠ [] → rs_prevEncKey s' = []).
Proof.
  intros Hr Hk0 Hk Hm Ho. unfold rotate_all.
  revert k0 s Hr Hk0 Hk Hm. induction ks as [|k ks IH]; intros k0 s Hr Hk0 Hk Hm; cbn [foldl fresh_keys].
  { intros _. split; [|done]. apply (plain_view_sealed s m k0); [done|].
    intros c p Hc. apply rs_decrypt_current; by rewrite Hk. }
  intros (Hv & Hne & Hf).
  destruct (rotation_correct k0 k m s order) as (s1 & s2 & H1 & _ & _ & H2 & Hk2 & Hp2 & Hs2 & _ & Hr2); [done..|].
  assert (rotate (Ok k) order s = s2) as -> by (unfold rotate; simpl; by rewrite H1, H2).
  destruct (IH k s2 Hr2 Hv Hk2 Hs2 Hf) as (Hpv & Hst & Hek & Hse & Hpr).
  rewrite last_cons_default. split_and!; [done..|]. intros _. destruct ks; [done|by apply Hpr].
Qed.

(** Two rotations with a re-encryption that did not happen lose the data.
    Only one previous key is kept, so when [ReencryptAll] fails after a
    rotation (its error is only logged) the next rotation drops the key the
    values are sealed under, and reading any of them fails. *)
Theorem rotation_after_failed_reencrypt k0 k1 k2 m s key p s1 s2 :
  valid_key k0 → valid_key k1 → valid_key k2 → k0 ≠ k1 → k0 ≠ k2 →
  rs_encKey s = k0 → sealed_as k0 m (fsm_data (rs_fsm s)) → m !! key = Some p →
  RotateEncryptionKey k1 s = (Ok tt, s1) → RotateEncryptionKey k2 s1 = (Ok tt, s2) →
  ∃ e, rs_Get key s2 = Err e.
Proof.
  intros Hk0 Hk1 Hk2 H01 H02 Hk Hm Hp H1 H2. unfold RotateEncryptionKey in *.
  rewrite decide_False in H1 by (unfold valid_key in *; lia).
  rewrite decide_False in H2 by (unfold valid_key in *; lia).
  injection H1 as <-. injection H2 as <-.
  specialize (Hm key). rewrite Hp in Hm. inversion Hm as [? c Hc Hq Hdc|]; subst.
  unfold rs_Get, fsm_get. simpl. rewrite <-Hdc. simpl.
  by eapply rs_decrypt_lost; simpl; [..|exact Hc]; eauto.
Qed.

End rotation.

(** ** The manager and leadership (manager.go)

    [RunWhileLeader] polls the context and the leadership.  Its state is where
    it is in its loops and how often it started and stopped the manager; an
    observation is what one poll sees. *)

Record Manager (R : Type) := MkManager { mgr_reconcilers : list R }.
Arguments MkManager {R} _.
Arguments mgr_reconcilers {R} _.
Definition NewManager {R} : Manager R := MkManager [].
Definition Register {R} (r : R) (m : Manager R) : Manager R := MkManager (mgr_reconcilers m ++ [r]).

Inductive phase :=
  | Outer    (** at the head of the outer loop *)
  | Leading  (** in the inner loop, the manager is running *)
  | Returned.

Record leader_state := MkLeaderState { ls_phase : phase; ls_started : nat; ls_stopped : nat }.

(** What a poll observes: [ctx.Err() != nil] and [isLeader.IsLeader()]. *)
Record poll := MkPoll { poll_cancelled : bool; poll_leader : bool }.

Inductive leader_step : leader_state → poll → leader_state → Prop :=
  | StepReturn a b l :
      leader_step (MkLeaderState Outer a b) (MkPoll true l) (MkLeaderState Returned a b)
  | StepFollow a b :
      leader_step (MkLeaderState Outer a b) (MkPoll false false) (MkLeaderState Outer a b)
  | StepStart a b :
      leader_step (MkLeaderState Outer a b) (MkPoll false true) (MkLeaderState Leading (S a) b)
  | StepStay a b :
      leader_step (MkLeaderState Leading a b) (MkPoll false true) (MkLeaderState Leading a b)
  | StepStop a b o :
      poll_cancelled o || negb (poll_leader o) = true →
      leader_step (MkLeaderState Leading a b) o (MkLeaderState Outer a (S b)).

(** The same as a function: one iteration of the loop it is in. *)
Definition leader_next (s : leader_state) (o : poll) : leader_state :=
  match ls_phase s with
  | Outer =>
      if poll_cancelled o then MkLeaderState Returned (ls_started s) (ls_stopped s)
      else if negb (poll_leader o) then s
      else MkLeaderState Leading (S (ls_started s)) (ls_stopped s)
  | Leading =>
      if negb (poll_cancelled o) && poll_leader o then s
      else MkLeaderState Outer (ls_started s) (S (ls_stopped s))
  | Returned => s
  end.

Definition leader_init : leader_state := MkLeaderState Outer 0 0.
Definition RunWhileLeader (os : list poll) : leader_state := foldl leader_next leader_init os.

Lemma leader_next_step s o : ls_phase s ≠ Returned → leader_step s o (leader_next s o).
Proof.
  destruct s as [[] a b], o as [[] []]; unfold leader_next; simpl; intros H; try done; by constructor.
Qed.

Definition leader_inv (s : leader_state) : Prop :=
  ls_started s = (ls_stopped s + match ls_phase s with Leading => 1 | _ => 0 end)%nat.

Lemma leader_step_inv s o s' : leader_step s o s' → leader_inv s → leader_inv s'.
Proof. unfold leader_inv. destruct 1; simpl; lia. Qed.

Lemma RunWhileLeader_inv os : leader_inv (RunWhileLeader os).
Proof.
  unfold RunWhileLeader. assert (leader_inv leader_init) as H by done. revert H. generalize leader_init.
  induction os as [|o os IH]; intros s Hs; simpl; [done|]. apply IH.
  destruct (ls_phase s) eqn:E; [..|unfold leader_next; by rewrite E];
    (eapply leader_step_inv; [apply leader_next_step; by rewrite E|done]).
Qed.

Lemma leader_phase_trichotomy s o : ls_phase (leader_next s o) = Leading → poll_leader o = true ∧ poll_cancelled o = false.
Proof.
  destruct s as [[] a b], o as [[] []]; unfold leader_next; simpl; intros; done.
Qed.

(** The controllers run only on the leader, one instance at a time.  After
    any sequence of polls the manager has been started at most once more than
    it was stopped, and exactly then the loop is in its leading phase; it is
    in that phase only if the last poll saw a live context and leadership;
    and once the context is cancelled, two polls are enough for the loop to
    have stopped the manager and returned. *)
Theorem leader_runs_controllers os :
  leader_inv (RunWhileLeader os) ∧
  (∀ os' o, os = os' ++ [o] → ls_phase (RunWhileLeader os) = Leading →
     poll_leader o = true ∧ poll_cancelled o = false) ∧
  (∀ o1 o2, poll_cancelled o1 = true → poll_cancelled o2 = true →
     let s := RunWhileLeader (os ++ [o1; o2]) in ls_phase s = Returned ∧ ls_started s = ls_stopped s).
Proof.
  split; [apply RunWhileLeader_inv|]. split.
  - intros os' o ->. unfold RunWhileLeader. rewrite foldl_app. simpl. apply leader_phase_trichotomy.
  - intros o1 o2 H1 H2 s.
    assert (ls_phase s = Returned) as Hp.
    { unfold s, RunWhileLeader. rewrite foldl_app. simpl.
      destruct (foldl leader_next leader_init os) as [[] a b], o1 as [[] l1], o2 as [[] l2]; done. }
    split; [done|]. pose proof (RunWhileLeader_inv (os ++ [o1; o2])) as Hi. fold s in Hi.
    unfold leader_inv in Hi. rewrite Hp in Hi. lia.
Qed.

(** ** Witnesses *)

Import Codec.Reference.

#[local] Instance ctl_demo_messages : ApiMessages := Build_ApiMessages _ _ _ _.
#[local] Instance ctl_demo_laws : ApiLaws := Build_ApiLaws _ _ _ _ _.
#[local] Existing Instance shuffle_id.

Definition stale_node : Node :=
  MkNode (Some (MkObjectMeta "node-a" "" "" "" ∅ 0)) None
    (Some (MkNodeStatus None None true [] 100 "10.0.0.1")).

Lemma node_health_exact_witness :
  ∃ w w', checkAll (NewNodeHealthReconciler nodesR 0 0) 200000000000 w = (Ok tt, w') ∧
    objs nodesR (w_view w') !! reg_key nodesR "" "node-a" = Some (mark_not_ready stale_node).
Proof.
  destruct (put_node (S := memStore) demo_world (MkCluster ∅ ∅ ∅ ∅) "" "node-a" stale_node)
    as (w & _ & Hw); [constructor; done|].
  destruct (node_health_exact 0 0 200000000000 w _ Hw) as (w' & Hc & Hw').
  - intros k n Hk. simpl in Hk. apply lookup_insert_Some in Hk as [[<- <-]|[_ Hk]]; [reflexivity|discriminate Hk].
  - exists w, w'. split; [exact Hc|]. 
    exact (eq_trans (f_equal (λ m, m !! reg_key nodesR "" "node-a") (h_nodes _ _ Hw')) eq_refl).
Defined.

Import RaftStore.DemoRaft.

Definition key2 : bytes := replicate 32 Byte.x03.

Lemma rotations_preserve_data_witness :
  plain_view (rotate_all [key1; key2; key1] (@rev _) leader) = contents.
Proof.
  apply (rotations_preserve_data key0 [key1; key2; key1] contents leader (@rev _)).
  - reflexivity.
  - reflexivity.
  - reflexivity.
  - apply sealed_contents_ok.
  - intros l. symmetry. apply Permutation_rev.
  - split; [reflexivity|]. split; [discriminate|]. split; [reflexivity|]. split; [discriminate|].
    split; [reflexivity|]. split; [discriminate|exact I].
Defined.

Lemma rotation_after_failed_reencrypt_witness :
  ∃ e, rs_Get "/registry/pods/default/web-0" (rs_set_keys key2 key1 (rs_set_keys key1 key0 leader)) = Err e.
Proof.
  apply (rotation_after_failed_reencrypt key0 key1 key2 contents leader _ [Byte.x2a]
    (rs_set_keys key1 key0 leader)); try reflexivity; try discriminate. apply sealed_contents_ok.
Defined.
