(* ===== verification/Admission.v ===== *)
(** * Admission: the admission chain

    internal/admission, internal/policy/engine.go and
    internal/imageregistry/verifier.go.  A validator receives the request by
    pointer and may change it: it is modelled as a function from the request
    to the request as the caller sees it afterwards and the verdict.  The CEL
    engine is third-party code, the class [CelEnv]; the cache of compiled
    programs of [PolicyValidator] is part of the state that the chain threads,
    and is shown not to affect verdicts ([policy_verdict]). *)

From stdpp Require Import gmap strings list.
From Stdlib Require Import ZArith Lia.
From S2P Require Import Prelude Api Codec Store Registry Cluster Scheduler Scheduling.

Local Open Scope Z_scope.

Record Request := MkRequest {
  req_Namespace : string;
  req_Name : string;
  req_Labels : gmap string string;
  req_Spec : option PodSpec;
  req_Replicas : Z;
}.

Definition req_set_spec (s : option PodSpec) (r : Request) : Request :=
  MkRequest (req_Namespace r) (req_Name r) (req_Labels r) s (req_Replicas r).
Definition req_set_replicas (n : Z) (r : Request) : Request :=
  MkRequest (req_Namespace r) (req_Name r) (req_Labels r) (req_Spec r) n.

Definition reqContainers (r : Request) : list Container := PodSpec_GetContainers (req_Spec r).
Definition reqVolumes (r : Request) : list VolumeMount := PodSpec_GetVolumes (req_Spec r).

(** ** The policy engine (policy/engine.go) *)

(** The view of a pod that an expression sees. *)
Record container_view := MkContainerView { cv_name : string; cv_image : string; cv_privileged : bool }.
Record pod_view := MkPodView {
  pv_namespace : string;
  pv_labels : gmap string string;
  pv_containers : list container_view;
}.

Definition PodView (namespace : string) (labels : gmap string string) (spec : option PodSpec) : pod_view :=
  MkPodView namespace labels
    ((λ c, MkContainerView (Container_Name c) (Container_Image c)
             (SecurityContext_GetPrivileged (Container_SecurityContext c))) <$> PodSpec_GetContainers spec).

Inductive cel_value := CelBool (b : bool) | CelOther.

Class CelEnv := {
  cel_ast : Type;
  cel_Program : Type;
  cel_env_Compile : string → result cel_ast;
  cel_env_Program : cel_ast → result cel_Program;
  cel_Eval : cel_Program → pod_view → result cel_value;
}.

Section engine.
Context {CE : CelEnv}.

Definition engine_Compile (expression : string) : result cel_Program :=
  ast ← wrap_result "policy: compile" (cel_env_Compile expression);
  wrap_result "policy: build program" (cel_env_Program ast).

Definition engine_Evaluate (prg : cel_Program) (view : pod_view) : result bool :=
  out ← wrap_result "policy: evaluate" (cel_Eval prg view);
  match out with
  | CelBool b => Ok b
  | CelOther => Err (Errorf "policy: expression must evaluate to a bool")
  end.
End engine.

(** ** Validators *)

Section admission.
Context {S : Type} `{!Store S} {Sh : Shuffle} {CE : CelEnv}.
Context `{AM : !ApiMessages, !ProtoMessage Policy, !ProtoMessage ImageRecord}.

(** The request and the cache of compiled programs. *)
Record admit_state := MkAdmitState { as_req : Request; as_compiled : gmap string cel_Program }.

Definition Validator := admit_state → M S (admit_state * result unit).

(** *** security.go *)

Definition DefaultSeccompProfile : string := "RuntimeDefault".

Definition set_security (sc : SecurityContext) (c : Container) : Container :=
  MkContainer (Container_Name c) (Container_Image c) (Container_Resources c) (Some sc)
    (Container_Command c) (Container_WasmModulePath c) (Container_ContainerPorts c)
    (Container_Env c) (Container_BuildSource c).

Definition set_seccomp (s : string) (sc : SecurityContext) : SecurityContext :=
  MkSecurityContext s (SecurityContext_AddCapabilities sc) (SecurityContext_Privileged sc)
    (SecurityContext_AllowPrivilegeEscalation sc) (SecurityContext_RunAsNonRoot sc).

(** The defaults written to a container. *)
Definition default_security (c : Container) : SecurityContext :=
  let sc := default SecurityContext_zero (Container_SecurityContext c) in
  if decide (SecurityContext_SeccompProfile sc = "") then set_seccomp DefaultSeccompProfile sc else sc.

(** The checks on one container. *)
Definition check_security (allowed : list string) (sc : SecurityContext) : result unit :=
  if SecurityContext_Privileged sc then Err (Errorf "privileged containers are not permitted")
  else if SecurityContext_AllowPrivilegeEscalation sc then Err (Errorf "privilege escalation is not permitted")
  else if forallb (λ cap, bool_decide (cap ∈ allowed)) (SecurityContext_AddCapabilities sc) then Ok tt
  else Err (Errorf "capability is not in the cluster's allowlist").

(** The loop over the containers: those before and at the one that is
    rejected have been given defaults, the later ones are as they were. *)
Fixpoint security_loop (allowed : list string) (cs : list Container) : list Container * result unit :=
  match cs with
  | [] => ([], Ok tt)
  | c :: cs =>
      let sc := default_security c in
      match check_security allowed sc with
      | Ok _ => let '(cs', r) := security_loop allowed cs in (set_security sc c :: cs', r)
      | r => (set_security sc c :: cs, r)
      end
  end.

Definition spec_set_containers (cs : list Container) (s : PodSpec) : PodSpec :=
  MkPodSpec cs (PodSpec_NodeName s) (PodSpec_Volumes s) (PodSpec_RestartPolicy s).

Definition SecurityContextPolicy_Admit (allowed : list string) : Validator := λ a,
  let '(cs, r) := security_loop allowed (reqContainers (as_req a)) in
  mret (MkAdmitState (req_set_spec (spec_set_containers cs <$> req_Spec (as_req a)) (as_req a)) (as_compiled a), r).

(** *** image.go, imageregistry/verifier.go *)

(** [Verifier.Verify]: the image was pushed to the cluster registry. *)
Definition registry_Verify (imageRef : string) : M S unit :=
  wrapM "imageregistry: image was not pushed to the cluster registry"
    (_ ← reg_Get imagesR "" imageRef; mret ()).

Definition ImageSignaturePolicy_Admit (Verify : string → M S unit) : Validator := λ a,
  r ← attempt (for_each (reqContainers (as_req a)) (λ c, wrapM "container: image" (Verify (Container_Image c))));
  mret (a, r).

(** *** quota.go *)

(** [(cpu, mem)] accumulated over containers. *)
Definition add_requests (acc : Z * Z) (cs : list Container) : Z * Z :=
  foldl (λ '(cpu, mem) c, (wrap64 (cpu + cpu_of c), wrap64 (mem + mem_of c))) acc cs.

Definition QuotaPolicy_Admit (quota : option ResourceList) : Validator := λ a,
  let quotaCPU := ResourceList_GetCpuMillis quota in
  let quotaMem := ResourceList_GetMemoryBytes quota in
  if (quotaCPU <=? 0) && (quotaMem <=? 0) then mret (a, Ok tt)
  else
    existing ← attempt (reg_List podsR (req_Namespace (as_req a)));
    match existing with
    | Err e => mret (a, Err (Wrapf "quota: list existing pods" e))
    | Panic => panic
    | Ok existing =>
        let '(usedCPU, usedMem) := foldl (λ acc p, add_requests acc (podContainers p)) (0, 0) existing in
        let '(reqCPU, reqMem) := add_requests (0, 0) (reqContainers (as_req a)) in
        let reqCPU := wrap64 (reqCPU * req_Replicas (as_req a)) in
        let reqMem := wrap64 (reqMem * req_Replicas (as_req a)) in
        if (0 <? quotaCPU) && (quotaCPU <? wrap64 (usedCPU + reqCPU)) then
          mret (a, Err (Errorf "namespace would exceed its CPU quota"))
        else if (0 <? quotaMem) && (quotaMem <? wrap64 (usedMem + reqMem)) then
          mret (a, Err (Errorf "namespace would exceed its memory quota"))
        else mret (a, Ok tt)
    end.

(** *** policy.go *)

Definition polExpression (p : Policy) : string := PolicySpec_GetExpression (Policy_Spec p).
Definition polMessage (p : Policy) : string := PolicySpec_GetMessage (Policy_Spec p).
Definition polName (p : Policy) : string := ObjectMeta_GetName (Policy_Metadata p).

(** [compile]: through the cache. *)
Definition pv_compile (expression : string) (cache : gmap string cel_Program)
    : result cel_Program * gmap string cel_Program :=
  match cache !! expression with
  | Some prg => (Ok prg, cache)
  | None =>
      match engine_Compile expression with
      | Ok prg => (Ok prg, <[expression := prg]> cache)
      | r => (r, cache)
      end
  end.

(** The loop over the policies. *)
Fixpoint policy_loop (view : pod_view) (l : list Policy) (cache : gmap string cel_Program)
    : result unit * gmap string cel_Program :=
  match l with
  | [] => (Ok tt, cache)
  | pol :: l =>
      let '(prg, cache) := pv_compile (polExpression pol) cache in
      match prg with
      | Ok prg =>
          match engine_Evaluate prg view with
          | Ok true => policy_loop view l cache
          | Ok false =>
              (Err (Errorf (if decide (polMessage pol = "") then "denied by policy " +:+ polName pol
                            else polMessage pol)), cache)
          | Err e => (Err (Wrapf "policy" e), cache)
          | Panic => (Panic, cache)
          end
      | Err e => (Err (Wrapf "policy" e), cache)
      | Panic => (Panic, cache)
      end
  end.

Definition PolicyValidator_Admit : Validator := λ a,
  policies ← attempt (reg_List policiesR "");
  match policies with
  | Err e => mret (a, Err (Wrapf "policy: list policies" e))
  | Panic => panic
  | Ok [] => mret (a, Ok tt)
  | Ok policies =>
      let req := as_req a in
      let view := PodView (req_Namespace req) (req_Labels req) (req_Spec req) in
      let '(r, cache) := policy_loop view policies (as_compiled a) in
      match r with Panic => panic | r => mret (MkAdmitState req cache, r) end
  end.

(** *** volume.go *)

Definition VolumeReplicasPolicy_Admit : Validator := λ a,
  if decide (reqVolumes (as_req a) = []) then mret (a, Ok tt)
  else if 1 <? req_Replicas (as_req a) then
    mret (a, Err (Errorf "volume-backed deployments must have replicas <= 1"))
  else mret (a, Ok tt).

(** The loop over the mounts: any error of [Get] is taken for an absent
    volume. *)
Fixpoint ownership_loop (req : Request) (l : list VolumeMount) : M S unit :=
  match l with
  | [] => mret ()
  | m :: l =>
      vol ← attempt (reg_Get volumesR (req_Namespace req) (VolumeMount_VolumeName m));
      match vol with
      | Ok vol =>
          let owner := slookup (volLabels vol) OwnerDeploymentLabel in
          if negb (bool_decide (owner = "")) && negb (bool_decide (req_Name req = ""))
             && negb (bool_decide (owner = req_Name req))
          then fail (Errorf "volume is already owned by deployment")
          else ownership_loop req l
      | Err _ => ownership_loop req l
      | Panic => panic
      end
  end.

Definition VolumeOwnershipPolicy_Admit : Validator := λ a,
  r ← attempt (ownership_loop (as_req a) (reqVolumes (as_req a)));
  mret (a, r).

(** *** The chain (admission.go) *)

Fixpoint chain_loop (vs : list Validator) (a : admit_state) : M S (admit_state * result unit) :=
  match vs with
  | [] => mret (a, Ok tt)
  | v :: vs =>
      '(a, r) ← v a;
      match r with
      | Ok _ => chain_loop vs a
      | Err e => mret (a, Err (Wrapf "admission" e))
      | Panic => panic
      end
  end.

Definition chain_Admit (vs : list Validator) (a : admit_state) : M S (admit_state * result unit) :=
  let a := if req_Replicas (as_req a) <=? 0
           then MkAdmitState (req_set_replicas 1 (as_req a)) (as_compiled a) else a in
  chain_loop vs a.

(** The chain that cmd/nimbus-apiserver/main.go builds. *)
Definition default_chain (allowed : list string) (Verify : string → M S unit) (quota : option ResourceList)
    : list Validator :=
  [SecurityContextPolicy_Admit allowed; ImageSignaturePolicy_Admit Verify; QuotaPolicy_Admit quota;
   PolicyValidator_Admit; VolumeReplicasPolicy_Admit; VolumeOwnershipPolicy_Admit].

End admission.
Arguments admit_state CE : clear implicits.
Arguments Validator : clear implicits.

(** ** Lemmas *)

(** What the security policy guarantees of a container. *)
Definition secure_container (allowed : list string) (c : Container) : Prop :=
  ∃ sc, Container_SecurityContext c = Some sc ∧ SecurityContext_SeccompProfile sc ≠ "" ∧
    SecurityContext_Privileged sc = false ∧ SecurityContext_AllowPrivilegeEscalation sc = false ∧
    ∀ cap, cap ∈ SecurityContext_AddCapabilities sc → cap ∈ allowed.

Definition secure_spec (allowed : list string) (s : option PodSpec) : Prop :=
  Forall (secure_container allowed) (PodSpec_GetContainers s).

(** The container with its security defaults filled in. *)
Definition secured (c : Container) : Container := set_security (default_security c) c.

Lemma default_security_seccomp c : SecurityContext_SeccompProfile (default_security c) ≠ "".
Proof. unfold default_security. cbn zeta. by case_decide. Qed.

Lemma check_security_Ok allowed sc :
  check_security allowed sc = Ok tt ↔
  SecurityContext_Privileged sc = false ∧ SecurityContext_AllowPrivilegeEscalation sc = false ∧
  ∀ cap, cap ∈ SecurityContext_AddCapabilities sc → cap ∈ allowed.
Proof.
  unfold check_security.
  destruct (SecurityContext_Privileged sc); [naive_solver|].
  destruct (SecurityContext_AllowPrivilegeEscalation sc); [naive_solver|].
  destruct (forallb _ _) eqn:E.
  - rewrite forallb_elem_of in E. setoid_rewrite bool_decide_eq_true in E. naive_solver.
  - split; [done|]. intros (_ & _ & H). apply not_true_iff_false in E. destruct E.
    apply forallb_elem_of. intros cap Hcap. apply bool_decide_eq_true. auto.
Qed.

(** The loop admits exactly when every container passes, and then has filled
    in the defaults of all of them. *)
Lemma security_loop_spec allowed cs cs' :
  security_loop allowed cs = (cs', Ok tt) ↔
  cs' = (secured <$> cs) ∧ Forall (λ c, check_security allowed (default_security c) = Ok tt) cs.
Proof.
  revert cs'. induction cs as [|c cs IH]; intros cs'; simpl.
  { split; [intros [= <-]; auto|]. by intros [-> _]. }
  rewrite Forall_cons. destruct (check_security allowed (default_security c)) as [[]|e|] eqn:E.
  - destruct (security_loop allowed cs) as [l r] eqn:El. split.
    + intros [= <- ->]. destruct (proj1 (IH l) eq_refl) as [-> Hf]. done.
    + intros [-> [_ Hf]]. pose proof (proj2 (IH (secured <$> cs)) (conj eq_refl Hf)) as [= -> ->]. done.
  - split; [done|]. naive_solver.
  - split; [done|]. naive_solver.
Qed.

Lemma security_loop_secure allowed cs cs' :
  security_loop allowed cs = (cs', Ok tt) → Forall (secure_container allowed) cs'.
Proof.
  intros [-> Hf]%security_loop_spec. apply Forall_fmap. eapply Forall_impl; [exact Hf|].
  intros c (H1 & H2 & H3)%check_security_Ok. exists (default_security c).
  split_and!; [done|apply default_security_seccomp|done..].
Qed.

Section validator_lemmas.
Context {S : Type} `{!Store S} {Sh : Shuffle} {CE : CelEnv}.
Context `{AM : !ApiMessages, PM : !ProtoMessage Policy, IM : !ProtoMessage ImageRecord}.

(** A computation that only reads the store. *)
Definition reads_only {A} (m : M S A) : Prop := ∀ w r w', m w = (r, w') → w_store w' = w_store w.

Lemma reads_ret {A} (a : A) : reads_only (mret a).
Proof. by intros w r w' [= _ <-]. Qed.
Lemma reads_fail {A} e : reads_only (fail e : M S A).
Proof. by intros w r w' [= _ <-]. Qed.
Lemma reads_panic {A} : reads_only (panic : M S A).
Proof. by intros w r w' [= _ <-]. Qed.
Lemma reads_lift {A} (r : result A) : reads_only (lift r : M S A).
Proof. by intros w r' w' [= _ <-]. Qed.
Lemma reads_bind {A B} (m : M S A) (f : A → M S B) :
  reads_only m → (∀ a, reads_only (f a)) → reads_only (m ≫= f).
Proof.
  intros Hm Hf w r w'. unfold mbind, M_mbind, M_bind. destruct (m w) as [[a|e|] w1] eqn:E.
  - intros H. rewrite (Hf _ _ _ _ H). by eapply Hm.
  - intros [= _ <-]. by eapply Hm.
  - intros [= _ <-]. by eapply Hm.
Qed.
Lemma reads_attempt {A} (m : M S A) : reads_only m → reads_only (attempt m).
Proof.
  intros Hm w r w'. unfold attempt. destruct (m w) as [[a|e|] w1] eqn:E; intros [= _ <-]; by eapply Hm.
Qed.
Lemma reads_wrapM {A} s (m : M S A) : reads_only m → reads_only (wrapM s m).
Proof. intros Hm w r w'. unfold wrapM. destruct (m w) as [x w1] eqn:E. intros [= _ <-]. by eapply Hm. Qed.
Lemma reads_statusM {A} c s (m : M S A) : reads_only m → reads_only (statusM c s m).
Proof.
  intros Hm w r w'. unfold statusM. destruct (m w) as [[a|e|] w1] eqn:E; intros [= _ <-]; by eapply Hm.
Qed.
Lemma reads_range {A} (l : list A) : reads_only (range l : M S (list A)).
Proof. by intros w r w' [= _ <-]. Qed.
Lemma reads_for_each {A} (l : list A) (f : A → M S unit) :
  (∀ x, reads_only (f x)) → reads_only (for_each l f).
Proof. intros Hf. induction l; simpl; [apply reads_ret|]. by apply reads_bind. Qed.
Lemma reads_get {T} `{!ProtoMessage T} (r : Registry T) ns n : reads_only (reg_Get r ns n : M S T).
Proof. apply reads_bind; [by intros w x w' [= _ <-]|intros; apply reads_lift]. Qed.
Lemma reads_list {T} `{!ProtoMessage T} (r : Registry T) ns : reads_only (reg_List r ns : M S (list T)).
Proof.
  apply reads_bind; [apply reads_wrapM; by intros w x w' [= _ <-]|]. intros raw.
  apply reads_bind; [apply reads_range|intros; apply reads_lift].
Qed.

#[local] Hint Resolve reads_ret reads_fail reads_panic reads_lift reads_bind reads_attempt reads_wrapM
  reads_range reads_for_each reads_get reads_list : nimbus.

(** A validator that reads the store and leaves the request alone. *)
Definition keeps_request (v : Validator S CE) : Prop :=
  ∀ a w a' r w', v a w = (Ok (a', r), w') → as_req a' = as_req a ∧ w_store w' = w_store w.

Lemma keeps_of_attempt (f : Request → M S unit) :
  (∀ q, reads_only (f q)) → keeps_request (λ a, r ← attempt (f (as_req a)); mret (a, r)).
Proof.
  intros Hf a w a' r w' H. minv H. injection H1 as <- <- <-. split; [done|].
  eapply reads_attempt; [apply Hf|exact H0].
Qed.

Lemma keeps_image Verify : (∀ ref, reads_only (Verify ref)) → keeps_request (ImageSignaturePolicy_Admit Verify).
Proof.
  intros Hv. apply (keeps_of_attempt (λ q, for_each (reqContainers q)
    (λ c, wrapM "container: image" (Verify (Container_Image c))))). auto with nimbus.
Qed.

Lemma reads_ownership req l : reads_only (ownership_loop req l).
Proof.
  induction l as [|m l IH]; simpl; [apply reads_ret|]. apply reads_bind; [auto with nimbus|].
  intros [v|e|]; [|done|apply reads_panic]. cbn zeta. case_match; [apply reads_fail|done].
Qed.

Lemma keeps_ownership : keeps_request VolumeOwnershipPolicy_Admit.
Proof. apply (keeps_of_attempt (λ q, ownership_loop q (reqVolumes q))). intros. apply reads_ownership. Qed.

Lemma keeps_volume_replicas : keeps_request VolumeReplicasPolicy_Admit.
Proof.
  intros a w a' r w'. unfold VolumeReplicasPolicy_Admit. repeat case_match; by intros [= <- _ <-].
Qed.

Lemma keeps_quota quota : keeps_request (QuotaPolicy_Admit quota).
Proof.
  intros a w a' r w'. unfold QuotaPolicy_Admit. cbn zeta. case_match; [by intros [= <- _ <-]|].
  intros Hq. minv Hq. assert (w_store w0 = w_store w) as <- by (eapply reads_attempt; [|exact Hq0]; apply reads_list).
  destruct a0 as [ex|e|]; [|by injection Hq1 as <- _ <-|done].
  destruct (foldl _ _ ex) as [uc um], (add_requests _ _) as [rc rm].
  by repeat case_match; injection Hq1 as <- _ <-.
Qed.

Lemma keeps_policy : keeps_request PolicyValidator_Admit.
Proof.
  intros a w a' r w' H. unfold PolicyValidator_Admit in H. minv H.
  assert (w_store w0 = w_store w) as <- by (eapply reads_attempt; [|exact H0]; apply reads_list).
  destruct a0 as [[|p l]|e|]; [by injection H1 as <- _ <-| |by injection H1 as <- _ <-|done].
  cbn zeta in H1. destruct (policy_loop _ _ _) as [[[]|e|] cache]; [by injection H1 as <- _ <-..|done].
Qed.

Lemma chain_keeps vs a w a' r w' :
  Forall keeps_request vs → chain_loop vs a w = (Ok (a', r), w') →
  as_req a' = as_req a ∧ w_store w' = w_store w.
Proof.
  revert a w. induction vs as [|v vs IH]; intros a w Hv H; simpl in H; [by injection H as <- _ <-|].
  apply Forall_cons in Hv as [Hv Hvs]. minv H. destruct a0 as [a1 r1].
  destruct (Hv _ _ _ _ _ H0) as [Hr Hs].
  destruct r1 as [[]|e|]; [|by injection H1 as <- _ <-|done].
  destruct (IH _ _ Hvs H1) as [-> ->]. done.
Qed.

(** An admitted request passed every validator, with the same request once
    the mutating one has run. *)
Lemma chain_passes vs a w a' w' :
  Forall keeps_request vs → chain_loop vs a w = (Ok (a', Ok tt), w') →
  ∀ v, v ∈ vs → ∃ a1 w1 a2 w2, v a1 w1 = (Ok (a2, Ok tt), w2) ∧ as_req a1 = as_req a ∧ w_store w1 = w_store w.
Proof.
  revert a w. induction vs as [|v vs IH]; intros a w Hv H; simpl in H; [by intros v ?%elem_of_nil|].
  apply Forall_cons in Hv as [Hv Hvs]. minv H. destruct a0 as [a1 r1].
  destruct (Hv _ _ _ _ _ H0) as [Hr Hs]. destruct r1 as [[]|e|]; [|done|done].
  intros u [->|Hu]%elem_of_cons; [by exists a, w, a1, w0|].
  destruct (IH _ _ Hvs H1 u Hu) as (b1 & x1 & b2 & x2 & Hb & Hreq & Hst).
  exists b1, x1, b2, x2. split_and!; congruence.
Qed.

End validator_lemmas.
#[export] Hint Resolve reads_ret reads_fail reads_panic reads_lift reads_bind reads_attempt reads_wrapM
  reads_statusM reads_range reads_for_each reads_get reads_list : nimbus.

(** *** Quotas *)

Lemma add_requests_sum acc cs :
  in_int64 acc.1 → in_int64 acc.2 →
  add_requests acc cs = (wrap64 (acc.1 + sumZ cpu_of cs), wrap64 (acc.2 + sumZ mem_of cs)).
Proof.
  revert acc. induction cs as [|c cs IH]; intros [cpu mem] Hc Hm; simpl in *.
  { by rewrite !Z.add_0_r, !wrap64_id. }
  unfold add_requests in *. simpl. rewrite IH by apply wrap64_range. simpl.
  rewrite !wrap64_add_l. unfold sumZ; simpl. by rewrite !Z.add_assoc.
Qed.

Lemma existing_sum l acc :
  in_int64 acc.1 → in_int64 acc.2 →
  foldl (λ acc p, add_requests acc (podContainers p)) acc l =
    (wrap64 (acc.1 + sumZ pod_cpu l), wrap64 (acc.2 + sumZ pod_mem l)).
Proof.
  revert acc. induction l as [|p l IH]; intros [cpu mem] Hc Hm; simpl in *.
  { by rewrite !Z.add_0_r, !wrap64_id. }
  rewrite add_requests_sum by done. simpl. rewrite IH by apply wrap64_range. simpl.
  rewrite !wrap64_add_l. unfold sumZ, pod_cpu, pod_mem; simpl. by rewrite !Z.add_assoc.
Qed.

(** *** Policies *)

Section policies.
Context {CE : CelEnv}.

(** Cached programs are what compiling the expression gives. *)
Definition cache_ok (cache : gmap string cel_Program) : Prop :=
  ∀ e prg, cache !! e = Some prg → engine_Compile e = Ok prg.

Lemma pv_compile_spec e cache :
  cache_ok cache → (pv_compile e cache).1 = engine_Compile e ∧ cache_ok (pv_compile e cache).2.
Proof.
  intros Hc. unfold pv_compile. destruct (cache !! e) as [prg|] eqn:E; [by rewrite (Hc _ _ E)|].
  destruct (engine_Compile e) as [prg| |] eqn:Ee; [|done..]. split; [done|].
  intros e' prg'. simpl. rewrite lookup_insert_Some. intros [[<- <-]|[_ H]]; [done|by apply Hc].
Qed.

(** A policy holds of a pod. *)
Definition policy_holds (view : pod_view) (pol : Policy) : Prop :=
  ∃ prg, engine_Compile (polExpression pol) = Ok prg ∧ engine_Evaluate prg view = Ok true.

Lemma policy_loop_spec view l cache :
  cache_ok cache →
  ((policy_loop view l cache).1 = Ok tt ↔ Forall (policy_holds view) l) ∧ cache_ok (policy_loop view l cache).2.
Proof.
  revert cache. induction l as [|pol l IH]; intros cache Hc; simpl; [done|].
  destruct (pv_compile_spec (polExpression pol) cache Hc) as [Hp Hc'].
  destruct (pv_compile (polExpression pol) cache) as [r cache']. simpl in *. subst r.
  rewrite Forall_cons. unfold policy_holds at 1.
  destruct (engine_Compile (polExpression pol)) as [prg|e|]; [|by split; [split; [done|intros [(? & ? & ?) _]; congruence]|]..].
  destruct (engine_Evaluate prg view) as [[]|e|] eqn:Ee; simpl; [|by split; [split; [done|intros [(? & ? & ?) _]; congruence]|]..].
  destruct (IH cache' Hc') as [Hiff Hc'']. split; [|done]. rewrite Hiff. naive_solver.
Qed.
End policies.

(** ** Theorems *)

Section admission_theorems.
Context {S : Type} `{!Store S, !StoreLaws S} {Sh : Shuffle} {CE : CelEnv}.
Context `{AM : !ApiMessages, AL : !ApiLaws, PM : !ProtoMessage Policy, IM : !ProtoMessage ImageRecord}.

(** The request after the replica default. *)
Definition admitted_replicas (n : Z) : Z := if n <=? 0 then 1 else n.

(** The spec with the security defaults of all its containers. *)
Definition secured_spec (s : option PodSpec) : option PodSpec :=
  (λ s, spec_set_containers (secured <$> PodSpec_Containers s) s) <$> s.

Lemma chain_guarantees allowed Verify quota a w a' w' :
  (∀ ref, reads_only (Verify ref)) →
  chain_Admit (default_chain allowed Verify quota) a w = (Ok (a', Ok tt), w') →
  req_Spec (as_req a') = secured_spec (req_Spec (as_req a)) ∧
  reqContainers (as_req a') = (secured <$> reqContainers (as_req a)) ∧
  secure_spec allowed (req_Spec (as_req a')) ∧
  (reqVolumes (as_req a) ≠ [] → req_Replicas (as_req a) ≤ 1) ∧
  (∀ c, c ∈ reqContainers (as_req a) →
     ∃ w1 w2, w_store w1 = w_store w ∧ Verify (Container_Image c) w1 = (Ok tt, w2)) ∧
  w_store w' = w_store w.
Proof.
  intros Hread H. unfold chain_Admit in H. set (a0 := if _ <=? _ then _ else a) in H.
  assert (req_Spec (as_req a0) = req_Spec (as_req a) ∧
    req_Replicas (as_req a0) = admitted_replicas (req_Replicas (as_req a))) as [Hs0 Hr0].
  { unfold a0, admitted_replicas. by destruct (req_Replicas (as_req a) <=? 0). }
  unfold default_chain in H. cbn [chain_loop] in H. minv H. destruct a1 as [a1 r1].
  unfold SecurityContextPolicy_Admit in H0. destruct (security_loop allowed _) as [cs r] eqn:El.
  injection H0 as <- <- <-. destruct r as [[]|e|]; [|done|done].
  set (a1 := MkAdmitState _ _) in H1.
  set (vs := [ImageSignaturePolicy_Admit Verify; QuotaPolicy_Admit quota; PolicyValidator_Admit;
    VolumeReplicasPolicy_Admit; VolumeOwnershipPolicy_Admit]).
  change (chain_loop vs a1 w = (Ok (a', Ok tt), w')) in H1.
  assert (Forall keeps_request vs) as Hvs.
  { repeat apply Forall_cons_2; [by apply keeps_image|apply keeps_quota|apply keeps_policy
      |apply keeps_volume_replicas|apply keeps_ownership|apply Forall_nil_2]. }
  destruct (chain_keeps vs a1 w a' _ w' Hvs H1) as [Hreq Hst].
  pose proof (chain_passes vs a1 w a' w' Hvs H1) as Hpass.
  pose proof (security_loop_secure _ _ _ El) as Hsec. apply security_loop_spec in El as [-> _].
  assert (reqContainers (as_req a1) = (secured <$> reqContainers (as_req a))) as Hcs.
  { unfold a1, reqContainers. simpl. rewrite Hs0. by destruct (req_Spec (as_req a)). }
  unfold reqContainers in Hsec. rewrite Hs0 in Hsec. fold (reqContainers (as_req a)) in Hsec.
  split_and!.
  - rewrite Hreq. unfold a1, reqContainers. simpl. rewrite Hs0. by destruct (req_Spec (as_req a)).
  - by rewrite Hreq, Hcs.
  - rewrite Hreq. unfold secure_spec. fold (reqContainers (as_req a1)). by rewrite Hcs.
  - intros Hv. destruct (Hpass VolumeReplicasPolicy_Admit) as (b1 & w1 & b2 & w2 & Hb & Hbr & _); [unfold vs; set_solver|].
    unfold VolumeReplicasPolicy_Admit in Hb. rewrite Hbr in Hb.
    assert (reqVolumes (as_req a1) = reqVolumes (as_req a)) as Hrv.
    { unfold a1, reqVolumes. simpl. rewrite Hs0. by destruct (req_Spec (as_req a)). }
    rewrite Hrv, decide_False in Hb by done.
    change (req_Replicas (as_req a1)) with (req_Replicas (as_req a0)) in Hb. rewrite Hr0 in Hb.
    destruct (Z.ltb_spec 1 (admitted_replicas (req_Replicas (as_req a)))); [done|].
    unfold admitted_replicas in *. destruct (Z.leb_spec (req_Replicas (as_req a)) 0); lia.
  - intros c Hc. destruct (Hpass (ImageSignaturePolicy_Admit Verify)) as (b1 & w1 & b2 & w2 & Hb & Hbr & Hw1); [unfold vs; set_solver|].
    unfold ImageSignaturePolicy_Admit in Hb. rewrite Hbr, Hcs in Hb. minv Hb. injection Hb1 as -> -> ->.
    unfold attempt in Hb0. destruct (for_each _ _ w1) as [rr ww] eqn:Ef. destruct rr as [[]|e|]; [|done|done].
    injection Hb0 as ->. clear -Hc Ef Hw1 Hread.
    revert w1 Hw1 Ef. induction (reqContainers (as_req a)) as [|x xs IH]; intros w1 Hw1 Ef; [by apply elem_of_nil in Hc|].
    rewrite fmap_cons in Ef. cbn [for_each] in Ef. minv Ef. destruct a0.
    unfold wrapM in Ef0. destruct (Verify _ w1) as [[[]|e|] w3] eqn:Ev; [|done|done]. injection Ef0 as ->.
    apply elem_of_cons in Hc as [->|Hc]; [by exists w1, w0|].
    apply (IH Hc w0); [|done]. by rewrite (Hread _ _ _ _ Ev).
  - done.
Qed.

(** C7: what the chain of the API server lets through.  If it admits a
    request, the request now carries a spec whose containers are the original
    ones with their security defaults filled in, none of them privileged,
    allowed to escalate, or with a capability outside the allowlist; every
    image was accepted by the verifier; a request with volumes asks for one
    replica; and the store was not written. *)
Theorem admission_guarantees allowed Verify quota a w a' w' :
  (∀ ref, reads_only (Verify ref)) →
  chain_Admit (default_chain allowed Verify quota) a w = (Ok (a', Ok tt), w') →
  reqContainers (as_req a') = (secured <$> reqContainers (as_req a)) ∧
  secure_spec allowed (req_Spec (as_req a')) ∧
  (reqVolumes (as_req a) ≠ [] → req_Replicas (as_req a) ≤ 1) ∧
  (∀ c, c ∈ reqContainers (as_req a) →
     ∃ w1 w2, w_store w1 = w_store w ∧ Verify (Container_Image c) w1 = (Ok tt, w2)) ∧
  w_store w' = w_store w.
Proof. intros Hr H. apply (chain_guarantees _ _ _ _ _ _ _ Hr H). Qed.

(** C38: quotas are respected.  If [QuotaPolicy] admits a request, then for each
    of CPU and memory that has a quota, what the pods of the namespace request
    together with all replicas of the new spec stays within it, provided these
    totals do not overflow. *)
Theorem quota_respected quota a w a' w' c :
  holds w c → sane_pods (map_to_list (with_prefix (reg_prefix podsR (req_Namespace (as_req a))) (c_pods c))).*2 →
  let used_cpu := sumZ pod_cpu (map_to_list (with_prefix (reg_prefix podsR (req_Namespace (as_req a))) (c_pods c))).*2 in
  let used_mem := sumZ pod_mem (map_to_list (with_prefix (reg_prefix podsR (req_Namespace (as_req a))) (c_pods c))).*2 in
  let req_cpu := sumZ cpu_of (reqContainers (as_req a)) * req_Replicas (as_req a) in
  let req_mem := sumZ mem_of (reqContainers (as_req a)) * req_Replicas (as_req a) in
  1 ≤ req_Replicas (as_req a) → 0 ≤ req_cpu < 2 ^ 61 → 0 ≤ req_mem < 2 ^ 61 →
  QuotaPolicy_Admit quota a w = (Ok (a', Ok tt), w') →
  (0 < ResourceList_GetCpuMillis quota → used_cpu + req_cpu ≤ ResourceList_GetCpuMillis quota) ∧
  (0 < ResourceList_GetMemoryBytes quota → used_mem + req_mem ≤ ResourceList_GetMemoryBytes quota).
Proof.
  intros Hw Hsane used_cpu used_mem req_cpu req_mem Hr Hc Hm H. unfold QuotaPolicy_Admit in H. cbn zeta in H.
  destruct (_ && _) eqn:Eq in H; [rewrite andb_true_iff, !Z.leb_le in Eq; lia|clear Eq].
  destruct (list_pods w c (req_Namespace (as_req a)) Hw) as (l & w1 & Hl & Hw1 & Hp).
  rewrite (bind_run_Ok _ _ _ _ _ (attempt_run_Ok _ _ _ _ Hl)) in H.
  rewrite existing_sum, add_requests_sum in H by (unfold in_int64; simpl; lia). simpl in H.
  destruct Hsane as (Hnn & Hsc & Hsm). fold used_cpu in Hsc. fold used_mem in Hsm.
  assert (0 ≤ used_cpu ∧ 0 ≤ used_mem) as [? ?].
  { split; apply sumZ_nonneg; rewrite Forall_forall in Hnn; intros x Hx; apply Hnn in Hx; tauto. }
  rewrite (sumZ_perm pod_cpu _ _ Hp), (sumZ_perm pod_mem _ _ Hp) in H. fold used_cpu used_mem in H. rewrite !Z.add_0_l in H.
  rewrite !(wrap64_id used_cpu), !(wrap64_id used_mem) in H by (unfold in_int64; lia).
  rewrite (wrap64_id (sumZ cpu_of _)), (wrap64_id (sumZ mem_of _)) in H by (unfold in_int64; nia).
  fold req_cpu req_mem in H.
  rewrite (wrap64_id req_cpu), (wrap64_id req_mem), !wrap64_id in H by (unfold in_int64; lia).
  destruct (_ && _) eqn:E1 in H; [done|]. destruct (_ && _) eqn:E2 in H; [done|].
  rewrite andb_false_iff, !Z.ltb_ge in E1, E2. lia.
Qed.

(** The verdict of the policies.  Whatever programs are cached, as long as
    each is the program of its expression, a request passes the policies
    exactly when every one of them compiles and evaluates to true on the view
    of the pod; and the cache stays faithful. *)
Theorem policy_verdict view l cache :
  cache_ok cache →
  ((policy_loop view l cache).1 = Ok tt ↔ Forall (policy_holds view) l) ∧ cache_ok (policy_loop view l cache).2.
Proof. apply policy_loop_spec. Qed.

(** A mounted volume belongs to the deployment that mounts it.  If the
    ownership policy admits a named request on a healthy store, every volume
    it mounts that exists is unowned or owned by that name. *)
Theorem volume_ownership a w a' w' c :
  holds w c → req_Name (as_req a) ≠ "" → VolumeOwnershipPolicy_Admit a w = (Ok (a', Ok tt), w') →
  ∀ m v, m ∈ reqVolumes (as_req a) →
    c_volumes c !! reg_key volumesR (req_Namespace (as_req a)) (VolumeMount_VolumeName m) = Some v →
    slookup (volLabels v) OwnerDeploymentLabel = "" ∨
    slookup (volLabels v) OwnerDeploymentLabel = req_Name (as_req a).
Proof.
  intros Hw Hn H m v Hm Hv. unfold VolumeOwnershipPolicy_Admit in H. minv H. injection H1 as <- -> <-.
  unfold attempt in H0. destruct (ownership_loop _ _ w) as [[[]|e|] w1] eqn:E; [|done|done]. clear H0.
  revert w Hw E. induction (reqVolumes (as_req a)) as [|x xs IH]; intros w Hw E; [by apply elem_of_nil in Hm|].
  cbn [ownership_loop] in E. pose proof (get_volume w c (req_Namespace (as_req a)) (VolumeMount_VolumeName x) Hw) as Hg.
  apply elem_of_cons in Hm as [->|Hm].
  - rewrite Hv in Hg. rewrite (bind_run_Ok _ _ _ _ _ (attempt_run_Ok _ _ _ _ Hg)) in E. cbn zeta in E.
    destruct (decide (slookup (volLabels v) OwnerDeploymentLabel = "")) as [|Ho]; [by left|right].
    rewrite (bool_decide_eq_false_2 _ Ho), (bool_decide_eq_false_2 _ Hn) in E. simpl in E.
    by case_bool_decide.
  - destruct (c_volumes c !! reg_key volumesR (req_Namespace (as_req a)) (VolumeMount_VolumeName x)) as [u|];
      simpl in Hg.
    + rewrite (bind_run_Ok _ _ _ _ _ (attempt_run_Ok _ _ _ _ Hg)) in E. cbn zeta in E.
      case_match; [done|]. by apply (IH Hm w).
    + rewrite (bind_run_Ok _ _ _ _ _ (attempt_run_Err _ _ _ _ Hg)) in E. by apply (IH Hm w).
Qed.

(** Pods without a deployment bypass the ownership of volumes.  The
    request that [CreatePod] builds has no name, and then the policy admits
    whatever it mounts, a volume owned by a deployment included; so does any
    failure to read the volume. *)
Theorem unnamed_request_bypasses_ownership a w c :
  holds w c → req_Name (as_req a) = "" →
  ∃ w', VolumeOwnershipPolicy_Admit a w = (Ok (a, Ok tt), w').
Proof.
  intros Hw Hn. unfold VolumeOwnershipPolicy_Admit.
  assert (ownership_loop (as_req a) (reqVolumes (as_req a)) w = (Ok tt, w)) as Hl.
  { induction (reqVolumes (as_req a)) as [|m ms IH]; [done|]. cbn [ownership_loop].
    pose proof (get_volume w c (req_Namespace (as_req a)) (VolumeMount_VolumeName m) Hw) as Hg.
    destruct (c_volumes c !! _) as [u|]; simpl in Hg.
    - rewrite (bind_run_Ok _ _ _ _ _ (attempt_run_Ok _ _ _ _ Hg)). cbn zeta.
      by rewrite (bool_decide_eq_true_2 _ Hn), andb_false_r.
    - by rewrite (bind_run_Ok _ _ _ _ _ (attempt_run_Err _ _ _ _ Hg)). }
  exists w. by mstep (attempt_run_Ok _ _ _ _ Hl).
Qed.

End admission_theorems.

(** ** Witnesses *)

Module DemoAdmission.
Import Codec.Reference.

(** A toy engine: an expression is true, false or ill-formed by its text. *)
Definition toy_cel : CelEnv := {|
  cel_ast := string;
  cel_Program := string;
  cel_env_Compile e := if decide (e = "") then Err (Errorf "empty expression") else Ok e;
  cel_env_Program e := Ok e;
  cel_Eval e v := Ok (CelBool (bool_decide (e = "true")));
|}.
#[local] Existing Instance toy_cel.
#[local] Existing Instance shuffle_id.
#[local] Instance adm_messages : ApiMessages := Build_ApiMessages _ _ _ _.
#[local] Instance adm_laws : ApiLaws := Build_ApiLaws _ _ _ _ _.

Definition adm_spec : PodSpec := MkPodSpec [demo_container 80] "" [] RESTART_POLICY_UNSPECIFIED.
Definition adm_request : admit_state toy_cel :=
  MkAdmitState (MkRequest "default" "web" ∅ (Some adm_spec) 1) ∅.
Definition allow_all : string → M memStore unit := λ _, mret ().

Lemma holds_demo_world : holds demo_world (MkCluster ∅ ∅ ∅ ∅).
Proof. by constructor. Qed.

Lemma admission_guarantees_witness :
  ∃ a' w', chain_Admit (default_chain [] allow_all None) adm_request demo_world = (Ok (a', Ok tt), w') ∧
    secure_spec [] (req_Spec (as_req a')).
Proof.
  assert (∃ a' w', chain_Admit (default_chain [] allow_all None) adm_request demo_world = (Ok (a', Ok tt), w'))
    as (a' & w' & H) by (eexists _, _; vm_compute; reflexivity).
  exists a', w'. split; [exact H|].
  exact (proj1 (proj2 (admission_guarantees [] allow_all None adm_request demo_world a' w' (λ _, reads_ret tt) H))).
Defined.

Lemma quota_respected_witness :
  ∃ a' w', QuotaPolicy_Admit (Some (MkResourceList 1000 0 ∅)) adm_request demo_world = (Ok (a', Ok tt), w') ∧
    0 + 500 ≤ 1000.
Proof.
  assert (∃ a' w', QuotaPolicy_Admit (Some (MkResourceList 1000 0 ∅)) adm_request demo_world = (Ok (a', Ok tt), w'))
    as (a' & w' & H) by (eexists _, _; vm_compute; reflexivity).
  exists a', w'. split; [exact H|].
  refine (proj1 (quota_respected (Some (MkResourceList 1000 0 ∅)) adm_request demo_world a' w' _ holds_demo_world
    _ _ _ _ H) _).
  - split; [constructor|]. split; vm_compute; reflexivity.
  - vm_compute. discriminate.
  - vm_compute. split; congruence.
  - vm_compute. split; congruence.
  - vm_compute. reflexivity.
Defined.

Definition demo_policy (e : string) : Policy := MkPolicy None (Some (MkPolicySpec e "")).

Lemma policy_verdict_witness :
  (policy_loop (PodView "default" ∅ (Some adm_spec)) [demo_policy "true"; demo_policy "true"] ∅).1 = Ok tt ∧
  cache_ok (policy_loop (PodView "default" ∅ (Some adm_spec)) [demo_policy "true"; demo_policy "true"] ∅).2.
Proof.
  assert (cache_ok ∅) as Hc by (intros e prg H; discriminate H).
  destruct (policy_verdict (PodView "default" ∅ (Some adm_spec)) [demo_policy "true"; demo_policy "true"] ∅ Hc)
    as [Hiff Hok].
  split; [|exact Hok]. apply Hiff. repeat constructor; exists "true"; split; reflexivity.
Defined.

Definition owned_volume : Volume :=
  MkVolume (Some (MkObjectMeta "data" "default" "" "" {[OwnerDeploymentLabel := "db"]} 0)) None None.
Definition mounting_request (name : string) : admit_state toy_cel :=
  MkAdmitState (MkRequest "default" name ∅
    (Some (MkPodSpec [] "" [MkVolumeMount "data" "/data" false] RESTART_POLICY_UNSPECIFIED)) 1) ∅.

Lemma volume_ownership_witness :
  ∃ w a' w', VolumeOwnershipPolicy_Admit (mounting_request "db") w = (Ok (a', Ok tt), w') ∧
    (slookup (volLabels owned_volume) OwnerDeploymentLabel = "" ∨
     slookup (volLabels owned_volume) OwnerDeploymentLabel = "db").
Proof.
  set (w := World (MkMemStore {[reg_key volumesR "default" "data" := ser owned_volume]}) 0).
  destruct (put_volume (S := memStore) demo_world (MkCluster ∅ ∅ ∅ ∅) "default" "data" owned_volume holds_demo_world)
    as (w0 & Hp & Hw).
  assert (w0 = w) as -> by (injection Hp as <-; reflexivity).
  assert (∃ a' w', VolumeOwnershipPolicy_Admit (mounting_request "db") w = (Ok (a', Ok tt), w'))
    as (a' & w' & H) by (eexists _, _; vm_compute; reflexivity).
  exists w, a', w'. split; [exact H|].
  refine (volume_ownership (mounting_request "db") w a' w' _ Hw _ H (MkVolumeMount "data" "/data" false)
    owned_volume _ _).
  - discriminate.
  - left.
  - apply lookup_insert_eq.
Defined.

Lemma unnamed_request_bypasses_ownership_witness :
  ∃ w w', VolumeOwnershipPolicy_Admit (mounting_request "") w = (Ok (mounting_request "", Ok tt), w') ∧
    objs volumesR (w_view w) !! reg_key volumesR "default" "data" = Some owned_volume.
Proof.
  destruct (put_volume (S := memStore) demo_world (MkCluster ∅ ∅ ∅ ∅) "default" "data" owned_volume holds_demo_world)
    as (w & _ & Hw).
  destruct (unnamed_request_bypasses_ownership (mounting_request "") w _ Hw) as (w' & H); [reflexivity|].
  exists w, w'. split; [exact H|].
  exact (eq_trans (f_equal (λ m, m !! reg_key volumesR "default" "data") (h_vols _ _ Hw)) (lookup_insert_eq _ _ _)).
Defined.

End DemoAdmission.
