(* ===== verification/Rbac.v ===== *)
(** * Rbac: who may call what

    internal/rbac/rbac.go, internal/apiserver/rbac.go and
    internal/apiserver/auth.go.  The peer of a connection is what the TLS layer
    of gRPC reports; parsing a SPIFFE URI and matching a trust domain are
    third-party code, the class [Spiffe]. *)

From stdpp Require Import gmap strings list.
From S2P Require Import Prelude.

(** ** rbac.go *)

Definition Wildcard : string := "*".

Record Rule := MkRule { rule_Resources : list string; rule_Verbs : list string }.

(** [slices.Contains] *)
Definition contains (l : list string) (x : string) : bool := bool_decide (x ∈ l).

Definition Rule_allows (r : Rule) (resource verb : string) : bool :=
  (contains (rule_Resources r) Wildcard || contains (rule_Resources r) resource) &&
  (contains (rule_Verbs r) Wildcard || contains (rule_Verbs r) verb).

Record Role := MkRole { role_Name : string; role_Rules : list Rule }.

Fixpoint rules_allow (rules : list Rule) (resource verb : string) : bool :=
  match rules with
  | [] => false
  | rule :: rules => if Rule_allows rule resource verb then true else rules_allow rules resource verb
  end.
Definition Role_allows (r : Role) (resource verb : string) : bool := rules_allow (role_Rules r) resource verb.

Record Binding := MkBinding { bind_PathPrefix : string; bind_Role : Role }.
Record Authorizer := NewAuthorizer { authz_bindings : list Binding }.

Fixpoint bindings_allow (bs : list Binding) (idPath resource verb : string) : bool :=
  match bs with
  | [] => false
  | b :: bs =>
      if HasPrefix idPath (bind_PathPrefix b) && Role_allows (bind_Role b) resource verb then true
      else bindings_allow bs idPath resource verb
  end.
Definition Allow (a : Authorizer) (idPath resource verb : string) : bool :=
  bindings_allow (authz_bindings a) idPath resource verb.

(** ** apiserver/rbac.go *)

(** The resource and verb of every method, by full method name. *)
Definition methodResourceVerb : list (string * (string * string)) :=
  [("/nimbuscore.v1.PodService/CreatePod", ("pods", "create"));
   ("/nimbuscore.v1.PodService/GetPod", ("pods", "get"));
   ("/nimbuscore.v1.PodService/ListPods", ("pods", "list"));
   ("/nimbuscore.v1.PodService/DeletePod", ("pods", "delete"));
   ("/nimbuscore.v1.PodService/UpdatePodStatus", ("pods", "update"));
   ("/nimbuscore.v1.NodeService/CreateNode", ("nodes", "create"));
   ("/nimbuscore.v1.NodeService/GetNode", ("nodes", "get"));
   ("/nimbuscore.v1.NodeService/ListNodes", ("nodes", "list"));
   ("/nimbuscore.v1.NodeService/DeleteNode", ("nodes", "delete"));
   ("/nimbuscore.v1.NodeService/Heartbeat", ("nodes", "update"));
   ("/nimbuscore.v1.DeploymentService/CreateDeployment", ("deployments", "create"));
   ("/nimbuscore.v1.DeploymentService/GetDeployment", ("deployments", "get"));
   ("/nimbuscore.v1.DeploymentService/ListDeployments", ("deployments", "list"));
   ("/nimbuscore.v1.DeploymentService/DeleteDeployment", ("deployments", "delete"));
   ("/nimbuscore.v1.NamespaceService/CreateNamespace", ("namespaces", "create"));
   ("/nimbuscore.v1.NamespaceService/GetNamespace", ("namespaces", "get"));
   ("/nimbuscore.v1.NamespaceService/ListNamespaces", ("namespaces", "list"));
   ("/nimbuscore.v1.NamespaceService/DeleteNamespace", ("namespaces", "delete"));
   ("/nimbuscore.v1.VolumeService/CreateVolume", ("volumes", "create"));
   ("/nimbuscore.v1.VolumeService/GetVolume", ("volumes", "get"));
   ("/nimbuscore.v1.VolumeService/ListVolumes", ("volumes", "list"));
   ("/nimbuscore.v1.VolumeService/DeleteVolume", ("volumes", "delete"));
   ("/nimbuscore.v1.NetworkPolicyService/CreateNetworkPolicy", ("networkpolicies", "create"));
   ("/nimbuscore.v1.NetworkPolicyService/GetNetworkPolicy", ("networkpolicies", "get"));
   ("/nimbuscore.v1.NetworkPolicyService/ListNetworkPolicies", ("networkpolicies", "list"));
   ("/nimbuscore.v1.NetworkPolicyService/DeleteNetworkPolicy", ("networkpolicies", "delete"));
   ("/nimbuscore.v1.ServiceService/CreateService", ("services", "create"));
   ("/nimbuscore.v1.ServiceService/GetService", ("services", "get"));
   ("/nimbuscore.v1.ServiceService/ListServices", ("services", "list"));
   ("/nimbuscore.v1.ServiceService/DeleteService", ("services", "delete"));
   ("/nimbuscore.v1.PolicyService/CreatePolicy", ("policies", "create"));
   ("/nimbuscore.v1.PolicyService/GetPolicy", ("policies", "get"));
   ("/nimbuscore.v1.PolicyService/ListPolicies", ("policies", "list"));
   ("/nimbuscore.v1.PolicyService/DeletePolicy", ("policies", "delete"));
   ("/nimbuscore.v1.SecretService/CreateSecret", ("secrets", "create"));
   ("/nimbuscore.v1.SecretService/GetSecret", ("secrets", "get"));
   ("/nimbuscore.v1.SecretService/ListSecrets", ("secrets", "list"));
   ("/nimbuscore.v1.SecretService/DeleteSecret", ("secrets", "delete"));
   ("/nimbuscore.v1.ImageRegistryService/PushImage", ("images", "create"));
   ("/nimbuscore.v1.ImageRegistryService/GetImage", ("images", "get"));
   ("/nimbuscore.v1.ImageRegistryService/ListImages", ("images", "list"));
   ("/nimbuscore.v1.ImageRegistryService/DeleteImage", ("images", "delete"));
   ("/nimbuscore.v1.BackupService/CreateBackup", ("backup", "create"));
   ("/nimbuscore.v1.BackupService/RestoreBackup", ("backup", "restore"));
   ("/nimbuscore.v1.FederationService/RegisterCluster", ("federation", "create"));
   ("/nimbuscore.v1.FederationService/UnregisterCluster", ("federation", "delete"));
   ("/nimbuscore.v1.FederationService/ListClusters", ("federation", "list"));
   ("/nimbuscore.v1.FederationService/ListFederatedPods", ("federation", "list"));
   ("/nimbuscore.v1.AdminService/JoinRaft", ("admin", "join"));
   ("/nimbuscore.v1.FinOpsService/GetCostReport", ("finops", "get"))].

(** A read of the Go map. *)
Definition method_lookup (m : string) : option (string * string) :=
  (list_to_map methodResourceVerb : gmap string (string * string)) !! m.

Definition DefaultRBACBindings : list Binding :=
  let nodeRole := MkRole "node"
    [MkRule ["nodes"] ["create"; "update"];
     MkRule ["pods"] ["list"; "update"];
     MkRule ["services"] ["list"]] in
  let clientRole := MkRole "client"
    [MkRule ["pods"; "deployments"; "volumes"; "networkpolicies"; "services"; "policies"; "secrets"; "images";
             "backup"; "federation"; "finops"; "namespaces"] [Wildcard];
     MkRule ["nodes"] ["get"; "list"]] in
  let controlPlaneRole := MkRole "control-plane" [MkRule [Wildcard] [Wildcard]] in
  [MkBinding "/node/" nodeRole; MkBinding "/client/" clientRole; MkBinding "/control-plane/" controlPlaneRole].

(** ** auth.go *)

Record ID := MkID { id_TrustDomain : string; id_Path : string }.

Record certificate := MkCertificate { cert_URIs : list string }.

Inductive AuthInfo :=
  | TLSInfo (VerifiedChains : list (list certificate))
  | OtherAuthInfo.

(** The peer information of a call context, if it has any. *)
Definition call_context := option AuthInfo.

Class Spiffe := { spiffeid_FromURI : string → result ID }.

Definition unauthenticatedMethods : list string := ["/nimbuscore.v1.IdentityService/RequestSVID"].

Section auth.
Context {SP : Spiffe}.

Definition PeerSPIFFEID (ctx : call_context) : result ID :=
  match ctx with
  | None => Err (Errorf "no peer information on context")
  | Some OtherAuthInfo => Err (Errorf "connection is not TLS")
  | Some (TLSInfo ((leaf :: _) :: _)) =>
      match cert_URIs leaf with
      | [uri] => spiffeid_FromURI uri
      | _ => Err (Errorf "client certificate must carry exactly one URI SAN")
      end
  | Some (TLSInfo _) => Err (Errorf "no client certificate presented")
  end.

(** [AuthInterceptor]: either an error, or the handler is run. *)
Definition AuthInterceptor {S A} (expectTrustDomain : ID → result unit) (authz : Authorizer)
    (ctx : call_context) (method : string) (handler : M S A) : M S A :=
  if bool_decide (method ∈ unauthenticatedMethods) then handler
  else
    match PeerSPIFFEID ctx with
    | Panic => panic
    | Err _ => fail (Status Unauthenticated "peer identity")
    | Ok id =>
        match expectTrustDomain id with
        | Panic => panic
        | Err _ => fail (Status PermissionDenied "identity rejected")
        | Ok _ =>
            match method_lookup method with
            | None => fail (Status PermissionDenied "method has no RBAC mapping - denied by default")
            | Some (resource, verb) =>
                if negb (Allow authz (id_Path id) resource verb) then
                  fail (Status PermissionDenied "identity is not authorized")
                else handler
            end
        end
    end.
End auth.

(** ** Lemmas *)

Lemma rules_allow_spec rules resource verb :
  rules_allow rules resource verb = true ↔ ∃ r, r ∈ rules ∧ Rule_allows r resource verb = true.
Proof.
  induction rules as [|r rules IH]; simpl; [set_solver|].
  setoid_rewrite elem_of_cons. destruct (Rule_allows r resource verb) eqn:E; [naive_solver|].
  rewrite IH. split; [naive_solver|]. intros (q & [->|Hq] & H); [congruence|eauto].
Qed.

Lemma bindings_allow_spec bs path resource verb :
  bindings_allow bs path resource verb = true ↔
  ∃ b, b ∈ bs ∧ HasPrefix path (bind_PathPrefix b) = true ∧ Role_allows (bind_Role b) resource verb = true.
Proof.
  induction bs as [|b bs IH]; simpl; [set_solver|]. setoid_rewrite elem_of_cons.
  destruct (_ && _) eqn:E; [apply andb_true_iff in E; naive_solver|].
  rewrite IH. split; [naive_solver|]. intros (c & [->|Hc] & Hp & Hr); [|eauto].
  by rewrite Hp, Hr in E.
Qed.

Definition default_authorizer : Authorizer := NewAuthorizer DefaultRBACBindings.

Definition node_rules : list Rule :=
  [MkRule ["nodes"] ["create"; "update"]; MkRule ["pods"] ["list"; "update"]; MkRule ["services"] ["list"]].
Definition client_rules : list Rule :=
  [MkRule ["pods"; "deployments"; "volumes"; "networkpolicies"; "services"; "policies"; "secrets";
     "images"; "backup"; "federation"; "finops"; "namespaces"] [Wildcard]; MkRule ["nodes"] ["get"; "list"]].

(** Only the binding of its own kind applies to an identity path. *)
Lemma default_allow_node name r v :
  Allow default_authorizer ("/node/" +:+ name) r v =
  rules_allow node_rules r v.
Proof.
  unfold Allow, default_authorizer. cbn [authz_bindings DefaultRBACBindings bindings_allow bind_PathPrefix bind_Role].
  rewrite HasPrefix_app. change (HasPrefix ("/node/" +:+ name) "/client/") with false.
  change (HasPrefix ("/node/" +:+ name) "/control-plane/") with false. unfold Role_allows. simpl.
  by repeat case_match.
Qed.

Lemma default_allow_client name r v :
  Allow default_authorizer ("/client/" +:+ name) r v =
  rules_allow client_rules r v.
Proof.
  unfold Allow, default_authorizer. cbn [authz_bindings DefaultRBACBindings bindings_allow bind_PathPrefix bind_Role].
  rewrite HasPrefix_app. change (HasPrefix ("/client/" +:+ name) "/node/") with false.
  change (HasPrefix ("/client/" +:+ name) "/control-plane/") with false. unfold Role_allows. simpl.
  by repeat case_match.
Qed.

Lemma default_allow_control_plane name r v : Allow default_authorizer ("/control-plane/" +:+ name) r v = true.
Proof.
  apply bindings_allow_spec. exists (MkBinding "/control-plane/" (MkRole "control-plane" [MkRule [Wildcard] [Wildcard]])).
  split; [do 2 right; left|]. split; [apply HasPrefix_app|]. unfold Role_allows. apply rules_allow_spec.
  eexists. by split; [left|].
Qed.

Definition node_methods : list string :=
  ["/nimbuscore.v1.NodeService/CreateNode"; "/nimbuscore.v1.NodeService/Heartbeat";
   "/nimbuscore.v1.PodService/ListPods"; "/nimbuscore.v1.PodService/UpdatePodStatus";
   "/nimbuscore.v1.ServiceService/ListServices"].

Definition client_denied_methods : list string :=
  ["/nimbuscore.v1.NodeService/CreateNode"; "/nimbuscore.v1.NodeService/DeleteNode";
   "/nimbuscore.v1.NodeService/Heartbeat"; "/nimbuscore.v1.AdminService/JoinRaft"].

(** A decidable property of the table holds of every lookup. *)
Lemma method_table_ind (P : string → string → string → bool) m r v :
  forallb (λ e, P e.1 e.2.1 e.2.2) methodResourceVerb = true → method_lookup m = Some (r, v) → P m r v = true.
Proof.
  intros Hall Hm. rewrite forallb_elem_of in Hall. unfold method_lookup in Hm. apply elem_of_list_to_map_2 in Hm.
  exact (Hall (m, (r, v)) Hm).
Qed.

(** ** Theorems *)

(** Least privilege of the default bindings.  Among the methods that have
    a mapping, an identity under /node/ may call exactly the five that an
    agent needs; one under /client/ may call all but creating and deleting
    nodes, heartbeats and joining the Raft cluster; one under /control-plane/
    may call all of them. *)
Theorem default_bindings_least_privilege m r v name :
  method_lookup m = Some (r, v) →
  (Allow default_authorizer ("/node/" +:+ name) r v = true ↔ m ∈ node_methods) ∧
  (Allow default_authorizer ("/client/" +:+ name) r v = true ↔ m ∉ client_denied_methods) ∧
  Allow default_authorizer ("/control-plane/" +:+ name) r v = true.
Proof.
  intros Hm. rewrite default_allow_node, default_allow_client. split; [|split].
  - rewrite <-(bool_decide_eq_true (m ∈ node_methods)). apply eq_iff_eq_true, eqb_true_iff.
    refine (method_table_ind (λ m r v, eqb (rules_allow node_rules r v) (bool_decide (m ∈ node_methods))) m r v _ Hm).
    vm_compute. reflexivity.
  - rewrite <-(bool_decide_eq_true (m ∉ client_denied_methods)). apply eq_iff_eq_true, eqb_true_iff.
    refine (method_table_ind (λ m r v, eqb (rules_allow client_rules r v)
      (bool_decide (m ∉ client_denied_methods))) m r v _ Hm).
    vm_compute. reflexivity.
  - apply default_allow_control_plane.
Qed.

(** C9: the interceptor fails closed.  Provided parsing and matching an
    identity do not panic, a call either is refused with an error before its
    handler runs, leaving the state as it was, or is exactly a run of its
    handler; and the latter only if the method needs no authentication, or the
    peer has a verified certificate with an identity of the trust domain, the
    method has a mapping, and a binding of the identity allows it. *)
Theorem auth_fails_closed {SP : Spiffe} {S A} expect authz ctx method (handler : M S A) (w : world S) :
  (∀ u, spiffeid_FromURI u ≠ Panic) → (∀ id, expect id ≠ Panic) →
  (∃ c s, AuthInterceptor expect authz ctx method handler w = (Err (Status c s), w)) ∨
  (AuthInterceptor expect authz ctx method handler w = handler w ∧
   (method ∈ unauthenticatedMethods ∨
    ∃ id r v b, PeerSPIFFEID ctx = Ok id ∧ expect id = Ok tt ∧ method_lookup method = Some (r, v) ∧
      b ∈ authz_bindings authz ∧ HasPrefix (id_Path id) (bind_PathPrefix b) = true ∧
      Role_allows (bind_Role b) r v = true)).
Proof.
  intros Hu He. unfold AuthInterceptor. case_bool_decide as Hm; [right; by split; [|left]|].
  assert (PeerSPIFFEID ctx ≠ Panic) as Hp.
  { unfold PeerSPIFFEID. repeat case_match; done || apply Hu. }
  destruct (PeerSPIFFEID ctx) as [id|e|]; [|left; by do 2 eexists|done].
  specialize (He id). destruct (expect id) as [[]|e|] eqn:Ee; [|left; by do 2 eexists|done].
  destruct (method_lookup method) as [[r v]|] eqn:El; [|left; by do 2 eexists].
  destruct (Allow authz (id_Path id) r v) eqn:Ea; [|left; by do 2 eexists].
  right. split; [done|]. right. apply bindings_allow_spec in Ea as (b & Hb & Hpre & Hr).
  exists id, r, v, b. split_and!; (reflexivity || assumption).
Qed.

(** ** Witnesses *)

Lemma default_bindings_least_privilege_witness :
  method_lookup "/nimbuscore.v1.PodService/DeletePod" = Some ("pods", "delete") ∧
  Allow default_authorizer "/node/n1" "pods" "delete" ≠ true.
Proof.
  split; [vm_compute; reflexivity|].
  destruct (default_bindings_least_privilege "/nimbuscore.v1.PodService/DeletePod" "pods" "delete" "n1") as [H _];
    [vm_compute; reflexivity|].
  intros Ha. apply H in Ha. apply (bool_decide_eq_true_2 _) in Ha. vm_compute in Ha. discriminate Ha.
Defined.

Definition toy_spiffe : Spiffe := {| spiffeid_FromURI u := Ok (MkID "cluster.local" u) |}.

Lemma auth_fails_closed_witness :
  ∃ c s, AuthInterceptor (SP := toy_spiffe) (λ _, Ok tt) default_authorizer
    (Some (TLSInfo [[MkCertificate ["/node/n1"]]])) "/nimbuscore.v1.PodService/DeletePod"
    (mret () : M nat unit) (World 0 0) = (Err (Status c s), World 0 0).
Proof.
  destruct (auth_fails_closed (SP := toy_spiffe) (λ _, Ok tt) default_authorizer
    (Some (TLSInfo [[MkCertificate ["/node/n1"]]])) "/nimbuscore.v1.PodService/DeletePod"
    (mret () : M nat unit) (World 0 0)) as [H|[H _]]; [discriminate|discriminate|exact H|].
  exfalso. vm_compute in H. discriminate H.
Defined.
