(* ===== verification/Services.v ===== *)
(** * Services: the gRPC services of the API server

    internal/apiserver/*_service.go.  A handler takes the fields of its
    request and returns the response or a gRPC status error.  The services
    that admit pods also thread the cache of compiled policies.  A nil message
    in a request is [None]; every create handler rejects it, since its name
    reads as empty. *)

From stdpp Require Import gmap strings list.
From Stdlib Require Import ZArith Lia.
From S2P Require Import Prelude Api Codec Store Registry Cluster Scheduler Scheduling Deployment Admission Rbac.

Local Open Scope Z_scope.

(** The codecs of the other stored messages. *)
Class MoreMessages := {
  msg_Service :: ProtoMessage Service;
  msg_Policy :: ProtoMessage Policy;
  msg_Secret :: ProtoMessage Secret;
  msg_Namespace :: ProtoMessage Namespace;
  msg_NetworkPolicy :: ProtoMessage NetworkPolicy;
  msg_ImageRecord :: ProtoMessage ImageRecord;
}.

Class MoreLaws `{!MoreMessages} := {
  laws_Service :: ProtoLaws Service;
  laws_Policy :: ProtoLaws Policy;
  laws_Secret :: ProtoLaws Secret;
  laws_Namespace :: ProtoLaws Namespace;
  laws_NetworkPolicy :: ProtoLaws NetworkPolicy;
  laws_ImageRecord :: ProtoLaws ImageRecord;
}.

Section services.
Context {S : Type} `{!Store S} {Sh : Shuffle} {CE : CelEnv} {SP : Spiffe}.
Context `{AM : !ApiMessages, MM : !MoreMessages}.

Definition cache := gmap string cel_Program.

(** ** PodService *)

Definition CreatePod (chain : list (Validator S CE)) (pod : option Pod) (c : cache) : M S (cache * result Pod) :=
  let meta := Pod_GetMetadata pod in
  if decide (ObjectMeta_GetName meta = "") then
    mret (c, Err (Status InvalidArgument "pod.metadata.name is required"))
  else
    let req := MkRequest (ObjectMeta_GetNamespace meta) "" (ObjectMeta_GetLabels meta) (Pod_GetSpec pod) 1 in
    '(a, r) ← chain_Admit chain (MkAdmitState req c);
    match r with
    | Panic => panic
    | Err _ => mret (as_compiled a, Err (Status FailedPrecondition "admission"))
    | Ok _ =>
        (** the validators changed the spec through the pointer they share *)
        let pod := pod_set_spec (req_Spec (as_req a)) (default Pod_zero pod) in
        r ← attempt (statusM Internal "create pod"
              (reg_Put podsR (ObjectMeta_GetNamespace meta) (ObjectMeta_GetName meta) pod));
        mret (as_compiled a, _ ← r; Ok pod)
    end.

Definition GetPod (namespace name : string) : M S Pod :=
  statusM NotFound "pod" (reg_Get podsR namespace name).

Definition ListPods (namespace : string) : M S (list Pod) :=
  statusM Internal "list pods" (reg_List podsR namespace).

Definition DeletePod (namespace name : string) : M S unit :=
  statusM Internal "delete pod" (reg_Delete podsR namespace name).

(** The check on the caller: a node may not report on a pod that is assigned
    to another node. *)
Definition wrong_node (ctx : call_context) (pod : Pod) : bool :=
  match PeerSPIFFEID ctx with
  | Ok id =>
      HasPrefix (id_Path id) "/node/" && negb (bool_decide (podNodeName pod = ""))
      && negb (bool_decide (podNodeName pod = TrimPrefix (id_Path id) "/node/"))
  | _ => false
  end.

Definition UpdatePodStatus (ctx : call_context) (namespace name : string) (status : option PodStatus) : M S Pod :=
  pod ← statusM NotFound "pod" (reg_Get podsR namespace name);
  if wrong_node ctx pod then
    fail (Status PermissionDenied "node may not update status for a pod assigned to another node")
  else
    let pod := pod_set_status status pod in
    _ ← statusM Internal "update pod status" (reg_Put podsR namespace name pod);
    mret pod.

(** ** NodeService *)

Definition CreateNode (node : option Node) : M S Node :=
  let name := ObjectMeta_GetName (Node_GetMetadata node) in
  if decide (name = "") then fail (Status InvalidArgument "node.metadata.name is required")
  else
    let node := default Node_zero node in
    _ ← statusM Internal "create node" (reg_Put nodesR "" name node);
    mret node.

Definition GetNode (name : string) : M S Node := statusM NotFound "node" (reg_Get nodesR "" name).
Definition ListNodes : M S (list Node) := statusM Internal "list nodes" (reg_List nodesR "").
Definition DeleteNode (name : string) : M S unit := statusM Internal "delete node" (reg_Delete nodesR "" name).

(** The node after a heartbeat at the Unix time [now]. *)
Definition heartbeat (now : Z) (capacity allocatable : option ResourceList) (node : Node) : Node :=
  let st := default NodeStatus_zero (Node_Status node) in
  node_set_status (Some (MkNodeStatus
    (match capacity with Some _ => capacity | None => NodeStatus_Capacity st end)
    (match allocatable with Some _ => allocatable | None => NodeStatus_Allocatable st end)
    true (NodeStatus_Conditions st) now (NodeStatus_InternalIp st))) node.

Definition Heartbeat (now : Z) (name : string) (capacity allocatable : option ResourceList) : M S bool :=
  node ← statusM NotFound "node" (reg_Get nodesR "" name);
  _ ← statusM Internal "update node" (reg_Put nodesR "" name (heartbeat now capacity allocatable node));
  mret true.

(** ** DeploymentService *)

Definition CreateDeployment (chain : list (Validator S CE)) (d : option Deployment) (c : cache)
    : M S (cache * result Deployment) :=
  let meta := Deployment_GetMetadata d in
  if decide (ObjectMeta_GetName meta = "") then
    mret (c, Err (Status InvalidArgument "deployment.metadata.name is required"))
  else
    let spec := Deployment_GetSpec d in
    let req := MkRequest (ObjectMeta_GetNamespace meta) (ObjectMeta_GetName meta) (ObjectMeta_GetLabels meta)
                 (DeploymentSpec_GetTemplate spec) (DeploymentSpec_GetReplicas spec) in
    '(a, r) ← chain_Admit chain (MkAdmitState req c);
    match r with
    | Panic => panic
    | Err _ => mret (as_compiled a, Err (Status FailedPrecondition "admission"))
    | Ok _ =>
        (** only the template is shared with the request, not the replicas *)
        let d := deployment_set_spec (depspec_set_template (req_Spec (as_req a)) <$> spec)
                   (default Deployment_zero d) in
        r ← attempt (statusM Internal "create deployment"
              (reg_Put deploymentsR (ObjectMeta_GetNamespace meta) (ObjectMeta_GetName meta) d));
        mret (as_compiled a, _ ← r; Ok d)
    end.

Definition GetDeployment (namespace name : string) : M S Deployment :=
  statusM NotFound "deployment" (reg_Get deploymentsR namespace name).
Definition ListDeployments (namespace : string) : M S (list Deployment) :=
  statusM Internal "list deployments" (reg_List deploymentsR namespace).

(** Deleting a deployment deletes the pods that carry its label. *)
Definition DeleteDeployment (namespace name : string) : M S unit :=
  _ ← statusM Internal "delete deployment" (reg_Delete deploymentsR namespace name);
  pods ← statusM Internal "list pods for cascade delete" (reg_List podsR namespace);
  for_each pods (λ p,
    if decide (slookup (podLabels p) OwnerDeploymentLabel = name) then
      statusM Internal "delete owned pod" (reg_Delete podsR (podNamespace p) (podName p))
    else mret ()).

(** ** NamespaceService *)

Definition CreateNamespace (ns : option Namespace) : M S Namespace :=
  let name := ObjectMeta_GetName (Namespace_GetMetadata ns) in
  if decide (name = "") then fail (Status InvalidArgument "namespace.metadata.name is required")
  else
    existing ← attempt (reg_Get namespacesR "" name);
    match existing with
    | Ok _ => fail (Status AlreadyExists "namespace already exists")
    | _ =>
        let ns := default Namespace_zero ns in
        _ ← statusM Internal "create namespace" (reg_Put namespacesR "" name ns);
        mret ns
    end.
Definition GetNamespace (name : string) : M S Namespace := statusM NotFound "namespace" (reg_Get namespacesR "" name).
Definition ListNamespaces : M S (list Namespace) := statusM Internal "list namespaces" (reg_List namespacesR "").
Definition DeleteNamespace (name : string) : M S unit :=
  statusM Internal "delete namespace" (reg_Delete namespacesR "" name).

(** ** VolumeService; the CSI driver is an argument *)

Definition CreateVolume (csi_CreateVolume : string → Z → M S Z) (vol : option Volume) : M S Volume :=
  let meta := Volume_GetMetadata vol in
  if decide (ObjectMeta_GetName meta = "") then fail (Status InvalidArgument "volume.metadata.name is required")
  else
    capacity ← statusM Internal "provision volume"
      (csi_CreateVolume (ObjectMeta_GetNamespace meta +:+ "/" +:+ ObjectMeta_GetName meta)
        (VolumeSpec_GetRequestedBytes (Volume_GetSpec vol)));
    let vol := volume_set_status (Some (MkVolumeStatus VOLUME_PHASE_BOUND capacity "" "")) (default Volume_zero vol) in
    _ ← statusM Internal "create volume"
          (reg_Put volumesR (ObjectMeta_GetNamespace meta) (ObjectMeta_GetName meta) vol);
    mret vol.
Definition GetVolume (namespace name : string) : M S Volume :=
  statusM NotFound "volume" (reg_Get volumesR namespace name).
Definition ListVolumes (namespace : string) : M S (list Volume) :=
  statusM Internal "list volumes" (reg_List volumesR namespace).
Definition DeleteVolume (csi_DeleteVolume : string → M S unit) (namespace name : string) : M S unit :=
  if decide (namespace = "" ∨ name = "") then fail (Status InvalidArgument "namespace and name are required")
  else
    _ ← statusM Internal "deprovision volume" (csi_DeleteVolume (namespace +:+ "/" +:+ name));
    statusM Internal "delete volume" (reg_Delete volumesR namespace name).

(** ** PolicyService *)

Definition CreatePolicy (pol : option Policy) : M S Policy :=
  let name := ObjectMeta_GetName (Policy_GetMetadata pol) in
  let expression := PolicySpec_GetExpression (Policy_GetSpec pol) in
  if decide (name = "") then fail (Status InvalidArgument "policy.metadata.name is required")
  else if decide (expression = "") then fail (Status InvalidArgument "policy.spec.expression is required")
  else
    match engine_Compile expression with
    | Panic => panic
    | Err _ => fail (Status InvalidArgument "invalid CEL expression")
    | Ok _ =>
        let pol := default Policy_zero pol in
        _ ← statusM Internal "create policy" (reg_Put policiesR "" name pol);
        mret pol
    end.
Definition GetPolicy (name : string) : M S Policy := statusM NotFound "policy" (reg_Get policiesR "" name).
Definition ListPolicies : M S (list Policy) := statusM Internal "list policies" (reg_List policiesR "").
Definition DeletePolicy (name : string) : M S unit := statusM Internal "delete policy" (reg_Delete policiesR "" name).

(** ** SecretService *)

Definition CreateSecret (secret : option Secret) : M S Secret :=
  let meta := Secret_GetMetadata secret in
  if decide (ObjectMeta_GetName meta = "") then fail (Status InvalidArgument "secret.metadata.name is required")
  else
    let secret := default Secret_zero secret in
    _ ← statusM Internal "create secret"
          (reg_Put secretsR (ObjectMeta_GetNamespace meta) (ObjectMeta_GetName meta) secret);
    mret secret.
Definition GetSecret (namespace name : string) : M S Secret :=
  statusM NotFound "secret" (reg_Get secretsR namespace name).
Definition ListSecrets (namespace : string) : M S (list Secret) :=
  statusM Internal "list secrets" (reg_List secretsR namespace).
Definition DeleteSecret (namespace name : string) : M S unit :=
  statusM Internal "delete secret" (reg_Delete secretsR namespace name).

(** ** NetworkPolicyService *)

Definition CreateNetworkPolicy (np : option NetworkPolicy) : M S NetworkPolicy :=
  let meta := NetworkPolicy_GetMetadata np in
  if decide (ObjectMeta_GetName meta = "") then
    fail (Status InvalidArgument "network_policy.metadata.name is required")
  else
    let np := default NetworkPolicy_zero np in
    _ ← statusM Internal "create network policy"
          (reg_Put networkpoliciesR (ObjectMeta_GetNamespace meta) (ObjectMeta_GetName meta) np);
    mret np.
Definition GetNetworkPolicy (namespace name : string) : M S NetworkPolicy :=
  statusM NotFound "network policy" (reg_Get networkpoliciesR namespace name).
Definition ListNetworkPolicies (namespace : string) : M S (list NetworkPolicy) :=
  statusM Internal "list network policies" (reg_List networkpoliciesR namespace).
Definition DeleteNetworkPolicy (namespace name : string) : M S unit :=
  statusM Internal "delete network policy" (reg_Delete networkpoliciesR namespace name).

(** ** ImageRegistryService; verifying a signature is an argument *)

Definition PushImage (Verify : string → bytes → result unit) (now : Z) (reference : string) (signature : bytes)
    : M S ImageRecord :=
  if decide (reference = "") then fail (Status InvalidArgument "reference is required")
  else
    match Verify reference signature with
    | Panic => panic
    | Err _ => fail (Status PermissionDenied "signature verification failed")
    | Ok _ =>
        let rec := MkImageRecord reference signature now in
        _ ← statusM Internal "push image" (reg_Put imagesR "" reference rec);
        mret rec
    end.
Definition GetImage (reference : string) : M S ImageRecord :=
  statusM NotFound "image" (reg_Get imagesR "" reference).
Definition ListImages : M S (list ImageRecord) := statusM Internal "list images" (reg_List imagesR "").
Definition DeleteImage (reference : string) : M S unit :=
  statusM Internal "delete image" (reg_Delete imagesR "" reference).

(** ** BackupService *)

Definition CreateBackup : M S (list BackupEntry) :=
  all ← statusM Internal "list store contents" (s_list "");
  entries ← range (map_to_list all);
  mret ((λ kv, MkBackupEntry kv.1 kv.2) <$> entries).

Definition RestoreBackup (entries : list BackupEntry) : M S Z :=
  _ ← for_each entries (λ e, statusM Internal "restore key" (s_put (BackupEntry_Key e) (BackupEntry_Value e)));
  mret (wrap32 (Z.of_nat (length entries))).

(** ** AdminService; adding a Raft voter is an argument *)

Definition JoinRaft (AddVoter : string → string → M S unit) (ctx : call_context) (nodeID raftAddr : string)
    : M S unit :=
  match PeerSPIFFEID ctx with
  | Panic => panic
  | Err _ => fail (Status Unauthenticated "peer identity")
  | Ok id =>
      if negb (HasPrefix (id_Path id) "/control-plane/") then
        fail (Status PermissionDenied "JoinRaft requires a control-plane identity")
      else if decide (nodeID = "" ∨ raftAddr = "") then
        fail (Status InvalidArgument "node_id and raft_addr are required")
      else statusM FailedPrecondition "add voter" (AddVoter nodeID raftAddr)
  end.

(** ** ServiceService *)

Definition nodePortRangeMin : Z := 30000.
Definition nodePortRangeMax : Z := 32767.

Definition svcNodePort (s : Service) : Z := ServiceSpec_GetNodePort (Service_Spec s).
Definition svcName (s : Service) : string := ObjectMeta_GetName (Service_Metadata s).
Definition svcNamespace (s : Service) : string := ObjectMeta_GetNamespace (Service_Metadata s).

(** The loop of [allocateNodePort], [for port := min; port <= max; port++],
    with the number of ports left to try. *)
Fixpoint first_free (used : gset Z) (port : Z) (n : nat) : option Z :=
  match n with
  | O => None
  | Datatypes.S n => if decide (port ∈ used) then first_free used (port + 1) n else Some port
  end.

Definition allocateNodePort : M S Z :=
  all ← reg_List servicesR "";
  let used : gset Z := list_to_set (omap (λ s, if decide (svcNodePort s = 0) then None else Some (svcNodePort s)) all) in
  match first_free used nodePortRangeMin (Z.to_nat (nodePortRangeMax - nodePortRangeMin + 1)) with
  | Some port => mret port
  | None => fail (Errorf "no free node_port left in range")
  end.

Definition nodePortInUse (port : Z) (namespace name : string) : M S bool :=
  all ← reg_List servicesR "";
  mret (existsb (λ s, bool_decide (svcNodePort s = port) &&
    negb (bool_decide (svcNamespace s = namespace) && bool_decide (svcName s = name))) all).

Definition labelsMatch (labels selector : gmap string string) : bool :=
  forallb (λ kv, bool_decide (slookup labels kv.1 = kv.2)) (map_to_list selector).

(** The loop of [resolve] over the pods. *)
Definition endpoint_of (s : Service) (p : Pod) : M S (list ServiceEndpoint) :=
  if negb (bool_decide (podPhase p = POD_PHASE_RUNNING)) then mret []
  else if negb (labelsMatch (podLabels p) (ServiceSpec_GetSelector (Service_Spec s))) then mret []
  else if decide (podNodeName p = "") then mret []
  else
    node ← attempt (reg_Get nodesR "" (podNodeName p));
    match node with
    | Ok node => mret [MkServiceEndpoint (podName p) (NodeStatus_GetInternalIp (Node_Status node)) (svcNodePort s)]
    | _ => mret []
    end.

Definition svc_set_status (st : option ServiceStatus) (s : Service) : Service :=
  MkService (Service_Metadata s) (Service_Spec s) st.
Definition svc_set_node_port (p : Z) (s : Service) : Service :=
  let sp := default ServiceSpec_zero (Service_Spec s) in
  MkService (Service_Metadata s)
    (Some (MkServiceSpec (ServiceSpec_Selector sp) (ServiceSpec_Port sp) (ServiceSpec_TargetPort sp) p))
    (Service_Status s).

Definition resolve (s : Service) : M S Service :=
  if decide (ServiceSpec_GetSelector (Service_Spec s) = ∅) then
    mret (svc_set_status (Some (MkServiceStatus [])) s)
  else
    allPods ← statusM Internal "resolve service endpoints: list pods" (reg_List podsR (svcNamespace s));
    endpoints ← map_each allPods (endpoint_of s);
    mret (svc_set_status (Some (MkServiceStatus endpoints)) s).

Definition CreateService (s : option Service) : M S Service :=
  let meta := Service_GetMetadata s in
  if decide (ObjectMeta_GetName meta = "") then fail (Status InvalidArgument "service.metadata.name is required")
  else
    (** a nil spec becomes an empty one *)
    let s := svc_set_node_port (svcNodePort (default Service_zero s)) (default Service_zero s) in
    s ← (if decide (svcNodePort s = 0) then
           port ← statusM Internal "allocate node_port" allocateNodePort;
           mret (svc_set_node_port port s)
         else
           used ← statusM Internal "check node_port availability"
             (nodePortInUse (svcNodePort s) (ObjectMeta_GetNamespace meta) (ObjectMeta_GetName meta));
           if (used : bool) then fail (Status AlreadyExists "node_port is already allocated to another service")
           else mret s);
    _ ← statusM Internal "create service"
          (reg_Put servicesR (ObjectMeta_GetNamespace meta) (ObjectMeta_GetName meta) s);
    resolve s.

Definition GetService (namespace name : string) : M S Service :=
  s ← statusM NotFound "service" (reg_Get servicesR namespace name);
  resolve s.

Definition ListServices (namespace : string) : M S (list Service) :=
  items ← statusM Internal "list services" (reg_List servicesR namespace);
  map_each items (λ s, r ← resolve s; mret [r]).

Definition DeleteService (namespace name : string) : M S unit :=
  statusM Internal "delete service" (reg_Delete servicesR namespace name).

End services.
