(* ===== verification/ServicesCorrect.v ===== *)
(** * ServicesCorrect: what the handlers guarantee

    Theorems about the handlers of Services.v: node ports stay unique,
    endpoints are exact, deleting a deployment takes its pods with it, backups
    restore, heartbeats keep a node alive, status updates keep to the caller's
    pods. *)

From stdpp Require Import gmap strings list.
From Stdlib Require Import ZArith Lia.
From S2P Require Import Prelude Api Codec Store Registry Cluster.
From S2P Require Import Scheduler Scheduling Deployment Admission Rbac Services Controllers.

Local Open Scope Z_scope.

(** ** Node ports *)

Definition wf_services (V : gmap string Service) : Prop :=
  ∀ k s, V !! k = Some s → k = reg_key servicesR (svcNamespace s) (svcName s).

(** No two services share a node port. *)
Definition ports_unique (V : gmap string Service) : Prop :=
  ∀ k1 k2 s1 s2, V !! k1 = Some s1 → V !! k2 = Some s2 → svcNodePort s1 = svcNodePort s2 →
    svcNodePort s1 ≠ 0 → k1 = k2.

Lemma first_free_spec used port n :
  match first_free used port n with
  | Some p => port ≤ p < port + Z.of_nat n ∧ (p ∉ used) ∧ ∀ q, port ≤ q < p → q ∈ used
  | None => ∀ q, port ≤ q < port + Z.of_nat n → q ∈ used
  end.
Proof.
  revert port. induction n as [|n IH]; intros port; cbn [first_free]; [lia|].
  case_decide as Hp; [|split_and!; [lia|lia|done|lia]]. specialize (IH (port + 1)).
  destruct (first_free used (port + 1) n) as [p|].
  - destruct IH as (Hr & Hu & Hq). split_and!; [lia|lia|done|].
    intros q Hq'. destruct (decide (q = port)) as [->|]; [done|]. apply Hq. lia.
  - intros q Hq. destruct (decide (q = port)) as [->|]; [done|]. apply IH. lia.
Qed.

Lemma ports_unique_insert V k s :
  ports_unique V →
  (∀ k' s', V !! k' = Some s' → svcNodePort s' = svcNodePort s → svcNodePort s ≠ 0 → k' = k) →
  ports_unique (<[k := s]> V).
Proof.
  intros HV Hs k1 k2 s1 s2 [[<- <-]|[Hk1 H1]]%lookup_insert_Some [[<- <-]|[Hk2 H2]]%lookup_insert_Some Heq Hne.
  - done.
  - symmetry. by eapply Hs.
  - eapply Hs; [done..|]. by rewrite <-Heq.
  - by eapply HV.
Qed.

Section services_correct.
Context {S : Type} `{!Store S, !StoreLaws S} {Sh : Shuffle} {CE : CelEnv} {SP : Spiffe}.
Context `{AM : !ApiMessages, AL : !ApiLaws, MM : !MoreMessages, ML : !MoreLaws}.

(** The store is healthy, its services decode and are well-formed. *)
Definition services_ok (w : world S) : Prop :=
  w_healthy w ∧ decodable servicesR (w_view w) ∧ wf_services (objs servicesR (w_view w)).

Lemma list_services w :
  services_ok w →
  ∃ l w', reg_List servicesR "" w = (Ok l, w') ∧ w_store w' = w_store w ∧
    ∀ s, s ∈ l ↔ ∃ k, objs servicesR (w_view w) !! k = Some s.
Proof.
  intros (Hh & Hd & Hwf). destruct (reg_List_spec servicesR "" w Hh Hd) as (l & w' & Hl & Hs & Hp).
  exists l, w'. split; [done|]. split; [done|]. intros s. rewrite Hp, list_elem_of_fmap. unfold objs_in. split.
  - intros ([k x] & -> & [Hx _]%elem_of_map_to_list%with_prefix_lookup). by exists k.
  - intros [k Hk]. exists (k, s). split; [done|]. apply elem_of_map_to_list, with_prefix_lookup. split; [done|].
    apply objs_lookup in Hk as (b & _ & Hp' & _). done.
Qed.

Lemma allocateNodePort_spec w :
  services_ok w →
  ∃ r w', allocateNodePort w = (r, w') ∧ w_store w' = w_store w ∧
    match r with
    | Ok p => nodePortRangeMin ≤ p ≤ nodePortRangeMax ∧
        ∀ k s, objs servicesR (w_view w) !! k = Some s → svcNodePort s ≠ p
    | Err _ => ∀ q, nodePortRangeMin ≤ q ≤ nodePortRangeMax →
        ∃ k s, objs servicesR (w_view w) !! k = Some s ∧ svcNodePort s = q
    | Panic => False
    end.
Proof.
  intros Hw. destruct (list_services w Hw) as (l & w' & Hl & Hs & Hel).
  unfold allocateNodePort. mstep Hl. cbn zeta.
  set (used := list_to_set (omap _ l) : gset Z).
  assert (∀ p, p ∈ used ↔ p ≠ 0 ∧ ∃ s, s ∈ l ∧ svcNodePort s = p) as Hused.
  { intros p. unfold used. rewrite elem_of_list_to_set, list_elem_of_omap. split.
    - intros (s & Hsl & Hp). case_decide; [done|]. injection Hp as <-. eauto.
    - intros [Hp (s & Hsl & <-)]. exists s. split; [done|]. by rewrite decide_False. }
  pose proof (first_free_spec used nodePortRangeMin (Z.to_nat (nodePortRangeMax - nodePortRangeMin + 1))) as Hff.
  assert (Z.of_nat (Z.to_nat (nodePortRangeMax - nodePortRangeMin + 1)) = 2768) as Hn by reflexivity.
  rewrite Hn in Hff. change (Z.to_nat _) with 2768%nat in Hff |- *.
  destruct (first_free used nodePortRangeMin 2768) as [p|]; unfold nodePortRangeMin, nodePortRangeMax in *.
  - destruct Hff as (Hr & Hu & _). exists (Ok p), w'. split; [done|]. split; [done|]. split; [lia|].
    intros k s Hk <-. apply Hu, Hused. split; [lia|]. exists s. split; [|done]. apply Hel. eauto.
  - eexists (Err _), w'. split; [done|]. split; [done|]. intros q Hq. specialize (Hff q ltac:(lia)).
    apply Hused in Hff as [_ (s & Hsl & Hp)]. apply Hel in Hsl as [k Hk]. eauto.
Qed.

Lemma nodePortInUse_spec port ns name w :
  services_ok w →
  ∃ b w', nodePortInUse port ns name w = (Ok b, w') ∧ w_store w' = w_store w ∧
    (b = false → ∀ k s, objs servicesR (w_view w) !! k = Some s → svcNodePort s = port →
       svcNamespace s = ns ∧ svcName s = name).
Proof.
  intros Hw. destruct (list_services w Hw) as (l & w' & Hl & Hs & Hel).
  unfold nodePortInUse. mstep Hl. do 2 eexists. split; [done|]. split; [done|].
  intros Hb k s Hk Hp. apply not_true_iff_false in Hb. apply dec_stable. intros Hn. apply Hb.
  apply existsb_exists. exists s. split; [apply list_elem_of_In, Hel; eauto|].
  rewrite bool_decide_eq_true_2 by done. simpl. apply negb_true_iff, andb_false_iff.
  destruct (decide (svcNamespace s = ns)); [right|left]; apply bool_decide_eq_false_2; tauto.
Qed.

Lemma reads_map_each {A B} (l : list A) (f : A → M S (list B)) :
  (∀ x, reads_only (f x)) → reads_only (map_each l f).
Proof.
  intros Hf. induction l; simpl; [apply reads_ret|]. apply reads_bind; [done|]. intros.
  apply reads_bind; [done|]. intros. apply reads_ret.
Qed.

Lemma reads_resolve s : reads_only (resolve s).
Proof.
  unfold resolve. case_decide; [apply reads_ret|]. apply reads_bind; [apply reads_statusM, reads_list|]. intros l.
  apply reads_bind; [|intros; apply reads_ret]. apply reads_map_each. intros p. unfold endpoint_of.
  repeat case_match; [apply reads_ret..|]. apply reads_bind; [apply reads_attempt, reads_get|].
  intros [nd|err|]; apply reads_ret.
Qed.

(** The step of [CreateService] that chooses the port. *)
Definition choose_port (s : Service) (ns name : string) : M S Service :=
  if decide (svcNodePort s = 0) then
    port ← statusM Internal "allocate node_port" allocateNodePort;
    mret (svc_set_node_port port s)
  else
    used ← statusM Internal "check node_port availability" (nodePortInUse (svcNodePort s) ns name);
    if (used : bool) then fail (Status AlreadyExists "node_port is already allocated to another service")
    else mret s.

Lemma choose_port_spec s w r w' :
  services_ok w → choose_port s (svcNamespace s) (svcName s) w = (r, w') →
  w_store w' = w_store w ∧
  ∀ s', r = Ok s' → Service_Metadata s' = Service_Metadata s ∧ svcNodePort s' ≠ 0 ∧
    (svcNodePort s = 0 → nodePortRangeMin ≤ svcNodePort s' ≤ nodePortRangeMax) ∧
    (svcNodePort s ≠ 0 → svcNodePort s' = svcNodePort s) ∧
    ∀ k t, objs servicesR (w_view w) !! k = Some t → svcNodePort t = svcNodePort s' →
      k = reg_key servicesR (svcNamespace s) (svcName s).
Proof.
  intros Hw. unfold choose_port. case_decide as Hz.
  - destruct (allocateNodePort_spec w Hw) as (x & w1 & Ha & Hs & Hx).
    unfold mbind, M_mbind, M_bind, statusM. rewrite Ha. destruct x as [p|e|]; [|by intros [= <- <-]|done].
    intros [= <- <-]. split; [done|]. intros s' [= <-]. destruct Hx as [Hr Hfree].
    unfold nodePortRangeMin, nodePortRangeMax in *. split_and!; [done|simpl; unfold svcNodePort; simpl; lia|by intros _|done|].
    intros k t Ht Hp. by destruct (Hfree k t Ht).
  - destruct (nodePortInUse_spec (svcNodePort s) (svcNamespace s) (svcName s) w Hw) as (b & w1 & Hb & Hs & Hfree).
    unfold mbind, M_mbind, M_bind, statusM. rewrite Hb. destruct b; intros [= <- <-]; [done|].
    split; [done|]. intros s' [= <-]. split_and!; [done|done|done|done|].
    intros k t Ht Hp. destruct (Hfree eq_refl k t Ht Hp) as [<- <-]. by apply Hw.
Qed.

(** C6: node ports are never shared.  On a healthy store whose services have
    distinct node ports, [CreateService] keeps them distinct whatever its
    outcome, also when it replaces a service; on success the service has a
    port, the requested one if it asked for one and one of the range 30000 to
    32767 otherwise. *)
Theorem node_ports_stay_unique s w r w' :
  services_ok w → ports_unique (objs servicesR (w_view w)) → CreateService (Some s) w = (r, w') →
  services_ok w' ∧ ports_unique (objs servicesR (w_view w')) ∧
  ∀ s', r = Ok s' → svcNodePort s' ≠ 0 ∧
    (svcNodePort s = 0 → nodePortRangeMin ≤ svcNodePort s' ≤ nodePortRangeMax) ∧
    (svcNodePort s ≠ 0 → svcNodePort s' = svcNodePort s).
Proof.
  intros Hw Hu. unfold CreateService. cbn zeta. cbn [Service_GetMetadata default].
  case_decide; [by intros [= <- <-]|].
  set (s0 := svc_set_node_port (svcNodePort s) s).
  change (ObjectMeta_GetNamespace (Service_Metadata s)) with (svcNamespace s0).
  change (ObjectMeta_GetName (Service_Metadata s)) with (svcName s0).
  change (if decide (svcNodePort s0 = 0) then _ else _) with (choose_port s0 (svcNamespace s0) (svcName s0)).
  destruct (choose_port s0 (svcNamespace s0) (svcName s0) w) as [x w1] eqn:Ec.
  destruct (choose_port_spec s0 w x w1 Hw Ec) as [Hs1 Hx].
  assert (w_view w1 = w_view w ∧ services_ok w1) as [Hv1 Hw1].
  { unfold w_view. split; [by rewrite Hs1|]. unfold services_ok, w_healthy, w_view in *. by rewrite Hs1. }
  destruct x as [s1|e|]; [|rewrite (bind_run_Err _ _ _ _ _ Ec); intros [= <- <-]; by rewrite Hv1
    |rewrite (bind_run_Panic _ _ _ _ Ec); intros [= <- <-]; by rewrite Hv1].
  destruct (Hx s1 eq_refl) as (Hm & Hne & Hr0 & Hr1 & Hfree).
  assert (svcNamespace s1 = svcNamespace s0 ∧ svcName s1 = svcName s0) as [Hns Hnm]
    by (unfold svcNamespace, svcName; by rewrite Hm).
  destruct Hw1 as (Hh & Hd & Hwf).
  destruct (reg_Put_spec servicesR (svcNamespace s0) (svcName s0) s1 w1 Hh) as (w2 & b & Hp & Hh2 & Hb & Hv2).
  mstep Ec. mstep (statusM_run_Ok Internal "create service" _ _ _ _ Hp). intros Hres.
  assert (w_store w' = w_store w2) as Hs' by (by eapply reads_resolve).
  assert (w_view w' = w_view w2) as Hv' by (unfold w_view; by rewrite Hs').
  assert (objs servicesR (w_view w') = <[reg_key servicesR (svcNamespace s0) (svcName s0) := s1]> (objs servicesR (w_view w)))
    as Ho by (rewrite Hv', Hv2, Hv1; by apply objs_insert).
  split; [|split].
  - unfold services_ok, w_healthy. rewrite Hs'. split; [done|]. rewrite Hv'. split; [rewrite Hv2; by eapply decodable_insert|].
    rewrite <-Hv', Ho. rewrite Hv1 in Hwf. intros k t [[<- <-]|[_ Ht]]%lookup_insert_Some; [by rewrite Hns, Hnm|by apply Hwf].
  - rewrite Ho. apply ports_unique_insert; [done|]. intros k t Ht Hpt _. by eapply Hfree.
  - intros s' ->. assert (svcNodePort s' = svcNodePort s1) as ->; [|done].
    clear -Hres. unfold resolve in Hres. case_decide; [by injection Hres as <- _|].
    apply bind_Ok in Hres as (l & w3 & _ & Hl). apply bind_Ok in Hl as (es & w4 & _ & He). by injection He as <- _.
Qed.

(** ** Endpoints *)

Lemma labelsMatch_spec labels selector :
  labelsMatch labels selector = true ↔ ∀ k v, selector !! k = Some v → slookup labels k = v.
Proof.
  unfold labelsMatch. rewrite forallb_elem_of. split.
  - intros H k v Hk%elem_of_map_to_list. specialize (H (k, v) Hk). by apply bool_decide_eq_true in H.
  - intros H [k v] Hk%elem_of_map_to_list. by apply bool_decide_eq_true, H.
Qed.

(** The endpoints a pod contributes, as a function of the stored nodes. *)
Definition pod_endpoints (N : gmap string Node) (s : Service) (p : Pod) : list ServiceEndpoint :=
  if bool_decide (podPhase p = POD_PHASE_RUNNING) &&
     labelsMatch (podLabels p) (ServiceSpec_GetSelector (Service_Spec s)) &&
     negb (bool_decide (podNodeName p = ""))
  then match N !! reg_key nodesR "" (podNodeName p) with
       | Some n => [MkServiceEndpoint (podName p) (NodeStatus_GetInternalIp (Node_Status n)) (svcNodePort s)]
       | None => []
       end
  else [].

Lemma endpoint_of_spec s p w c :
  holds w c → endpoint_of s p w = (Ok (pod_endpoints (c_nodes c) s p), w).
Proof.
  intros Hw. unfold endpoint_of, pod_endpoints.
  destruct (bool_decide (podPhase p = POD_PHASE_RUNNING)); simpl; [|done].
  destruct (labelsMatch _ _); simpl; [|done].
  case_decide as Hn; [by rewrite bool_decide_eq_true_2|]. rewrite bool_decide_eq_false_2 by done. simpl.
  pose proof (get_node w c "" (podNodeName p) Hw) as Hg. destruct (c_nodes c !! _) as [n|]; simpl in Hg.
  - by mstep (attempt_run_Ok _ _ _ _ Hg).
  - by mstep (attempt_run_Err _ _ _ _ Hg).
Qed.

Lemma map_each_endpoints s l w c :
  holds w c → map_each l (endpoint_of s) w = (Ok (concat (pod_endpoints (c_nodes c) s <$> l)), w).
Proof.
  intros Hw. induction l as [|p l IH]; [done|]. cbn [map_each].
  mstep (endpoint_of_spec s p w c Hw). by mstep IH.
Qed.

(** Endpoints are exact.  Resolving a service with a selector on a healthy
    store lists exactly one kind of pods: those of its namespace that are
    running, carry every label of the selector and are on a node that is
    registered; each with its own name, the address of its node and the port
    of the service.  Nothing is written. *)
Theorem endpoints_exact s w c :
  holds w c → wf_pods (c_pods c) → simple (svcNamespace s) → svcNamespace s ≠ "" →
  ServiceSpec_GetSelector (Service_Spec s) ≠ ∅ →
  ∃ es w', resolve s w = (Ok (svc_set_status (Some (MkServiceStatus es)) s), w') ∧ w_store w' = w_store w ∧
    ∀ e, e ∈ es ↔ ∃ k p n, c_pods c !! k = Some p ∧ podNamespace p = svcNamespace s ∧
      podPhase p = POD_PHASE_RUNNING ∧
      (∀ l v, ServiceSpec_GetSelector (Service_Spec s) !! l = Some v → slookup (podLabels p) l = v) ∧
      podNodeName p ≠ "" ∧ c_nodes c !! reg_key nodesR "" (podNodeName p) = Some n ∧
      e = MkServiceEndpoint (podName p) (NodeStatus_GetInternalIp (Node_Status n)) (svcNodePort s).
Proof.
  intros Hw HP Hns Hne Hsel.
  destruct (list_pods w c (svcNamespace s) Hw) as (l & w1 & Hl & Hw1 & Hp).
  exists (concat (pod_endpoints (c_nodes c) s <$> l)), w1. split; [|split].
  - unfold resolve. rewrite decide_False by done. mstep (statusM_run_Ok Internal "resolve service endpoints: list pods" _ _ _ _ Hl).
    by mstep (map_each_endpoints s l w1 c Hw1).
  - eapply (reads_list podsR (svcNamespace s)). exact Hl.
  - intros e. rewrite list_elem_of_In, in_concat. setoid_rewrite <-list_elem_of_In.
    setoid_rewrite list_elem_of_fmap. split.
    + intros (x & (p & -> & Hpl) & He). rewrite Hp, list_elem_of_fmap in Hpl.
      destruct Hpl as ([k q] & -> & [Hq Hpre]%elem_of_map_to_list%with_prefix_lookup). simpl in *.
      unfold pod_endpoints in He. destruct (_ && _) eqn:E in He; [|by apply elem_of_nil in He].
      rewrite !andb_true_iff, negb_true_iff, bool_decide_eq_true, bool_decide_eq_false, labelsMatch_spec in E.
      destruct E as [[H1 H2] H3]. destruct (c_nodes c !! _) as [n|] eqn:En; [|by apply elem_of_nil in He].
      apply list_elem_of_singleton in He as ->. exists k, q, n. split_and!; try done.
      by apply (wf_pods_namespace _ _ _ _ HP Hq).
    + intros (k & p & n & Hk & Hpn & H1 & H2 & H3 & Hn & ->). exists (pod_endpoints (c_nodes c) s p). split.
      * exists p. split; [done|]. rewrite Hp, list_elem_of_fmap. exists (k, p). split; [done|].
        apply elem_of_map_to_list, with_prefix_lookup. split; [done|]. by apply (wf_pods_namespace _ _ _ _ HP Hk).
      * unfold pod_endpoints. rewrite (bool_decide_eq_true_2 _ H1), (proj2 (labelsMatch_spec _ _) H2),
          (bool_decide_eq_false_2 _ H3), Hn. simpl. apply list_elem_of_singleton. done.
Qed.

(** ** Cascading deletion *)

(** Removing the pods of the deployment [name] that a listing of the namespace
    [ns] shows is removing all its pods in that namespace. *)
Lemma remove_owned_pods ns name l P :
  wf_pods P → simple ns → ns ≠ "" → l ≡ₚ (map_to_list (with_prefix (reg_prefix podsR ns) P)).*2 →
  remove_pods (filter (λ p, slookup (podLabels p) OwnerDeploymentLabel = name) l) P =
  filter (λ kp, ¬ (podNamespace kp.2 = ns ∧ slookup (podLabels kp.2) OwnerDeploymentLabel = name)) P.
Proof.
  intros HP Hns Hne Hp. apply map_eq. intros k. apply option_eq. intros p.
  rewrite lookup_remove_pods, map_lookup_filter_Some.
  apply and_iff_compat_l_weak. intros Hk. simpl. apply not_iff_compat.
  rewrite list_elem_of_fmap. setoid_rewrite list_elem_of_filter. setoid_rewrite Hp. setoid_rewrite list_elem_of_fmap.
  split.
  - intros (q & -> & Hlab & [j x] & -> & [Hx Hpre]%elem_of_map_to_list%with_prefix_lookup). simpl in *.
    destruct (HP _ _ Hx) as (-> & _). rewrite Hk in Hx. injection Hx as <-. split; [|done].
    by apply (wf_pods_namespace _ _ _ _ HP Hk).
  - intros [Hpn Hlab]. exists p. split; [apply HP, Hk|]. split; [done|]. exists (k, p). split; [done|].
    apply elem_of_map_to_list, with_prefix_lookup. split; [done|]. by apply (wf_pods_namespace _ _ _ _ HP Hk).
Qed.

Lemma cascade_loop name l w c :
  holds w c →
  ∃ w', for_each l (λ p, if decide (slookup (podLabels p) OwnerDeploymentLabel = name) then
            statusM Internal "delete owned pod" (reg_Delete podsR (podNamespace p) (podName p))
          else mret ()) w = (Ok tt, w') ∧
    holds w' (with_pods c (remove_pods (filter (λ p, slookup (podLabels p) OwnerDeploymentLabel = name) l) (c_pods c))).
Proof.
  revert w c. induction l as [|p l IH]; intros w c Hw; [by exists w; destruct c|]. cbn [for_each].
  rewrite filter_cons. case_decide as Hd.
  - destruct (delete_pod w c (podNamespace p) (podName p) Hw) as (w1 & Hdel & Hw1).
    mstep (statusM_run_Ok Internal "delete owned pod" _ _ _ _ Hdel). apply (IH _ _ Hw1).
  - assert ((mret () : M S unit) w = (Ok tt, w)) as Hr by done. mstep Hr. by apply IH.
Qed.

(** Deleting a deployment takes its pods with it, and nothing else.  On a
    healthy store [DeleteDeployment] succeeds; afterwards the deployment is
    gone, no pod of the namespace carries its label, and every other pod,
    node, deployment and volume is as before. *)
Theorem delete_deployment_cascades ns name w c :
  holds w c → wf_pods (c_pods c) → simple ns → ns ≠ "" →
  ∃ w', DeleteDeployment ns name w = (Ok tt, w') ∧
    holds w' (MkCluster
      (filter (λ kp, ¬ (podNamespace kp.2 = ns ∧ slookup (podLabels kp.2) OwnerDeploymentLabel = name)) (c_pods c))
      (c_nodes c) (delete (reg_key deploymentsR ns name) (c_deployments c)) (c_volumes c)).
Proof.
  intros Hw HP Hns Hne. unfold DeleteDeployment.
  destruct (delete_deployment w c ns name Hw) as (w1 & Hd & Hw1).
  mstep (statusM_run_Ok Internal "delete deployment" _ _ _ _ Hd).
  destruct (list_pods w1 _ ns Hw1) as (l & w2 & Hl & Hw2 & Hp). simpl in Hp.
  mstep (statusM_run_Ok Internal "list pods for cascade delete" _ _ _ _ Hl).
  destruct (cascade_loop name l w2 _ Hw2) as (w3 & Hc & Hw3). exists w3. split; [exact Hc|].
  unfold with_pods in Hw3. simpl in Hw3. by rewrite (remove_owned_pods ns) in Hw3.
Qed.

(** ** Backups *)

Lemma restore_loop es (w : world S) :
  w_healthy w →
  ∃ w', for_each es (λ e, statusM Internal "restore key" (s_put (BackupEntry_Key e) (BackupEntry_Value e))) w = (Ok tt, w') ∧
    w_healthy w' ∧
    w_view w' = foldl (λ m e, <[BackupEntry_Key e := BackupEntry_Value e]> m) (w_view w) es.
Proof.
  revert w. induction es as [|e es IH]; intros w Hw; [by exists w|]. cbn [for_each foldl].
  destruct (store_Put_law (w_store w) (BackupEntry_Key e) (BackupEntry_Value e) Hw) as (s1 & Hp & Hh & Hv).
  assert (s_put (BackupEntry_Key e) (BackupEntry_Value e) w = (Ok tt, World s1 (w_tick w))) as Hs
    by (unfold s_put; by rewrite Hp).
  mstep (statusM_run_Ok Internal "restore key" _ _ _ _ Hs).
  destruct (IH (World s1 (w_tick w)) Hh) as (w' & Hl & Hw' & Hvw).
  exists w'. split; [done|]. split; [done|]. rewrite Hvw. unfold w_view. simpl. by rewrite Hv.
Qed.

Lemma foldl_insert_lookup (l : list (string * bytes)) (m : gmap string bytes) :
  NoDup l.*1 →
  foldl (λ m e, <[BackupEntry_Key e := BackupEntry_Value e]> m) m ((λ kv, MkBackupEntry kv.1 kv.2) <$> l) =
  list_to_map l ∪ m.
Proof.
  revert m. induction l as [|[k v] l IH]; intros m Hnd; [by rewrite list_to_map_nil, (left_id_L ∅ (∪))|].
  rewrite fmap_cons in Hnd. apply NoDup_cons in Hnd as [Hk Hnd]. rewrite fmap_cons. cbn [foldl list_to_map fst snd].
  rewrite IH by done. simpl. rewrite <-insert_union_r by (by apply not_elem_of_list_to_map_1).
  by rewrite insert_union_l.
Qed.

(** C36: a backup restores.  Taking a backup of a healthy store and restoring
    it into any healthy store gives a store that holds every entry of the
    first, with its value, and the entries of the second under other keys;
    into an empty one, exactly the contents that were backed up, whatever the
    encryption keys of the two stores. *)
Theorem backup_restores (w1 w2 : world S) :
  w_healthy w1 → w_healthy w2 →
  ∃ es w1' n w2', CreateBackup w1 = (Ok es, w1') ∧ w_view w1' = w_view w1 ∧
    RestoreBackup es w2 = (Ok n, w2') ∧ w_healthy w2' ∧ w_view w2' = w_view w1 ∪ w_view w2 ∧
    n = wrap32 (Z.of_nat (size (w_view w1))).
Proof.
  intros H1 H2. unfold CreateBackup.
  assert (s_list "" w1 = (Ok (w_view w1), w1)) as Hl.
  { unfold s_list. rewrite store_List_law by done. by rewrite with_prefix_empty. }
  set (l := shuffle (w_tick w1) (map_to_list (w_view w1))).
  assert (l ≡ₚ map_to_list (w_view w1)) as Hperm by apply shuffle_perm.
  destruct (restore_loop ((λ kv, MkBackupEntry kv.1 kv.2) <$> l) w2 H2) as (w2' & Hr & Hh & Hv).
  exists ((λ kv, MkBackupEntry kv.1 kv.2) <$> l). eexists. exists (wrap32 (Z.of_nat (length l))), w2'.
  split_and!; [by mstep (statusM_run_Ok Internal "list store contents" _ _ _ _ Hl)|done| |done| |].
  - unfold RestoreBackup. mstep Hr. by rewrite length_fmap.
  - rewrite Hv, foldl_insert_lookup.
    + rewrite (list_to_map_proper l (map_to_list (w_view w1))); [by rewrite list_to_map_to_list| |done].
      rewrite Hperm. apply NoDup_fst_map_to_list.
    + rewrite Hperm. apply NoDup_fst_map_to_list.
  - by rewrite Hperm, length_map_to_list.
Qed.

(** ** Heartbeats and health checks *)

(** A node that reports in time stays ready.  After a heartbeat at the Unix
    time [now], the node is ready with that heartbeat, and a health check at
    any time whose cutoff is not later leaves it exactly so. *)
Theorem heartbeat_keeps_ready name n now cap al timeout resync t w c :
  holds w c → wf_nodes (c_nodes c) → c_nodes c !! reg_key nodesR "" name = Some n → nodeName n = name →
  cutoff_of t (nh_timeout (NewNodeHealthReconciler nodesR timeout resync)) ≤ now →
  ∃ w1 w2 c2, Heartbeat now name cap al w = (Ok true, w1) ∧
    checkAll (NewNodeHealthReconciler nodesR timeout resync) t w1 = (Ok tt, w2) ∧ holds w2 c2 ∧
    c_nodes c2 !! reg_key nodesR "" name = Some (heartbeat now cap al n) ∧
    nodeIsReady (heartbeat now cap al n) = true.
Proof.
  intros Hw Hwf Hn Hname Hcut. unfold Heartbeat.
  pose proof (get_node w c "" name Hw) as Hg. rewrite Hn in Hg.
  mstep (statusM_run_Ok NotFound "node" _ _ _ _ Hg).
  destruct (put_node w c "" name (heartbeat now cap al n) Hw) as (w1 & Hp & Hw1).
  mstep (statusM_run_Ok Internal "update node" _ _ _ _ Hp).
  destruct (checkAll_spec timeout resync t w1 _ Hw1) as (w2 & Hc & Hw2).
  { intros k x. simpl. intros [[<- <-]|[_ Hx]]%lookup_insert_Some; [|by apply Hwf].
    unfold nodeName in *. simpl. by rewrite Hname. }
  exists w1, w2. eexists. split; [done|]. split; [exact Hc|]. split; [exact Hw2|]. split; [|done].
  simpl. rewrite lookup_fmap, lookup_insert_eq. simpl. f_equal. unfold refresh, stale.
  assert (nodeHeartbeat (heartbeat now cap al n) = now) as -> by done.
  apply Z.leb_le in Hcut. simpl in Hcut |- *. by rewrite Hcut.
Qed.

(** ** Volumes *)

(** Creating a volume again drops its claim.  [CreateVolume] on the name of
    a volume that is pinned to a node succeeds and stores a status without a
    node, so the next pod may be pinned elsewhere, although the data is on the
    first node. *)
Theorem recreate_volume_drops_claim csi v v0 w w1 capacity c :
  holds w c → ObjectMeta_GetName (Volume_Metadata v) ≠ "" →
  c_volumes c !! reg_key volumesR (ObjectMeta_GetNamespace (Volume_Metadata v)) (ObjectMeta_GetName (Volume_Metadata v)) = Some v0 →
  volNodeName v0 ≠ "" →
  csi (ObjectMeta_GetNamespace (Volume_Metadata v) +:+ "/" +:+ ObjectMeta_GetName (Volume_Metadata v))
    (VolumeSpec_GetRequestedBytes (Volume_Spec v)) w = (Ok capacity, w1) → w_store w1 = w_store w →
  ∃ v' w' c', CreateVolume csi (Some v) w = (Ok v', w') ∧ holds w' c' ∧ volNodeName v' = "" ∧
    c_volumes c' !! reg_key volumesR (ObjectMeta_GetNamespace (Volume_Metadata v)) (ObjectMeta_GetName (Volume_Metadata v)) = Some v'.
Proof.
  intros Hw Hn Hv Hclaim Hcsi Hst. unfold CreateVolume. cbn zeta. cbn [Volume_GetMetadata Volume_GetSpec default].
  rewrite decide_False by done. mstep (statusM_run_Ok Internal "provision volume" _ _ _ _ Hcsi).
  pose proof (holds_store _ _ _ Hst Hw) as Hw1.
  set (v' := volume_set_status (Some (MkVolumeStatus VOLUME_PHASE_BOUND capacity "" "")) v).
  destruct (put_volume w1 c (ObjectMeta_GetNamespace (Volume_Metadata v)) (ObjectMeta_GetName (Volume_Metadata v)) v' Hw1)
    as (w' & Hp & Hw').
  mstep (statusM_run_Ok Internal "create volume" _ _ _ _ Hp).
  exists v', w'. eexists. split; [done|]. split; [exact Hw'|]. split; [done|]. apply lookup_insert_eq.
Qed.

(** ** Status updates *)

(** Status updates.  On a healthy store [UpdatePodStatus] of a pod that
    exists, called by a node to which the pod is not assigned, is refused and
    changes nothing; otherwise it replaces the status of the pod and nothing
    else of it. *)
Theorem update_status_authorised ctx ns name st p w c :
  holds w c → c_pods c !! reg_key podsR ns name = Some p →
  if wrong_node ctx p then
    ∃ s, UpdatePodStatus ctx ns name st w = (Err (Status PermissionDenied s), w)
  else
    ∃ w', UpdatePodStatus ctx ns name st w = (Ok (pod_set_status st p), w') ∧
      holds w' (with_pods c (<[reg_key podsR ns name := pod_set_status st p]> (c_pods c))).
Proof.
  intros Hw Hp. unfold UpdatePodStatus. pose proof (get_pod w c ns name Hw) as Hg. rewrite Hp in Hg.
  rewrite (bind_run_Ok _ _ _ _ _ (statusM_run_Ok NotFound "pod" _ _ _ _ Hg)).
  destruct (wrong_node ctx p); [by eexists|]. cbn zeta.
  destruct (put_pod w c ns name (pod_set_status st p) Hw) as (w' & Hput & Hw').
  mstep (statusM_run_Ok Internal "update pod status" _ _ _ _ Hput). by exists w'.
Qed.

End services_correct.

(** ** Witnesses *)

Module DemoServices.
Import Codec.Reference DemoAdmission.

#[local] Existing Instance toy_spiffe.
#[local] Existing Instance shuffle_id.
#[local] Instance svc_messages : ApiMessages := Build_ApiMessages _ _ _ _.
#[local] Instance svc_laws : ApiLaws := Build_ApiLaws _ _ _ _ _.
#[local] Instance svc_more : MoreMessages := Build_MoreMessages _ _ _ _ _ _.
#[local] Instance svc_more_laws : MoreLaws := Build_MoreLaws _ _ _ _ _ _ _.

Definition demo_service (port : Z) : Service :=
  MkService (Some (demo_meta "web" "default")) (Some (MkServiceSpec {["app" := "web"]} 80 8080 port)) None.

Definition empty : cluster := MkCluster ∅ ∅ ∅ ∅.
Lemma empty_holds : holds demo_world empty.
Proof. by constructor. Qed.

Lemma node_ports_stay_unique_witness :
  ∃ s' w', CreateService (Some (demo_service 0)) demo_world = (Ok s', w') ∧ svcNodePort s' = 30000 ∧
    ports_unique (objs servicesR (w_view w')).
Proof.
  set (run := CreateService (Some (demo_service 0)) demo_world).
  assert (services_ok demo_world) as Hok by (split; [exact I|]; split; [by intros ? ? ?|by intros ? ? ?]).
  destruct (node_ports_stay_unique (demo_service 0) demo_world run.1 run.2 Hok) as (_ & Hu & _);
    [by intros ? ? ? ? ?|exact (surjective_pairing run)|].
  assert (∃ s', run.1 = Ok s' ∧ svcNodePort s' = 30000) as (s' & Hr & Hp) by (vm_compute; eauto).
  exists s', run.2. split; [rewrite <-Hr; exact (surjective_pairing run)|]. split; [exact Hp|exact Hu].
Defined.

(** A running pod with the label of the service, on a registered node. *)
Definition demo_endpoint_pod : Pod :=
  MkPod (Some (MkObjectMeta "web-0" "default" "" "" {["app" := "web"]} 0))
    (Some (MkPodSpec [] "node-a" [] RESTART_POLICY_UNSPECIFIED)) (Some (MkPodStatus POD_PHASE_RUNNING "" [] 0 0)).

Lemma demo_pods_wf p : simple (podNamespace p) → simple (podName p) → wf_pods (<[pod_key p := p]> ∅).
Proof. intros H1 H2. apply wf_pods_insert; [by intros ? ? ?|done|done]. Qed.

Lemma endpoints_exact_witness :
  ∃ es w w', resolve (demo_service 30000) w = (Ok (svc_set_status (Some (MkServiceStatus es)) (demo_service 30000)), w') ∧
    MkServiceEndpoint "web-0" "10.0.0.1" 30000 ∈ es.
Proof.
  destruct (put_pod demo_world empty "default" "web-0" demo_endpoint_pod empty_holds) as (w1 & _ & H1).
  destruct (put_node w1 _ "" "node-a" demo_node H1) as (w2 & _ & H2).
  destruct (endpoints_exact (demo_service 30000) w2 _ H2) as (es & w' & Hr & _ & He).
  - exact (demo_pods_wf demo_endpoint_pod eq_refl eq_refl).
  - reflexivity.
  - discriminate.
  - discriminate.
  - exists es, w2, w'. split; [exact Hr|]. apply He.
    exists (pod_key demo_endpoint_pod), demo_endpoint_pod, demo_node.
    split; [apply lookup_insert_eq|]. split; [reflexivity|]. split; [reflexivity|]. split; [|split; [discriminate|]].
    + intros l v Hl. simpl in Hl. apply lookup_singleton_Some in Hl as [<- <-]. reflexivity.
    + split; [apply lookup_insert_eq|reflexivity].
Defined.

Lemma delete_deployment_cascades_witness :
  ∃ w', DeleteDeployment "default" "web" demo_world = (Ok tt, w').
Proof.
  destruct (delete_deployment_cascades "default" "web" demo_world empty empty_holds) as (w' & H & _).
  - by intros ? ? ?.
  - reflexivity.
  - discriminate.
  - exists w'. exact H.
Defined.

Lemma backup_restores_witness :
  ∃ es w2', RestoreBackup es demo_world = (Ok 1, w2') ∧ w_view w2' = {["a" := [Byte.x01]]}.
Proof.
  destruct (backup_restores (World (MkMemStore {["a" := [Byte.x01]]}) 0) demo_world)
    as (es & w1' & n & w2' & _ & _ & Hr & _ & Hv & Hn); [exact I|exact I|].
  exists es, w2'. split.
  - rewrite Hn in Hr. exact Hr.
  - rewrite Hv. reflexivity.
Defined.

Lemma heartbeat_keeps_ready_witness :
  ∃ w w1 w2, Heartbeat 1000 "node-a" None None w = (Ok true, w1) ∧
    checkAll (NewNodeHealthReconciler nodesR 0 0) 1010000000000 w1 = (Ok tt, w2).
Proof.
  destruct (put_node demo_world empty "" "node-a" demo_node empty_holds) as (w & _ & Hw).
  destruct (heartbeat_keeps_ready "node-a" demo_node 1000 None None 0 0 1010000000000 w _ Hw)
    as (w1 & w2 & c2 & H1 & H2 & _).
  - intros k n Hk. simpl in Hk. apply lookup_insert_Some in Hk as [[<- <-]|[_ Hk]]; [reflexivity|discriminate Hk].
  - apply lookup_insert_eq.
  - reflexivity.
  - vm_compute. discriminate.
  - exists w, w1, w2. split; [exact H1|exact H2].
Defined.

Definition pinned_volume : Volume :=
  MkVolume (Some (demo_meta "data" "default")) None (Some (MkVolumeStatus VOLUME_PHASE_BOUND 1 "" "node-a")).

Definition ok_csi : string → Z → M memStore Z := λ _ n, mret n.

Lemma recreate_volume_drops_claim_witness :
  ∃ w v' w', CreateVolume ok_csi (Some pinned_volume) w = (Ok v', w') ∧ volNodeName v' = "".
Proof.
  destruct (put_volume demo_world empty "default" "data" pinned_volume empty_holds) as (w & _ & Hw).
  destruct (recreate_volume_drops_claim ok_csi pinned_volume pinned_volume w w 0 _ Hw)
    as (v' & w' & c' & H & _ & Hn & _).
  - discriminate.
  - apply lookup_insert_eq.
  - discriminate.
  - reflexivity.
  - reflexivity.
  - exists w, v', w'. split; [exact H|exact Hn].
Defined.

Lemma update_status_authorised_witness :
  ∃ w s, UpdatePodStatus (Some (TLSInfo [[MkCertificate ["/node/node-b"]]])) "default" "web-0" None w =
    (Err (Status PermissionDenied s), w).
Proof.
  destruct (put_pod demo_world empty "default" "web-0" demo_endpoint_pod empty_holds) as (w & _ & Hw).
  exists w. exact (update_status_authorised (Some (TLSInfo [[MkCertificate ["/node/node-b"]]])) "default" "web-0" None
    demo_endpoint_pod w _ Hw (lookup_insert_eq _ _ _)).
Defined.

End DemoServices.
