(* ===== verification/System.v ===== *)
(** * System: the control plane as a whole

    The handlers of the API server and the passes of the controllers as steps
    of one transition system over the shared store, [step], and the safety
    property that holds in every reachable state: no stored pod, and no pod
    template of a stored deployment, has a container that the security policy
    forbids.  The proof is a small program logic: [triple m Q] says that [m]
    preserves the invariant on every outcome, errors and panics included, and
    that a result satisfies [Q]. *)

From stdpp Require Import gmap strings list.
From Stdlib Require Import ZArith Lia Relations.
From S2P Require Import Prelude Api Codec Store RaftStore Registry Cluster.
From S2P Require Import Scheduler Scheduling Deployment Float Hpa Controllers Admission Rbac Services ServicesCorrect.

Local Open Scope Z_scope.

Section system.
Context {S : Type} `{!Store S, !StoreLaws S} {Sh : Shuffle} {CE : CelEnv} {SP : Spiffe}.
Context `{AM : !ApiMessages, AL : !ApiLaws, MM : !MoreMessages, ML : !MoreLaws}.
Context `{SC : !Scheduler} {FC : FloatConv}.

(** The configuration of the admission chain. *)
Context (allowed : list string) (Verify : string → M S unit) (quota : option ResourceList).
Context (Verify_reads : ∀ ref, reads_only (Verify ref)).

Definition chain : list (Validator S CE) := default_chain allowed Verify quota.

Definition secure_pod (p : Pod) : Prop := secure_spec allowed (Pod_Spec p).
Definition secure_deployment (d : Deployment) : Prop := secure_spec allowed (depTemplate d).

Definition secure_cluster (c : cluster) : Prop :=
  map_Forall (λ _, secure_pod) (c_pods c) ∧ map_Forall (λ _, secure_deployment) (c_deployments c).

Definition secure_world (w : world S) : Prop := ∃ c, holds w c ∧ secure_cluster c.

(** ** The logic *)

Definition triple {A} (m : M S A) (Q : A → Prop) : Prop :=
  ∀ w r w', secure_world w → m w = (r, w') → secure_world w' ∧ ∀ a, r = Ok a → Q a.

(** A value that is there only when the call succeeded. *)
Definition when_Ok {A} (Q : A → Prop) (r : result A) : Prop := ∀ a, r = Ok a → Q a.

Lemma t_ret {A} (a : A) (Q : A → Prop) : Q a → triple (mret a) Q.
Proof. intros HQ w r w' Hw [= <- <-]. split; [done|]. by intros ? [= <-]. Qed.

Lemma t_fail {A} e (Q : A → Prop) : triple (fail e) Q.
Proof. intros w r w' Hw [= <- <-]. by split. Qed.

Lemma t_panic {A} (Q : A → Prop) : triple panic Q.
Proof. intros w r w' Hw [= <- <-]. by split. Qed.

Lemma t_bind {A B} (m : M S A) (f : A → M S B) Q Q' :
  triple m Q' → (∀ a, Q' a → triple (f a) Q) → triple (m ≫= f) Q.
Proof.
  intros Hm Hf w r w' Hw. unfold mbind, M_mbind, M_bind. destruct (m w) as [[a|e|] w1] eqn:E.
  - destruct (Hm _ _ _ Hw E) as [Hw1 Ha]. by apply Hf; [apply Ha|].
  - destruct (Hm _ _ _ Hw E) as [Hw1 _]. by intros [= <- <-].
  - destruct (Hm _ _ _ Hw E) as [Hw1 _]. by intros [= <- <-].
Qed.

Lemma t_conseq {A} (m : M S A) (Q Q' : A → Prop) : triple m Q' → (∀ a, Q' a → Q a) → triple m Q.
Proof. intros Hm HQ w r w' Hw E. destruct (Hm _ _ _ Hw E). naive_solver. Qed.

Lemma t_attempt {A} (m : M S A) Q : triple m Q → triple (attempt m) (when_Ok Q).
Proof.
  intros Hm w r w' Hw. unfold attempt. destruct (m w) as [[a|e|] w1] eqn:E; intros [= <- <-];
    destruct (Hm _ _ _ Hw E) as [Hw1 Ha]; (split; [done|]); unfold when_Ok; naive_solver.
Qed.

Lemma t_logged (m : M S unit) Q : triple m Q → triple (logged m) (λ _, True).
Proof.
  intros Hm w r w' Hw. unfold logged. destruct (m w) as [[a|e|] w1] eqn:E; intros [= <- <-];
    destruct (Hm _ _ _ Hw E) as [Hw1 Ha]; done.
Qed.

Lemma t_wrapM {A} s (m : M S A) Q : triple m Q → triple (wrapM s m) Q.
Proof.
  intros Hm w r w' Hw. unfold wrapM. destruct (m w) as [x w1] eqn:E. intros [= <- <-].
  destruct (Hm _ _ _ Hw E) as [Hw1 Ha]. split; [done|]. intros a. destruct x; simpl; [apply Ha|done|done].
Qed.

Lemma t_statusM {A} c s (m : M S A) Q : triple m Q → triple (statusM c s m) Q.
Proof.
  intros Hm w r w' Hw. unfold statusM. destruct (m w) as [[a|e|] w1] eqn:E; intros [= <- <-];
    destruct (Hm _ _ _ Hw E) as [Hw1 Ha]; by split.
Qed.

Lemma t_for_each {A} (P : A → Prop) (l : list A) (f : A → M S unit) :
  Forall P l → (∀ x, P x → triple (f x) (λ _, True)) → triple (for_each l f) (λ _, True).
Proof.
  intros Hl Hf. induction Hl as [|x l Hx Hl IH]; simpl; [by apply t_ret|].
  eapply t_bind; [by apply Hf|]. by intros _ _.
Qed.

Lemma t_reads {A} (m : M S A) : reads_only m → triple m (λ _, True).
Proof.
  intros Hm w r w' (c & Hc & Hs) E. split; [|done]. exists c. split; [|done].
  eapply holds_store; [|exact Hc]. by eapply Hm.
Qed.

(** *** The registry operations *)

Lemma t_put_pod ns n p : secure_pod p → triple (reg_Put podsR ns n p) (λ _, True).
Proof.
  intros Hp w r w' (c & Hc & Hsp & Hsd) E. destruct (put_pod w c ns n p Hc) as (w1 & E1 & Hc1).
  rewrite E1 in E. injection E as <- <-. split; [|done]. eexists. split; [exact Hc1|].
  split; [by apply map_Forall_insert_2|done].
Qed.

Lemma t_put_deployment ns n d : secure_deployment d → triple (reg_Put deploymentsR ns n d) (λ _, True).
Proof.
  intros Hp w r w' (c & Hc & Hsp & Hsd) E. destruct (put_deployment w c ns n d Hc) as (w1 & E1 & Hc1).
  rewrite E1 in E. injection E as <- <-. split; [|done]. eexists. split; [exact Hc1|].
  split; [done|by apply map_Forall_insert_2].
Qed.

Lemma t_put_node ns n x : triple (reg_Put nodesR ns n x) (λ _, True).
Proof.
  intros w r w' (c & Hc & Hs) E. destruct (put_node w c ns n x Hc) as (w1 & E1 & Hc1).
  rewrite E1 in E. injection E as <- <-. split; [|done]. by eexists.
Qed.

Lemma t_put_volume ns n x : triple (reg_Put volumesR ns n x) (λ _, True).
Proof.
  intros w r w' (c & Hc & Hs) E. destruct (put_volume w c ns n x Hc) as (w1 & E1 & Hc1).
  rewrite E1 in E. injection E as <- <-. split; [|done]. by eexists.
Qed.

Lemma t_delete_pod ns n : triple (reg_Delete podsR ns n) (λ _, True).
Proof.
  intros w r w' (c & Hc & Hsp & Hsd) E. destruct (delete_pod w c ns n Hc) as (w1 & E1 & Hc1).
  rewrite E1 in E. injection E as <- <-. split; [|done]. eexists. split; [exact Hc1|].
  split; [by apply map_Forall_delete|done].
Qed.

Lemma t_delete_deployment ns n : triple (reg_Delete deploymentsR ns n) (λ _, True).
Proof.
  intros w r w' (c & Hc & Hsp & Hsd) E. destruct (delete_deployment w c ns n Hc) as (w1 & E1 & Hc1).
  rewrite E1 in E. injection E as <- <-. split; [|done]. eexists. split; [exact Hc1|].
  split; [done|by apply map_Forall_delete].
Qed.

Lemma t_delete_node ns n : triple (reg_Delete nodesR ns n) (λ _, True).
Proof.
  intros w r w' (c & Hc & Hs) E. destruct (delete_node w c ns n Hc) as (w1 & E1 & Hc1).
  rewrite E1 in E. injection E as <- <-. split; [|done]. by eexists.
Qed.

Lemma t_delete_volume ns n : triple (reg_Delete volumesR ns n) (λ _, True).
Proof.
  intros w r w' (c & Hc & Hs) E. destruct (delete_volume w c ns n Hc) as (w1 & E1 & Hc1).
  rewrite E1 in E. injection E as <- <-. split; [|done]. by eexists.
Qed.

(** A registry of any other kind. *)
Definition other_kind {T} (r : Registry T) : Prop :=
  simple (reg_kind r) ∧ reg_kind r ∉ ["pods"; "nodes"; "deployments"; "volumes"].

Lemma holds_other {T} `{!ProtoMessage T} (r : Registry T) w w' c :
  other_kind r → w_healthy w' → touches [reg_kind r] w w' → holds w c → holds w' c.
Proof.
  intros [Hsim Hni] Hh Ht Hc. repeat setoid_rewrite not_elem_of_cons in Hni. destruct Hni as (H1 & H2 & H3 & H4 & _).
  assert (∀ T' (PM : ProtoMessage T') (q : Registry T'), simple (reg_kind q) → reg_kind r ≠ reg_kind q →
    objs q (w_view w') = objs q (w_view w) ∧ (decodable q (w_view w) → decodable q (w_view w'))) as Hframe.
  { intros T' PM q Hq Hne. apply (touches_other q [reg_kind r]); [done|done|by constructor|].
    rewrite list_elem_of_singleton. congruence. }
  destruct (Hframe _ _ podsR eq_refl H1) as [Hp Hdp], (Hframe _ _ nodesR eq_refl H2) as [Hn Hdn],
    (Hframe _ _ deploymentsR eq_refl H3) as [Hd Hdd], (Hframe _ _ volumesR eq_refl H4) as [Hv Hdv].
  destruct Hc as [_ Ip In Id Iv Op On Od Ov]. constructor;
    [exact Hh|exact (Hdp Ip)|exact (Hdn In)|exact (Hdd Id)|exact (Hdv Iv)
    |exact (eq_trans Hp Op)|exact (eq_trans Hn On)|exact (eq_trans Hd Od)|exact (eq_trans Hv Ov)].
Qed.

Lemma t_put_other {T} `{!ProtoMessage T, !ProtoLaws T} (r : Registry T) ns n x :
  other_kind r → triple (reg_Put r ns n x) (λ _, True).
Proof.
  intros Hr w res w' (c & Hc & Hs) E.
  destruct (reg_Put_spec r ns n x w (h_healthy _ _ Hc)) as (w1 & b & E1 & Hh & _ & Hv).
  rewrite E1 in E. injection E as <- <-. split; [|done]. exists c. split; [|done].
  eapply (holds_other r w); [done|done|by eapply touches_put|done].
Qed.

Lemma t_delete_other {T} `{!ProtoMessage T} (r : Registry T) ns n :
  other_kind r → triple (reg_Delete r ns n) (λ _, True).
Proof.
  intros Hr w res w' (c & Hc & Hs) E.
  destruct (reg_Delete_spec r ns n w (h_healthy _ _ Hc)) as (w1 & E1 & Hh & Hv).
  rewrite E1 in E. injection E as <- <-. split; [|done]. exists c. split; [|done].
  eapply (holds_other r w); [done|done|by eapply touches_delete|done].
Qed.

Lemma t_get_pod ns n : triple (reg_Get podsR ns n) secure_pod.
Proof.
  intros w r w' (c & Hc & Hsp & Hsd) E. rewrite (get_pod w c ns n Hc) in E. injection E as <- <-.
  split; [by exists c|]. intros p. destruct (c_pods c !! _) as [q|] eqn:Eq; simpl; [|done].
  intros [= <-]. by eapply Hsp.
Qed.

Lemma t_get_deployment ns n : triple (reg_Get deploymentsR ns n) secure_deployment.
Proof.
  intros w r w' (c & Hc & Hsp & Hsd) E. rewrite (get_deployment w c ns n Hc) in E. injection E as <- <-.
  split; [by exists c|]. intros d. destruct (c_deployments c !! _) as [q|] eqn:Eq; simpl; [|done].
  intros [= <-]. by eapply Hsd.
Qed.

Lemma values_Forall {A} (P : A → Prop) p (m : gmap string A) l :
  map_Forall (λ _, P) m → l ≡ₚ (map_to_list (with_prefix p m)).*2 → Forall P l.
Proof.
  intros Hm Hl. rewrite Hl. apply Forall_fmap, Forall_forall. intros [k x] [Hx _]%elem_of_map_to_list%with_prefix_lookup.
  by eapply Hm.
Qed.

Lemma t_list_pods ns : triple (reg_List podsR ns) (Forall secure_pod).
Proof.
  intros w r w' (c & Hc & Hsp & Hsd) E. destruct (list_pods w c ns Hc) as (l & w1 & E1 & Hc1 & Hl).
  rewrite E1 in E. injection E as <- <-. split; [by exists c|]. intros a [= <-]. by eapply values_Forall.
Qed.

Lemma t_list_deployments ns : triple (reg_List deploymentsR ns) (Forall secure_deployment).
Proof.
  intros w r w' (c & Hc & Hsp & Hsd) E. destruct (list_deployments w c ns Hc) as (l & w1 & E1 & Hc1 & Hl).
  rewrite E1 in E. injection E as <- <-. split; [by exists c|]. intros a [= <-]. by eapply values_Forall.
Qed.

(** *** Admission *)

Ltac reads := repeat first
  [ apply reads_ret | apply reads_fail | apply reads_panic | apply reads_ownership | apply Verify_reads
  | apply reads_attempt | apply reads_wrapM | apply reads_for_each; intros ? | apply reads_get | apply reads_list
  | apply reads_bind; [|intros ?] | progress cbn zeta | case_match ].

Lemma reads_chain a : reads_only (chain_Admit chain a).
Proof.
  unfold chain_Admit, chain, default_chain. generalize (if req_Replicas (as_req a) <=? 0
    then MkAdmitState (req_set_replicas 1 (as_req a)) (as_compiled a) else a). clear a. intros a.
  assert (∀ vs a, Forall (λ v : Validator S CE, ∀ a, reads_only (v a)) vs → reads_only (chain_loop vs a)) as H.
  { clear. induction vs as [|v vs IH]; intros a Hv; simpl; [apply reads_ret|].
    apply Forall_cons in Hv as [Hv Hvs]. apply reads_bind; [done|]. intros [a1 [[]|e|]]; [by apply IH|reads..]. }
  apply H. clear H a. repeat apply Forall_cons_2; [..|apply Forall_nil_2]; intros a.
  - unfold SecurityContextPolicy_Admit. reads.
  - unfold ImageSignaturePolicy_Admit. reads.
  - unfold QuotaPolicy_Admit. reads.
  - unfold PolicyValidator_Admit. reads.
  - unfold VolumeReplicasPolicy_Admit. reads.
  - unfold VolumeOwnershipPolicy_Admit. reads.
Qed.

(** What the chain admits is secure. *)
Lemma t_chain a :
  triple (chain_Admit chain a) (λ ar, ar.2 = Ok tt → secure_spec allowed (req_Spec (as_req ar.1))).
Proof.
  intros w r w' Hw E. split.
  - exact (proj1 (t_reads _ (reads_chain a) w r w' Hw E)).
  - intros [a' r'] -> Hr. simpl in *. subst r'. by destruct (chain_guarantees _ _ _ _ _ _ _ Verify_reads E) as (_ & _ & ? & _).
Qed.

Lemma t_CreatePod pod c : triple (CreatePod chain pod c) (λ _, True).
Proof.
  unfold CreatePod. cbn zeta. case_decide; [by apply t_ret|].
  eapply t_bind; [apply t_chain|]. intros [a [[]|e|]]; simpl; intros Hsec; [|by apply t_ret|apply t_panic].
  eapply t_bind; [apply t_attempt, t_statusM, t_put_pod|intros; by apply t_ret].
  unfold secure_pod. simpl. by apply Hsec.
Qed.

Lemma t_CreateDeployment d c : triple (CreateDeployment chain d c) (λ _, True).
Proof.
  unfold CreateDeployment. cbn zeta. case_decide; [by apply t_ret|].
  eapply t_bind; [apply t_chain|]. intros [a [[]|e|]]; simpl; intros Hsec; [|by apply t_ret|apply t_panic].
  eapply t_bind; [apply t_attempt, t_statusM, t_put_deployment|intros; by apply t_ret].
  unfold secure_deployment, depTemplate. simpl.
  destruct (Deployment_GetSpec d); simpl; [by apply Hsec|constructor].
Qed.

(** *** The other handlers *)

Lemma t_UpdatePodStatus ctx ns n st : triple (UpdatePodStatus ctx ns n st) (λ _, True).
Proof.
  unfold UpdatePodStatus. eapply t_bind; [apply t_statusM, t_get_pod|]. intros p Hp.
  case_match; [apply t_fail|]. cbn zeta. eapply t_bind; [by apply t_statusM, t_put_pod|].
  intros; by apply t_ret.
Qed.

Lemma t_DeleteDeployment ns n : triple (DeleteDeployment ns n) (λ _, True).
Proof.
  unfold DeleteDeployment. eapply t_bind; [apply t_statusM, t_delete_deployment|]. intros _ _.
  eapply t_bind; [apply t_statusM, t_list_pods|]. intros l Hl. eapply t_for_each; [exact Hl|].
  intros p _. case_decide; [apply t_statusM, t_delete_pod|by apply t_ret].
Qed.

Lemma t_Heartbeat now n cap al : triple (Heartbeat now n cap al) (λ _, True).
Proof.
  unfold Heartbeat. eapply t_bind; [apply t_statusM, t_reads, reads_get|]. intros x _.
  eapply t_bind; [apply t_statusM, t_put_node|]. intros; by apply t_ret.
Qed.

Lemma t_CreateNode x : triple (CreateNode x) (λ _, True).
Proof.
  unfold CreateNode. cbn zeta. case_decide; [apply t_fail|].
  eapply t_bind; [apply t_statusM, t_put_node|]. intros; by apply t_ret.
Qed.

(** *** The controllers *)

Lemma secure_same p q : podContainers p = podContainers q → secure_pod p → secure_pod q.
Proof. unfold secure_pod, secure_spec. unfold podContainers. by intros ->. Qed.

Lemma t_schedulePod cands p :
  secure_pod p → triple (schedulePod podsR cands p) (λ pr, secure_pod pr.1).
Proof.
  intros Hp. unfold schedulePod. cbn zeta. destruct (Schedule _ _) as [node|e|]; [| |apply t_panic].
  - set (p' := if decide _ then _ else _).
    assert (secure_pod p') as Hp'.
    { eapply secure_same; [|exact Hp]. unfold p'. symmetry.
      case_decide; apply (podContainers_assign_node node p). }
    eapply t_bind; [by apply t_attempt, t_put_pod|]. intros; by apply t_ret.
  - case_decide; [by apply t_ret|].
    eapply t_bind; [by apply t_attempt, t_put_pod; eapply secure_same; [|exact Hp]|]. intros; apply t_ret.
    by eapply secure_same; [|exact Hp].
Qed.

Lemma t_schedule_pods cands l :
  Forall secure_pod l → triple (schedule_pods podsR cands l) (λ lr, Forall secure_pod lr.1).
Proof.
  intros Hl. induction Hl as [|p l Hp Hl IH]; simpl; [by apply t_ret; constructor|].
  case_decide.
  - eapply t_bind; [by apply t_schedulePod|]. intros [p' r] Hp'. simpl in Hp'.
    destruct r; [|by apply t_ret; constructor..].
    eapply t_bind; [exact IH|]. intros [l' r'] Hl'. by apply t_ret; constructor.
  - eapply t_bind; [exact IH|]. intros [l' r'] Hl'. by apply t_ret; constructor.
Qed.

Lemma t_usage : triple (computeNodeUsage podsR) (λ _, True).
Proof. eapply t_bind; [apply t_reads, reads_list|]. intros; by apply t_ret. Qed.

Lemma t_candidates usage : triple (buildNodeCandidates nodesR usage) (λ _, True).
Proof. eapply t_bind; [apply t_reads, reads_list|]. intros; by apply t_ret. Qed.

Lemma t_scheduleUnassigned l :
  Forall secure_pod l → triple (scheduleUnassigned podsR nodesR l) (λ lr, Forall secure_pod lr.1).
Proof.
  intros Hl. unfold scheduleUnassigned. case_match; [by apply t_ret|].
  eapply t_bind; [apply t_attempt, t_usage|]. intros [u|e|] _; [|by apply t_ret|apply t_panic].
  eapply t_bind; [apply t_attempt, t_candidates|]. intros [cs|e|] _; [|by apply t_ret|apply t_panic].
  by apply t_schedule_pods.
Qed.

Lemma t_pod_reconcileAll resync : triple (pod_reconcileAll (NewPodReconciler podsR nodesR resync)) (λ _, True).
Proof.
  unfold pod_reconcileAll. cbn [NewPodReconciler pr_pods pr_nodes].
  eapply t_bind; [apply t_attempt, t_list_pods|]. intros [l|e|] Hl; [|by apply t_ret|apply t_panic].
  specialize (Hl l eq_refl). case_decide; [by apply t_ret|].
  eapply t_bind; [apply t_attempt, t_usage|]. intros [u|e|] _; [|by apply t_ret|apply t_panic].
  eapply t_bind; [apply t_attempt, t_candidates|]. intros [cs|e|] _; [|by apply t_ret|apply t_panic].
  apply (t_for_each secure_pod).
  - apply Forall_forall. intros p Hp. rewrite Forall_forall in Hl. apply Hl.
    rewrite list_elem_of_In in Hp |- *. by apply List.filter_In in Hp as [? _].
  - intros p Hp. eapply t_bind; [by apply t_schedulePod|]. intros; by apply t_ret.
Qed.

Lemma t_owned_loop resync d l : Forall secure_pod l → triple (owned_loop (wired resync) d l) (Forall secure_pod).
Proof.
  intros Hl. induction Hl as [|p l Hp Hl IH]; cbn [owned_loop]; [by apply t_ret; constructor|].
  case_match; [done|]. eapply (t_bind _ _ _ (λ _, True)).
  { case_decide; [by apply t_ret|]. eapply t_bind; [apply t_attempt, t_reads, reads_get|].
    intros [n|e|] _; [by apply t_ret|case_match; [by apply t_ret|apply t_fail]|apply t_panic]. }
  intros ready _. case_match.
  - eapply t_bind; [apply t_delete_pod|]. by intros.
  - eapply t_bind; [exact IH|]. intros rest Hr. by apply t_ret; constructor.
Qed.

Lemma t_ownedPods resync d : triple (ownedPods (wired resync) d) (Forall secure_pod).
Proof. eapply t_bind; [apply t_list_pods|]. intros l Hl. by apply t_owned_loop. Qed.

Lemma t_create_loop resync d claimed occ fuel i n :
  secure_deployment d → triple (create_loop (wired resync) d claimed occ fuel i n) (λ _, True).
Proof.
  intros Hd. revert i n. induction fuel as [|fuel IH]; intros i [|n]; cbn [create_loop];
    [by apply t_ret|apply t_fail|by apply t_ret|].
  case_decide; [apply IH|]. cbn zeta. eapply t_bind; [apply t_wrapM, t_put_pod|by intros].
  case_decide; [done|]. unfold secure_pod, secure_spec. unfold pod_assign_node. simpl.
  unfold secure_deployment, secure_spec in Hd. by destruct (depTemplate d).
Qed.

Lemma t_resolveVolumeNode resync ns ms : triple (resolveVolumeNode (wired resync) ns ms) (λ _, True).
Proof.
  induction ms as [|m ms IH]; simpl; [by apply t_ret|].
  eapply t_bind; [apply t_attempt, t_reads, reads_get|].
  intros [v|e|] _; [case_decide; [done|by apply t_ret]|case_match; [done|apply t_fail]|apply t_panic].
Qed.

Lemma t_scale resync d l : secure_deployment d → triple (scale (wired resync) d l) (λ _, True).
Proof.
  intros Hd. unfold scale. cbn zeta. case_match; [|case_match; [|by apply t_ret]].
  - eapply (t_bind _ _ _ (λ _, True)); [|intros; by apply t_create_loop].
    case_decide; [by apply t_ret|]. apply t_wrapM, t_resolveVolumeNode.
  - unfold delete_loop. case_match; [apply t_panic|]. apply (t_for_each (λ _, True)); [by apply Forall_true|].
    intros p _. apply t_wrapM, t_delete_pod.
Qed.

Lemma t_claimVolumeNodes resync d l : triple (claimVolumeNodes (wired resync) d l) (λ _, True).
Proof.
  unfold claimVolumeNodes. repeat case_decide; [by apply t_ret..|].
  apply (t_for_each (λ _, True)); [by apply Forall_true|]. intros m _. unfold claim_volume.
  eapply t_bind; [apply t_attempt, t_reads, reads_get|].
  intros [v|e|] _; [|case_match; [by apply t_ret|apply t_fail]|apply t_panic].
  case_decide; [|by apply t_ret]. cbn zeta. case_match; [apply t_put_volume|apply t_panic].
Qed.

Lemma t_record_status resync d l : triple (record_status (wired resync) d l) (λ _, True).
Proof.
  unfold record_status. eapply t_bind; [apply t_wrapM, t_get_deployment|]. intros cur Hcur.
  cbn zeta. by apply t_put_deployment.
Qed.

Lemma t_dep_reconcileOne resync d : secure_deployment d → triple (dep_reconcileOne (wired resync) d) (λ _, True).
Proof.
  intros Hd. unfold dep_reconcileOne. eapply t_bind; [apply t_wrapM, t_ownedPods|]. intros l _.
  eapply t_bind; [by apply t_scale|]. intros _ _.
  eapply t_bind; [apply t_wrapM, t_ownedPods|]. intros l2 Hl2.
  eapply t_bind; [by apply t_scheduleUnassigned|]. intros [l3 r] _.
  eapply (t_bind _ _ _ (λ _, True)).
  { case_decide; [by apply t_ret|]. eapply t_logged, t_claimVolumeNodes. }
  intros _ _. apply t_record_status.
Qed.

Lemma t_dep_reconcileAll resync : triple (dep_reconcileAll (wired resync)) (λ _, True).
Proof.
  unfold dep_reconcileAll. eapply t_bind; [apply t_attempt, t_list_deployments|].
  intros [l|e|] Hl; [|by apply t_ret|apply t_panic]. specialize (Hl l eq_refl).
  eapply t_for_each; [exact Hl|]. intros d Hd. by eapply t_logged, t_dep_reconcileOne.
Qed.

Lemma t_hpa_reconcileOne resync d : triple (hpa_reconcileOne (wired_hpa resync) d) (λ _, True).
Proof.
  unfold hpa_reconcileOne. case_match; [by apply t_ret|]. case_match; [by apply t_ret|]. cbn zeta.
  case_match; [by apply t_ret|]. eapply t_bind; [apply t_reads, reads_list|]. intros all _.
  case_match. case_match; [by apply t_ret|]. eapply (t_bind _ _ _ (λ _, True)).
  { case_match; [|by apply t_ret]. eapply (t_bind _ _ _ (λ _, True)); [|intros [? ?] _; by apply t_ret].
    apply t_wrapM. eapply t_bind; [apply t_usage|]. intros u _.
    eapply (t_bind _ _ _ (λ _, True)); [|intros cap _; repeat case_match; by apply t_ret].
    eapply t_bind; [apply t_reads, reads_list|]. intros; by apply t_ret. }
  intros desired _. case_match; [by apply t_ret|]. unfold hpa_write.
  eapply t_bind; [apply t_wrapM, t_get_deployment|]. intros cur Hcur.
  destruct (Deployment_Spec cur) as [spec|] eqn:Es; [|apply t_panic]. cbn zeta. apply t_put_deployment.
  unfold secure_deployment, depTemplate in *. simpl. by rewrite Es in Hcur.
Qed.

Lemma t_hpa_reconcileAll resync : triple (hpa_reconcileAll (wired_hpa resync)) (λ _, True).
Proof.
  unfold hpa_reconcileAll. eapply t_bind; [apply t_attempt, t_list_deployments|].
  intros [l|e|] Hl; [|by apply t_ret|apply t_panic]. specialize (Hl l eq_refl).
  eapply t_for_each; [exact Hl|]. intros d Hd. by eapply t_logged, t_hpa_reconcileOne.
Qed.

Lemma t_checkAll timeout resync now : triple (checkAll (NewNodeHealthReconciler nodesR timeout resync) now) (λ _, True).
Proof.
  unfold checkAll. eapply t_bind; [apply t_attempt, t_reads, reads_list|].
  intros [l|e|] _; [|by apply t_ret|apply t_panic]. cbn zeta.
  apply (t_for_each (λ _, True)); [by apply Forall_true|]. intros n _.
  repeat case_match; [by apply t_ret..|]. eapply t_logged, t_put_node.
Qed.

(** *** The handlers of the other kinds *)

Ltac other_kind_tac := split; [reflexivity|by rewrite !not_elem_of_cons; split_and!; try done; apply not_elem_of_nil].

Lemma t_put_ret {T} `{!ProtoMessage T, !ProtoLaws T} {A} (r : Registry T) ns n x c msg (a : A) :
  other_kind r → triple (_ ← statusM c msg (reg_Put r ns n x); mret a) (λ _, True).
Proof. intros Hr. eapply t_bind; [by apply t_statusM, t_put_other|]. intros _ _. by apply t_ret. Qed.

Lemma t_CreateService s : triple (CreateService s) (λ _, True).
Proof.
  unfold CreateService. case_decide; [apply t_fail|]. eapply t_bind.
  - apply t_reads. case_decide.
    + apply reads_bind; [apply reads_statusM; unfold allocateNodePort|intros; apply reads_ret].
      apply reads_bind; [apply reads_list|]. intros all. case_match; [apply reads_ret|apply reads_fail].
    + apply reads_bind; [apply reads_statusM; unfold nodePortInUse|].
      { apply reads_bind; [apply reads_list|]. intros all. apply reads_ret. }
      intros []; [apply reads_fail|apply reads_ret].
  - intros s' _. eapply t_bind; [apply t_statusM, t_put_other; other_kind_tac|].
    intros _ _. apply t_reads, reads_resolve.
Qed.

Lemma t_CreateNamespace ns : triple (CreateNamespace ns) (λ _, True).
Proof.
  unfold CreateNamespace. case_decide; [apply t_fail|].
  eapply t_bind; [apply t_reads, reads_attempt, reads_get|]. intros [x|e|] _; [apply t_fail| |];
    (apply t_put_ret; other_kind_tac).
Qed.

Lemma t_CreatePolicy p : triple (CreatePolicy p) (λ _, True).
Proof.
  unfold CreatePolicy. do 2 (case_decide; [apply t_fail|]). case_match; [|apply t_fail|apply t_panic].
  apply t_put_ret; other_kind_tac.
Qed.

Lemma t_CreateSecret x : triple (CreateSecret x) (λ _, True).
Proof. unfold CreateSecret. case_decide; [apply t_fail|]. apply t_put_ret; other_kind_tac. Qed.

Lemma t_CreateNetworkPolicy x : triple (CreateNetworkPolicy x) (λ _, True).
Proof. unfold CreateNetworkPolicy. case_decide; [apply t_fail|]. apply t_put_ret; other_kind_tac. Qed.

Lemma t_PushImage verify now ref sig : triple (PushImage verify now ref sig) (λ _, True).
Proof.
  unfold PushImage. case_decide; [apply t_fail|]. case_match; [|apply t_fail|apply t_panic].
  apply t_put_ret; other_kind_tac.
Qed.

Lemma t_CreateVolume csi vol : (∀ id n, reads_only (csi id n)) → triple (CreateVolume csi vol) (λ _, True).
Proof.
  intros Hcsi. unfold CreateVolume. case_decide; [apply t_fail|].
  eapply t_bind; [apply t_reads, reads_statusM, Hcsi|]. intros cap _.
  eapply t_bind; [apply t_statusM, t_put_volume|]. intros _ _. by apply t_ret.
Qed.

Lemma t_DeleteVolume csi ns n : (∀ id, reads_only (csi id)) → triple (DeleteVolume csi ns n) (λ _, True).
Proof.
  intros Hcsi. unfold DeleteVolume. case_decide; [apply t_fail|].
  eapply t_bind; [apply t_reads, reads_statusM, Hcsi|]. intros _ _. apply t_statusM, t_delete_volume.
Qed.

(** ** The transition system *)

(** One step: a call of a handler, or one pass of a controller.  The outcome
    of the call is any: a result, an error, or a panic.  The handlers that only
    read, of whatever kind, are one case; the CSI driver does not write to the
    store.  Restoring a backup replaces the contents of the store as a whole
    and is not a step. *)
Inductive step : world S → world S → Prop :=
  | step_CreatePod pod c w r w' : CreatePod chain pod c w = (r, w') → step w w'
  | step_DeletePod ns n w r w' : DeletePod ns n w = (r, w') → step w w'
  | step_UpdatePodStatus ctx ns n st w r w' : UpdatePodStatus ctx ns n st w = (r, w') → step w w'
  | step_CreateDeployment d c w r w' : CreateDeployment chain d c w = (r, w') → step w w'
  | step_DeleteDeployment ns n w r w' : DeleteDeployment ns n w = (r, w') → step w w'
  | step_CreateNode x w r w' : CreateNode x w = (r, w') → step w w'
  | step_Heartbeat now n cap al w r w' : Heartbeat now n cap al w = (r, w') → step w w'
  | step_DeleteNode n w r w' : DeleteNode n w = (r, w') → step w w'
  | step_CreateVolume csi v w r w' : (∀ id n, reads_only (csi id n)) → CreateVolume csi v w = (r, w') → step w w'
  | step_DeleteVolume csi ns n w r w' : (∀ id, reads_only (csi id)) → DeleteVolume csi ns n w = (r, w') → step w w'
  | step_CreateService s w r w' : CreateService s w = (r, w') → step w w'
  | step_DeleteService ns n w r w' : DeleteService ns n w = (r, w') → step w w'
  | step_CreateNamespace x w r w' : CreateNamespace x w = (r, w') → step w w'
  | step_DeleteNamespace n w r w' : DeleteNamespace n w = (r, w') → step w w'
  | step_CreatePolicy p w r w' : CreatePolicy p w = (r, w') → step w w'
  | step_DeletePolicy n w r w' : DeletePolicy n w = (r, w') → step w w'
  | step_CreateSecret x w r w' : CreateSecret x w = (r, w') → step w w'
  | step_DeleteSecret ns n w r w' : DeleteSecret ns n w = (r, w') → step w w'
  | step_CreateNetworkPolicy x w r w' : CreateNetworkPolicy x w = (r, w') → step w w'
  | step_DeleteNetworkPolicy ns n w r w' : DeleteNetworkPolicy ns n w = (r, w') → step w w'
  | step_PushImage verify now ref sig w r w' : PushImage verify now ref sig w = (r, w') → step w w'
  | step_DeleteImage ref w r w' : DeleteImage ref w = (r, w') → step w w'
  | step_read {A} (m : M S A) w r w' : reads_only m → m w = (r, w') → step w w'
  | step_deployments resync w r w' : dep_reconcileAll (wired resync) w = (r, w') → step w w'
  | step_pods resync w r w' : pod_reconcileAll (NewPodReconciler podsR nodesR resync) w = (r, w') → step w w'
  | step_node_health timeout resync now w r w' :
      checkAll (NewNodeHealthReconciler nodesR timeout resync) now w = (r, w') → step w w'
  | step_autoscaler resync w r w' : hpa_reconcileAll (wired_hpa resync) w = (r, w') → step w w'.

Lemma step_secure w w' : step w w' → secure_world w → secure_world w'.
Proof.
  assert (∀ A (m : M S A) Q w r w', triple m Q → m w = (r, w') → secure_world w → secure_world w') as Ht.
  { intros A m Q w0 r w0' Hm E Hw. by apply (Hm _ _ _ Hw E). }
  destruct 1; (eapply Ht; [|eassumption]);
    eauto using t_CreatePod, t_UpdatePodStatus, t_CreateDeployment, t_DeleteDeployment, t_CreateNode, t_Heartbeat,
      t_dep_reconcileAll, t_pod_reconcileAll, t_checkAll, t_hpa_reconcileAll, t_CreateVolume, t_DeleteVolume,
      t_CreateService, t_CreateNamespace, t_CreatePolicy, t_CreateSecret, t_CreateNetworkPolicy, t_PushImage, t_reads;
    apply t_statusM; first [apply t_delete_pod|apply t_delete_node|apply t_delete_other; other_kind_tac].
Qed.


End system.

(** ** Witnesses *)

Module DemoSystem.
Import Codec.Reference DemoAdmission.

#[local] Existing Instance toy_cel.
#[local] Existing Instance toy_spiffe.
#[local] Existing Instance shuffle_id.
#[local] Existing Instance amd64_conv.
#[local] Instance sys_messages : ApiMessages := Build_ApiMessages _ _ _ _.
#[local] Instance sys_laws : ApiLaws := Build_ApiLaws _ _ _ _ _.
#[local] Instance sys_more : MoreMessages := Build_MoreMessages _ _ _ _ _ _.
#[local] Instance sys_more_laws : MoreLaws := Build_MoreLaws _ _ _ _ _ _ _.

Lemma demo_secure : secure_world [] demo_world.
Proof. exists (MkCluster ∅ ∅ ∅ ∅). split; [by constructor|]. split; apply map_Forall_empty. Qed.

End DemoSystem.
