(* ===== verification/NetPolicy.v ===== *)
(** * NetPolicy: the network policy engine

    internal/netpolicy/engine.go: whether traffic from a pod with some labels
    may reach a pod with others on a protocol and port.  Case-insensitive
    comparison ([strings.EqualFold]) follows Unicode case folding; of it only
    what it does on ASCII strings is used ([CaseFolding]). *)

From stdpp Require Import gmap strings list.
From Stdlib Require Import ZArith Lia.
From S2P Require Import Prelude Api.

Local Open Scope Z_scope.

(** ** [strings.EqualFold] *)

Definition ascii_lower (a : Ascii.ascii) : Ascii.ascii :=
  let n := Ascii.nat_of_ascii a in
  if (65 <=? n)%nat && (n <=? 90)%nat then Ascii.ascii_of_nat (n + 32) else a.

Fixpoint string_lower (s : string) : string :=
  match s with
  | EmptyString => EmptyString
  | String a s => String (ascii_lower a) (string_lower s)
  end.

Fixpoint is_ascii (s : string) : bool :=
  match s with
  | EmptyString => true
  | String a s => (Ascii.nat_of_ascii a <? 128)%nat && is_ascii s
  end.

Class CaseFolding := {
  EqualFold : string → string → bool;
  EqualFold_ascii : ∀ s t, is_ascii s = true → is_ascii t = true →
    EqualFold s t = bool_decide (string_lower s = string_lower t);
}.

(** Folding ASCII letters only. *)
Definition ascii_folding : CaseFolding :=
  {| EqualFold := λ s t, bool_decide (string_lower s = string_lower t);
     EqualFold_ascii := λ s t _ _, eq_refl |}.

(** ** The engine *)

Section engine.
Context {CF : CaseFolding}.

(** [labels[k]] of an absent key is the empty string. *)
Definition selectorMatches (selector labels : gmap string string) : bool :=
  forallb (λ kv, bool_decide (default "" (labels !! kv.1) = kv.2)) (map_to_list selector).

Definition port_matches (protocol : string) (port : Z) (p : NetworkPolicyPort) : bool :=
  if negb (NetworkPolicyPort_GetPort (Some p) =? 0) && negb (NetworkPolicyPort_GetPort (Some p) =? port) then false
  else if negb (bool_decide (NetworkPolicyPort_GetProtocol (Some p) = "")) &&
          negb (EqualFold (NetworkPolicyPort_GetProtocol (Some p)) protocol) then false
  else true.

Definition portAllowed (ports : list NetworkPolicyPort) (protocol : string) (port : Z) : bool :=
  match ports with
  | [] => true
  | _ => existsb (port_matches protocol port) ports
  end.

Definition peerAllowed (peers : list NetworkPolicyPeer) (sourceLabels : gmap string string) : bool :=
  match peers with
  | [] => true
  | _ => existsb (λ peer, selectorMatches (NetworkPolicyPeer_GetPodSelector (Some peer)) sourceLabels) peers
  end.

Fixpoint Allowed (policies : list NetworkPolicy) (sourceLabels destLabels : gmap string string)
    (protocol : string) (port : Z) : bool :=
  match policies with
  | [] => false
  | p :: policies =>
      let spec := NetworkPolicy_GetSpec (Some p) in
      if negb (selectorMatches (NetworkPolicySpec_GetPodSelector spec) destLabels) then
        Allowed policies sourceLabels destLabels protocol port
      else if existsb (λ ingress,
          portAllowed (NetworkPolicyIngressRule_GetPorts (Some ingress)) protocol port &&
          peerAllowed (NetworkPolicyIngressRule_GetFrom (Some ingress)) sourceLabels)
          (NetworkPolicySpec_GetIngress spec)
      then true
      else Allowed policies sourceLabels destLabels protocol port
  end.

(** ** What it decides *)

(** The labels carry every entry of the selector; an entry with an empty
    value also selects objects without that label. *)
Definition selects (selector labels : gmap string string) : Prop :=
  ∀ k v, selector !! k = Some v → labels !! k = Some v ∨ (labels !! k = None ∧ v = "").

Definition port_ok (protocol : string) (port : Z) (q : NetworkPolicyPort) : Prop :=
  (NetworkPolicyPort_Port q = 0 ∨ NetworkPolicyPort_Port q = port) ∧
  (NetworkPolicyPort_Protocol q = "" ∨ EqualFold (NetworkPolicyPort_Protocol q) protocol = true).

(** The ingress rule lets the traffic in: an empty list does not restrict. *)
Definition rule_admits (r : NetworkPolicyIngressRule) (src : gmap string string) (protocol : string) (port : Z) : Prop :=
  (NetworkPolicyIngressRule_Ports r = [] ∨
     ∃ q, q ∈ NetworkPolicyIngressRule_Ports r ∧ port_ok protocol port q) ∧
  (NetworkPolicyIngressRule_From r = [] ∨
     ∃ peer, peer ∈ NetworkPolicyIngressRule_From r ∧ selects (NetworkPolicyPeer_PodSelector peer) src).

Definition policy_admits (p : NetworkPolicy) (src dst : gmap string string) (protocol : string) (port : Z) : Prop :=
  selects (NetworkPolicySpec_GetPodSelector (NetworkPolicy_Spec p)) dst ∧
  ∃ r, r ∈ NetworkPolicySpec_GetIngress (NetworkPolicy_Spec p) ∧ rule_admits r src protocol port.

Lemma existsb_elem_of {A} (f : A → bool) (l : list A) :
  existsb f l = true ↔ ∃ x, x ∈ l ∧ f x = true.
Proof. rewrite existsb_exists. by setoid_rewrite list_elem_of_In. Qed.

Lemma selectorMatches_spec selector labels :
  selectorMatches selector labels = true ↔ selects selector labels.
Proof.
  unfold selectorMatches, selects. rewrite forallb_elem_of. split.
  - intros Hall k v Hk. apply elem_of_map_to_list in Hk. specialize (Hall (k, v) Hk).
    apply bool_decide_eq_true in Hall; simpl in Hall.
    destruct (labels !! k); simpl in *; subst; auto.
  - intros Hs [k v] Hk%elem_of_map_to_list. apply bool_decide_eq_true_2; simpl.
    destruct (Hs k v Hk) as [->|[-> ->]]; done.
Qed.

Lemma port_matches_spec protocol port q : port_matches protocol port q = true ↔ port_ok protocol port q.
Proof.
  unfold port_matches, port_ok; simpl.
  destruct (bool_decide_reflect (NetworkPolicyPort_Protocol q = "")),
    (Z.eqb_spec (NetworkPolicyPort_Port q) 0), (Z.eqb_spec (NetworkPolicyPort_Port q) port),
    (EqualFold (NetworkPolicyPort_Protocol q) protocol); simpl; intuition congruence.
Qed.

Lemma portAllowed_spec ports protocol port :
  portAllowed ports protocol port = true ↔
  ports = [] ∨ ∃ q, q ∈ ports ∧ port_ok protocol port q.
Proof.
  unfold portAllowed. destruct ports as [|q ports]; [naive_solver|].
  rewrite existsb_elem_of. setoid_rewrite port_matches_spec. naive_solver.
Qed.

Lemma peerAllowed_spec peers src :
  peerAllowed peers src = true ↔
  peers = [] ∨ ∃ peer, peer ∈ peers ∧ selects (NetworkPolicyPeer_PodSelector peer) src.
Proof.
  unfold peerAllowed. destruct peers as [|q peers]; [naive_solver|].
  rewrite existsb_elem_of. setoid_rewrite selectorMatches_spec. naive_solver.
Qed.

Lemma Allowed_spec policies src dst protocol port :
  Allowed policies src dst protocol port = true ↔
  ∃ p, p ∈ policies ∧ policy_admits p src dst protocol port.
Proof.
  induction policies as [|p policies IH]; simpl.
  { split; [done|]. intros (p & Hp & _). by apply elem_of_nil in Hp. }
  setoid_rewrite elem_of_cons.
  assert (∀ b : bool, (if b then true else Allowed policies src dst protocol port) = true ↔
            b = true ∨ Allowed policies src dst protocol port = true) as Hif
    by (intros []; intuition congruence).
  pose proof (selectorMatches_spec (NetworkPolicySpec_GetPodSelector (NetworkPolicy_Spec p)) dst) as Hsel.
  destruct (selectorMatches _ dst); simpl.
  - rewrite Hif, IH, existsb_elem_of.
    setoid_rewrite andb_true_iff. setoid_rewrite portAllowed_spec. setoid_rewrite peerAllowed_spec.
    unfold policy_admits, rule_admits. split.
    + intros [(r & Hr & Hp)|(p' & Hp' & Ha)]; [|by exists p'; auto].
      exists p. split; [by left|]. split; [by apply Hsel|by exists r].
    + intros (p' & [->|Hp'] & Ha); [left|right; by exists p'].
      destruct Ha as (_ & r & Hr & Hra). by exists r.
  - rewrite IH. split; intros (p' & Hp' & Ha); [exists p'; auto|].
    destruct Hp' as [->|Hp']; [|by exists p']. destruct Ha as [Ha _]. by apply Hsel in Ha.
Qed.
End engine.

(** C37: network policies deny by default and add up.  Traffic is allowed
    exactly when some policy selects the destination and has an ingress rule
    for it: a rule whose ports, if any, include the port and the protocol
    (compared without case) and whose peers, if any, include the source.  So
    without policies nothing is allowed, and adding policies never revokes
    what the others allow. *)
Theorem netpolicy_allowed_iff {CF : CaseFolding} policies more src dst protocol port :
  (Allowed policies src dst protocol port = true ↔
     ∃ p, p ∈ policies ∧ policy_admits p src dst protocol port) ∧
  Allowed [] src dst protocol port = false ∧
  Allowed (policies ++ more) src dst protocol port =
    Allowed policies src dst protocol port || Allowed more src dst protocol port.
Proof.
  split; [apply Allowed_spec|]. split; [done|].
  apply eq_true_iff_eq. rewrite orb_true_iff, !Allowed_spec.
  setoid_rewrite elem_of_app. split; naive_solver.
Qed.

(** The ports of a rule are compared without case. *)
Lemma tcp_folds {CF : CaseFolding} : EqualFold "tcp" "TCP" = true.
Proof. by rewrite EqualFold_ascii. Qed.
