(* ===== verification/Mesh.v ===== *)
(** * Mesh: circuit breaker, retries and the client interceptor

    internal/mesh.  Times are nanoseconds since Go's zero time, durations
    nanoseconds.  The breaker is shared by all calls of a client and each of
    its operations runs under its mutex, so every concurrent execution is a
    sequence of operations; [circuit_breaker_history] characterises the breaker
    after any such sequence.  A call of the interceptor is run against an
    environment that says what the remote end answers, when the context ends,
    what time it is and what the other calls do to the breaker meanwhile. *)

From stdpp Require Import gmap strings list.
From Stdlib Require Import ZArith Lia.
From S2P Require Import Prelude Float.

Local Open Scope Z_scope.

(** ** The circuit breaker (circuitbreaker.go) *)

Inductive State := Closed | Open | HalfOpen.

#[export] Instance State_eq_decision : EqDecision State.
Proof. solve_decision. Defined.

Definition State_String (s : State) : string :=
  match s with Open => "open" | HalfOpen => "half-open" | Closed => "closed" end.

Record CircuitBreaker := MkCircuitBreaker {
  cb_state : State;
  cb_failures : Z;
  cb_threshold : Z;
  cb_resetTimeout : Z;
  cb_openedAt : Z;
}.

Definition NewCircuitBreaker (threshold resetTimeout : Z) : CircuitBreaker :=
  MkCircuitBreaker Closed 0 (if threshold <=? 0 then 5 else threshold)
    (if resetTimeout <=? 0 then 30 * 1000000000 else resetTimeout) 0.

(** [time.Since], which saturates. *)
Definition Since (now t : Z) : Z := Z.max (- 2 ^ 63) (Z.min MaxInt64 (now - t)).

Definition cb_Allow (now : Z) (cb : CircuitBreaker) : bool * CircuitBreaker :=
  match cb_state cb with
  | Open =>
      if Since now (cb_openedAt cb) <? cb_resetTimeout cb then (false, cb)
      else (true, MkCircuitBreaker HalfOpen (cb_failures cb) (cb_threshold cb) (cb_resetTimeout cb) (cb_openedAt cb))
  | _ => (true, cb)
  end.

Definition RecordSuccess (cb : CircuitBreaker) : CircuitBreaker :=
  MkCircuitBreaker Closed 0 (cb_threshold cb) (cb_resetTimeout cb) (cb_openedAt cb).

Definition RecordFailure (now : Z) (cb : CircuitBreaker) : CircuitBreaker :=
  let failures := wrap64 (cb_failures cb + 1) in
  if bool_decide (cb_state cb = HalfOpen) || (cb_threshold cb <=? failures)
  then MkCircuitBreaker Open failures (cb_threshold cb) (cb_resetTimeout cb) now
  else MkCircuitBreaker (cb_state cb) failures (cb_threshold cb) (cb_resetTimeout cb) (cb_openedAt cb).

(** *** Histories *)

Inductive cb_op := OpAllow (now : Z) | OpSuccess | OpFailure (now : Z).

Definition cb_step (op : cb_op) (cb : CircuitBreaker) : CircuitBreaker :=
  match op with
  | OpAllow now => (cb_Allow now cb).2
  | OpSuccess => RecordSuccess cb
  | OpFailure now => RecordFailure now cb
  end.

(** The breaker after a history, most recent operation first. *)
Definition cb_run (cb : CircuitBreaker) (h : list cb_op) : CircuitBreaker := foldr cb_step cb h.

(** What the history says, without the breaker: the failures recorded since
    the last success, the time of the last failure, and whether since then a
    call asked for admission after the timeout had passed. *)
Fixpoint failures_in_a_row (h : list cb_op) : Z :=
  match h with
  | [] => 0
  | OpSuccess :: _ => 0
  | OpFailure _ :: h => failures_in_a_row h + 1
  | OpAllow _ :: h => failures_in_a_row h
  end.

Fixpoint last_failure (h : list cb_op) : Z :=
  match h with
  | [] => 0
  | OpFailure t :: _ => t
  | _ :: h => last_failure h
  end.

Fixpoint probed (timeout : Z) (h : list cb_op) : bool :=
  match h with
  | [] => false
  | OpFailure _ :: _ => false
  | OpSuccess :: h => probed timeout h
  | OpAllow t :: h => probed timeout h || (timeout <=? Since t (last_failure h))
  end.

Definition state_after (threshold timeout : Z) (h : list cb_op) : State :=
  if failures_in_a_row h <? threshold then Closed
  else if probed timeout h then HalfOpen else Open.

Lemma failures_in_a_row_range h : 0 ≤ failures_in_a_row h ≤ Z.of_nat (length h).
Proof. induction h as [|[] h IH]; simpl; lia. Qed.

(** The breaker agrees with a history. *)
Definition agrees (threshold timeout : Z) (h : list cb_op) (cb : CircuitBreaker) : Prop :=
  cb_threshold cb = threshold ∧ cb_resetTimeout cb = timeout ∧
  cb_failures cb = failures_in_a_row h ∧
  cb_state cb = state_after threshold timeout h ∧
  (cb_state cb ≠ Closed → cb_openedAt cb = last_failure h).

Lemma agrees_step threshold timeout op h cb :
  0 < threshold → Z.of_nat (length h) + 1 < 2 ^ 63 →
  agrees threshold timeout h cb → agrees threshold timeout (op :: h) (cb_step op cb).
Proof.
  intros Hpos Hlen (Ht & Hr & Hf & Hs & Ho). pose proof (failures_in_a_row_range h).
  unfold agrees, state_after in *. destruct cb as [st fl th rt op']; simpl in *; subst th rt fl.
  destruct op as [now| |now]; simpl.
  - unfold cb_Allow; simpl. subst st. destruct (Z.ltb_spec (failures_in_a_row h) threshold); [by simpl|].
    destruct (probed timeout h); [by simpl; auto|]. simpl. rewrite Ho by done.
    destruct (Z.ltb_spec (Since now (last_failure h)) timeout), (Z.leb_spec timeout (Since now (last_failure h)));
      simpl; try lia; auto.
  - rewrite (proj2 (Z.ltb_lt 0 _) Hpos). naive_solver.
  - unfold RecordFailure; simpl. rewrite wrap64_id by (unfold in_int64; lia).
    destruct (Z.leb_spec threshold (failures_in_a_row h + 1)).
    + rewrite orb_true_r, (proj2 (Z.ltb_ge _ _)) by lia. simpl. auto.
    + subst st. rewrite !(proj2 (Z.ltb_lt _ _)) by lia. simpl. naive_solver.
Qed.

(** The breaker is a function of its history. *)
Lemma cb_run_agrees threshold timeout h :
  Z.of_nat (length h) < 2 ^ 63 →
  let cb0 := NewCircuitBreaker threshold timeout in
  0 < cb_threshold cb0 ∧ 0 < cb_resetTimeout cb0 ∧
  agrees (cb_threshold cb0) (cb_resetTimeout cb0) h (cb_run cb0 h).
Proof.
  intros Hlen cb0. assert (0 < cb_threshold cb0) as Hpos
    by (simpl; destruct (Z.leb_spec threshold 0); lia).
  split; [done|]. split; [simpl; destruct (Z.leb_spec timeout 0); lia|].
  induction h as [|op h IH]; simpl in Hlen.
  - unfold agrees, state_after. simpl failures_in_a_row. cbv iota. rewrite (proj2 (Z.ltb_lt 0 _) Hpos). naive_solver.
  - apply agrees_step; [done|lia|apply IH; lia].
Qed.

(** C8: the breaker is what its history says.  After any sequence of
    operations, in whatever way the calls interleave, the circuit is closed
    exactly while fewer than the threshold failures were recorded in a row; and
    the next call is refused exactly when the threshold is reached, the last
    failure is less than the timeout ago, and since that failure no call was
    let through as a probe.  (A probe lets all later calls through until its
    outcome is known.) *)
Theorem circuit_breaker_history threshold timeout h now :
  Z.of_nat (length h) < 2 ^ 63 →
  let cb := cb_run (NewCircuitBreaker threshold timeout) h in
  let threshold' := cb_threshold (NewCircuitBreaker threshold timeout) in
  let timeout' := cb_resetTimeout (NewCircuitBreaker threshold timeout) in
  0 < threshold' ∧ 0 < timeout' ∧
  (cb_state cb = Closed ↔ failures_in_a_row h < threshold') ∧
  ((cb_Allow now cb).1 = false ↔
     threshold' ≤ failures_in_a_row h ∧ probed timeout' h = false ∧
     Since now (last_failure h) < timeout').
Proof.
  intros Hlen. destruct (cb_run_agrees threshold timeout h Hlen) as (Hp & Hp' & Hag). revert Hp Hp' Hag.
  generalize (cb_run (NewCircuitBreaker threshold timeout) h).
  generalize (cb_threshold (NewCircuitBreaker threshold timeout)), (cb_resetTimeout (NewCircuitBreaker threshold timeout)).
  intros thr tmo cb Hp Hp' (Ht & Hr & Hf & Hs & Ho). cbv zeta. do 2 (split; [done|]).
  unfold cb_Allow. rewrite Hs, Hr in *. unfold state_after in *.
  destruct (Z.ltb_spec (failures_in_a_row h) thr); simpl; [split; [tauto|]; split; [done|lia]|].
  destruct (probed tmo h); simpl; (split; [split; [done|lia]|]); [split; [done|naive_solver]|].
  rewrite Ho by done.
  destruct (Z.ltb_spec (Since now (last_failure h)) tmo); simpl; split; try done; lia.
Qed.

(** ** Retries (retry.go) *)

Record RetryPolicy := MkRetryPolicy {
  MaxAttempts : Z;
  InitialBackoff : Z;
  MaxBackoff : Z;
  BackoffMultiplier : float64;
  RetryableCodes : list code;
}.

Definition DefaultRetryPolicy : RetryPolicy :=
  MkRetryPolicy 3 (100 * 1000000) (2 * 1000000000) (f_of_int 2)
    [Unavailable; DeadlineExceeded; ResourceExhausted].

Definition attempts (p : RetryPolicy) : Z := if MaxAttempts p <=? 0 then 1 else MaxAttempts p.

Section interceptor.
(** [status.FromError] of the gRPC library: the code of an error that has one. *)
Context (FromError : error → option code) {FC : FloatConv}.

Definition retryable (p : RetryPolicy) (e : error) : bool :=
  match FromError e with
  | Some c => bool_decide (c ∈ RetryableCodes p)
  | None => false
  end.

(** ** The interceptor (interceptor.go) *)

(** What a call meets: the answer to its [n]-th invocation, whether the
    context ends while it waits after it (with [ctx.Err()]), the time when it
    asks for admission (at 0) and when it has the answer of invocation [n] (at
    [n + 1]), and what the other calls do to the breaker during invocation [n]. *)
Record call_env := MkCallEnv {
  e_invoke : nat → option error;
  e_done : nat → option error;
  e_now : nat → Z;
  e_others : nat → CircuitBreaker → CircuitBreaker;
}.

(** What it leaves: its error, the breaker, the number of invocations and the
    backoffs it waited for. *)
Record call_result := MkCallResult {
  c_err : option error;
  c_breaker : CircuitBreaker;
  c_calls : nat;
  c_waits : list Z;
}.

Definition next_backoff (p : RetryPolicy) (backoff : Z) : Z :=
  let backoff := f_to_int64 (f_mul (f_of_int backoff) (BackoffMultiplier p)) in
  if (0 <? MaxBackoff p) && (MaxBackoff p <? backoff) then MaxBackoff p else backoff.

(** The loop over the attempts, [todo] of which remain. *)
Fixpoint attempt_loop (retry : RetryPolicy) (env : call_env) (todo attempt : nat) (backoff : Z)
    (lastErr : option error) (breaker : CircuitBreaker) (waits : list Z) : call_result :=
  match todo with
  | O => MkCallResult lastErr (RecordFailure (e_now env attempt) breaker) attempt waits
  | S todo =>
      let breaker := e_others env attempt breaker in
      match e_invoke env attempt with
      | None => MkCallResult None (RecordSuccess breaker) (S attempt) waits
      | Some err =>
          if (todo =? 0)%nat || negb (retryable retry err) then
            MkCallResult (Some err) (RecordFailure (e_now env (S attempt)) breaker) (S attempt) waits
          else
            match e_done env attempt with
            | Some ctxErr =>
                MkCallResult (Some ctxErr) (RecordFailure (e_now env (S attempt)) breaker) (S attempt) waits
            | None =>
                attempt_loop retry env todo (S attempt) (next_backoff retry backoff) (Some err) breaker
                  (waits ++ [backoff])
            end
      end
  end.

Definition ClientInterceptor (retry : RetryPolicy) (env : call_env) (breaker : CircuitBreaker) : call_result :=
  let '(ok, breaker) := cb_Allow (e_now env 0) breaker in
  if negb ok then MkCallResult (Some (Status Unavailable "mesh: circuit breaker open")) breaker 0 []
  else attempt_loop retry env (Z.to_nat (attempts retry)) 0 (InitialBackoff retry) None breaker [].

(** The breaker as a call finds it after its first [n] invocations. *)
Fixpoint interfered (env : call_env) (n : nat) (breaker : CircuitBreaker) : CircuitBreaker :=
  match n with O => breaker | S n => e_others env n (interfered env n breaker) end.

(** The invocations before the [n]-th failed, could be retried, and the context went on. *)
Definition retried (retry : RetryPolicy) (env : call_env) (n : nat) : Prop :=
  ∀ k, (k < n)%nat → ∃ e, e_invoke env k = Some e ∧ retryable retry e = true ∧ e_done env k = None.

(** How a call ends after [S n] invocations. *)
Inductive call_end (retry : RetryPolicy) (env : call_env) (n : nat) (cb : CircuitBreaker) :
    option error → CircuitBreaker → Prop :=
  | end_success :
      e_invoke env n = None → call_end retry env n cb None (RecordSuccess cb)
  | end_failure e :
      e_invoke env n = Some e → Z.of_nat (S n) = attempts retry ∨ retryable retry e = false →
      call_end retry env n cb (Some e) (RecordFailure (e_now env (S n)) cb)
  | end_cancelled e ctxErr :
      e_invoke env n = Some e → retryable retry e = true → e_done env n = Some ctxErr →
      call_end retry env n cb (Some ctxErr) (RecordFailure (e_now env (S n)) cb).

Lemma next_backoff_le retry b : 0 < MaxBackoff retry → next_backoff retry b ≤ MaxBackoff retry.
Proof.
  intros Hm. unfold next_backoff. rewrite (proj2 (Z.ltb_lt _ _) Hm). simpl.
  destruct (Z.ltb_spec (MaxBackoff retry) (f_to_int64 (f_mul (f_of_int b) (BackoffMultiplier retry)))); lia.
Qed.

Lemma attempt_loop_spec retry env todo n b last cb0 waits :
  Z.of_nat (S todo + n) = attempts retry → retried retry env n → length waits = n →
  (0 < MaxBackoff retry → Forall (λ w, w ≤ MaxBackoff retry) (tail (waits ++ [b]))) →
  let r := attempt_loop retry env (S todo) n b last (interfered env n cb0) waits in
  ∃ k, c_calls r = S k ∧ Z.of_nat (S k) ≤ attempts retry ∧ retried retry env k ∧
    call_end retry env k (interfered env (S k) cb0) (c_err r) (c_breaker r) ∧
    length (c_waits r) = k ∧
    (0 < MaxBackoff retry → Forall (λ w, w ≤ MaxBackoff retry) (tail (c_waits r))).
Proof.
  revert n b last waits. induction todo as [|todo IH]; intros n b last waits Hn Hr Hw Hb r; subst r;
    assert (0 < MaxBackoff retry → Forall (λ w, w ≤ MaxBackoff retry) (tail waits)) as Hb'
    by (intros Hm; specialize (Hb Hm); destruct waits; simpl in *; [done|]; by apply Forall_app in Hb as [? _]);
    cbn [attempt_loop]; destruct (e_invoke env n) as [e|] eqn:Hinv; simpl.
  - exists n. split_and!; auto; [lia|]. apply end_failure; [done|left; lia].
  - exists n. split_and!; auto; [lia|]. by apply end_success.
  - destruct (retryable retry e) eqn:Hre; simpl.
    2:{ exists n. split_and!; auto; [lia|]. apply end_failure; auto. }
    destruct (e_done env n) as [ce|] eqn:Hd; simpl.
    { exists n. split_and!; auto; [lia|]. by apply (end_cancelled _ _ _ _ e). }
    apply (IH (S n) (next_backoff retry b) (Some e)); [lia| | |].
    + intros k Hk. destruct (decide (k = n)) as [->|]; [by exists e|apply Hr; lia].
    + rewrite length_app, Hw. simpl. lia.
    + intros Hm. specialize (Hb Hm). destruct waits as [|w waits]; simpl in *.
      * constructor; [by apply next_backoff_le|done].
      * apply Forall_app. split; [done|]. constructor; [by apply next_backoff_le|done].
  - exists n. split_and!; auto; [lia|]. by apply end_success.
Qed.
End interceptor.

(** C35: what a call through the mesh does, whatever other calls do to the
    breaker meanwhile.  If the breaker refuses it, nothing is invoked and the
    breaker is left alone.  Otherwise the method is invoked at least once and
    at most as often as the policy says; every invocation but the last failed
    with a retryable code; the call ends with the answer of the last one or
    with the error of its context, and records exactly that outcome; and no
    wait but the first exceeds the maximal backoff. *)
Theorem mesh_call_outcome FromError {FC : FloatConv} retry env cb :
  let r := ClientInterceptor FromError retry env cb in
  let '(ok, cb1) := cb_Allow (e_now env 0) cb in
  if ok then
    ∃ k, c_calls r = S k ∧ Z.of_nat (S k) ≤ attempts retry ∧ retried FromError retry env k ∧
      call_end FromError retry env k (interfered env (S k) cb1) (c_err r) (c_breaker r) ∧
      length (c_waits r) = k ∧
      (0 < MaxBackoff retry → Forall (λ w, w ≤ MaxBackoff retry) (tail (c_waits r)))
  else r = MkCallResult (Some (Status Unavailable "mesh: circuit breaker open")) cb 0 [].
Proof.
  unfold ClientInterceptor, cb_Allow. cbv zeta.
  assert (∃ n, Z.to_nat (attempts retry) = S n ∧ Z.of_nat (S n + 0) = attempts retry) as (n & -> & Hn).
  { unfold attempts. destruct (Z.leb_spec (MaxAttempts retry) 0); [by exists 0%nat|].
    exists (Z.to_nat (MaxAttempts retry) - 1)%nat. lia. }
  assert (∀ cb1, let r := attempt_loop FromError retry env (S n) 0 (InitialBackoff retry) None cb1 [] in
    ∃ k, c_calls r = S k ∧ Z.of_nat (S k) ≤ attempts retry ∧ retried FromError retry env k ∧
      call_end FromError retry env k (interfered env (S k) cb1) (c_err r) (c_breaker r) ∧
      length (c_waits r) = k ∧
      (0 < MaxBackoff retry → Forall (λ w, w ≤ MaxBackoff retry) (tail (c_waits r)))) as Hloop.
  { intros cb1. apply (attempt_loop_spec FromError retry env n 0 (InitialBackoff retry) None cb1 []); auto.
    intros k Hk. lia. }
  destruct (cb_state cb); [apply Hloop| |apply Hloop].
  destruct (Since (e_now env 0) (cb_openedAt cb) <? cb_resetTimeout cb); [done|apply Hloop].
Qed.

(** ** Examples *)

(** Two failures open a breaker of threshold two; a minute later a probe passes. *)
Lemma circuit_breaker_history_witness :
  (cb_Allow 20 (cb_run (NewCircuitBreaker 2 60) [OpFailure 10; OpAllow 9; OpFailure 5])).1 = false ∧
  ¬ (cb_Allow 70 (cb_run (NewCircuitBreaker 2 60) [OpFailure 10; OpAllow 9; OpFailure 5])).1 = false.
Proof.
  split.
  - apply (circuit_breaker_history 2 60 [OpFailure 10; OpAllow 9; OpFailure 5] 20); [simpl; lia|].
    vm_compute. split_and!; done.
  - intros (_ & _ & Hs)%(circuit_breaker_history 2 60 [OpFailure 10; OpAllow 9; OpFailure 5] 70); [|simpl; lia].
    vm_compute in Hs. discriminate.
Defined.
