(* ===== verification/Agent.v ===== *)
(** * Agent: the node agent

    internal/agent: the reconciliation loop of a node (agent.go), its table of
    processes (process.go) and its port proxies (nodeport.go).

    The agent runs in one goroutine.  Its own state is [agent_state]: the
    tracked processes, the streaks of missing containers, the queue of exit
    events and the active port proxies, next to the state of everything it
    calls.  That is the parameter [Host]: containerd, buildkit, the operating
    system and the RPC clients of the API server, with arbitrary answers that
    may depend on everything that was asked before.  The requests that the
    agent sends to report a status are kept in [ag_reports]. *)

From stdpp Require Import gmap strings list pretty.
From Stdlib Require Import Ascii ZArith Lia.
From S2P Require Import Prelude Api.

Local Open Scope Z_scope.

(** ** Data *)

(** The configuration, and whether the agent was given a client of the
    service API ([a.services != nil]). *)
Record Config := MkConfig {
  cfg_NodeName : string;
  cfg_InternalIP : string;
  cfg_LogDir : string;
  cfg_BuildDir : string;
  cfg_BuildkitAddr : string;
  cfg_VolumesDir : string;
  cfg_services : bool;
}.

Record exitEvent := MkExitEvent { ev_key : string; ev_exitCode : Z }.

#[export] Instance exitEvent_eq_decision : EqDecision exitEvent.
Proof. solve_decision. Defined.

(** A process is a pid ([cmd.Process]), a WebAssembly runtime by its handle,
    or a container by its id. *)
Record trackedProcess := MkTrackedProcess {
  tp_pod : Pod;
  tp_cmd : option Z;
  tp_wasmRuntime : option Z;
  tp_containerID : string;
  tp_restarts : Z;
}.

(** [specs.Mount] and [containerdRunSpec] of containerd_client.go. *)
Record mount := MkMount { mnt_source : string; mnt_destination : string; mnt_options : list string }.

Record containerdRunSpec := MkRunSpec {
  rs_id : string;
  rs_image : string;
  rs_command : list string;
  rs_env : gmap string string;
  rs_cpuMillis : Z;
  rs_memBytes : Z;
  rs_mounts : list mount;
  rs_logPath : string;
}.

(** The fields of an [UpdatePodStatusRequest]. *)
Record statusReport := MkStatusReport {
  sr_Namespace : string;
  sr_Name : string;
  sr_Status : PodStatus;
}.

#[export] Instance statusReport_eq_decision : EqDecision statusReport.
Proof. solve_decision. Defined.

Record agent_state (E : Type) := MkAgentState {
  ag_procs : gmap string trackedProcess;
  ag_missingStreaks : gmap string Z;
  ag_exited : list exitEvent;
  ag_active : gmap Z string;
  ag_reports : list statusReport;
  ag_host : E;
}.
Arguments MkAgentState {E}.
Arguments ag_procs {E}.
Arguments ag_missingStreaks {E}.
Arguments ag_exited {E}.
Arguments ag_active {E}.
Arguments ag_reports {E}.
Arguments ag_host {E}.

(** Everything the agent calls.  Each operation may change the host, and
    returns an error ([inl]) or a value ([inr]). *)
Class Host (E : Type) := {
  (** RPCs of the API server *)
  h_ListPods : E → (error + list Pod) * E;
  h_ListServices : E → (error + list Service) * E;
  h_UpdatePodStatus : statusReport → E → (error + unit) * E;
  (** containerd: which tasks there are and whether each is running, the pid
      of a task, removing and running a container, pulling an image *)
  h_TaskStatuses : E → (error + gmap string bool) * E;
  h_TaskPID : string → E → (error + Z) * E;
  h_RemoveContainer : string → E → E;
  h_PullImage : string → E → (error + string) * E;
  h_RunContainer : containerdRunSpec → E → (error + unit) * E;
  (** buildkit: build an image from source, below the build directory (or a
      temporary one), and look it up *)
  h_BuildImage : string → string → string → string → BuildSource → E → (error + string) * E;
  (** the operating system *)
  h_PrepareLog : string → string → E → (error + string) * E;
  h_EnsureVolumeDir : string → string → string → E → (error + string) * E;
  h_Exec : list string → E → (error + Z) * E;
  h_Kill : Z → E → E;
  h_ReadFile : string → E → (error + bytes) * E;
  h_RSS : Z → E → (error + Z) * E;
  h_Listen : Z → E → (error + unit) * E;
  h_CloseListener : Z → E → E;
  (** wazero *)
  h_WasmNew : E → (error + Z) * E;
  h_WasmClose : Z → E → E;
  (** [err.Error()] *)
  h_ErrorText : error → string;
}.

(** ** Image references (process.go) *)

(** [strings.Index] of a byte: what precedes its first occurrence. *)
Fixpoint before_char (c : Ascii.ascii) (s : string) : option string :=
  match s with
  | EmptyString => None
  | String a s => if bool_decide (a = c) then Some EmptyString else String a <$> before_char c s
  end.

(** [strings.LastIndex] of a byte, -1 when there is none. *)
Fixpoint last_index_from (c : Ascii.ascii) (i found : Z) (s : string) : Z :=
  match s with
  | EmptyString => found
  | String a s => last_index_from c (i + 1) (if bool_decide (a = c) then i else found) s
  end.
Definition LastIndexByte (s : string) (c : Ascii.ascii) : Z := last_index_from c 0 (-1) s.

Definition expandRegistry (ref : string) : string :=
  if HasPrefix ref "docker.io/" || HasPrefix ref "localhost/" then ref
  else
    match before_char slash ref with
    | None => "docker.io/library/" +:+ ref
    | Some firstSegment =>
        if contains_char "."%char firstSegment || contains_char ":"%char firstSegment
           || bool_decide (firstSegment = "localhost")
        then ref
        else "docker.io/" +:+ ref
    end.

Definition ensureTagOrDigest (ref : string) : string :=
  if contains_char "@"%char ref then ref
  else if LastIndexByte ref slash <? LastIndexByte ref ":"%char then ref
  else ref +:+ ":latest".

Definition resolveImageRef (ref : string) : string := ensureTagOrDigest (expandRegistry ref).

(** ** The process table (process.go) *)

Definition podKey (pod : Pod) : string := podNamespace pod +:+ "/" +:+ podName pod.

Definition containerNameRaw (namespace name : string) : string :=
  "nimbus-" +:+ namespace +:+ "-" +:+ name.

Definition containerName (pod : Pod) : string := containerNameRaw (podNamespace pod) (podName pod).

Definition firstContainer (pod : Pod) : option Container := head (podContainers pod).

(** How many ticks a task must be absent before it counts as exited, and the
    capacity of the queue of exit events. *)
Definition containerdMissingConfirmations : Z := 3.
Definition exited_capacity : nat := 32.

(** A send on the queue either succeeds or blocks: the queue is received from
    only by the loop that sends. *)
Inductive progress := Done | Blocked.

#[export] Instance progress_eq_decision : EqDecision progress.
Proof. solve_decision. Defined.

Section agent.
Context {E : Type} {HH : Host E} {Sh : Shuffle}.
Context (cfg : Config).

Abbreviation A := (M (agent_state E)).

(** *** Access to the state *)

Definition get : A (agent_state E) := λ w, (Ok (w_store w), w).
Definition put (s : agent_state E) : A unit := λ w, (Ok tt, World s (w_tick w)).

Definition set_procs (procs : gmap string trackedProcess) : A unit :=
  s ← get;
  put (MkAgentState procs (ag_missingStreaks s) (ag_exited s) (ag_active s) (ag_reports s) (ag_host s)).
Definition set_streaks (streaks : gmap string Z) : A unit :=
  s ← get;
  put (MkAgentState (ag_procs s) streaks (ag_exited s) (ag_active s) (ag_reports s) (ag_host s)).
Definition set_active (active : gmap Z string) : A unit :=
  s ← get;
  put (MkAgentState (ag_procs s) (ag_missingStreaks s) (ag_exited s) active (ag_reports s) (ag_host s)).

(** A call of the host, and one that cannot fail. *)
Definition hcall {B} (f : E → (error + B) * E) : A B := λ w,
  let s := w_store w in
  let '(r, e) := f (ag_host s) in
  (match r with inl err => Err err | inr b => Ok b end, World (MkAgentState (ag_procs s) (ag_missingStreaks s) (ag_exited s) (ag_active s) (ag_reports s) e) (w_tick w)).
Definition hdo (f : E → E) : A unit := hcall (λ e, (inr tt, f e)).

(** [r.exited <- ev] *)
Definition send (ev : exitEvent) : A progress :=
  s ← get;
  if (length (ag_exited s) <? exited_capacity)%nat then
    _ ← put (MkAgentState (ag_procs s) (ag_missingStreaks s) (ag_exited s ++ [ev]) (ag_active s) (ag_reports s) (ag_host s));
    mret Done
  else mret Blocked.

Fixpoint send_all (evs : list exitEvent) : A progress :=
  match evs with
  | [] => mret Done
  | ev :: evs => p ← send ev; match p with Done => send_all evs | Blocked => mret Blocked end
  end.

(** *** Reading the table *)

Definition has (key : string) : A bool :=
  s ← get; mret (bool_decide (is_Some (ag_procs s !! key))).

Definition keys : A (list string) :=
  s ← get; range (map_to_list (ag_procs s)).*1.

Definition restartCount (key : string) : A Z :=
  s ← get; mret (match ag_procs s !! key with Some tp => tp_restarts tp | None => 0 end).

Definition podOf (key : string) : A (option Pod) :=
  s ← get; mret (tp_pod <$> ag_procs s !! key).

(** The memory of a process id, zero when it cannot be read. *)
Definition rss (pid : Z) : A Z :=
  r ← attempt (hcall (h_RSS pid));
  mret (match r with Ok v => wrap64 v | _ => 0 end).

Definition memoryUsageBytes (key : string) : A Z :=
  s ← get;
  match ag_procs s !! key with
  | None => mret 0
  | Some tp =>
      if negb (bool_decide (tp_containerID tp = "")) then
        found ← attempt (hcall (h_TaskPID (tp_containerID tp)));
        match found with Ok pid => rss pid | _ => mret 0 end
      else
        match tp_cmd tp with Some pid => rss pid | None => mret 0 end
  end.

(** *** Starting *)

(** [r.procs[key] = &trackedProcess{...}], keeping the restarts of the entry it replaces. *)
Definition track (key : string) (pod : Pod) (cmd wasm : option Z) (id : string) : A unit :=
  s ← get;
  let restarts := match ag_procs s !! key with Some existing => tp_restarts existing | None => 0 end in
  set_procs (<[key := MkTrackedProcess pod cmd wasm id restarts]> (ag_procs s)).

(** The loop over the volume mounts of the pod. *)
Definition pod_mounts (pod : Pod) : A (list mount) :=
  if decide (cfg_VolumesDir cfg = "") then mret []
  else
    map_each (PodSpec_GetVolumes (Pod_Spec pod)) (λ m,
      volDir ← hcall (h_EnsureVolumeDir (cfg_VolumesDir cfg) (podNamespace pod) (VolumeMount_GetVolumeName (Some m)));
      let mode := if VolumeMount_GetReadOnly (Some m) then "ro" else "rw" in
      mret [MkMount volDir (VolumeMount_GetMountPath (Some m)) ["rbind"; mode]]).

Definition startContainerd (pod : Pod) : A unit :=
  let key := podKey pod in
  let c := firstContainer pod in
  let id := containerName pod in
  _ ← hdo (h_RemoveContainer id);
  image ← match Container_GetBuildSource c with
          | Some src =>
              let buildkitAddr := if decide (cfg_BuildkitAddr cfg = "")
                                  then "unix:///run/buildkit/buildkitd.sock" else cfg_BuildkitAddr cfg in
              hcall (h_BuildImage buildkitAddr (cfg_BuildDir cfg) (cfg_LogDir cfg) id src)
          | None => hcall (h_PullImage (resolveImageRef (Container_GetImage c)))
          end;
  logPath ← (if decide (cfg_LogDir cfg = "") then mret "" else hcall (h_PrepareLog (cfg_LogDir cfg) id));
  mounts ← pod_mounts pod;
  let limits := ResourceRequirements_GetLimits (Container_GetResources c) in
  _ ← hcall (h_RunContainer (MkRunSpec id image (Container_GetCommand c) (Container_GetEnv c)
        (ResourceList_GetCpuMillis limits) (ResourceList_GetMemoryBytes limits) mounts logPath));
  track key pod None None id.

Definition startProcess (pod : Pod) : A unit :=
  let key := podKey pod in
  let args := Container_GetCommand (firstContainer pod) in
  match args with
  | [] => fail (Errorf "agent: pod has neither a command nor a wasm_module_path to run")
  | _ => pid ← hcall (h_Exec args); track key pod (Some pid) None ""
  end.

Definition startWASM (pod : Pod) (modulePath : string) : A unit :=
  let key := podKey pod in
  _ ← wrapM "agent: read wasm module" (hcall (h_ReadFile modulePath));
  rt ← wrapM "agent: init wasm runtime" (hcall h_WasmNew);
  track key pod None (Some rt) "".

Definition start (pod : Pod) : A unit :=
  let c := firstContainer pod in
  if negb (bool_decide (Container_GetWasmModulePath c = "")) then startWASM pod (Container_GetWasmModulePath c)
  else if negb (bool_decide (Container_GetImage c = "")) || bool_decide (is_Some (Container_GetBuildSource c))
  then startContainerd pod
  else startProcess pod.

Definition adoptIfRunning (pod : Pod) : A bool :=
  let c := firstContainer pod in
  if bool_decide (Container_GetImage c = "") && bool_decide (Container_GetBuildSource c = None) then mret false
  else
    let id := containerName pod in
    statuses ← attempt (hcall h_TaskStatuses);
    match statuses with
    | Ok statuses =>
        if default false (statuses !! id) then
          s ← get;
          _ ← set_procs (<[podKey pod := MkTrackedProcess pod None None id 0]> (ag_procs s));
          mret true
        else mret false
    | _ => mret false
    end.

(** *** Exits *)

(** The body of the loop of [checkContainerdExits] over the tracked processes:
    the new streaks, and the event if the container counts as exited. *)
Definition miss_step (statuses : gmap string bool) (streaks : gmap string Z) (key : string) (tp : trackedProcess) :
    gmap string Z * list exitEvent :=
  if decide (tp_containerID tp = "") then (streaks, [])
  else if default false (statuses !! tp_containerID tp) then (delete key streaks, [])
  else
    let n := wrap64 (zlookup streaks key + 1) in
    if n <? containerdMissingConfirmations then (<[key := n]> streaks, [])
    else (delete key streaks, [MkExitEvent key (-1)]).

Definition miss_loop (statuses : gmap string bool) (procs : list (string * trackedProcess)) (streaks : gmap string Z) :
    gmap string Z * list exitEvent :=
  foldl (λ '(streaks, exits) kv,
    let '(streaks, evs) := miss_step statuses streaks kv.1 kv.2 in (streaks, exits ++ evs)) (streaks, []) procs.

Definition checkContainerdExits : A progress :=
  statuses ← attempt (hcall h_TaskStatuses);
  match statuses with
  | Ok statuses =>
      s ← get;
      procs ← range (map_to_list (ag_procs s));
      let '(streaks, exits) := miss_loop statuses procs (ag_missingStreaks s) in
      _ ← set_streaks streaks;
      send_all exits
  | _ => mret Done
  end.

Definition stillRunning (key : string) : A bool :=
  s ← get;
  match ag_procs s !! key with
  | None => mret false
  | Some tp =>
      if decide (tp_containerID tp = "") then mret false
      else
        statuses ← attempt (hcall h_TaskStatuses);
        mret (match statuses with Ok m => default false (m !! tp_containerID tp) | _ => false end)
  end.

(** *** Restarting and stopping *)

Definition add_restart (tp : trackedProcess) : trackedProcess :=
  MkTrackedProcess (tp_pod tp) (tp_cmd tp) (tp_wasmRuntime tp) (tp_containerID tp) (wrap32 (tp_restarts tp + 1)).

Definition restart (pod : Pod) : A unit :=
  let key := podKey pod in
  s ← get;
  _ ← set_procs (alter add_restart key (ag_procs s));
  start pod.

Definition stop (key : string) : A unit :=
  s ← get;
  let tp := ag_procs s !! key in
  _ ← set_procs (delete key (ag_procs s));
  match tp with
  | None => mret ()
  | Some tp =>
      _ ← (if decide (tp_containerID tp = "") then mret () else hdo (h_RemoveContainer (tp_containerID tp)));
      _ ← match tp_cmd tp with Some pid => hdo (h_Kill pid) | None => mret () end;
      match tp_wasmRuntime tp with Some rt => hdo (h_WasmClose rt) | None => mret () end
  end.

Definition stopAll : A unit :=
  ks ← keys; for_each ks stop.

(** ** Port proxies (nodeport.go) *)

(** The target of a service on this node, if it has one. *)
Definition proxy_of (selfIP : string) (s : Service) : option (Z * string) :=
  let nodePort := ServiceSpec_GetNodePort (Service_Spec s) in
  if nodePort =? 0 then None
  else
    let targetPort := ServiceSpec_GetTargetPort (Service_Spec s) in
    let targetPort := if targetPort =? 0 then ServiceSpec_GetPort (Service_Spec s) else targetPort in
    if targetPort =? 0 then None
    else if existsb (λ ep, bool_decide (ServiceEndpoint_GetNodeIp (Some ep) = selfIP))
              (ServiceStatus_GetEndpoints (Service_Status s))
    then Some (nodePort, "127.0.0.1:" +:+ pretty targetPort)
    else None.

Definition desired_proxies (services : list Service) (selfIP : string) : gmap Z string :=
  foldl (λ d s, match proxy_of selfIP s with Some (port, target) => <[port := target]> d | None => d end) ∅ services.

(** The body of the loop over the wanted proxies. *)
Definition ensure_proxy (port : Z) (target : string) : A unit :=
  s ← get;
  let existing := ag_active s !! port in
  if bool_decide (existing = Some target) then mret ()
  else
    _ ← match existing with
        | Some _ => _ ← hdo (h_CloseListener port); set_active (delete port (ag_active s))
        | None => mret ()
        end;
    p ← attempt (hcall (h_Listen port));
    match p with
    | Ok _ => s ← get; set_active (<[port := target]> (ag_active s))
    | _ => mret ()
    end.

(** The body of the loop over the active proxies. *)
Definition drop_proxy (desired : gmap Z string) (port : Z) : A unit :=
  if bool_decide (is_Some (desired !! port)) then mret ()
  else
    _ ← hdo (h_CloseListener port);
    s ← get; set_active (delete port (ag_active s)).

Definition np_reconcile (services : list Service) (selfIP : string) : A unit :=
  let desired := desired_proxies services selfIP in
  wanted ← range (map_to_list desired);
  _ ← for_each wanted (λ kv, ensure_proxy kv.1 kv.2);
  s ← get;
  active ← range (map_to_list (ag_active s)).*1;
  for_each active (drop_proxy desired).

Definition np_stopAll : A unit :=
  s ← get;
  active ← range (map_to_list (ag_active s)).*1;
  for_each active (drop_proxy ∅).

(** ** The loop of the node (agent.go) *)

Definition reportStatus (pod : Pod) (phase : PodPhase) (message : string) (restarts memory : Z) : A unit :=
  let report := MkStatusReport (podNamespace pod) (podName pod) (MkPodStatus phase message [] restarts memory) in
  s ← get;
  _ ← put (MkAgentState (ag_procs s) (ag_missingStreaks s) (ag_exited s) (ag_active s)
        (ag_reports s ++ [report]) (ag_host s));
  logged (hcall (h_UpdatePodStatus report)).

Definition startPod (pod : Pod) : A unit :=
  r ← attempt (start pod);
  match r with
  | Err e => reportStatus pod POD_PHASE_FAILED (h_ErrorText e) 0 0
  | _ => reportStatus pod POD_PHASE_RUNNING "" 0 0
  end.

Definition desired_pods (pods : list Pod) : gmap string Pod :=
  foldl (λ d pod, if decide (podNodeName pod = cfg_NodeName cfg) then <[podKey pod := pod]> d else d) ∅ pods.

Definition removeOrphanContainers (wanted : gset string) : A unit :=
  statuses ← attempt (hcall h_TaskStatuses);
  match statuses with
  | Ok statuses =>
      names ← range (map_to_list statuses).*1;
      for_each names (λ name,
        if negb (HasPrefix name "nimbus-") || bool_decide (name ∈ wanted) then mret ()
        else hdo (h_RemoveContainer name))
  | _ => mret ()
  end.

Definition reconcileOrphanContainers (desired : gmap string Pod) : A unit :=
  removeOrphanContainers (list_to_set (containerName <$> (map_to_list desired).*2)).

(** The three loops of [reconcile]. *)
Definition ensure_pod (pod : Pod) : A unit :=
  h ← has (podKey pod);
  if (h : bool) then mret ()
  else
    adopted ← adoptIfRunning pod;
    if (adopted : bool) then mret () else startPod pod.

Definition stop_unwanted (desired : gmap string Pod) (key : string) : A unit :=
  if bool_decide (is_Some (desired !! key)) then mret () else stop key.

Definition report_running (key : string) : A unit :=
  pod ← podOf key;
  match pod with
  | None => mret ()
  | Some pod =>
      restarts ← restartCount key;
      memory ← memoryUsageBytes key;
      reportStatus pod POD_PHASE_RUNNING "" restarts memory
  end.

Definition agent_reconcile : A progress :=
  resp ← attempt (hcall h_ListPods);
  match resp with
  | Ok pods =>
      let desired := desired_pods pods in
      p ← checkContainerdExits;
      match p with
      | Blocked => mret Blocked
      | Done =>
          _ ← reconcileOrphanContainers desired;
          wanted ← range (map_to_list desired);
          _ ← for_each wanted (λ kv, ensure_pod kv.2);
          ks ← keys;
          _ ← for_each ks (stop_unwanted desired);
          ks ← keys;
          _ ← for_each ks report_running;
          mret Done
      end
  | _ => mret Done
  end.

Definition reconcileServices : A unit :=
  if negb (cfg_services cfg) || bool_decide (cfg_InternalIP cfg = "") then mret ()
  else
    resp ← attempt (hcall h_ListServices);
    match resp with
    | Ok services => np_reconcile services (cfg_InternalIP cfg)
    | _ => mret ()
    end.

Definition should_restart (policy : RestartPolicy) (exitCode : Z) : bool :=
  bool_decide (policy = RESTART_POLICY_UNSPECIFIED) || bool_decide (policy = RESTART_POLICY_ALWAYS) ||
  (bool_decide (policy = RESTART_POLICY_ON_FAILURE) && negb (exitCode =? 0)).

Definition handleExit (ev : exitEvent) : A unit :=
  pod ← podOf (ev_key ev);
  match pod with
  | None => mret ()
  | Some pod =>
      running ← stillRunning (ev_key ev);
      if (running : bool) then mret ()
      else if should_restart (PodSpec_GetRestartPolicy (Pod_Spec pod)) (ev_exitCode ev) then
        r ← attempt (restart pod);
        restarts ← restartCount (ev_key ev);
        match r with
        | Err e => reportStatus pod POD_PHASE_FAILED (h_ErrorText e) restarts 0
        | _ => reportStatus pod POD_PHASE_RUNNING "" restarts 0
        end
      else
        let phase := if ev_exitCode ev =? 0 then POD_PHASE_SUCCEEDED else POD_PHASE_FAILED in
        _ ← stop (ev_key ev);
        reportStatus pod phase "" 0 0
  end.

(** The waiting goroutines of [startProcess] and [startWASM] put an event on the
    queue when the process ends; here they are part of the environment.

    One turn of [Run]: the context ended, an exit event was received, or the
    ticker fired. *)
Inductive agent_event := ContextDone | ExitReceived | Tick.

Definition agent_turn (e : agent_event) : A progress :=
  match e with
  | ContextDone => _ ← stopAll; _ ← np_stopAll; mret Done
  | ExitReceived =>
      s ← get;
      match ag_exited s with
      | [] => mret Blocked
      | ev :: q =>
          _ ← put (MkAgentState (ag_procs s) (ag_missingStreaks s) q (ag_active s) (ag_reports s) (ag_host s));
          _ ← handleExit ev;
          mret Done
      end
  | Tick =>
      p ← agent_reconcile;
      match p with
      | Blocked => mret Blocked
      | Done => _ ← reconcileServices; mret Done
      end
  end.
End agent.
