(* ===== verification/AgentCorrect.v ===== *)
(** * AgentCorrect: what the node agent guarantees

    A total-correctness logic for the agent ([wp]) and the properties of its
    loop: a tick converges to the assigned pods, a container counts as exited
    only after three misses in a row, a burst of exits blocks the loop, and the
    port proxies follow the services. *)

From stdpp Require Import gmap strings list pretty.
From Stdlib Require Import Ascii ZArith Lia.
From S2P Require Import Prelude Api Agent.

Local Open Scope Z_scope.

Section logic.
Context {E : Type}.

(** Running [m] from [s] does not panic and ends as [Q] says. *)
Definition wp {B} (m : M (agent_state E) B) (Q : result B → agent_state E → Prop) (s : agent_state E) : Prop :=
  ∀ t, (m (World s t)).1 ≠ Panic ∧ Q (m (World s t)).1 (w_store (m (World s t)).2).

Lemma wp_mono {B} (m : M (agent_state E) B) (Q Q' : result B → agent_state E → Prop) s :
  wp m Q s → (∀ r s', Q r s' → Q' r s') → wp m Q' s.
Proof. intros Hm HQ t. destruct (Hm t). auto. Qed.

Lemma wp_ret {B} (b : B) (Q : result B → agent_state E → Prop) s : Q (Ok b) s → wp (mret b) Q s.
Proof. by intros HQ t. Qed.

Lemma wp_fail {B} e (Q : result B → agent_state E → Prop) s : Q (Err e) s → wp (fail e) Q s.
Proof. by intros HQ t. Qed.

Lemma wp_bind {B C} (m : M (agent_state E) B) (f : B → M (agent_state E) C) Q s :
  wp m (λ r s', match r with Ok b => wp (f b) Q s' | Err e => Q (Err e) s' | Panic => False end) s →
  wp (m ≫= f) Q s.
Proof.
  intros Hm t. destruct (Hm t) as [Hp HQ]. unfold mbind, M_mbind, M_bind.
  destruct (m (World s t)) as [[b|e|] [s' t']]; simpl in *; [apply HQ|done|done].
Qed.

Lemma wp_get (Q : result (agent_state E) → agent_state E → Prop) s : Q (Ok s) s → wp get Q s.
Proof. by intros HQ t. Qed.

Lemma wp_put s' (Q : result unit → agent_state E → Prop) s : Q (Ok tt) s' → wp (put s') Q s.
Proof. by intros HQ t. Qed.

Lemma wp_range {Sh : Shuffle} {B} (l : list B) (Q : result (list B) → agent_state E → Prop) s :
  (∀ l', l' ≡ₚ l → Q (Ok l') s) → wp (range l) Q s.
Proof. intros HQ t. split; [done|]. apply HQ, shuffle_perm. Qed.

Lemma wp_attempt {B} (m : M (agent_state E) B) (Q : result (result B) → agent_state E → Prop) s :
  wp m (λ r s', Q (Ok r) s') s → wp (attempt m) Q s.
Proof.
  intros Hm t. destruct (Hm t) as [Hp HQ]. unfold attempt.
  destruct (m (World s t)) as [[b|e|] w']; done.
Qed.

Lemma wp_logged (m : M (agent_state E) unit) (Q : result unit → agent_state E → Prop) s :
  wp m (λ _ s', Q (Ok tt) s') s → wp (logged m) Q s.
Proof.
  intros Hm t. destruct (Hm t) as [Hp HQ]. unfold logged.
  destruct (m (World s t)) as [[b|e|] w']; done.
Qed.

Lemma wp_wrapM {B} msg (m : M (agent_state E) B) (Q : result B → agent_state E → Prop) s :
  wp m (λ r s', Q (wrap_result msg r) s') s → wp (wrapM msg m) Q s.
Proof.
  intros Hm t. destruct (Hm t) as [Hp HQ]. unfold wrapM.
  destruct (m (World s t)) as [[b|e|] w']; done.
Qed.

(** A loop with an invariant on what is left to visit. *)
Lemma wp_for_each {B} (I : list B → agent_state E → Prop) l f (Q : result unit → agent_state E → Prop) s :
  I l s →
  (∀ x k s, I (x :: k) s → wp (f x) (λ r s', r = Ok tt ∧ I k s') s) →
  (∀ s', I [] s' → Q (Ok tt) s') →
  wp (for_each l f) Q s.
Proof.
  intros HI Hf HQ. revert s HI. induction l as [|x l IH]; intros s HI; simpl; [by apply wp_ret, HQ|].
  apply wp_bind. eapply wp_mono; [by apply Hf|]. intros r s' [-> HI']. by apply IH.
Qed.

(** The same state but for what the host is. *)
Definition with_host (e : E) (s : agent_state E) : agent_state E :=
  MkAgentState (ag_procs s) (ag_missingStreaks s) (ag_exited s) (ag_active s) (ag_reports s) e.

Lemma wp_hcall {B} (f : E → (error + B) * E) (Q : result B → agent_state E → Prop) s :
  Q (match (f (ag_host s)).1 with inl e => Err e | inr b => Ok b end) (with_host (f (ag_host s)).2 s) →
  wp (hcall f) Q s.
Proof. intros HQ t. unfold hcall; simpl. destruct (f (ag_host s)) as [[e|b] e']; done. Qed.

Lemma wp_hdo (f : E → E) (Q : result unit → agent_state E → Prop) s :
  (∀ e, Q (Ok tt) (with_host e s)) → wp (hdo f) Q s.
Proof. intros HQ. apply wp_hcall. simpl. apply HQ. Qed.

(** *** Calls that leave the agent's own state alone *)

(** Everything but the host, and everything but the host and the reports. *)
Definition same_own (s s' : agent_state E) : Prop :=
  ag_procs s' = ag_procs s ∧ ag_missingStreaks s' = ag_missingStreaks s ∧ ag_exited s' = ag_exited s ∧
  ag_active s' = ag_active s ∧ ag_reports s' = ag_reports s.

Lemma same_own_refl s : same_own s s.
Proof. done. Qed.
Lemma same_own_trans s1 s2 s3 : same_own s1 s2 → same_own s2 s3 → same_own s1 s3.
Proof. unfold same_own. intuition congruence. Qed.
Lemma same_own_host e s : same_own s (with_host e s).
Proof. done. Qed.

Definition quiet {B} (m : M (agent_state E) B) : Prop := ∀ s, wp m (λ _, same_own s) s.

Lemma quiet_ret {B} (b : B) : quiet (mret b).
Proof. intros s. by apply wp_ret. Qed.
Lemma quiet_hcall {B} (f : E → (error + B) * E) : quiet (hcall f).
Proof. intros s. by apply wp_hcall. Qed.
Lemma quiet_bind {B C} (m : M (agent_state E) B) (f : B → M (agent_state E) C) :
  quiet m → (∀ b, quiet (f b)) → quiet (m ≫= f).
Proof.
  intros Hm Hf s. apply wp_bind. intros t. destruct (Hm s t) as [Hp Hs]. split; [done|].
  destruct (m (World s t)).1 as [b|e|]; [|done|done].
  eapply wp_mono; [apply Hf|]. simpl. intros _ s' Hs'. by eapply same_own_trans.
Qed.
Lemma quiet_attempt {B} (m : M (agent_state E) B) : quiet m → quiet (attempt m).
Proof. intros Hm s. apply wp_attempt, Hm. Qed.
Lemma quiet_get : quiet get.
Proof. intros s. by apply wp_get. Qed.
Lemma quiet_range {Sh : Shuffle} {B} (l : list B) : quiet (range l).
Proof. intros s. apply wp_range. intros l' _. apply same_own_refl. Qed.
Lemma quiet_for_each {B} (l : list B) f : (∀ x, quiet (f x)) → quiet (for_each l f).
Proof. intros Hf. induction l as [|x l IH]; simpl; [apply quiet_ret|]. by apply quiet_bind. Qed.
Lemma quiet_map_each {B C} (l : list B) (f : B → M (agent_state E) (list C)) : (∀ x, quiet (f x)) → quiet (map_each l f).
Proof.
  intros Hf. induction l as [|x l IH]; simpl; [apply quiet_ret|].
  apply quiet_bind; [done|]. intros ys. apply quiet_bind; [done|]. intros zs. apply quiet_ret.
Qed.
End logic.

#[export] Hint Resolve quiet_ret quiet_hcall quiet_get quiet_range quiet_for_each quiet_map_each quiet_attempt
  same_own_refl same_own_host : nimbus.

(** Sequence with a quiet call. *)
Lemma wp_quiet_bind {E B C} (m : M (agent_state E) B) (f : B → M (agent_state E) C) Q s :
  quiet m →
  (∀ b s', same_own s s' → wp (f b) Q s') →
  (∀ e s', same_own s s' → Q (Err e) s') →
  wp (m ≫= f) Q s.
Proof.
  intros Hm Hf HQ. apply wp_bind. intros t. destruct (Hm s t) as [Hp Hs]. split; [done|].
  destruct (m (World s t)).1 as [b|e|]; [by apply Hf|by apply HQ|done].
Qed.

Section operations.
Context {E : Type} {HH : Host E} {Sh : Shuffle} (cfg : Config).
Implicit Types s : agent_state E.

(** The parts of the state that starting and stopping pods leaves alone. *)
Definition same_rest s s' : Prop :=
  ag_missingStreaks s' = ag_missingStreaks s ∧ ag_exited s' = ag_exited s ∧ ag_active s' = ag_active s.

(** The restarts recorded for a key. *)
Definition restarts_of s (key : string) : Z := match ag_procs s !! key with Some tp => tp_restarts tp | None => 0 end.

(** [key] is now tracked for [pod]. *)
Definition tracked_now (pod : Pod) (key : string) (restarts : Z) s s' : Prop :=
  ∃ tp, tp_pod tp = pod ∧ tp_restarts tp = restarts ∧ ag_procs s' = <[key := tp]> (ag_procs s) ∧
    same_rest s s' ∧ ag_reports s' = ag_reports s.

Lemma track_spec key pod cmd wasm id s :
  wp (track key pod cmd wasm id) (λ r s', r = Ok tt ∧ tracked_now pod key (restarts_of s key) s s') s.
Proof.
  unfold track. apply wp_bind, wp_get. unfold set_procs. apply wp_bind, wp_get, wp_put.
  split; [done|]. by exists (MkTrackedProcess pod cmd wasm id (restarts_of s key)).
Qed.

Lemma tracked_now_own pod key s s1 s2 :
  same_own s s1 → tracked_now pod key (restarts_of s1 key) s1 s2 → tracked_now pod key (restarts_of s key) s s2.
Proof.
  intros (Hp & Hm & He & Ha & Hr) (tp & Hpod & Hre & Hp2 & (Hm2 & He2 & Ha2) & Hr2).
  exists tp. unfold restarts_of, same_rest in *. rewrite Hp in Hre, Hp2. split_and!; congruence.
Qed.

(** How a start ends: the pod is tracked, or nothing of the agent changed. *)
Definition started (pod : Pod) s (r : result unit) s' : Prop :=
  match r with
  | Ok _ => tracked_now pod (podKey pod) (restarts_of s (podKey pod)) s s'
  | _ => same_own s s'
  end.

Lemma started_own pod s s1 r s' : same_own s s1 → started pod s1 r s' → started pod s r s'.
Proof. intros Hs. destruct r; simpl; [by apply tracked_now_own|by eapply same_own_trans..]. Qed.

Lemma wp_start_step {B} (m : M (agent_state E) B) (f : B → M (agent_state E) unit) pod s :
  quiet m → (∀ b s', wp (f b) (started pod s') s') → wp (m ≫= f) (started pod s) s.
Proof.
  intros Hm Hf. apply wp_quiet_bind; [done| |done]. intros b s' Hs.
  eapply wp_mono; [apply Hf|]. intros r s2 Hst. by eapply started_own.
Qed.

Lemma wp_track_last pod cmd wasm id s : wp (track (podKey pod) pod cmd wasm id) (started pod s) s.
Proof. eapply wp_mono; [apply track_spec|]. by intros r s' [-> Ht]. Qed.

Lemma quiet_wrapM {B} msg (m : M (agent_state E) B) : quiet m → quiet (wrapM msg m).
Proof. intros Hm s. apply wp_wrapM, Hm. Qed.

Lemma quiet_mounts pod : quiet (pod_mounts (E := E) cfg pod).
Proof.
  unfold pod_mounts. destruct (decide _); [apply quiet_ret|]. apply quiet_map_each. intros m.
  apply quiet_bind; [apply quiet_hcall|]. intros d. apply quiet_ret.
Qed.

Lemma start_spec pod s : wp (start cfg pod) (started pod s) s.
Proof.
  unfold start. destruct (negb _).
  { unfold startWASM. apply wp_start_step; [apply quiet_wrapM, quiet_hcall|]. intros _ s1.
    apply wp_start_step; [apply quiet_wrapM, quiet_hcall|]. intros rt s2. apply wp_track_last. }
  destruct (_ || _).
  - unfold startContainerd. apply wp_start_step; [apply quiet_hcall|]. intros _ s1.
    apply wp_start_step; [destruct (Container_GetBuildSource _); apply quiet_hcall|]. intros image s2.
    apply wp_start_step; [destruct (decide _); [apply quiet_ret|apply quiet_hcall]|]. intros logPath s3.
    apply wp_start_step; [apply quiet_mounts|]. intros mounts s4.
    apply wp_start_step; [apply quiet_hcall|]. intros _ s5. apply wp_track_last.
  - unfold startProcess. destruct (Container_GetCommand _) as [|a args]; [by apply wp_fail|].
    apply wp_start_step; [apply quiet_hcall|]. intros pid s1. apply wp_track_last.
Qed.

(** Adoption tracks a running container, as new. *)
Lemma adopt_spec pod s :
  wp (adoptIfRunning pod) (λ r s',
    (r = Ok true ∧ tracked_now pod (podKey pod) 0 s s') ∨ (r = Ok false ∧ same_own s s')) s.
Proof.
  unfold adoptIfRunning. destruct (_ && _); [apply wp_ret; right; auto with nimbus|].
  apply wp_bind, wp_attempt, wp_hcall. destruct (h_TaskStatuses (ag_host s)) as [[e|m] e']; simpl.
  { apply wp_ret. right. auto with nimbus. }
  destruct (default false _); [|apply wp_ret; right; auto with nimbus].
  apply wp_bind, wp_get. unfold set_procs. apply wp_bind, wp_bind, wp_get, wp_put, wp_ret.
  left. split; [done|]. by exists (MkTrackedProcess pod None None (containerName pod) 0).
Qed.

(** *** Reports *)

Definition report (pod : Pod) (phase : PodPhase) (message : string) (restarts memory : Z) : statusReport :=
  MkStatusReport (podNamespace pod) (podName pod) (MkPodStatus phase message [] restarts memory).

(** Only reports were sent. *)
Definition reported (rs : list statusReport) s s' : Prop :=
  ag_procs s' = ag_procs s ∧ same_rest s s' ∧ ag_reports s' = ag_reports s ++ rs.

Lemma reportStatus_spec pod phase message restarts memory s :
  wp (reportStatus pod phase message restarts memory)
    (λ r s', r = Ok tt ∧ reported [report pod phase message restarts memory] s s') s.
Proof.
  unfold reportStatus. apply wp_bind, wp_get, wp_bind, wp_put, wp_logged, wp_hcall. by split_and!.
Qed.

(** [startPod]: the pod is tracked and reported running, or reported failed. *)
Lemma startPod_spec pod s :
  ag_procs s !! podKey pod = None →
  wp (startPod cfg pod) (λ r s', r = Ok tt ∧ same_rest s s' ∧
    ((∃ tp, tp_pod tp = pod ∧ tp_restarts tp = 0 ∧ ag_procs s' = <[podKey pod := tp]> (ag_procs s) ∧
        ag_reports s' = ag_reports s ++ [report pod POD_PHASE_RUNNING "" 0 0]) ∨
     (∃ e, ag_procs s' = ag_procs s ∧
        ag_reports s' = ag_reports s ++ [report pod POD_PHASE_FAILED (h_ErrorText e) 0 0]))) s.
Proof.
  intros Hnone. unfold startPod. apply wp_bind, wp_attempt. intros t.
  destruct (start_spec pod s t) as [Hp Hst]. split; [done|].
  destruct (start cfg pod (World s t)).1 as [[]|e|] eqn:Er; [| |done].
  - destruct Hst as (tp & Hpod & Hre & Hpr & Hrest & Hrep).
    unfold restarts_of in Hre. rewrite Hnone in Hre.
    eapply wp_mono; [apply reportStatus_spec|]. simpl. intros r s' (-> & Hp' & Hr' & Hrep').
    split; [done|]. split; [unfold same_rest in *; intuition congruence|].
    left. exists tp. rewrite Hp', Hrep', Hpr, Hrep. done.
  - destruct Hst as (Hpr & Hm & He & Ha & Hrep).
    eapply wp_mono; [apply reportStatus_spec|]. simpl. intros r s' (-> & Hp' & Hr' & Hrep').
    split; [done|]. split; [unfold same_rest in *; intuition congruence|].
    right. exists e. rewrite Hp', Hrep', Hpr, Hrep. done.
Qed.
End operations.

(** ** Missing containers *)

Lemma filter_ext_elem {B} (P Q : B → Prop) `{∀ x, Decision (P x), ∀ x, Decision (Q x)} (l : list B) :
  (∀ x, x ∈ l → P x ↔ Q x) → filter P l = filter Q l.
Proof.
  intros HPQ. induction l as [|x l IH]; [done|]. rewrite !filter_cons, IH by (intros; apply HPQ; by right).
  pose proof (HPQ x ltac:(by left)). repeat case_decide; tauto.
Qed.

Section misses.

(** The container of a tracked process is not among the running tasks. *)
Definition missing (statuses : gmap string bool) (tp : trackedProcess) : bool :=
  negb (bool_decide (tp_containerID tp = "")) && negb (default false (statuses !! tp_containerID tp)).

(** It is missing, and was at the last two listings. *)
Definition due (statuses : gmap string bool) (streaks : gmap string Z) (key : string) (tp : trackedProcess) : bool :=
  missing statuses tp && (containerdMissingConfirmations <=? wrap64 (zlookup streaks key + 1)).

Lemma miss_step_events statuses streaks key tp :
  (miss_step statuses streaks key tp).2 = if due statuses streaks key tp then [MkExitEvent key (-1)] else [].
Proof.
  unfold miss_step, due, missing. destruct (decide (tp_containerID tp = "")) as [e|ne].
  { by rewrite (bool_decide_eq_true_2 _ e). }
  rewrite (bool_decide_eq_false_2 _ ne). simpl. destruct (default false _); simpl; [done|].
  rewrite Z.ltb_antisym. by destruct (containerdMissingConfirmations <=? _).
Qed.

Lemma miss_step_other statuses streaks key tp k :
  k ≠ key → (miss_step statuses streaks key tp).1 !! k = streaks !! k.
Proof.
  intros Hk. unfold miss_step. destruct (decide _); [done|]. destruct (default false _); simpl.
  - by rewrite lookup_delete_ne.
  - destruct (_ <? _); simpl; [by rewrite lookup_insert_ne|by rewrite lookup_delete_ne].
Qed.

Lemma miss_step_own statuses streaks streaks' key tp :
  streaks' !! key = streaks !! key →
  (miss_step statuses streaks' key tp).1 !! key = (miss_step statuses streaks key tp).1 !! key.
Proof.
  intros Hk. unfold miss_step, zlookup. rewrite Hk. destruct (decide _); [done|].
  destruct (default false _); simpl; [by rewrite !lookup_delete_eq|].
  destruct (_ <? _); simpl; [by rewrite !lookup_insert_eq|by rewrite !lookup_delete_eq].
Qed.

Lemma miss_fold statuses procs streaks exits :
  NoDup procs.*1 →
  let r := foldl (λ '(streaks, exits) kv,
    let '(streaks, evs) := miss_step statuses streaks kv.1 kv.2 in (streaks, exits ++ evs)) (streaks, exits) procs in
  r.2 = exits ++ ((λ kv, MkExitEvent kv.1 (-1)) <$> filter (λ kv, due statuses streaks kv.1 kv.2 = true) procs) ∧
  (∀ k, k ∉ procs.*1 → r.1 !! k = streaks !! k) ∧
  (∀ k tp, (k, tp) ∈ procs → r.1 !! k = (miss_step statuses streaks k tp).1 !! k).
Proof.
  revert streaks exits. induction procs as [|[key tp] procs IH]; intros streaks exits Hnd; simpl.
  { split; [by rewrite app_nil_r|]. split; [done|]. by intros k tp ?%elem_of_nil. }
  rewrite fmap_cons, NoDup_cons in Hnd. destruct Hnd as [Hkey Hnd]; simpl in Hkey.
  destruct (miss_step statuses streaks key tp) as [streaks1 evs] eqn:Estep.
  assert (evs = if due statuses streaks key tp then [MkExitEvent key (-1)] else []) as Hevs
    by (by rewrite <-miss_step_events, Estep).
  assert (∀ k, k ≠ key → streaks1 !! k = streaks !! k) as Hoth
    by (intros k Hk; by rewrite <-(miss_step_other statuses streaks key tp k Hk), Estep).
  destruct (IH streaks1 (exits ++ evs) Hnd) as (He & Hout & Hin). split_and!.
  - rewrite He, filter_cons, Hevs, <-app_assoc. f_equal. simpl.
    assert (filter (λ kv, due statuses streaks1 kv.1 kv.2 = true) procs =
            filter (λ kv, due statuses streaks kv.1 kv.2 = true) procs) as ->.
    { apply filter_ext_elem. intros [k tp'] Hk. unfold due, zlookup; simpl.
      rewrite Hoth; [done|]. intros ->. apply Hkey. by apply (list_elem_of_fmap_2 fst _ (key, tp')). }
    destruct (due statuses streaks key tp); [by rewrite decide_True|by rewrite decide_False].
  - intros k Hk. apply not_elem_of_cons in Hk as [Hne Hk].
    rewrite Hout by done. by apply Hoth.
  - intros k tp' [[= -> ->]|Hk]%elem_of_cons.
    + rewrite Hout by done. by rewrite Estep.
    + rewrite (Hin k tp' Hk). apply miss_step_own, Hoth. intros ->.
      apply Hkey. by apply (list_elem_of_fmap_2 fst _ (key, tp')).
Qed.

(** The containers that count as exited at a listing. *)
Definition due_procs (statuses : gmap string bool) (streaks : gmap string Z) (procs : gmap string trackedProcess) :
    gmap string trackedProcess :=
  filter (λ kv, due statuses streaks kv.1 kv.2 = true) procs.

Lemma miss_loop_spec statuses (procs : gmap string trackedProcess) order streaks :
  order ≡ₚ map_to_list procs →
  (∀ k, MkExitEvent k (-1) ∈ (miss_loop statuses order streaks).2 ↔
     is_Some (due_procs statuses streaks procs !! k)) ∧
  length (miss_loop statuses order streaks).2 = size (due_procs statuses streaks procs) ∧
  (∀ k tp, procs !! k = Some tp →
     (miss_loop statuses order streaks).1 !! k = (miss_step statuses streaks k tp).1 !! k).
Proof.
  intros Hord. unfold miss_loop.
  assert (NoDup order.*1) as Hnd by (rewrite Hord; apply NoDup_fst_map_to_list).
  destruct (miss_fold statuses order streaks [] Hnd) as (He & _ & Hin).
  rewrite He; simpl. split_and!.
  - intros k. rewrite list_elem_of_fmap. split.
    + intros ([k' tp] & [= ->] & [Hdue Hk]%list_elem_of_filter). simpl in *.
      rewrite Hord in Hk. apply elem_of_map_to_list in Hk.
      exists tp. by apply map_lookup_filter_Some.
    + intros [tp [Hk Hdue]%map_lookup_filter_Some]. exists (k, tp). split; [done|].
      apply list_elem_of_filter. split; [done|]. rewrite Hord. by apply elem_of_map_to_list.
  - rewrite length_fmap, Hord. unfold due_procs.
    rewrite <-length_map_to_list, map_filter_alt, map_to_list_to_map; [done|].
    apply (sublist_NoDup _ (map_to_list procs).*1); [apply NoDup_fst_map_to_list|apply fmap_sublist, sublist_filter].
  - intros k tp Hk. apply Hin. rewrite Hord. by apply elem_of_map_to_list.
Qed.
End misses.

(** *** Sequences of listings *)

Section listings.
Context (procs : gmap string trackedProcess).

(** A listing, with the order in which the loop visits the processes. *)
Definition observation : Type := list (string * trackedProcess) * gmap string bool.

(** The events of each listing of a sequence, most recent first. *)
Fixpoint observe (obs : list observation) : gmap string Z * list (list exitEvent) :=
  match obs with
  | [] => (∅, [])
  | (order, statuses) :: obs =>
      let '(streaks, evs) := observe obs in
      let '(streaks, ev) := miss_loop statuses order streaks in (streaks, ev :: evs)
  end.

(** For how many listings in a row the container has been missing. *)
Fixpoint misses_in_a_row (tp : trackedProcess) (obs : list observation) : Z :=
  match obs with
  | [] => 0
  | (_, statuses) :: obs => if missing statuses tp then misses_in_a_row tp obs + 1 else 0
  end.

Lemma misses_nonneg tp obs : 0 ≤ misses_in_a_row tp obs.
Proof. induction obs as [|[o st] obs IH]; simpl; [lia|]. destruct (missing _ _); lia. Qed.

Definition orders_ok (obs : list observation) : Prop := Forall (λ o, o.1 ≡ₚ map_to_list procs) obs.

(** The streak of a container counts its misses in a row, modulo three. *)
Lemma observe_streak obs key tp :
  orders_ok obs → procs !! key = Some tp → tp_containerID tp ≠ "" →
  zlookup (observe obs).1 key = misses_in_a_row tp obs mod 3.
Proof.
  intros Hord Hkey Hid. induction Hord as [|[order st] obs Ho Hord IH]; simpl; [done|].
  destruct (observe obs) as [streaks evs] eqn:Eobs. simpl in IH.
  destruct (miss_loop st order streaks) as [streaks' ev] eqn:Eloop. simpl.
  destruct (miss_loop_spec st procs order streaks Ho) as (_ & _ & Hin). rewrite Eloop in Hin. simpl in Hin.
  unfold zlookup at 1. rewrite (Hin key tp Hkey). unfold miss_step, missing.
  rewrite decide_False by done. rewrite (bool_decide_eq_false_2 _ Hid). simpl.
  pose proof (misses_nonneg tp obs). pose proof (Z.mod_pos_bound (misses_in_a_row tp obs) 3 ltac:(lia)).
  destruct (default false _); simpl; [by rewrite lookup_delete_eq|].
  rewrite IH, wrap64_id by (unfold in_int64; lia). unfold containerdMissingConfirmations.
  destruct (Z.ltb_spec (misses_in_a_row tp obs mod 3 + 1) 3); simpl.
  - rewrite lookup_insert_eq. simpl. Z.div_mod_to_equations. lia.
  - rewrite lookup_delete_eq. simpl. Z.div_mod_to_equations. lia.
Qed.
End listings.

(** A lone hiccup of the container daemon is not a crash.  Over any sequence
    of listings, whatever the order in which the processes are visited, a
    tracked container gets an exit event at a listing exactly when the number
    of listings in a row, up to that one, from which it is missing is a
    positive multiple of three; so at least three misses in a row come before
    any event. *)
Theorem exit_needs_three_misses procs key tp order statuses obs :
  orders_ok procs ((order, statuses) :: obs) → procs !! key = Some tp → tp_containerID tp ≠ "" →
  let n := misses_in_a_row tp ((order, statuses) :: obs) in
  let events := (miss_loop statuses order (observe obs).1).2 in
  (MkExitEvent key (-1) ∈ events ↔ 0 < n ∧ n mod 3 = 0) ∧
  (MkExitEvent key (-1) ∈ events → 3 ≤ n).
Proof.
  intros [Ho Hord]%Forall_cons Hkey Hid. cbv zeta. simpl in Ho.
  destruct (miss_loop_spec statuses procs order (observe obs).1 Ho) as (Hev & _ & _).
  pose proof (observe_streak procs obs key tp Hord Hkey Hid) as Hs.
  pose proof (misses_nonneg tp obs). pose proof (Z.mod_pos_bound (misses_in_a_row tp obs) 3 ltac:(lia)).
  assert (MkExitEvent key (-1) ∈ (miss_loop statuses order (observe obs).1).2 ↔
          missing statuses tp = true ∧ misses_in_a_row tp obs mod 3 = 2) as Hiff.
  { rewrite Hev. unfold due_procs, due.
    transitivity (missing statuses tp && (containerdMissingConfirmations <=? wrap64 (zlookup (observe obs).1 key + 1)) = true).
    - split; [intros [tp' [Hk Hd]%map_lookup_filter_Some]; simpl in *; by simplify_eq|].
      intros Hd. exists tp. by apply map_lookup_filter_Some.
    - rewrite Hs, wrap64_id, andb_true_iff, Z.leb_le by (unfold in_int64; lia).
      unfold containerdMissingConfirmations. intuition lia. }
  rewrite Hiff. simpl. destruct (missing statuses tp).
  - pose proof (Z.div_mod (misses_in_a_row tp obs) 3 ltac:(lia)).
    pose proof (Z.div_mod (misses_in_a_row tp obs + 1) 3 ltac:(lia)).
    pose proof (Z.mod_pos_bound (misses_in_a_row tp obs + 1) 3 ltac:(lia)). intuition lia.
  - intuition (congruence || lia).
Qed.

Section tick.
Context {E : Type} {HH : Host E} {Sh : Shuffle} (cfg : Config).
Implicit Types s : agent_state E.

(** The queue takes events until it is full. *)
Lemma send_all_spec evs s :
  (length (ag_exited s) ≤ exited_capacity)%nat →
  wp (send_all evs) (λ r s',
    r = Ok (if decide (length (ag_exited s) + length evs ≤ exited_capacity)%nat then Done else Blocked) ∧
    ag_procs s' = ag_procs s ∧ ag_missingStreaks s' = ag_missingStreaks s ∧ ag_active s' = ag_active s ∧
    ag_reports s' = ag_reports s ∧
    ((length (ag_exited s) + length evs ≤ exited_capacity)%nat → ag_exited s' = ag_exited s ++ evs)) s.
Proof.
  revert s. induction evs as [|ev evs IH]; intros s Hcap; simpl.
  { apply wp_ret. rewrite decide_True by lia. by rewrite app_nil_r. }
  apply wp_bind. unfold send. apply wp_bind, wp_get. simpl.
  destruct (Nat.ltb_spec (length (ag_exited s)) exited_capacity) as [Hlt|Hge].
  - apply wp_bind, wp_put, wp_ret. simpl. eapply wp_mono; [apply IH|].
    { simpl. rewrite length_app. simpl. lia. }
    simpl. rewrite length_app. simpl. intros r s' (-> & Hp & Hm & Ha & Hr & He).
    split; [by repeat case_decide; auto; lia|]. split_and!; [done..|].
    intros Hle. rewrite He by lia. by rewrite <-app_assoc.
  - apply wp_ret, wp_ret. rewrite decide_False by lia. split_and!; [done..|lia].
Qed.

(** What the exit check leaves alone. *)
Definition own_kept s s' : Prop :=
  ag_procs s' = ag_procs s ∧ ag_active s' = ag_active s ∧ ag_reports s' = ag_reports s.

Lemma check_spec statuses e' s :
  h_TaskStatuses (ag_host s) = (inr statuses, e') → (length (ag_exited s) ≤ exited_capacity)%nat →
  let n := size (due_procs statuses (ag_missingStreaks s) (ag_procs s)) in
  wp checkContainerdExits (λ r s',
    r = Ok (if decide (length (ag_exited s) + n ≤ exited_capacity)%nat then Done else Blocked) ∧
    own_kept s s' ∧
    ((length (ag_exited s) + n ≤ exited_capacity)%nat →
       ∃ evs, ag_exited s' = ag_exited s ++ evs ∧ length evs = n ∧
         ∀ k, MkExitEvent k (-1) ∈ evs ↔ is_Some (due_procs statuses (ag_missingStreaks s) (ag_procs s) !! k))) s.
Proof.
  intros Hst Hcap. cbv zeta. unfold checkContainerdExits. apply wp_bind, wp_attempt, wp_hcall. rewrite Hst. simpl.
  apply wp_bind, wp_get. apply wp_bind, wp_range. intros order Ho. simpl in Ho |- *.
  destruct (miss_loop_spec statuses (ag_procs s) order (ag_missingStreaks s) Ho) as (Hev & Hlen & _).
  destruct (miss_loop statuses order (ag_missingStreaks s)) as [streaks exits]; simpl in *.
  unfold set_streaks. apply wp_bind, wp_bind, wp_get, wp_put. eapply wp_mono; [by apply send_all_spec|].
  simpl. rewrite Hlen. intros r s' (-> & Hp & Hm & Ha & Hr & He). split; [done|]. split; [done|].
  intros Hle. exists exits. split; [by apply He|]. done.
Qed.

(** A burst of exits blocks the agent for good.  The queue of exit events
    holds 32 and is received from only by the loop that sends: when the
    containers that have been missing for three listings and the events
    already queued are more than 32 together, the tick waits for ever on the
    send; otherwise every such container gets its event.  Nothing else of the
    agent is touched. *)
Theorem exit_burst_blocks statuses e' w :
  h_TaskStatuses (ag_host (w_store w)) = (inr statuses, e') →
  (length (ag_exited (w_store w)) ≤ exited_capacity)%nat →
  let s := w_store w in
  let gone := due_procs statuses (ag_missingStreaks s) (ag_procs s) in
  ∃ p w', checkContainerdExits w = (Ok p, w') ∧
    (p = Blocked ↔ (exited_capacity < length (ag_exited s) + size gone)%nat) ∧
    (p = Done → ∃ evs, ag_exited (w_store w') = ag_exited s ++ evs ∧ length evs = size gone ∧
       ∀ k, MkExitEvent k (-1) ∈ evs ↔ is_Some (gone !! k)) ∧
    ag_procs (w_store w') = ag_procs s ∧ ag_active (w_store w') = ag_active s ∧
    ag_reports (w_store w') = ag_reports s.
Proof.
  destruct w as [s t]. simpl. intros Hst Hcap.
  destruct (check_spec statuses e' s Hst Hcap t) as (_ & Hr & Hsame & Hev).
  destruct (checkContainerdExits (World s t)) as [r w'] eqn:Erun. simpl in *. subst r.
  eexists _, _. split; [done|]. split; [case_decide; (split; [done|lia]) || (split; [lia|done])|].
  split; [|done]. case_decide as Hd; [auto|done].
Qed.

Lemma stop_spec key s :
  wp (stop key) (λ r s', r = Ok tt ∧ ag_procs s' = delete key (ag_procs s) ∧ same_rest s s' ∧
    ag_reports s' = ag_reports s) s.
Proof.
  unfold stop. apply wp_bind, wp_get. unfold set_procs. apply wp_bind, wp_bind, wp_get, wp_put.
  destruct (ag_procs s !! key) as [tp|]; [|by apply wp_ret].
  apply wp_bind. destruct (decide _); [apply wp_ret|apply wp_hdo; intros e];
    (apply wp_bind; destruct (tp_cmd tp); [apply wp_hdo; intros e'|apply wp_ret];
      (destruct (tp_wasmRuntime tp); [apply wp_hdo; intros e''|apply wp_ret]; done)).
Qed.

(** *** The wanted pods *)

Lemma desired_pods_fold pods (d : gmap string Pod) key pod :
  foldl (λ d pod, if decide (podNodeName pod = cfg_NodeName cfg) then <[podKey pod := pod]> d else d) d pods !! key
    = Some pod →
  (pod ∈ pods ∧ podNodeName pod = cfg_NodeName cfg ∧ podKey pod = key) ∨ d !! key = Some pod.
Proof.
  revert d. induction pods as [|p pods IH]; intros d; simpl; [by right|].
  intros [(? & ? & ?)|Hd]%IH; [left; split_and!; [by right|done..]|].
  destruct (decide _) as [Hn|]; [|by right].
  apply lookup_insert_Some in Hd as [[Hk ->]|[_ Hd]]; [left; split_and!; [by left|done..]|by right].
Qed.

Lemma desired_pods_mono pods (d : gmap string Pod) key :
  is_Some (d !! key) →
  is_Some (foldl (λ d pod, if decide (podNodeName pod = cfg_NodeName cfg) then <[podKey pod := pod]> d else d) d pods !! key).
Proof.
  revert d. induction pods as [|p pods IH]; intros d Hd; simpl; [done|]. apply IH.
  destruct (decide _); [|done]. destruct (decide (podKey p = key)) as [<-|];
    [rewrite lookup_insert_eq; eauto|by rewrite lookup_insert_ne].
Qed.

Lemma desired_pods_spec pods key :
  is_Some (desired_pods cfg pods !! key) ↔
  ∃ pod, pod ∈ pods ∧ podNodeName pod = cfg_NodeName cfg ∧ podKey pod = key.
Proof.
  unfold desired_pods. split.
  - intros [pod [?|Hd]%desired_pods_fold]; [by exists pod|by rewrite lookup_empty in Hd].
  - intros (pod & Hin & Hn & Hk). generalize (∅ : gmap string Pod). induction pods as [|p pods IH]; intros d.
    { by apply elem_of_nil in Hin. }
    simpl. apply elem_of_cons in Hin as [->|Hin]; [|by apply IH].
    apply desired_pods_mono. rewrite decide_True by done. subst key. rewrite lookup_insert_eq. eauto.
Qed.

Lemma desired_pods_key pods key pod : desired_pods cfg pods !! key = Some pod → podKey pod = key.
Proof. intros [(_ & _ & ?)|Hd]%desired_pods_fold; [done|by rewrite lookup_empty in Hd]. Qed.

(** *** The three loops of a tick *)

Lemma send_all_own evs s : wp (send_all evs) (λ r s', (∃ p, r = Ok p) ∧ own_kept s s') s.
Proof.
  revert s. induction evs as [|ev evs IH]; intros s; simpl; [apply wp_ret; split; [eauto|done]|].
  apply wp_bind. unfold send. apply wp_bind, wp_get. destruct (_ <? _)%nat.
  - apply wp_bind, wp_put, wp_ret. eapply wp_mono; [apply IH|]. by intros r s' [Hr Hs].
  - apply wp_ret, wp_ret. split; [eauto|done].
Qed.

Lemma check_own s : wp checkContainerdExits (λ r s', (∃ p, r = Ok p) ∧ own_kept s s') s.
Proof.
  unfold checkContainerdExits. apply wp_bind, wp_attempt, wp_hcall.
  destruct (h_TaskStatuses (ag_host s)) as [[e|statuses] e']; simpl; [apply wp_ret; split; [eauto|done]|].
  apply wp_bind, wp_get. apply wp_bind, wp_range. intros order _.
  destruct (miss_loop _ _ _) as [streaks exits].
  unfold set_streaks. apply wp_bind, wp_bind, wp_get, wp_put. eapply wp_mono; [apply send_all_own|].
  by intros r s' [Hr Hs].
Qed.

Lemma quiet_orphans (desired : gmap string Pod) : quiet (reconcileOrphanContainers (E := E) desired).
Proof.
  unfold reconcileOrphanContainers, removeOrphanContainers.
  apply quiet_bind; [apply quiet_attempt, quiet_hcall|]. intros [m|e|]; [|apply quiet_ret..].
  apply quiet_bind; [apply quiet_range|]. intros names. apply quiet_for_each. intros name.
  destruct (_ || _); [apply quiet_ret|apply quiet_hcall].
Qed.

Lemma orphans_Ok (desired : gmap string Pod) s t :
  ∃ u, (reconcileOrphanContainers (E := E) desired (World s t)).1 = Ok u.
Proof.
  enough (wp (reconcileOrphanContainers (E := E) desired) (λ r _, r = Ok tt) s) as Hwp
    by (exists tt; apply Hwp).
  unfold reconcileOrphanContainers, removeOrphanContainers. apply wp_bind, wp_attempt, wp_hcall.
  destruct (h_TaskStatuses (ag_host s)) as [[e|m] e']; simpl; [by apply wp_ret|].
  apply wp_bind, wp_range. intros names _. apply (wp_for_each (λ _ _, True)); [done| |done].
  intros name k s' _. destruct (_ || _); [by apply wp_ret|by apply wp_hdo].
Qed.

Context (desired : gmap string Pod) (desired_key : ∀ key pod, desired !! key = Some pod → podKey pod = key).

(** After the start loop, with the wanted pods of [k] still to visit. *)
Definition started_inv s0 (k : list (string * Pod)) s : Prop :=
  Forall (λ kv, desired !! kv.1 = Some kv.2) k ∧
  (∀ key tp, ag_procs s0 !! key = Some tp → ag_procs s !! key = Some tp) ∧
  ∃ sent, ag_reports s = ag_reports s0 ++ sent ∧
    (∀ key pod, desired !! key = Some pod →
       (key, pod) ∈ k ∨ is_Some (ag_procs s !! key) ∨ ∃ msg, report pod POD_PHASE_FAILED msg 0 0 ∈ sent).

Lemma started_inv_track s0 key pod tp k s s' rs :
  started_inv s0 ((key, pod) :: k) s → ag_procs s !! key = None →
  ag_procs s' = <[key := tp]> (ag_procs s) → ag_reports s' = ag_reports s ++ rs →
  started_inv s0 k s'.
Proof.
  intros (Hk & Hkeep & sent & Hrep & Hcov) Hnone Hp Hr.
  apply Forall_cons in Hk as [_ Hk]. split; [done|]. split.
  - intros key' tp' Ht. rewrite Hp. specialize (Hkeep _ _ Ht). rewrite lookup_insert_ne; [done|congruence].
  - exists (sent ++ rs). split; [by rewrite Hr, Hrep, app_assoc|]. intros key' pod' Hd.
    destruct (Hcov _ _ Hd) as [[[= -> ->]|Hin]%elem_of_cons|[Hs|[msg Hm]]].
    + right; left. rewrite Hp, lookup_insert_eq. eauto.
    + by left.
    + right; left. rewrite Hp. destruct (decide (key = key')) as [->|];
        [rewrite lookup_insert_eq; eauto|by rewrite lookup_insert_ne].
    + right; right. exists msg. apply elem_of_app. by left.
Qed.

Lemma started_inv_skip s0 key pod k s s' rs :
  started_inv s0 ((key, pod) :: k) s → ag_procs s' = ag_procs s → ag_reports s' = ag_reports s ++ rs →
  (is_Some (ag_procs s !! key) ∨ ∃ msg, report pod POD_PHASE_FAILED msg 0 0 ∈ rs) →
  started_inv s0 k s'.
Proof.
  intros (Hk & Hkeep & sent & Hrep & Hcov) Hp Hr Hcase.
  apply Forall_cons in Hk as [_ Hk]. split; [done|]. split; [by rewrite Hp|].
  exists (sent ++ rs). split; [by rewrite Hr, Hrep, app_assoc|]. rewrite Hp. intros key' pod' Hd.
  destruct (Hcov _ _ Hd) as [[[= -> ->]|Hin]%elem_of_cons|[Hs|[msg Hm]]]; [|auto|auto|].
  - right. destruct Hcase as [?|[msg Hm]]; [by left|right]. exists msg. apply elem_of_app. by right.
  - right; right. exists msg. apply elem_of_app. by left.
Qed.

Lemma ensure_pod_spec s0 key pod k s :
  started_inv s0 ((key, pod) :: k) s →
  wp (ensure_pod cfg pod) (λ r s', r = Ok tt ∧ started_inv s0 k s') s.
Proof.
  intros HI. pose proof HI as HI0. destruct HI0 as (Hk & _ & _). apply Forall_cons in Hk as [Hd _]. simpl in Hd.
  pose proof (desired_key _ _ Hd) as Hkey. unfold ensure_pod, has. apply wp_bind, wp_bind, wp_get, wp_ret.
  rewrite Hkey. destruct (ag_procs s !! key) as [tp|] eqn:Ep.
  { rewrite bool_decide_eq_true_2 by eauto. apply wp_ret. split; [done|].
    eapply (started_inv_skip _ _ _ _ _ _ []); [done|done|by rewrite app_nil_r|left; rewrite Ep; eauto]. }
  rewrite bool_decide_eq_false_2 by (intros [? ?]; done). apply wp_bind.
  eapply wp_mono; [apply adopt_spec|]. intros r s' [[-> Ht]|[-> Hs]].
  - apply wp_ret. split; [done|]. destruct Ht as (tp & _ & _ & Hp & _ & Hr). rewrite Hkey in Hp.
    eapply (started_inv_track _ _ _ tp _ _ _ []); [done|done|done|by rewrite app_nil_r].
  - destruct Hs as (Hp & _ & _ & _ & Hr). eapply wp_mono; [apply startPod_spec; by rewrite Hkey, Hp|].
    intros r s2 (-> & _ & [(tp & _ & _ & Hp2 & Hr2)|(e & Hp2 & Hr2)]); (split; [done|]).
    + rewrite Hkey, Hp in Hp2. rewrite Hr in Hr2. by eapply started_inv_track.
    + rewrite Hp in Hp2. rewrite Hr in Hr2. eapply started_inv_skip; [done|done|done|].
      right. exists (h_ErrorText e). by left.
Qed.

(** After the stop loop, with the keys of [ks] still to visit. *)
Definition stopped_inv s1 (ks : list string) s : Prop :=
  ag_reports s = ag_reports s1 ∧
  (∀ key, is_Some (desired !! key) → ag_procs s !! key = ag_procs s1 !! key) ∧
  (∀ key, is_Some (ag_procs s !! key) → is_Some (desired !! key) ∨ key ∈ ks).

Lemma stop_unwanted_spec s1 key ks s :
  stopped_inv s1 (key :: ks) s →
  wp (stop_unwanted desired key) (λ r s', r = Ok tt ∧ stopped_inv s1 ks s') s.
Proof.
  intros (Hr & Hkeep & Hin). unfold stop_unwanted.
  destruct (decide (is_Some (desired !! key))) as [Hd|Hd].
  - rewrite bool_decide_eq_true_2 by done. apply wp_ret. split; [done|]. split_and!; [done..|].
    intros key' Hk. destruct (Hin _ Hk) as [?|[->|?]%elem_of_cons]; auto.
  - rewrite bool_decide_eq_false_2 by done. eapply wp_mono; [apply stop_spec|].
    intros r s' (-> & Hp & _ & Hr'). split; [done|]. split_and!; [congruence| |].
    + intros key' Hk. rewrite Hp, lookup_delete_ne; [by apply Hkeep|]. intros ->. done.
    + intros key' Hk. rewrite Hp in Hk. destruct (decide (key = key')) as [->|Hne].
      { rewrite lookup_delete_eq in Hk. by destruct Hk. }
      rewrite lookup_delete_ne in Hk by done. destruct (Hin _ Hk) as [?|[->|?]%elem_of_cons]; auto. done.
Qed.

(** After the report loop, with the keys of [ks] still to visit. *)
Definition reported_inv s2 (ks : list string) s : Prop :=
  ag_procs s = ag_procs s2 ∧
  ∃ sent, ag_reports s = ag_reports s2 ++ sent ∧
    (∀ key tp, ag_procs s2 !! key = Some tp →
       key ∈ ks ∨ ∃ memory, report (tp_pod tp) POD_PHASE_RUNNING "" (tp_restarts tp) memory ∈ sent).

Lemma quiet_memory key : quiet (memoryUsageBytes (E := E) key).
Proof.
  unfold memoryUsageBytes. apply quiet_bind; [apply quiet_get|]. intros s.
  assert (∀ pid, quiet (rss (E := E) pid)) as Hrss.
  { intros pid. unfold rss. apply quiet_bind; [apply quiet_attempt, quiet_hcall|]. intros r. apply quiet_ret. }
  destruct (ag_procs s !! key) as [tp|]; [|apply quiet_ret]. destruct (negb _).
  - apply quiet_bind; [apply quiet_attempt, quiet_hcall|]. intros [pid|e|]; [apply Hrss|apply quiet_ret..].
  - destruct (tp_cmd tp); [apply Hrss|apply quiet_ret].
Qed.

Lemma memory_Ok key s : wp (memoryUsageBytes key) (λ r s', (∃ v, r = Ok v) ∧ same_own s s') s.
Proof.
  intros t. destruct (quiet_memory key s t) as [Hp Hs]. split; [done|]. split; [|done].
  assert (∀ pid s t, ∃ v, (rss (E := E) pid (World s t)).1 = Ok v) as Hrss.
  { intros pid s1 t1. unfold rss, attempt, hcall, mbind, M_mbind, M_bind; simpl.
    destruct (h_RSS pid (ag_host s1)) as [[e|v] e']; simpl; eauto. }
  revert Hs Hp. unfold memoryUsageBytes. unfold mbind at 1 4 5, M_mbind, M_bind; simpl. intros _ _.
  destruct (ag_procs s !! key) as [tp|]; [|simpl; eauto]. destruct (negb _).
  - unfold attempt, hcall, mbind, M_mbind, M_bind; simpl.
    destruct (h_TaskPID (tp_containerID tp) (ag_host s)) as [[e|v] e']; simpl; [eauto|apply Hrss].
  - destruct (tp_cmd tp); [apply Hrss|simpl; eauto].
Qed.
Lemma report_running_spec s2 key ks s :
  reported_inv s2 (key :: ks) s →
  wp (report_running key) (λ r s', r = Ok tt ∧ reported_inv s2 ks s') s.
Proof.
  intros (Hp & sent & Hr & Hcov). unfold report_running, podOf. apply wp_bind, wp_bind, wp_get, wp_ret. rewrite Hp.
  destruct (ag_procs s2 !! key) as [tp|] eqn:Etp; simpl.
  - unfold restartCount. apply wp_bind, wp_bind, wp_get, wp_ret. rewrite Hp, Etp.
    apply wp_bind. eapply wp_mono; [apply memory_Ok|]. intros r s' [[v ->] (Hp' & _ & _ & _ & Hr')].
    eapply wp_mono; [apply reportStatus_spec|]. intros r s3 (-> & Hp3 & _ & Hr3).
    split; [done|]. split; [congruence|]. exists (sent ++ [report (tp_pod tp) POD_PHASE_RUNNING "" (tp_restarts tp) v]).
    split; [by rewrite Hr3, Hr', Hr, app_assoc|]. intros key' tp' Hk. setoid_rewrite elem_of_app.
    destruct (Hcov _ _ Hk) as [[->|?]%elem_of_cons|[m Hm]]; [right|by left|right; exists m; by left].
    rewrite Etp in Hk. injection Hk as <-. exists v. right. by left.
  - apply wp_ret. split; [done|]. split; [done|]. exists sent. split; [done|]. intros key' tp' Hk.
    destruct (Hcov _ _ Hk) as [[->|?]%elem_of_cons|?]; [congruence|by left|by right].
Qed.

(** The loops of a tick, for the wanted pods [desired]. *)
Definition tick_loops : M (agent_state E) progress :=
  wanted ← range (map_to_list desired);
  _ ← for_each wanted (λ kv, ensure_pod cfg kv.2);
  ks ← keys;
  _ ← for_each ks (stop_unwanted desired);
  ks ← keys;
  _ ← for_each ks report_running;
  mret Done.

(** What a complete tick achieves. *)
Definition converged s s' : Prop :=
  ∃ sent, ag_reports s' = ag_reports s ++ sent ∧
    (∀ key, is_Some (ag_procs s' !! key) → is_Some (desired !! key)) ∧
    (∀ key tp, is_Some (desired !! key) → ag_procs s !! key = Some tp → ag_procs s' !! key = Some tp) ∧
    (∀ key pod, desired !! key = Some pod →
       is_Some (ag_procs s' !! key) ∨ ∃ msg, report pod POD_PHASE_FAILED msg 0 0 ∈ sent) ∧
    (∀ key tp, ag_procs s' !! key = Some tp →
       ∃ memory, report (tp_pod tp) POD_PHASE_RUNNING "" (tp_restarts tp) memory ∈ sent).

Lemma converged_combine s s1 s2 s3 :
  started_inv s [] s1 → stopped_inv s1 [] s2 → reported_inv s2 [] s3 → converged s s3.
Proof.
  intros (_ & Hkeep & sent & Hr & Hcov) (Hr1 & Hst & Hin) (Hp2 & sent2 & Hr2 & Hrep).
  exists (sent ++ sent2). rewrite Hp2. split; [by rewrite Hr2, Hr1, Hr, app_assoc|]. split_and!.
  - intros key Hk. destruct (Hin key Hk) as [?|Hn]; [done|by apply elem_of_nil in Hn].
  - intros key tp Hd Hk. rewrite Hst by done. by apply Hkeep.
  - intros key pod Hd. rewrite Hst by eauto. setoid_rewrite elem_of_app.
    destruct (Hcov _ _ Hd) as [Hn|[?|[m Hm]]]; [by apply elem_of_nil in Hn|by left|right; exists m; by left].
  - intros key tp Hk. setoid_rewrite elem_of_app.
    destruct (Hrep _ _ Hk) as [Hn|[m Hm]]; [by apply elem_of_nil in Hn|exists m; by right].
Qed.

Lemma tick_loops_spec s : wp tick_loops (λ r s', r = Ok Done ∧ converged s s') s.
Proof.
  unfold tick_loops, keys. apply wp_bind, wp_range. intros wanted Hw. apply wp_bind.
  eapply (wp_for_each (started_inv s)).
  { split; [apply Forall_forall; intros [k p] Hk; rewrite Hw in Hk; by apply elem_of_map_to_list in Hk|].
    split; [done|]. exists []. split; [by rewrite app_nil_r|]. intros key pod Hd. left. rewrite Hw.
    by apply elem_of_map_to_list. }
  { intros [key pod] k s' HI. by eapply ensure_pod_spec. }
  intros s1 H1. apply wp_bind, wp_bind, wp_get, wp_range. intros ks Hks. apply wp_bind.
  assert (∀ (s' : agent_state E) ks, ks ≡ₚ (map_to_list (ag_procs s')).*1 → ∀ key, is_Some (ag_procs s' !! key) → key ∈ ks) as Hall.
  { intros s' ks' Heq key [tp Hk]. rewrite Heq. apply list_elem_of_fmap. exists (key, tp). split; [done|by apply elem_of_map_to_list]. }
  eapply (wp_for_each (stopped_inv s1)).
  { split_and!; [done..|]. intros key Hk. right. by eapply Hall. }
  { intros key k s' HI. by apply stop_unwanted_spec. }
  intros s2 H2. apply wp_bind, wp_bind, wp_get, wp_range. intros ks2 Hks2. apply wp_bind.
  eapply (wp_for_each (reported_inv s2)).
  { split; [done|]. exists []. split; [by rewrite app_nil_r|]. intros key tp Hk. left. eapply Hall; [done|]. eauto. }
  { intros key k s' HI. by apply report_running_spec. }
  intros s3 H3. apply wp_ret. split; [done|]. by eapply converged_combine.
Qed.
End tick.

Lemma reconcile_spec {E} {HH : Host E} {Sh : Shuffle} cfg pods (s : agent_state E) :
  (h_ListPods (ag_host s)).1 = inr pods →
  wp (agent_reconcile cfg) (λ r s', ∃ p, r = Ok p ∧
    match p with Done => converged (desired_pods cfg pods) s s' | Blocked => own_kept s s' end) s.
Proof.
  intros Hlist.
  unfold agent_reconcile. apply wp_bind, wp_attempt, wp_hcall. rewrite Hlist. apply wp_bind.
  eapply wp_mono; [apply check_own|]. intros r s' [[p ->] (Hp & Ha & Hr)]. simpl in Hp, Ha, Hr.
  destruct p; [|apply wp_ret; exists Blocked; by split].
  apply wp_bind. intros t'. destruct (quiet_orphans (desired_pods cfg pods) s' t') as [Hnp (Hp2 & _ & _ & Ha2 & Hr2)].
  assert (∃ u, (reconcileOrphanContainers (desired_pods cfg pods) (World s' t')).1 = Ok u) as [u Hu].
  { apply orphans_Ok. }
  split; [done|]. rewrite Hu. eapply wp_mono; [apply (tick_loops_spec cfg (desired_pods cfg pods)); apply desired_pods_key|].
  intros r s3 [-> Hc]. exists Done. split; [done|]. revert Hc. unfold converged.
  by rewrite Hp2, Hp, Hr2, Hr.
Qed.


(** ** Exits and restarts *)

Section exits.
Context {E : Type} {HH : Host E} {Sh : Shuffle} (cfg : Config).
Implicit Types s : agent_state E.

(** The process is not a container that containerd says is running. *)
Definition not_running s (tp : trackedProcess) : Prop :=
  tp_containerID tp = "" ∨
  match (h_TaskStatuses (ag_host s)).1 with inr m => default false (m !! tp_containerID tp) = false | inl _ => True end.

Lemma stillRunning_spec s key tp :
  ag_procs s !! key = Some tp → not_running s tp →
  wp (stillRunning key) (λ r s', r = Ok false ∧ same_own s s') s.
Proof.
  intros Htp Hnr. unfold stillRunning. apply wp_bind, wp_get. rewrite Htp.
  destruct (decide _) as [Hid|Hid]; [apply wp_ret; auto with nimbus|].
  destruct Hnr as [?|Hnr]; [done|]. apply wp_bind, wp_attempt, wp_hcall.
  destruct (h_TaskStatuses (ag_host s)) as [[e|m] e']; simpl in *; apply wp_ret; rewrite ?Hnr; auto with nimbus.
Qed.

(** The restarts are counted, then the pod is started again. *)
Lemma restart_spec s key tp :
  ag_procs s !! key = Some tp → podKey (tp_pod tp) = key →
  wp (restart cfg (tp_pod tp)) (λ r s', ag_reports s' = ag_reports s ∧ same_rest s s' ∧
    ∃ tp', ag_procs s' = <[key := tp']> (ag_procs s) ∧ tp_pod tp' = tp_pod tp ∧
      tp_restarts tp' = wrap32 (tp_restarts tp + 1) ∧ (r ≠ Ok tt → tp' = add_restart tp)) s.
Proof.
  intros Htp Hkey. unfold restart, set_procs. rewrite Hkey. apply wp_bind, wp_get, wp_bind, wp_bind, wp_get, wp_put.
  assert (alter add_restart key (ag_procs s) = <[key := add_restart tp]> (ag_procs s)) as Halt.
  { apply map_eq. intros k. destruct (decide (k = key)) as [->|];
      [by rewrite lookup_alter_eq, lookup_insert_eq, Htp|by rewrite lookup_alter_ne, lookup_insert_ne]. }
  eapply wp_mono; [apply start_spec|]. intros r s' Hst. destruct r as [[]|e|]; simpl in Hst.
  - destruct Hst as (tp' & Hpod & Hre & Hp & Hrest & Hrep). split; [done|]. split; [done|]. exists tp'.
    simpl in Hp. rewrite Hkey, Halt, insert_insert_eq in Hp. split; [done|]. split; [done|].
    split; [|done]. rewrite Hre. unfold restarts_of; simpl. by rewrite Hkey, Halt, lookup_insert_eq.
  - destruct Hst as (Hp & Hm & He & Ha & Hrep). simpl in *. rewrite Halt in Hp.
    split; [done|]. split; [done|]. by exists (add_restart tp).
  - destruct Hst as (Hp & Hm & He & Ha & Hrep). simpl in *. rewrite Halt in Hp.
    split; [done|]. split; [done|]. by exists (add_restart tp).
Qed.

(** What handling the exit of a tracked process does. *)
Definition exit_handled (ev : exitEvent) (tp : trackedProcess) s s' : Prop :=
  let pod := tp_pod tp in
  if should_restart (PodSpec_GetRestartPolicy (Pod_Spec pod)) (ev_exitCode ev) then
    ∃ tp', ag_procs s' = <[ev_key ev := tp']> (ag_procs s) ∧ tp_pod tp' = pod ∧
      tp_restarts tp' = wrap32 (tp_restarts tp + 1) ∧
      (ag_reports s' = ag_reports s ++ [report pod POD_PHASE_RUNNING "" (tp_restarts tp') 0] ∨
       (tp' = add_restart tp ∧ ∃ msg,
          ag_reports s' = ag_reports s ++ [report pod POD_PHASE_FAILED msg (tp_restarts tp') 0]))
  else
    ag_procs s' = delete (ev_key ev) (ag_procs s) ∧
    ag_reports s' = ag_reports s ++
      [report pod (if ev_exitCode ev =? 0 then POD_PHASE_SUCCEEDED else POD_PHASE_FAILED) "" 0 0].

Lemma handleExit_spec ev tp s :
  ag_procs s !! ev_key ev = Some tp → podKey (tp_pod tp) = ev_key ev → not_running s tp →
  wp (handleExit cfg ev) (λ r s', r = Ok tt ∧ exit_handled ev tp s s' ∧ same_rest s s' ∧
    (should_restart (PodSpec_GetRestartPolicy (Pod_Spec (tp_pod tp))) (ev_exitCode ev) = true →
     (∀ v : world (agent_state E), (restart cfg (tp_pod tp) v).1 ≠ Ok tt) →
     ag_procs s' = <[ev_key ev := add_restart tp]> (ag_procs s))) s.
Proof.
  intros Htp Hkey Hnr. unfold handleExit, podOf. apply wp_bind, wp_bind, wp_get, wp_ret. rewrite Htp. simpl.
  apply wp_bind. eapply wp_mono; [by eapply stillRunning_spec|]. intros r s1 [-> (Hp & Hm & He & Ha & Hr)].
  unfold exit_handled. destruct (should_restart _ _).
  - apply wp_bind, wp_attempt. rewrite <-Hp in Htp. intros t.
    destruct (restart_spec s1 _ tp Htp Hkey t) as (Hnp & Hr2 & Hrest & tp' & Hp2 & Hpod & Hre & Hfail).
    split; [done|]. unfold restartCount. apply wp_bind, wp_bind, wp_get, wp_ret. rewrite Hp2, lookup_insert_eq.
    destruct (restart cfg (tp_pod tp) (World s1 t)).1 as [[]|e|] eqn:Er; [| |done];
      (eapply wp_mono; [apply reportStatus_spec|]; intros r s3 (-> & Hp3 & Hrest3 & Hr3); split; [done|];
       split; [exists tp'; split; [congruence|]; split; [done|]; split; [done|]|
         split; [unfold same_rest in *; intuition congruence|]]).
    + left. by rewrite Hr3, Hr2, Hr.
    + intros _ Hall. by specialize (Hall (World s1 t)).
    + right. split; [by apply Hfail|]. exists (h_ErrorText e). by rewrite Hr3, Hr2, Hr.
    + intros _ _. rewrite <-(Hfail ltac:(done)). congruence.
  - apply wp_bind. eapply wp_mono; [apply stop_spec|]. intros r s2 (-> & Hp2 & Hrest2 & Hr2).
    eapply wp_mono; [apply reportStatus_spec|]. intros r s3 (-> & Hp3 & Hrest3 & Hr3). split; [done|].
    split; [split; [congruence|]; by rewrite Hr3, Hr2, Hr|].
    split; [unfold same_rest in *; intuition congruence|done].
Qed.
End exits.

(** The restart policy is honoured.  Handling the exit of a tracked process
    that is not running any more never fails.  If the policy asks for it
    (always, unspecified, or on failure with a non-zero code), the restart is
    counted and the pod started again, and reported as running, or as failed
    if the start failed; otherwise it is dropped and reported as succeeded or
    failed by its code.  One report is sent and no other pod is touched. *)
Theorem restart_policy_honoured {E} {HH : Host E} {Sh : Shuffle} cfg ev tp (w : world (agent_state E)) :
  ag_procs (w_store w) !! ev_key ev = Some tp → podKey (tp_pod tp) = ev_key ev → not_running (w_store w) tp →
  ∃ w', handleExit cfg ev w = (Ok tt, w') ∧
    exit_handled ev tp (w_store w) (w_store w') ∧ same_rest (w_store w) (w_store w').
Proof.
  destruct w as [s t]. simpl. intros Htp Hkey Hnr.
  destruct (handleExit_spec cfg ev tp s Htp Hkey Hnr t) as (_ & Hr & Hh & Hrest & _).
  destruct (handleExit cfg ev _) as [r w'] eqn:Erun. simpl in *. subst r. by exists w'.
Qed.

(** A dead process is reported as running.  When restarting a process pod
    fails, the pod is reported as failed but stays in the table, and every
    later tick reports as running whatever is in the table: the next tick in
    which the pod is still assigned reports it as running, although no process
    of it exists, and nothing will start it again. *)
Theorem failed_restart_reported_running {E} {HH : Host E} {Sh : Shuffle} cfg ev tp pods (w : world (agent_state E)) :
  ag_procs (w_store w) !! ev_key ev = Some tp → podKey (tp_pod tp) = ev_key ev → tp_containerID tp = "" →
  should_restart (PodSpec_GetRestartPolicy (Pod_Spec (tp_pod tp))) (ev_exitCode ev) = true →
  (∀ v : world (agent_state E), (restart cfg (tp_pod tp) v).1 ≠ Ok tt) →
  tp_pod tp ∈ pods → podNodeName (tp_pod tp) = cfg_NodeName cfg →
  ∃ w1, handleExit cfg ev w = (Ok tt, w1) ∧
    ag_procs (w_store w1) !! ev_key ev = Some (add_restart tp) ∧
    (∀ w2, (h_ListPods (ag_host (w_store w1))).1 = inr pods → agent_reconcile cfg w1 = (Ok Done, w2) →
       ag_procs (w_store w2) !! ev_key ev = Some (add_restart tp) ∧
       ∃ sent memory, ag_reports (w_store w2) = ag_reports (w_store w1) ++ sent ∧
         report (tp_pod tp) POD_PHASE_RUNNING "" (wrap32 (tp_restarts tp + 1)) memory ∈ sent).
Proof.
  destruct w as [s t]. simpl. intros Htp Hkey Hid Hsh Hfail Hin Hnode.
  destruct (handleExit_spec cfg ev tp s Htp Hkey (or_introl Hid) t) as (_ & Hr & _ & _ & Hp).
  destruct (handleExit cfg ev _) as [r [s1 t1]] eqn:Erun. simpl in *. subst r. specialize (Hp Hsh Hfail).
  exists (World s1 t1). split; [done|]. simpl.
  assert (ag_procs s1 !! ev_key ev = Some (add_restart tp)) as Hp1 by (by rewrite Hp, lookup_insert_eq).
  split; [done|]. intros w2 Hlist Hrun.
  destruct (reconcile_spec cfg pods s1 Hlist t1) as (_ & p & Hr & HQ). rewrite Hrun in Hr, HQ. simpl in Hr, HQ.
  injection Hr as <-. destruct HQ as (sent & Hsent & _ & Hkeep & _ & Hrep).
  assert (is_Some (desired_pods cfg pods !! ev_key ev)) as Hd.
  { apply desired_pods_spec. by exists (tp_pod tp). }
  specialize (Hkeep _ _ Hd Hp1). split; [done|]. destruct (Hrep _ _ Hkeep) as [memory Hm].
  by exists sent, memory.
Qed.

(** Container names join namespace and name with a dash, which both may
    contain: two pods of different namespaces can share a container, and
    starting one removes the container of the other. *)
Lemma container_names_collide : containerNameRaw "a" "b-c" = containerNameRaw "a-b" "c" ∧
  "a" +:+ "/" +:+ "b-c" ≠ "a-b" +:+ "/" +:+ "c".
Proof. done. Qed.

(** ** Port proxies *)

Section proxies.
Context {E : Type} {HH : Host E} {Sh : Shuffle}.
Implicit Types s : agent_state E.

(** Everything but the proxies and the host. *)
Definition same_but_active s s' : Prop :=
  ag_procs s' = ag_procs s ∧ ag_missingStreaks s' = ag_missingStreaks s ∧ ag_exited s' = ag_exited s ∧
  ag_reports s' = ag_reports s.

(** One wanted proxy: kept, replaced, or gone when the port cannot be listened on. *)
Lemma ensure_proxy_spec port target s :
  wp (ensure_proxy port target) (λ r s', r = Ok tt ∧ same_but_active s s' ∧
    (ag_active s !! port = Some target → ag_active s' = ag_active s) ∧
    (ag_active s' = <[port := target]> (ag_active s) ∨
     (ag_active s' = delete port (ag_active s) ∧ ∃ e, (h_Listen port e).1 ≠ inr tt))) s.
Proof.
  unfold ensure_proxy. apply wp_bind, wp_get.
  destruct (decide (ag_active s !! port = Some target)) as [Heq|Hne].
  { rewrite bool_decide_eq_true_2 by done. apply wp_ret. split_and!; [done..|]. left. by rewrite insert_id. }
  rewrite bool_decide_eq_false_2 by done. apply wp_bind.
  assert (wp (match ag_active s !! port with
              | Some _ => _ ← hdo (h_CloseListener port); set_active (delete port (ag_active s))
              | None => mret ()
              end) (λ r s', r = Ok tt ∧ same_but_active s s' ∧ ag_active s' = delete port (ag_active s)) s) as Hclose.
  { destruct (ag_active s !! port) eqn:Ep.
    - apply wp_bind, wp_hdo. intros e. unfold set_active. apply wp_bind, wp_get, wp_put. done.
    - apply wp_ret. split_and!; [done..|]. by rewrite delete_id. }
  eapply wp_mono; [exact Hclose|]. intros r s1 (-> & (Hp & Hm & He & Hr) & Ha).
  apply wp_bind, wp_attempt, wp_hcall. destruct (h_Listen port (ag_host s1)) as [[e|[]] e'] eqn:El; simpl.
  - apply wp_ret. split_and!; [done..|]. right. split; [done|]. exists (ag_host s1). by rewrite El.
  - apply wp_bind, wp_get. unfold set_active. apply wp_bind, wp_get, wp_put. split; [done|].
    split; [done|]. split; [done|]. left. simpl. by rewrite Ha, insert_delete_eq.
Qed.

Lemma drop_proxy_spec (desired : gmap Z string) port s :
  wp (drop_proxy desired port) (λ r s', r = Ok tt ∧ same_but_active s s' ∧
    ag_active s' = if decide (is_Some (desired !! port)) then ag_active s else delete port (ag_active s)) s.
Proof.
  unfold drop_proxy. destruct (decide (is_Some (desired !! port))) as [Hd|Hd].
  - rewrite bool_decide_eq_true_2 by done. by apply wp_ret.
  - rewrite bool_decide_eq_false_2 by done. apply wp_bind, wp_hdo. intros e. apply wp_bind, wp_get.
    unfold set_active. apply wp_bind, wp_get, wp_put. done.
Qed.

Context (desired : gmap Z string).

(** No listen fails. *)
Definition can_listen : Prop := ∀ port (e : E), (h_Listen port e).1 = inr tt.

Definition ensured_inv s0 (k : list (Z * string)) s : Prop :=
  same_but_active s0 s ∧ NoDup k.*1 ∧ Forall (λ kv, desired !! kv.1 = Some kv.2) k ∧
  (∀ port t, ag_active s !! port = Some t →
     desired !! port = Some t ∨ desired !! port = None ∨ port ∈ k.*1) ∧
  (∀ port t, desired !! port = Some t → ag_active s0 !! port = Some t → ag_active s !! port = Some t) ∧
  (can_listen → ∀ port t, desired !! port = Some t → (port, t) ∈ k ∨ ag_active s !! port = Some t).

Lemma ensured_inv_step s0 port t k s :
  ensured_inv s0 ((port, t) :: k) s →
  wp (ensure_proxy port t) (λ r s', r = Ok tt ∧ ensured_inv s0 k s') s.
Proof.
  intros (Hs & Hnd & Hall & Hact & Hkeep & Hcov).
  rewrite fmap_cons, NoDup_cons in Hnd. destruct Hnd as [Hport Hnd]. simpl in Hport.
  apply Forall_cons in Hall as [Hd Hall]. simpl in Hd.
  eapply wp_mono; [apply ensure_proxy_spec|]. intros r s' (-> & Hs' & Hsame & Hcase). split; [done|].
  split; [unfold same_but_active in *; intuition congruence|]. split; [done|]. split; [done|].
  assert (∀ q, q ≠ port → ag_active s' !! q = ag_active s !! q) as Hother.
  { intros q Hq. destruct Hcase as [->|[-> _]]; [by rewrite lookup_insert_ne|by rewrite lookup_delete_ne]. }
  split_and!.
  - intros q u Hq. destruct (decide (q = port)) as [->|Hne].
    + left. destruct Hcase as [Ha|[Ha _]]; rewrite Ha in Hq;
        [rewrite lookup_insert_eq in Hq; congruence|by rewrite lookup_delete_eq in Hq].
    + rewrite Hother in Hq by done. destruct (Hact q u Hq) as [?|[?|[->|?]%elem_of_cons]]; auto. done.
  - intros q u Hq H0. specialize (Hkeep q u Hq H0). destruct (decide (q = port)) as [->|Hne].
    + assert (u = t) as -> by congruence. by rewrite Hsame.
    + by rewrite Hother.
  - intros Hl q u Hq. destruct (decide (q = port)) as [->|Hne].
    + right. assert (u = t) as -> by congruence.
      destruct Hcase as [->|[_ [e He]]]; [by rewrite lookup_insert_eq|by destruct (He (Hl port e))].
    + rewrite Hother by done. destruct (Hcov Hl q u Hq) as [[[= -> ->]|?]%elem_of_cons|?]; auto. done.
Qed.

Definition dropped_inv s1 (ks : list Z) s : Prop :=
  same_but_active s1 s ∧
  (∀ port, is_Some (desired !! port) → ag_active s !! port = ag_active s1 !! port) ∧
  (∀ port t, ag_active s !! port = Some t → is_Some (desired !! port) ∨ port ∈ ks).

Lemma dropped_inv_step s1 port ks s :
  dropped_inv s1 (port :: ks) s →
  wp (drop_proxy desired port) (λ r s', r = Ok tt ∧ dropped_inv s1 ks s') s.
Proof.
  intros (Hs & Hkeep & Hin). eapply wp_mono; [apply drop_proxy_spec|]. intros r s' (-> & Hs' & Ha).
  split; [done|]. split; [unfold same_but_active in *; intuition congruence|]. rewrite Ha.
  destruct (decide (is_Some (desired !! port))) as [Hd|Hd].
  - split; [done|]. intros q t Hq. destruct (Hin q t Hq) as [?|[->|?]%elem_of_cons]; auto.
  - split; intros q; [intros Hq; rewrite lookup_delete_ne; [by apply Hkeep|by intros ->]|].
    intros t [Hne Hq]%lookup_delete_Some. destruct (Hin q t Hq) as [?|[->|?]%elem_of_cons]; auto. done.
Qed.
End proxies.

(** The port proxies follow the services.  A pass never fails and touches
    nothing but the proxies; afterwards every active proxy is one that the
    services ask for, with its target; a proxy that was right is kept; and when
    the ports can be listened on, the active proxies are exactly the wanted
    ones, in whatever order the maps are visited. *)
Theorem proxies_follow_services {E} {HH : Host E} {Sh : Shuffle} services selfIP (w : world (agent_state E)) :
  let s := w_store w in
  let desired := desired_proxies services selfIP in
  ∃ w', np_reconcile services selfIP w = (Ok tt, w') ∧ same_but_active s (w_store w') ∧
    ag_active (w_store w') ⊆ desired ∧
    (∀ port t, desired !! port = Some t → ag_active s !! port = Some t → ag_active (w_store w') !! port = Some t) ∧
    (can_listen (E := E) → ag_active (w_store w') = desired).
Proof.
  destruct w as [s t]. simpl. set (desired := desired_proxies services selfIP).
  enough (wp (np_reconcile services selfIP) (λ r s', r = Ok tt ∧ same_but_active s s' ∧ ag_active s' ⊆ desired ∧
    (∀ port t, desired !! port = Some t → ag_active s !! port = Some t → ag_active s' !! port = Some t) ∧
    (can_listen (E := E) → ∀ port t, desired !! port = Some t → ag_active s' !! port = Some t)) s) as Hwp.
  { destruct (Hwp t) as (_ & Hr & Hs & Hsub & Hkeep & Hall). destruct (np_reconcile _ _ _) as [r w']. simpl in *.
    subst r. exists w'. split_and!; [done..|]. intros Hl. apply (anti_symm (⊆)); [done|].
    apply map_subseteq_spec. by apply Hall. }
  unfold np_reconcile. apply wp_bind, wp_range. intros wanted Hw. apply wp_bind.
  eapply (wp_for_each (ensured_inv desired s)).
  { split; [done|]. split; [rewrite Hw; apply NoDup_fst_map_to_list|]. split_and!.
    - apply Forall_forall. intros [q u] Hq. rewrite Hw in Hq. by apply elem_of_map_to_list in Hq.
    - intros q u _. destruct (desired !! q) as [v|] eqn:Ed; [|auto]. right; right. rewrite Hw.
      apply list_elem_of_fmap. exists (q, v). split; [done|by apply elem_of_map_to_list].
    - done.
    - intros _ q u Hq. left. rewrite Hw. by apply elem_of_map_to_list. }
  { intros [q u] k s' HI. by apply ensured_inv_step. }
  intros s1 (Hs1 & _ & _ & Hact & Hkeep & Hcov). apply wp_bind, wp_get, wp_bind, wp_range. intros ks Hks.
  eapply (wp_for_each (dropped_inv desired s1)).
  { split_and!; [done..|]. intros q u Hq. right. rewrite Hks. apply list_elem_of_fmap.
    exists (q, u). split; [done|by apply elem_of_map_to_list]. }
  { intros q k s' HI. by apply dropped_inv_step. }
  intros s2 (Hs2 & Hk2 & Hin2). split; [done|]. split; [unfold same_but_active in *; intuition congruence|].
  split_and!.
  - apply map_subseteq_spec. intros q u Hq. destruct (Hin2 q u Hq) as [Hd|Hn]; [|by apply elem_of_nil in Hn].
    rewrite Hk2 in Hq by done. destruct (Hact q u Hq) as [?|[Hn|Hn]]; [done| |by apply elem_of_nil in Hn].
    rewrite Hn in Hd. by destruct Hd.
  - intros q u Hd H0. rewrite Hk2 by eauto. by apply Hkeep.
  - intros Hl q u Hd. rewrite Hk2 by eauto. destruct (Hcov Hl q u Hd) as [Hn|?]; [by apply elem_of_nil in Hn|done].
Qed.

(** ** Examples *)

Module DemoAgent.

Definition web : Pod :=
  MkPod (Some (MkObjectMeta "web" "default" "" "" ∅ 0))
    (Some (MkPodSpec [MkContainer "main" "" None None ["serve"] "" [] ∅ None] "n1" [] RESTART_POLICY_ALWAYS)) None.

(** A host on which no process can be started and no container runs. *)
#[local] Instance host : Host unit := {|
  h_ListPods := λ e, (inr [web], e);
  h_ListServices := λ e, (inr [], e);
  h_UpdatePodStatus := λ _ e, (inr tt, e);
  h_TaskStatuses := λ e, (inr ∅, e);
  h_TaskPID := λ _ e, (inl (Errorf "task not found"), e);
  h_RemoveContainer := λ _ e, e;
  h_PullImage := λ ref e, (inr ref, e);
  h_RunContainer := λ _ e, (inr tt, e);
  h_BuildImage := λ _ _ _ id _ e, (inr id, e);
  h_PrepareLog := λ dir _ e, (inr dir, e);
  h_EnsureVolumeDir := λ dir _ _ e, (inr dir, e);
  h_Exec := λ _ e, (inl (Errorf "executable not found"), e);
  h_Kill := λ _ e, e;
  h_ReadFile := λ _ e, (inr [], e);
  h_RSS := λ _ e, (inl (Errorf "no such process"), e);
  h_Listen := λ _ e, (inr tt, e);
  h_CloseListener := λ _ e, e;
  h_WasmNew := λ e, (inr 0, e);
  h_WasmClose := λ _ e, e;
  h_ErrorText := λ _, "error";
|}.
#[local] Existing Instance shuffle_id.

Definition cfg : Config := MkConfig "n1" "10.0.0.1" "" "" "" "" true.

Definition web_process : trackedProcess := MkTrackedProcess web (Some 4242) None "" 0.
Definition running : world (agent_state unit) :=
  World (MkAgentState {["default/web" := web_process]} ∅ [] ∅ [] tt) 0.
Definition idle : world (agent_state unit) := World (MkAgentState ∅ ∅ [] ∅ [] tt) 0.


Lemma restart_policy_honoured_witness :
  ∃ w', handleExit cfg (MkExitEvent "default/web" 1) running = (Ok tt, w') ∧
    exit_handled (MkExitEvent "default/web" 1) web_process (w_store running) (w_store w') ∧
    same_rest (w_store running) (w_store w').
Proof.
  apply (restart_policy_honoured cfg (MkExitEvent "default/web" 1) web_process running);
    [reflexivity|reflexivity|left; reflexivity].
Defined.

Lemma failed_restart_reported_running_witness :
  ∃ w1 w2 sent memory, handleExit cfg (MkExitEvent "default/web" 1) running = (Ok tt, w1) ∧
    agent_reconcile cfg w1 = (Ok Done, w2) ∧ ag_reports (w_store w2) = ag_reports (w_store w1) ++ sent ∧
    report web POD_PHASE_RUNNING "" 1 memory ∈ sent.
Proof.
  destruct (failed_restart_reported_running cfg (MkExitEvent "default/web" 1) web_process [web] running)
    as (w1 & Hrun & Hp & Htick); [reflexivity|reflexivity|reflexivity|reflexivity| |by left|reflexivity|].
  { intros [s t]. simpl. discriminate. }
  assert (∃ w2, agent_reconcile cfg w1 = (Ok Done, w2)) as [w2 H2].
  { apply (f_equal snd) in Hrun. simpl snd in Hrun. subst w1.
    assert ((agent_reconcile cfg (handleExit cfg (MkExitEvent "default/web" 1) running).2).1 = Ok Done) as Hdone
      by (vm_compute; reflexivity).
    destruct (agent_reconcile cfg _) as [r w2]. exists w2. simpl in Hdone. by rewrite Hdone. }
  assert ((h_ListPods (ag_host (w_store w1))).1 = inr [web]) as Hlist by reflexivity.
  destruct (Htick w2 Hlist H2) as (_ & sent & memory & Hs & Hm).
  exists w1, w2, sent, memory. split; [exact Hrun|]. split; [exact H2|]. split; [exact Hs|exact Hm].
Defined.

(** Thirty-three containers, missing at two listings so far. *)
Definition fleet : gmap string trackedProcess :=
  list_to_map ((λ i : nat, (pretty i, MkTrackedProcess web None None (pretty i) 0)) <$> seq 0 33).
Definition fleet_world : world (agent_state unit) :=
  World (MkAgentState fleet ((λ _, 2) <$> fleet) [] ∅ [] tt) 0.

Lemma exit_burst_blocks_witness : ∃ w', checkContainerdExits fleet_world = (Ok Blocked, w').
Proof.
  destruct (exit_burst_blocks ∅ tt fleet_world) as (p & w' & Hrun & Hb & _);
    [reflexivity|vm_compute; lia|].
  assert (p = Blocked) as -> by (apply Hb; vm_compute; lia). by exists w'.
Defined.

Definition container : trackedProcess := MkTrackedProcess web None None "nimbus-default-web" 0.
Definition tracked : gmap string trackedProcess := {["default/web" := container]}.
Definition hiccup : observation := ([("default/web", container)], ∅).

(** Missing three times in a row: the third listing has the event. *)
Lemma exit_needs_three_misses_witness :
  MkExitEvent "default/web" (-1) ∈ (miss_loop ∅ [("default/web", container)] (observe [hiccup; hiccup]).1).2.
Proof.
  refine (proj2 (proj1 (exit_needs_three_misses tracked "default/web" container
    [("default/web", container)] ∅ [hiccup; hiccup] _ _ _)) _).
  - unfold orders_ok, tracked. rewrite map_to_list_singleton. by repeat constructor.
  - apply lookup_insert_eq.
  - discriminate.
  - vm_compute. split; reflexivity.
Defined.
End DemoAgent.
