(* ===== verification/GitOps.v ===== *)
(** * GitOps: deployments from a git repository

    internal/gitops/reconciler.go.  The working copy is a parameter: whether it
    could be fetched, its head commit, the entries of the manifest directory,
    the bytes of its files and the JSON decoding of a deployment.  The status
    of the reconciler is passed along; errors appear in it as text. *)

From stdpp Require Import gmap strings list.
From Stdlib Require Import ZArith Lia.
From S2P Require Import Prelude Api Codec Store Registry Cluster.

Local Open Scope Z_scope.

Definition ManagedByLabel : string := "nimbuscore.io/managed-by".
Definition ManagedByValue : string := "gitops".

(** [gitops.Config] and [gitops.Status]. *)
Record GitConfig := MkGitConfig {
  g_RepoURL : string;
  g_Branch : string;
  g_Path : string;
  g_WorkDir : string;
}.

Record GitStatus := MkGitStatus {
  gs_RepoURL : string;
  gs_Branch : string;
  gs_Path : string;
  gs_LastSyncUnix : Z;
  gs_LastCommit : string;
  gs_LastError : string;
}.

Record GitReconciler := MkGitReconciler {
  gr_cfg : GitConfig;
  gr_deployments : Registry Deployment;
  gr_resync : Z;
  gr_status : GitStatus;
}.

Definition NewReconciler (cfg : GitConfig) (deployments : Registry Deployment) (resync : Z) : GitReconciler :=
  let resync := if resync <=? 0 then 30 * 1000000000 else resync in
  let cfg := if decide (g_Branch cfg = "") then MkGitConfig (g_RepoURL cfg) "main" (g_Path cfg) (g_WorkDir cfg) else cfg in
  MkGitReconciler cfg deployments resync (MkGitStatus "" "" "" 0 "" "").

(** The working copy and the clock, for one synchronisation. *)
Record git_env := MkGitEnv {
  ge_fetch : option error;
  ge_head : error + string;
  ge_readDir : error + list (string * bool);
  ge_readFile : string → error + bytes;
  ge_unmarshal : bytes → error + Deployment;
  ge_now : Z;
  ge_errorText : error → string;
}.

(** [strings.HasSuffix] *)
Definition HasSuffix (s p : string) : bool :=
  (String.length p <=? String.length s)%nat &&
  bool_decide (String.substring (String.length s - String.length p) (String.length p) s = p).

Definition recordResult (r : GitReconciler) (env : git_env) (commit : string) (syncErr : option error) : GitReconciler :=
  let st := gr_status r in
  MkGitReconciler (gr_cfg r) (gr_deployments r) (gr_resync r)
    (MkGitStatus (g_RepoURL (gr_cfg r)) (g_Branch (gr_cfg r)) (g_Path (gr_cfg r)) (ge_now env)
      (if decide (commit = "") then gs_LastCommit st else commit)
      (match syncErr with Some e => ge_errorText env e | None => "" end)).

(** [meta.Labels[ManagedByLabel] = ManagedByValue] *)
Definition mark_managed (d : Deployment) : Deployment :=
  match Deployment_Metadata d with
  | Some m => MkDeployment (Some (meta_set_labels (<[ManagedByLabel := ManagedByValue]> (ObjectMeta_Labels m)) m))
                (Deployment_Spec d) (Deployment_Status d)
  | None => d
  end.

Section sync.
Context {S : Type} `{!Store S} {Sh : Shuffle} `{AM : !ApiMessages}.

(** The body of the loop over the entries of the manifest directory. *)
Definition sync_entry (r : GitReconciler) (env : git_env) (e : string * bool) : M S unit :=
  if e.2 || negb (HasSuffix e.1 ".json") then mret ()
  else
    match ge_readFile env e.1 with
    | inl _ => mret ()
    | inr b =>
        match ge_unmarshal env b with
        | inl _ => mret ()
        | inr d =>
            if decide (depName d = "") then mret ()
            else
              let d := mark_managed d in
              logged (reg_Put (gr_deployments r) (depNamespace d) (depName d) d)
        end
    end.

Definition Sync (r : GitReconciler) (env : git_env) : M S (option error * GitReconciler) :=
  match ge_fetch env with
  | Some e => mret (Some (Wrapf "gitops: fetch" e), recordResult r env "" (Some e))
  | None =>
      let commit := match ge_head env with inr c => c | inl _ => "" end in
      match ge_readDir env with
      | inl e => mret (Some (Wrapf "gitops: read manifest dir" e), recordResult r env commit (Some e))
      | inr entries =>
          _ ← for_each entries (sync_entry r env);
          mret (None, recordResult r env commit None)
      end
  end.
End sync.

(** The deployments that the working copy describes, in the order of its files. *)
Definition manifest (env : git_env) (e : string * bool) : option Deployment :=
  if e.2 || negb (HasSuffix e.1 ".json") then None
  else
    match ge_readFile env e.1 with
    | inr b => match ge_unmarshal env b with
               | inr d => if decide (depName d = "") then None else Some (mark_managed d)
               | inl _ => None
               end
    | inl _ => None
    end.

Definition apply_manifests (ds : list Deployment) (m : gmap string Deployment) : gmap string Deployment :=
  foldl (λ m d, <[dep_key d := d]> m) m ds.

Section gitops_laws.
Context {S : Type} `{!Store S, !StoreLaws S} {Sh : Shuffle} `{AM : !ApiMessages, AL : !ApiLaws}.

Lemma sync_entry_spec cfg resync env e (w : world S) c :
  holds w c →
  let r := NewReconciler cfg deploymentsR resync in
  ∃ w', sync_entry r env e w = (Ok tt, w') ∧
    holds w' (MkCluster (c_pods c) (c_nodes c)
      (apply_manifests (option_list (manifest env e)) (c_deployments c)) (c_volumes c)).
Proof.
  intros Hc r. unfold sync_entry, manifest.
  assert (∃ w', (mret () : M S unit) w = (Ok tt, w') ∧ holds w' (MkCluster (c_pods c) (c_nodes c) (c_deployments c) (c_volumes c)))
    as Hskip by (exists w; split; [done|by destruct c]).
  destruct (_ || _); [done|]. destruct (ge_readFile env e.1) as [?|b]; [done|].
  destruct (ge_unmarshal env b) as [?|d]; [done|]. destruct (decide _); [done|].
  destruct (put_deployment w c (depNamespace (mark_managed d)) (depName (mark_managed d)) (mark_managed d) Hc)
    as (w' & Hput & Hc'). exists w'. change (gr_deployments r) with deploymentsR.
  by rewrite (logged_run_Ok _ _ _ Hput).
Qed.

Lemma apply_manifests_app ds ds' m : apply_manifests (ds ++ ds') m = apply_manifests ds' (apply_manifests ds m).
Proof. unfold apply_manifests. by rewrite foldl_app. Qed.

Lemma apply_manifests_other ds m key :
  Forall (λ d, dep_key d ≠ key) ds → apply_manifests ds m !! key = m !! key.
Proof.
  revert m. induction ds as [|d ds IH]; intros m; [done|]. intros [Hd Hds]%Forall_cons. simpl.
  rewrite IH by done. by rewrite lookup_insert_ne.
Qed.

Lemma sync_entries_spec cfg resync env entries (w : world S) c :
  holds w c →
  ∃ w', for_each entries (sync_entry (NewReconciler cfg deploymentsR resync) env) w = (Ok tt, w') ∧
    holds w' (MkCluster (c_pods c) (c_nodes c)
      (apply_manifests (omap (manifest env) entries) (c_deployments c)) (c_volumes c)).
Proof.
  revert w c. induction entries as [|e entries IH]; intros w c Hc; simpl; [exists w; split; [done|by destruct c]|].
  destruct (sync_entry_spec cfg resync env e w c Hc) as (w1 & Hrun & Hc1).
  rewrite (bind_run_Ok _ _ _ _ _ Hrun). destruct (IH w1 _ Hc1) as (w2 & Hrun2 & Hc2).
  exists w2. split; [done|]. simpl in Hc2. rewrite <-apply_manifests_app in Hc2.
  by destruct (manifest env e).
Qed.

(** GitOps applies the manifests as they are.  Once the repository is
    fetched and its directory read, a synchronisation succeeds, skips what is
    not a readable manifest with a name, and stores every other deployment
    under its name with the managed-by label, the last file winning; no other
    deployment and no pod, node or volume changes, and the status says so.
    Every manifest is stored as it is: none passes the admission chain. *)
Theorem gitops_applies cfg resync env entries (w : world S) c :
  holds w c → ge_fetch env = None → ge_readDir env = inr entries →
  let r := NewReconciler cfg deploymentsR resync in
  let ds := omap (manifest env) entries in
  ∃ r' w', Sync r env w = (Ok (None, r'), w') ∧
    holds w' (MkCluster (c_pods c) (c_nodes c) (apply_manifests ds (c_deployments c)) (c_volumes c)) ∧
    gs_LastError (gr_status r') = "" ∧ gs_LastSyncUnix (gr_status r') = ge_now env ∧
    (∀ ds1 d ds2, ds = ds1 ++ d :: ds2 → Forall (λ d', dep_key d' ≠ dep_key d) ds2 →
       apply_manifests ds (c_deployments c) !! dep_key d = Some d) ∧
    (∀ key, Forall (λ d, dep_key d ≠ key) ds →
       apply_manifests ds (c_deployments c) !! key = c_deployments c !! key).
Proof.
  intros Hc Hfetch Hdir r ds.
  destruct (sync_entries_spec cfg resync env entries w c Hc) as (w' & Hrun & Hc').
  eexists _, w'. split.
  { unfold Sync. rewrite Hfetch, Hdir, (bind_run_Ok _ _ _ _ _ Hrun). reflexivity. }
  split; [done|]. split; [done|]. split; [done|].
  split.
  - intros ds1 d ds2 -> Hlast. rewrite apply_manifests_app. simpl. by rewrite apply_manifests_other, lookup_insert_eq.
  - intros key Hno. by apply apply_manifests_other.
Qed.
End gitops_laws.

(** ** Examples *)

Module DemoGit.
Import Codec.Reference.

#[local] Instance git_messages : ApiMessages := Build_ApiMessages _ _ _ _.
#[local] Instance git_laws : ApiLaws := Build_ApiLaws _ _ _ _ _.
#[local] Existing Instance shuffle_id.

(** A manifest that asks for a privileged container. *)
Definition privileged : Deployment :=
  MkDeployment (Some (MkObjectMeta "root" "default" "" "" ∅ 0))
    (Some (MkDeploymentSpec 1 ∅ (Some (MkPodSpec
      [MkContainer "main" "img" None (Some (MkSecurityContext "" [] true true false)) [] "" [] ∅ None]
      "" [] RESTART_POLICY_ALWAYS)) 0 0)) None.

Definition repo : git_env :=
  MkGitEnv None (inr "c0ffee") (inr [("README.md", false); ("root.json", false)])
    (λ _, inr []) (λ _, inr privileged) 1700000000 (λ _, "").

Lemma repo_manifests : omap (manifest repo) [("README.md", false); ("root.json", false)] = [mark_managed privileged].
Proof. reflexivity. Qed.

Lemma gitops_applies_witness :
  ∃ r' w' c', Sync (NewReconciler (MkGitConfig "url" "" "" "") deploymentsR 0) repo demo_world = (Ok (None, r'), w') ∧
    holds w' c' ∧ c_deployments c' !! dep_key (mark_managed privileged) = Some (mark_managed privileged).
Proof.
  assert (holds demo_world (MkCluster ∅ ∅ ∅ ∅)) as Hc by (by constructor).
  destruct (gitops_applies (MkGitConfig "url" "" "" "") 0 repo [("README.md", false); ("root.json", false)]
    demo_world (MkCluster ∅ ∅ ∅ ∅) Hc eq_refl eq_refl) as (r' & w' & Hrun & Hc' & _ & _ & Hst & _).
  eexists r', w', _. split; [exact Hrun|]. split; [exact Hc'|].
  apply (Hst [] (mark_managed privileged) []); [exact repo_manifests|constructor].
Defined.
End DemoGit.
