(* ===== verification/Text.v ===== *)
(** * Text: splitting, joining and trimming strings

    The functions of Go's package strings that the path handling, the log
    server, the session tokens and the command line use: [Split] on a
    one-character separator, [Join], [TrimRight], [TrimSpace], [TrimSuffix],
    [Cut] and [ToLower]; and the round trips between splitting and joining. *)

From stdpp Require Import strings list pretty.
From Stdlib Require Import Ascii Lia.
From S2P Require Import Prelude.

(** [strings.Split(s, sep)] for a separator of one character. *)
Fixpoint Split (sep : ascii) (s : string) : list string :=
  match s with
  | EmptyString => [""%string]
  | String a s =>
    if bool_decide (a = sep) then "" :: Split sep s
    else match Split sep s with
         | [] => [String a ""]
         | w :: ws => String a w :: ws
         end
  end.

(** [strings.Join(l, sep)] *)
Fixpoint Join (sep : string) (l : list string) : string :=
  match l with
  | [] => ""
  | [w] => w
  | w :: l => w +:+ sep +:+ Join sep l
  end.

(** [strings.TrimRight(s, cutset)] for the characters that satisfy [p]. *)
Fixpoint TrimRight (p : ascii → bool) (s : string) : string :=
  match s with
  | EmptyString => ""
  | String a s =>
    match TrimRight p s with
    | EmptyString => if p a then "" else String a ""
    | t => String a t
    end
  end.

Fixpoint TrimLeft (p : ascii → bool) (s : string) : string :=
  match s with
  | EmptyString => ""
  | String a s' => if p a then TrimLeft p s' else s
  end.

(** ASCII white space: tab, newline, vertical tab, form feed, carriage return
    and space. *)
Definition is_space (a : ascii) : bool :=
  let n := nat_of_ascii a in
  ((9 <=? n) && (n <=? 13) || (n =? 32))%nat.

(** [strings.TrimSpace] on ASCII text. *)
Definition TrimSpace (s : string) : string := TrimLeft is_space (TrimRight is_space s).

(** [strings.Cut(s, sep)] for a separator of one character: the text before
    and after the first separator. *)
Fixpoint Cut (sep : ascii) (s : string) : option (string * string) :=
  match s with
  | EmptyString => None
  | String a s =>
    if bool_decide (a = sep) then Some (""%string, s)
    else '(x, y) ← Cut sep s; Some (String a x, y)
  end.

(** [strings.ToLower] on ASCII text. *)
Definition lower_ascii (a : ascii) : ascii :=
  let n := nat_of_ascii a in
  if ((65 <=? n) && (n <=? 90))%nat then ascii_of_nat (n + 32) else a.

Fixpoint ToLower (s : string) : string :=
  match s with EmptyString => "" | String a s => String (lower_ascii a) (ToLower s) end.

(** [c] as a string. *)
Definition char (c : ascii) : string := String c "".

(** ** Laws *)

Lemma Split_not_nil c s : Split c s ≠ [].
Proof. destruct s as [|a s]; simpl; [done|]. case_bool_decide; [done|]. by destruct (Split c s). Qed.

Lemma Split_no_sep c s : Forall (λ w, contains_char c w = false) (Split c s).
Proof.
  induction s as [|a s IH]; simpl; [by repeat constructor|].
  case_bool_decide; [by constructor|].
  destruct (Split c s) as [|w ws]; inv IH; repeat constructor; simpl; rewrite ?bool_decide_eq_false_2; done.
Qed.

Lemma Split_word c w : contains_char c w = false → Split c w = [w].
Proof.
  induction w as [|a w IH]; [done|]; simpl. intros [Ha Hw]%orb_false_elim.
  rewrite Ha, IH; done.
Qed.

Lemma Split_app c s t : Split c (s +:+ String c t) = Split c s ++ Split c t.
Proof.
  induction s as [|a s IH].
  { rewrite string_app_nil_l. simpl. by rewrite bool_decide_eq_true_2. }
  rewrite string_app_cons. simpl. case_bool_decide; [by rewrite IH|].
  rewrite IH. pose proof (Split_not_nil c s). by destruct (Split c s).
Qed.

Lemma Join_cons sep w l : l ≠ [] → Join sep (w :: l) = w +:+ sep +:+ Join sep l.
Proof. by destruct l. Qed.

(** Joining what was split gives the text back. *)
Lemma Join_Split c s : Join (char c) (Split c s) = s.
Proof.
  induction s as [|a s IH]; [done|]. simpl Split.
  pose proof (Split_not_nil c s).
  case_bool_decide; subst.
  - rewrite Join_cons, IH by done. by rewrite string_app_nil_l.
  - destruct (Split c s) as [|w ws]; [done|]. destruct ws as [|w' ws]; [by rewrite <- IH|].
    rewrite Join_cons in * by done. by rewrite string_app_cons, IH.
Qed.

(** Splitting what was joined gives the words back, when there is a word and
    none contains the separator. *)
Lemma Split_Join c l :
  l ≠ [] → Forall (λ w, contains_char c w = false) l → Split c (Join (char c) l) = l.
Proof.
  induction l as [|w l IH]; [done|]. intros _ Hl. inv Hl.
  destruct l as [|w' l]; [by apply Split_word|].
  rewrite Join_cons by done. change (char c +:+ ?x) with (String c x).
  rewrite Split_app, IH, Split_word by done. done.
Qed.

Lemma Join_app sep l k : l ≠ [] → k ≠ [] → Join sep (l ++ k) = Join sep l +:+ sep +:+ Join sep k.
Proof.
  induction l as [|w l IH]; [done|]. intros _ Hk. destruct l as [|w' l].
  { change ([w] ++ k) with (w :: k). by rewrite Join_cons. }
  change ((w :: w' :: l) ++ k) with (w :: (w' :: l) ++ k).
  rewrite !Join_cons, IH by done. by rewrite !string_app_assoc.
Qed.

Lemma Cut_None c s : Cut c s = None ↔ contains_char c s = false.
Proof.
  induction s as [|a s IH]; [done|]; simpl. case_bool_decide; simpl; [done|].
  rewrite <- IH. by destruct (Cut c s) as [[x y]|].
Qed.

Lemma Cut_Some c s x y :
  Cut c s = Some (x, y) ↔ s = x +:+ String c y ∧ contains_char c x = false.
Proof.
  split.
  - revert x. induction s as [|a s IH]; intros x; [done|]; simpl. case_bool_decide; intros Hc.
    + simplify_eq. done.
    + destruct (Cut c s) as [[x' y']|]; simplify_eq/=.
      destruct (IH x' eq_refl) as [-> Hx]. rewrite string_app_cons, bool_decide_eq_false_2; done.
  - intros [-> Hx]. induction x as [|a x IH].
    { rewrite string_app_nil_l. simpl. by rewrite bool_decide_eq_true_2. }
    simpl in Hx. apply orb_false_elim in Hx as [Ha Hx].
    rewrite string_app_cons. simpl. by rewrite Ha, IH.
Qed.

Lemma TrimRight_idem p s : TrimRight p (TrimRight p s) = TrimRight p s.
Proof.
  induction s as [|a s IH]; [done|]; simpl.
  destruct (TrimRight p s) as [|b t] eqn:E; [|simpl in *; by rewrite IH].
  destruct (p a) eqn:Ha; simpl; [done|]. by rewrite Ha.
Qed.

Lemma length_list_byte_of_string s : length (String.list_byte_of_string s) = String.length s.
Proof.
  unfold String.list_byte_of_string. rewrite List.length_map.
  induction s as [|a s IH]; [done|]. simpl. by rewrite IH.
Qed.

(** Text whose characters are all ASCII, which JSON prints and reads back as it is. *)
Definition ascii_text (s : string) : bool :=
  forallb (λ c, N.ltb (Ascii.N_of_ascii c) 128) (String.list_ascii_of_string s).

(** Text without white space is not trimmed. *)
Definition spaceless (s : string) : Prop := ∀ c, is_space c = true → contains_char c s = false.

Lemma spaceless_app s t : spaceless s → spaceless t → spaceless (s +:+ t).
Proof. intros Hs Ht c Hc. by rewrite contains_char_app, Hs, Ht. Qed.

Lemma spaceless_cons a s : spaceless (String a s) → is_space a = false ∧ spaceless s.
Proof.
  intros H. split.
  - destruct (is_space a) eqn:Ha; [|done]. specialize (H a Ha). simpl in H. by rewrite bool_decide_eq_true_2 in H.
  - intros c Hc. specialize (H c Hc). simpl in H. by apply orb_false_elim in H as [_ H].
Qed.

Lemma TrimRight_spaceless s : spaceless s → TrimRight is_space s = s.
Proof.
  induction s as [|a s IH]; [done|]. intros H. apply spaceless_cons in H as [Ha Hs]. cbn [TrimRight].
  rewrite (IH Hs), Ha. by destruct s.
Qed.

Lemma TrimSpace_spaceless s : spaceless s → TrimSpace s = s.
Proof.
  intros H. unfold TrimSpace. rewrite TrimRight_spaceless by done.
  destruct s as [|a s]; [done|]. apply spaceless_cons in H as [Ha _]. cbn [TrimLeft]. by rewrite Ha.
Qed.

Lemma spaceless_pretty (z : Z) : spaceless (pretty z).
Proof.
  intros c Hc. apply contains_pretty.
  - unfold is_space in Hc. unfold digit_value. cbv zeta in *. case_match eqn:H; [|done].
    rewrite andb_true_iff, !Z.leb_le in H. rewrite orb_true_iff, andb_true_iff, !Nat.leb_le, Nat.eqb_eq in Hc. lia.
  - intros ->. done.
Qed.
