(* ===== verification/Path.v ===== *)
(** * Path: Go's package path/filepath on Unix

    [Clean], [Join], [Dir], [Base] and [Rel] on strings, as the standard
    library defines them, and their meaning on the list of components of a
    path: a cleaned path is the rendering of its components, joining appends
    and cleans, and [Rel] tells whether a path lies below another. *)

From stdpp Require Import strings list.
From Stdlib Require Import Ascii Lia.
From S2P Require Import Prelude Text.

(** [path[0] == '/'] *)
Definition IsAbs (s : string) : bool := HasPrefix s "/".

(** One element of the path, on the stack of the elements written so far: an
    empty element and "." are skipped; ".." removes the last element unless
    that is itself a "..", and disappears at the root. *)
Definition clean_step (rooted : bool) (stack : list string) (c : string) : list string :=
  if bool_decide (c = "") || bool_decide (c = ".") then stack
  else if bool_decide (c = "..") then
    match stack with
    | top :: rest => if bool_decide (top = "..") then ".." :: stack else rest
    | [] => if rooted then [] else [".."]
    end
  else c :: stack.

Definition clean_from (rooted : bool) (l : list string) (cs : list string) : list string :=
  rev (foldl (clean_step rooted) (rev l) cs).

(** The components of the cleaned path. *)
Definition components (s : string) : list string :=
  clean_from (IsAbs s) [] (Split slash s).

(** A path with the given components. *)
Definition render (rooted : bool) (l : list string) : string :=
  if rooted then "/" +:+ Join "/" l
  else match l with [] => "." | _ => Join "/" l end.

(** [filepath.Clean] *)
Definition Clean (s : string) : string := render (IsAbs s) (components s).

(** [filepath.Join]: leading empty elements are dropped. *)
Fixpoint path_Join (l : list string) : string :=
  match l with
  | [] => ""
  | e :: l' => if bool_decide (e = "") then path_Join l' else Clean (Join "/" l)
  end.

(** The text up to and including the last slash. *)
Fixpoint upto_slash (s : string) : string :=
  match s with
  | EmptyString => ""
  | String a s' => if bool_decide (a = slash) || contains_char slash s' then String a (upto_slash s') else ""
  end.

(** [filepath.Dir] *)
Definition Dir (s : string) : string := Clean (upto_slash s).

(** The common prefix of two lists is dropped from both. *)
Fixpoint strip_common (b t : list string) : list string * list string :=
  match b, t with
  | x :: b', y :: t' => if bool_decide (x = y) then strip_common b' t' else (b, t)
  | _, _ => (b, t)
  end.

(** [filepath.Rel(basepath, targpath)] *)
Definition Rel (basepath targpath : string) : option string :=
  let base := Clean basepath in
  let targ := Clean targpath in
  if bool_decide (targ = base) then Some "."
  else if negb (Bool.eqb (IsAbs base) (IsAbs targ)) then None
  else
    let tc := if bool_decide (targ = ".") then ["."] else components targ in
    let '(b, t) := strip_common (components base) tc in
    if bool_decide (head b = Some "..") then None
    else Some (Join "/" (((λ _, "..") <$> b) ++ t)).

(** The check that the hostpath driver and the file API of the agent make on a
    relative path: [rel == ".." || strings.HasPrefix(rel, "../")]. *)
Definition escapes (rel : string) : bool := bool_decide (rel = "..") || HasPrefix rel "../".

(** ** Components of a cleaned path *)

(** A word that can be a component: not empty, no slash, not a dot. *)
Definition word (c : string) : Prop :=
  c ≠ "" ∧ c ≠ "." ∧ contains_char slash c = false.

Definition plain (c : string) : Prop := word c ∧ c ≠ "..".

#[export] Instance word_decision c : Decision (word c).
Proof. unfold word. apply _. Defined.
#[export] Instance plain_decision c : Decision (plain c).
Proof. unfold plain. apply _. Defined.

(** Components of a cleaned path: words, and ".." only in front of a path that
    is not rooted. *)
Definition normal (rooted : bool) (l : list string) : Prop :=
  ∃ n k, l = replicate n ".." ++ k ∧ Forall plain k ∧ (rooted = true → n = 0%nat).

Lemma normal_nil r : normal r [].
Proof. exists 0%nat, []. repeat split; constructor. Qed.

Lemma normal_words r l : normal r l → Forall word l.
Proof.
  intros (n & k & -> & Hk & _). apply Forall_app. split.
  - by apply Forall_replicate.
  - eapply Forall_impl; [done|]. by intros x [].
Qed.

Lemma replicate_snoc {A} n (x : A) : replicate n x ++ [x] = replicate (S n) x.
Proof. induction n as [|n IH]; [done|]. simpl. f_equal. apply IH. Qed.

Lemma clean_step_normal r l c :
  contains_char slash c = false → normal r l → normal r (rev (clean_step r (rev l) c)).
Proof.
  intros Hc (n & k & -> & Hk & Hn). unfold clean_step.
  destruct (bool_decide (c = "") || bool_decide (c = ".")) eqn:E; [rewrite rev_involutive; by exists n, k|].
  apply orb_false_elim in E as [H1%bool_decide_eq_false H2%bool_decide_eq_false].
  case_bool_decide; subst.
  - destruct k as [|x k _] using rev_ind.
    + rewrite app_nil_r. destruct n as [|n].
      * simpl. destruct r; [exists 0%nat, []; split; [done|]; by split|]. by exists 1%nat, [].
      * rewrite <- (replicate_snoc n ".."), rev_app_distr. simpl.
        rewrite rev_involutive, !replicate_snoc.
        exists (S (S n)), []. rewrite app_nil_r. repeat split; [constructor|].
        intros Hr; by apply Hn in Hr.
    + apply Forall_app in Hk as [Hk [Hx _]%Forall_cons].
      rewrite app_assoc, rev_app_distr. simpl. rewrite bool_decide_eq_false_2 by apply Hx.
      rewrite rev_involutive. by exists n, k.
  - simpl. rewrite rev_involutive. exists n, (k ++ [c]). rewrite app_assoc. split; [done|].
    split; [|done]. apply Forall_app. split; [done|]. by repeat constructor.
Qed.

Lemma clean_from_nil r l : clean_from r l [] = l.
Proof. unfold clean_from. apply rev_involutive. Qed.

Lemma clean_from_cons r l c cs :
  clean_from r l (c :: cs) = clean_from r (rev (clean_step r (rev l) c)) cs.
Proof. unfold clean_from. simpl. by rewrite rev_involutive. Qed.

Lemma clean_from_app r l cs ds : clean_from r l (cs ++ ds) = clean_from r (clean_from r l cs) ds.
Proof. unfold clean_from. by rewrite foldl_app, rev_involutive. Qed.

Lemma clean_from_normal r l cs :
  Forall (λ c, contains_char slash c = false) cs → normal r l → normal r (clean_from r l cs).
Proof.
  intros Hcs. revert l. induction Hcs as [|c cs Hc Hcs IH]; intros l Hl; [by rewrite clean_from_nil|].
  rewrite clean_from_cons. by apply IH, clean_step_normal.
Qed.

Lemma components_normal s : normal (IsAbs s) (components s).
Proof. apply clean_from_normal; [apply Split_no_sep|apply normal_nil]. Qed.

(** Words in front of nothing to remove are kept as they are. *)
Lemma clean_step_plain r l c : plain c → rev (clean_step r (rev l) c) = l ++ [c].
Proof.
  intros ((H1 & H2 & _) & H3). unfold clean_step.
  rewrite !bool_decide_eq_false_2 by done. simpl. by rewrite rev_involutive.
Qed.

Lemma clean_from_plain r l cs : Forall plain cs → clean_from r l cs = l ++ cs.
Proof.
  intros Hcs. revert l. induction Hcs as [|c cs Hc Hcs IH]; intros l.
  - by rewrite clean_from_nil, app_nil_r.
  - rewrite clean_from_cons, clean_step_plain, IH by done. by rewrite <- app_assoc.
Qed.

Lemma clean_from_dotdots n : clean_from false [] (replicate n "..") = replicate n "..".
Proof.
  induction n as [|n IH]; [done|]. rewrite <- replicate_snoc, clean_from_app, IH, clean_from_cons, clean_from_nil.
  destruct n as [|n]; [done|]. rewrite <- (replicate_snoc n ".."), rev_app_distr. simpl.
  by rewrite rev_involutive.
Qed.

(** Cleaning normal components changes nothing. *)
Lemma clean_from_id r l : normal r l → clean_from r [] l = l.
Proof.
  intros (n & k & -> & Hk & Hn). rewrite clean_from_app.
  assert (clean_from r [] (replicate n "..") = replicate n "..") as ->.
  { destruct r; [by rewrite Hn|apply clean_from_dotdots]. }
  by apply clean_from_plain.
Qed.

Lemma clean_from_skip r l c cs : c = "" ∨ c = "." → clean_from r l (c :: cs) = clean_from r l cs.
Proof.
  intros Hc. rewrite clean_from_cons. unfold clean_step.
  destruct Hc as [-> | ->]; simpl; by rewrite rev_involutive.
Qed.

(** ".." removes a plain name. *)
Lemma clean_from_dotdot r l x cs : plain x → clean_from r (l ++ [x]) (".." :: cs) = clean_from r l cs.
Proof.
  intros [_ Hx]. rewrite clean_from_cons, rev_app_distr. unfold clean_step. simpl.
  rewrite bool_decide_eq_false_2 by done. by rewrite rev_involutive.
Qed.

(** The components of an absolute path are plain names. *)
Lemma components_plain s : IsAbs s = true → Forall plain (components s).
Proof.
  intros Ha. destruct (components_normal s) as (n & k & -> & Hk & Hn). by rewrite (Hn Ha).
Qed.

(** ** Rendering *)

Lemma IsAbs_cons a s : IsAbs (String a s) = bool_decide (a = slash).
Proof.
  unfold IsAbs, HasPrefix. cbn -[ascii_dec]. destruct (ascii_dec _ a) as [<-|].
  - rewrite bool_decide_eq_true_2 by done. by destruct s.
  - by rewrite bool_decide_eq_false_2 by done.
Qed.

Lemma IsAbs_app s t : s ≠ "" → IsAbs (s +:+ t) = IsAbs s.
Proof. destruct s as [|a s]; [done|]. intros _. by rewrite string_app_cons, !IsAbs_cons. Qed.

Lemma IsAbs_word c : contains_char slash c = false → IsAbs c = false.
Proof. destruct c as [|a c]; [done|]; simpl. intros [H _]%orb_false_elim. by rewrite IsAbs_cons. Qed.

Lemma IsAbs_render r l : Forall word l → IsAbs (render r l) = r.
Proof.
  intros Hl. destruct r; unfold render; [by rewrite IsAbs_app|].
  destruct l as [|c l]; [done|]. inv Hl as [|?? (Hn & _ & Hc)].
  destruct l; [by apply IsAbs_word|]. rewrite Join_cons by done.
  rewrite IsAbs_app by done. by apply IsAbs_word.
Qed.

Lemma Split_render r l :
  Forall word l → l ≠ [] → Split slash (render r l) = (if r then [""%string] else []) ++ l.
Proof.
  intros Hl Hne. assert (Split slash (Join "/" l) = l) as Hs.
  { apply (Split_Join slash); [done|]. eapply Forall_impl; [done|]. by intros x (_ & _ & ?). }
  unfold render. destruct r.
  - change ("/" +:+ Join "/" l) with ("" +:+ String slash (Join "/" l)).
    by rewrite Split_app, Hs.
  - destruct l; [done|]. apply Hs.
Qed.

(** A rendered path parses back to its components. *)
Lemma components_render r l : normal r l → components (render r l) = l.
Proof.
  intros Hl. pose proof (normal_words _ _ Hl) as Hw.
  unfold components. rewrite IsAbs_render by done.
  destruct l as [|c l]; [by destruct r|].
  rewrite Split_render by done. destruct r; simpl app; [rewrite clean_from_skip by auto|]; by apply clean_from_id.
Qed.

Lemma IsAbs_Clean s : IsAbs (Clean s) = IsAbs s.
Proof. apply IsAbs_render. eapply normal_words, components_normal. Qed.

Lemma components_Clean s : components (Clean s) = components s.
Proof. apply components_render, components_normal. Qed.

Lemma Clean_Clean s : Clean (Clean s) = Clean s.
Proof. unfold Clean at 1. by rewrite IsAbs_Clean, components_Clean. Qed.

Lemma Clean_inj s t : Clean s = Clean t ↔ IsAbs s = IsAbs t ∧ components s = components t.
Proof.
  split.
  - intros H. split; [by rewrite <- (IsAbs_Clean s), H, IsAbs_Clean|].
    by rewrite <- (components_Clean s), H, components_Clean.
  - intros [H1 H2]. unfold Clean. by rewrite H1, H2.
Qed.

Create HintDb path.
#[export] Hint Resolve components_normal normal_words normal_nil : path.

(** ** Joining *)

Lemma components_app s t :
  s ≠ "" → components (s +:+ String slash t) = clean_from (IsAbs s) (components s) (Split slash t).
Proof.
  intros Hs. unfold components. by rewrite IsAbs_app, Split_app, clean_from_app.
Qed.

Lemma path_Join_2 s t : s ≠ "" → path_Join [s; t] = Clean (s +:+ String slash t).
Proof. intros Hs. simpl. by rewrite bool_decide_eq_false_2. Qed.

Lemma components_Join s t :
  s ≠ "" → components (path_Join [s; t]) = clean_from (IsAbs s) (components s) (Split slash t).
Proof. intros Hs. rewrite path_Join_2, components_Clean by done. by apply components_app. Qed.

Lemma IsAbs_Join s l : s ≠ "" → IsAbs (path_Join (s :: l)) = IsAbs s.
Proof.
  intros Hs. simpl. rewrite bool_decide_eq_false_2, IsAbs_Clean by done.
  destruct l; [done|]. by apply IsAbs_app.
Qed.

Lemma components_Join_3 s t u :
  s ≠ "" →
  components (path_Join [s; t; u]) =
    clean_from (IsAbs s) (clean_from (IsAbs s) (components s) (Split slash t)) (Split slash u).
Proof.
  intros Hs. simpl. rewrite bool_decide_eq_false_2, components_Clean by done.
  change (s +:+ "/" +:+ t +:+ "/" +:+ u) with (s +:+ String slash (t +:+ String slash u)).
  by rewrite components_app, Split_app, clean_from_app.
Qed.

Lemma Clean_not_empty s : Clean s ≠ "".
Proof.
  unfold Clean, render. destruct (IsAbs s); [done|].
  pose proof (normal_words _ _ (components_normal s)) as H.
  destruct (components s) as [|c l]; [done|]. inv H as [|?? (Hc & _)].
  destruct l; [done|]. rewrite Join_cons by done. by destruct c.
Qed.

Lemma path_Join_Clean s l : s ≠ "" → Clean (path_Join (s :: l)) = path_Join (s :: l).
Proof. intros Hs. simpl. rewrite bool_decide_eq_false_2 by done. apply Clean_Clean. Qed.

Lemma path_Join_not_empty s l : s ≠ "" → path_Join (s :: l) ≠ "".
Proof. intros Hs. simpl. rewrite bool_decide_eq_false_2 by done. apply Clean_not_empty. Qed.

Lemma Clean_render r l : normal r l → Clean (render r l) = render r l.
Proof.
  intros Hl. unfold Clean. rewrite IsAbs_render, components_render by eauto using normal_words. done.
Qed.

(** ** Being below a directory *)

(** [inside base p]: the components of [p] are those of [base] followed by plain
    names, so following [p] component by component passes through [base] and
    does not leave it. *)
Definition inside (base p : string) : Prop :=
  IsAbs p = IsAbs base ∧ ∃ suf, components p = components base ++ suf ∧ Forall plain suf.

Lemma inside_refl p : inside p p.
Proof. split; [done|]. exists []. by rewrite app_nil_r. Qed.

Lemma inside_trans a b c : inside a b → inside b c → inside a c.
Proof.
  intros [Ha (s & Hs & Ps)] [Hb (t & Ht & Pt)]. split; [by rewrite Hb|].
  exists (s ++ t). rewrite Ht, Hs, app_assoc. split; [done|]. by apply Forall_app.
Qed.

Lemma inside_join base cs : base ≠ "" → Forall plain cs → inside base (path_Join (base :: cs)).
Proof.
  intros Hb Hcs. split; [by apply IsAbs_Join|]. exists cs. split; [|done].
  simpl. rewrite bool_decide_eq_false_2, components_Clean by done.
  destruct cs as [|c cs]; [by rewrite app_nil_r|].
  change ("/" +:+ ?x) with (String slash x).
  rewrite components_app, (Split_Join slash) by (done || (eapply Forall_impl; [done|]; by intros x ((_ & _ & ?) & _))).
  by apply clean_from_plain.
Qed.

Lemma components_dot p : Clean p = "." ↔ IsAbs p = false ∧ components p = [].
Proof. change "." with (Clean ""). rewrite Clean_inj. done. Qed.

Lemma strip_common_app b t : strip_common b (b ++ t) = ([], t).
Proof. induction b as [|x b IH]; [by destruct t|]. simpl. by rewrite bool_decide_eq_true_2. Qed.

Lemma strip_common_spec b t b' t' :
  strip_common b t = (b', t') → ∃ p, b = p ++ b' ∧ t = p ++ t'.
Proof.
  revert t. induction b as [|x b IH]; intros t; simpl.
  { intros ?; simplify_eq. by exists []. }
  destruct t as [|y t]; [intros ?; simplify_eq; by exists []|].
  case_bool_decide; intros H'; [|simplify_eq; by exists []].
  destruct (IH _ H') as (p & -> & ->). exists (y :: p). by subst.
Qed.

Lemma escapes_words t :
  Forall word t → t ≠ [] → escapes (Join "/" t) = bool_decide (head t = Some "..").
Proof.
  intros Ht Hne. destruct t as [|c t]; [done|]. inv Ht as [|?? (_ & _ & Hc) Ht'].
  unfold escapes. simpl head. destruct t as [|d t].
  - simpl. case_bool_decide as H; subst.
    + by rewrite bool_decide_eq_true_2.
    + rewrite bool_decide_eq_false_2 by congruence. simpl.
      destruct (HasPrefix c "../") eqn:E; [|done].
      apply HasPrefix_iff in E as [u ->].
      rewrite (contains_char_app slash "../" u) in Hc. done.
  - rewrite Join_cons by done. set (rest := Join "/" (d :: t)).
    change ("/" +:+ rest) with (String slash rest).
    rewrite bool_decide_eq_false_2.
    2: { intros E. assert (contains_char slash (c +:+ String slash rest) = false) as H by by rewrite E.
         rewrite contains_char_app in H. apply orb_false_elim in H as [_ H]. done. }
    simpl. case_bool_decide as H; simplify_eq.
    + apply (HasPrefix_app "../").
    + destruct (HasPrefix _ "../") eqn:E; [|done]. apply HasPrefix_iff in E as [u Hu].
      change ("../" +:+ u) with (".." +:+ String slash u) in Hu.
      apply app_sep_inj in Hu as [-> _]; done.
Qed.

(** [Rel] from [base] to a path inside it, and only then, is a path that does
    not start with "..". *)
Lemma Rel_inside base p : inside base p → ∃ rel, Rel base p = Some rel ∧ escapes rel = false.
Proof.
  intros [Ha (suf & Hc & Hp)]. unfold Rel.
  case_bool_decide as He; [by exists "."|].
  rewrite !IsAbs_Clean, Ha, eqb_reflx. simpl.
  assert (suf ≠ []) as Hs.
  { intros ->. apply He, Clean_inj. by rewrite app_nil_r in Hc. }
  rewrite bool_decide_eq_false_2.
  2: { intros [_ Hd]%components_dot. rewrite Hc in Hd. by apply app_nil in Hd as [_ ?]. }
  rewrite !components_Clean, Hc, strip_common_app. simpl.
  exists (Join "/" suf). split; [done|].
  rewrite escapes_words by (done || (eapply Forall_impl; [done|]; by intros x [])).
  apply bool_decide_eq_false. destruct Hp as [|c suf [_ Hc'] _]; [done|]. simpl. congruence.
Qed.

(** Behind any prefix of normal components, what does not start with ".." has
    plain names only. *)
Lemma normal_suffix r l t : normal r (l ++ t) → head t ≠ Some ".." → Forall plain t.
Proof.
  intros (n & k & Hk & Pk & _) Ht. revert n Hk. induction l as [|x l IH]; intros n Hk.
  - destruct n; simpl in Hk; [by rewrite Hk|]. by rewrite Hk in Ht.
  - destruct n; simpl in Hk; [|injection Hk as _ Hk; by apply (IH n)].
    rewrite <- Hk in Pk. apply Forall_cons in Pk as [_ Pk]. by apply Forall_app in Pk as [_ Pk].
Qed.

Lemma inside_Rel base p rel : Rel base p = Some rel → escapes rel = false → inside base p.
Proof.
  unfold Rel. case_bool_decide as He.
  { intros _ _. apply Clean_inj in He as [H1 H2]. split; [done|]. exists []. by rewrite app_nil_r. }
  rewrite !IsAbs_Clean. destruct (Bool.eqb _ _) eqn:Ha; [|done]. simpl.
  apply eqb_prop in Ha. rewrite !components_Clean.
  pose proof (normal_words _ _ (components_normal base)) as Hwb.
  destruct (strip_common _ _) as [b t] eqn:E. apply strip_common_spec in E as (q & Hb & Ht).
  intros Hr Hn. destruct (bool_decide (head b = _)); simplify_eq/=.
  destruct b as [|c b].
  - rewrite app_nil_r in Hb. subst q. split; [done|].
    case_bool_decide as Hdot.
    + apply components_dot in Hdot as [Hf Hcp]. rewrite Hcp.
      destruct (components base) as [|x l] eqn:Hcb; [by exists []|].
      simpl in Ht. injection Ht as <- _. by inv Hwb as [|?? (_ & ? & _)].
    + exists t. split; [done|]. pose proof (components_normal p) as Hp. rewrite Ht in Hp.
      eapply normal_suffix; [done|]. destruct t as [|c t]; [done|].
      apply normal_words in Hp. apply Forall_app in Hp as [_ Hp]. simpl fmap in Hn.
      rewrite app_nil_l, escapes_words in Hn by done. by apply bool_decide_eq_false in Hn.
  - exfalso. revert Hn. rewrite fmap_cons. simpl app. unfold escapes.
    clear Ht. destruct (_ ++ t) as [|d l]; [discriminate|]. rewrite Join_cons by done.
    change (".." +:+ "/" +:+ ?x) with ("../" +:+ x). by rewrite HasPrefix_app, orb_true_r.
Qed.

(** The directory part of a path. *)
Lemma upto_slash_none w : contains_char slash w = false → upto_slash w = "".
Proof. destruct w as [|a w]; [done|]. simpl. by intros ->. Qed.

Lemma upto_slash_app s w : contains_char slash w = false → upto_slash (s +:+ String slash w) = s +:+ "/".
Proof.
  intros Hw. induction s as [|a s IH]; rewrite ?string_app_nil_l, ?string_app_cons; simpl.
  - by rewrite upto_slash_none.
  - rewrite IH, contains_char_app. simpl. by rewrite !orb_true_r.
Qed.

Lemma render_snoc r l c :
  l ≠ [] ∨ r = true → render r (l ++ [c]) = (if bool_decide (l = []) then "" else render r l) +:+ String slash c.
Proof.
  intros H. destruct l as [|x l].
  { destruct H as [H|H]; [done|]. by rewrite H. }
  rewrite bool_decide_eq_false_2 by done. unfold render. rewrite Join_app by done.
  destruct r; [|done]. by rewrite string_app_assoc.
Qed.

(** [Dir] of a cleaned path drops its last component. *)
Lemma components_Dir p l c :
  components (Clean p) = l ++ [c] → components (Dir (Clean p)) = l ∧ IsAbs (Dir (Clean p)) = IsAbs p.
Proof.
  rewrite components_Clean. intros Hc. unfold Dir. rewrite components_Clean, IsAbs_Clean.
  pose proof (components_normal p) as Hn. rewrite Hc in Hn.
  pose proof (normal_words _ _ Hn) as Hw. apply Forall_app in Hw as [Hwl [(_ & _ & Hsl) _]%Forall_cons].
  assert (normal (IsAbs p) l) as Hnl.
  { destruct Hn as (n & k & Hk & Pk & Hz). destruct k as [|y k _] using rev_ind.
    - rewrite app_nil_r in Hk. destruct n as [|n]; [by apply app_nil in Hk as [_ ?]|].
      rewrite <- replicate_snoc in Hk. apply app_inj_tail in Hk as [-> _].
      exists n, []. rewrite app_nil_r. repeat split; [constructor|]. intros Hr; by apply Hz in Hr.
    - rewrite app_assoc in Hk. apply app_inj_tail in Hk as [-> _].
      apply Forall_app in Pk as [Pk _]. by exists n, k. }
  unfold Clean. rewrite Hc.
  destruct (decide (l = [] ∧ IsAbs p = false)) as [[-> Hf]|Hne].
  { rewrite Hf. simpl. by rewrite upto_slash_none. }
  rewrite render_snoc, upto_slash_app by (done || (destruct l, (IsAbs p); intuition congruence)).
  case_bool_decide; subst.
  { destruct (IsAbs p); [done|]. by destruct Hne. }
  change (render (IsAbs p) l +:+ "/") with (render (IsAbs p) l +:+ String slash "").
  assert (render (IsAbs p) l ≠ "") as Hr.
  { rewrite <- (Clean_render _ _ Hnl). apply Clean_not_empty. }
  rewrite components_app, IsAbs_app, IsAbs_render, components_render by done.
  change (Split slash "") with [""%string]. by rewrite clean_from_skip, clean_from_nil by auto.
Qed.
