(* ===== verification/Http.v ===== *)
(** * Http: requests, replies and the operating system

    What the HTTP handlers of the program (internal/agent/files.go and
    logserver.go, internal/dashboard) use of net/http: the query of a request,
    its cookies and body, and the reply as status, redirect, cookies and body.
    [OS] is the file system of a process as package os presents it, a parameter
    of the components that use it; [traced] records every access that a handler
    makes, whatever the file system answers, and [MemFs] is a file system in
    memory on which definitions are evaluated. *)

From stdpp Require Import gmap strings list fin_maps pretty.
From Stdlib Require Import Ascii ZArith Lia.
From S2P Require Import Prelude Text Path.

Local Open Scope Z_scope.

(** ** Requests *)

(** A request body: the bytes that arrive, then end of file or an error. *)
Record http_body := HttpBody { hb_bytes : bytes; hb_err : option error }.

(** A request.  [r_Path] is the path by which the mux has chosen the handler;
    [r_Query] the parsed query (or, for a form, the form values) in the order in
    which the values appear. *)
Record request := Request {
  r_Method : string;
  r_Path : string;
  r_Query : list (string * string);
  r_Cookies : list (string * string);
  r_Body : http_body;
}.

(** [values.Get(key)]: the first value, or the empty string. *)
Fixpoint values_Get (l : list (string * string)) (key : string) : string :=
  match l with
  | [] => ""
  | (k, v) :: l => if bool_decide (k = key) then v else values_Get l key
  end.

(** [r.URL.Query().Get(key)] *)
Definition Query_Get (r : request) (key : string) : string := values_Get (r_Query r) key.

(** [r.Cookie(name)]: the first cookie of that name. *)
Fixpoint find_cookie (l : list (string * string)) (name : string) : option string :=
  match l with
  | [] => None
  | (k, v) :: l => if bool_decide (k = name) then Some v else find_cookie l name
  end.
Definition Cookie (r : request) (name : string) : option string := find_cookie (r_Cookies r) name.

(** The first [n] bytes. *)
Fixpoint take_bytes (n : Z) (l : bytes) : bytes :=
  match l with
  | [] => []
  | b :: l => if n <=? 0 then [] else b :: take_bytes (n - 1) l
  end.

Definition bytes_len (l : bytes) : Z := Z.of_nat (length l).

(** [io.ReadAll(io.LimitReader(body, n))]: an error after the limit is not
    seen. *)
Definition ReadAll_limit (n : Z) (b : http_body) : error + bytes :=
  if n <=? bytes_len (hb_bytes b) then inr (take_bytes n (hb_bytes b))
  else match hb_err b with Some e => inl e | None => inr (hb_bytes b) end.

(** ** Replies *)

Record cookie := SetCookie {
  ck_Name : string; ck_Value : string; ck_Path : string;
  ck_HttpOnly : bool; ck_SameSite : string; ck_MaxAge : Z;
}.

(** The body of a reply: text, bytes or a value encoded as JSON. *)
Inductive payload (B : Type) :=
  | NoBody
  | Text (s : string)
  | Raw (b : bytes)
  | JSON (v : B).
Arguments NoBody {B}.
Arguments Text {B} s.
Arguments Raw {B} b.
Arguments JSON {B} v.

Record reply (B : Type) := Reply {
  rp_Status : Z;
  rp_Location : option string;
  rp_Cookies : list cookie;
  rp_Body : payload B;
}.
Arguments Reply {B} rp_Status rp_Location rp_Cookies rp_Body.
Arguments rp_Status {B} r.
Arguments rp_Location {B} r.
Arguments rp_Cookies {B} r.
Arguments rp_Body {B} r.

Definition StatusOK : Z := 200.
Definition StatusCreated : Z := 201.
Definition StatusNoContent : Z := 204.
Definition StatusSeeOther : Z := 303.
Definition StatusFound : Z := 302.
Definition StatusBadRequest : Z := 400.
Definition StatusUnauthorized : Z := 401.
Definition StatusNotFound : Z := 404.
Definition StatusMethodNotAllowed : Z := 405.
Definition StatusRequestEntityTooLarge : Z := 413.
Definition StatusInternalServerError : Z := 500.
Definition StatusBadGateway : Z := 502.

Definition newline : ascii := "010"%char.

(** [http.Error(w, msg, code)] *)
Definition http_Error {B} (msg : string) (code : Z) : reply B :=
  Reply code None [] (Text (msg +:+ char newline)).

(** [w.WriteHeader(code)] with no body. *)
Definition http_Status {B} (code : Z) : reply B := Reply code None [] NoBody.

(** [json.NewEncoder(w).Encode(v)] *)
Definition http_JSON {B} (v : B) : reply B := Reply StatusOK None [] (JSON v).

(** [w.Write(b)] *)
Definition http_Bytes {B} (b : bytes) : reply B := Reply StatusOK None [] (Raw b).

(** [http.Redirect(w, r, url, code)] *)
Definition http_Redirect {B} (url : string) (code : Z) : reply B := Reply code (Some url) [] NoBody.

(** What a mux without a matching pattern answers. *)
Definition http_NotFound {B} : reply B := http_Error "404 page not found" StatusNotFound.

Lemma take_bytes_length n l : 0 ≤ n → n ≤ bytes_len l → bytes_len (take_bytes n l) = n.
Proof.
  unfold bytes_len. revert n. induction l as [|b l IH]; intros n Hn; simpl; [lia|]. intros Hl.
  destruct (Z.leb_spec n 0); simpl; [lia|]. rewrite Nat2Z.inj_succ, IH; lia.
Qed.

(** Reading with a limit returns at most that many bytes, and everything when
    the body is shorter. *)
Lemma ReadAll_limit_length n b l : 0 ≤ n → ReadAll_limit n b = inr l → bytes_len l ≤ n.
Proof.
  unfold ReadAll_limit. intros Hn. destruct (Z.leb_spec n (bytes_len (hb_bytes b))).
  - intros ?; simplify_eq. by rewrite take_bytes_length.
  - destruct (hb_err b); intros; simplify_eq; lia.
Qed.

Lemma ReadAll_limit_short n b l :
  ReadAll_limit n b = inr l → bytes_len l < n → l = hb_bytes b ∧ hb_err b = None.
Proof.
  unfold ReadAll_limit. destruct (Z.leb_spec n (bytes_len (hb_bytes b))) as [Hle|].
  - intros ? Hl; simplify_eq. destruct (Z.leb_spec 0 n); [rewrite take_bytes_length in Hl; lia|].
    unfold bytes_len in *. lia.
  - destruct (hb_err b); intros; by simplify_eq.
Qed.

(** ** The operating system *)

Record file_info := FileInfo { fi_IsDir : bool; fi_Size : Z; fi_ModTime : Z }.
Record dir_entry := DirEntry { de_Name : string; de_IsDir : bool }.

(** Package os over a state [E] of the file system.  Every call may fail. *)
Class OS (E : Type) := {
  os_MkdirAll : string → E → (error + unit) * E;
  os_ReadDir : string → E → (error + list dir_entry) * E;
  (** [entry.Info()] of the entry of that name of a directory *)
  os_EntryInfo : string → string → E → (error + file_info) * E;
  os_ReadFile : string → E → (error + bytes) * E;
  os_WriteFile : string → bytes → E → (error + unit) * E;
  os_Stat : string → E → (error + file_info) * E;
  os_Lstat : string → E → (error + file_info) * E;
  os_Remove : string → E → (error + unit) * E;
  os_RemoveAll : string → E → (error + unit) * E;
  (** [os.Symlink(oldname, newname)] *)
  os_Symlink : string → string → E → (error + unit) * E;
  os_IsNotExist : error → bool;
  os_ErrorText : error → string;
}.

(** What a handler relies on when nobody else changes the files: a file that
    was written is read back, a file that was removed is gone, reading leaves
    the files as they are. *)
Class OSLaws (E : Type) {O : OS E} : Prop := {
  os_read_pure : ∀ p s r s', os_ReadFile p s = (r, s') → s' = s;
  os_write_read : ∀ p b s s', os_WriteFile p b s = (inr (), s') → os_ReadFile p s' = (inr b, s');
  os_remove_read : ∀ p s s', os_Remove p s = (inr (), s') →
    ∃ e, os_ReadFile p s' = (inl e, s') ∧ os_IsNotExist e = true;
}.

(** Different absolute paths are different files (there are no links in the way):
    writing one leaves the contents of the others as they are. *)
Class OSFrame (E : Type) {O : OS E} : Prop := {
  os_write_frame : ∀ p q b s r s', os_WriteFile p b s = (r, s') →
    IsAbs p → IsAbs q → components p ≠ components q → (os_ReadFile q s').1 = (os_ReadFile q s).1;
}.

(** A run is known when its result is. *)
Lemma run_result {A B} (x : A * B) a : x.1 = a → x = (a, x.2).
Proof. by destruct x; simpl; intros ->. Qed.

(** ** Recording the accesses *)

Inductive os_op := OpMkdirAll | OpReadDir | OpRead | OpWrite | OpStat | OpRemove | OpRemoveAll | OpSymlink.

#[export] Instance os_op_eq_decision : EqDecision os_op.
Proof. solve_decision. Defined.

(** One access: the operation and the path it names. *)
Abbreviation access := (os_op * string)%type.

Definition record_access {E A} (op : os_op) (p : string) (f : E → A * E) :
    E * list access → A * (E * list access) :=
  λ '(s, tr), let '(r, s') := f s in (r, (s', tr ++ [(op, p)])).

(** The file system [O] with the list of all accesses made so far. *)
Definition traced {E} (O : OS E) : OS (E * list access) := {|
  os_MkdirAll p := record_access OpMkdirAll p (os_MkdirAll p);
  os_ReadDir p := record_access OpReadDir p (os_ReadDir p);
  os_EntryInfo p n := record_access OpStat (path_Join [p; n]) (os_EntryInfo p n);
  os_ReadFile p := record_access OpRead p (os_ReadFile p);
  os_WriteFile p b := record_access OpWrite p (os_WriteFile p b);
  os_Stat p := record_access OpStat p (os_Stat p);
  os_Lstat p := record_access OpStat p (os_Lstat p);
  os_Remove p := record_access OpRemove p (os_Remove p);
  os_RemoveAll p := record_access OpRemoveAll p (os_RemoveAll p);
  os_Symlink old p := record_access OpSymlink p (os_Symlink old p);
  os_IsNotExist := os_IsNotExist;
  os_ErrorText := os_ErrorText;
|}.

Lemma record_access_run {E A} op p (f : E → A * E) s tr :
  record_access op p f (s, tr) = ((f s).1, ((f s).2, tr ++ [(op, p)])).
Proof. unfold record_access. by destruct (f s). Qed.

(** Closes the goal that each of the recorded accesses satisfies a predicate. *)
Ltac trace_ok :=
  cbn [fst snd]; repeat match goal with
  | |- Forall _ (_ ++ _) => apply Forall_app; split
  | |- Forall _ [] => apply Forall_nil_2
  | |- Forall _ (_ :: _) => apply Forall_cons; split
  end; try done; try (by left).

(** ** A file system in memory *)

Module MemFs.

(** A file, a directory or a symbolic link; the key of a node is its list of
    components.  Links are not followed. *)
Inductive node := NFile (b : bytes) | NDir | NLink (target : string).

Abbreviation fs := (gmap (list string) node).

Definition ENOENT : error := Errorf "no such file or directory".
Definition EEXIST : error := Errorf "file exists".
Definition ENOTDIR : error := Errorf "not a directory".
Definition EISDIR : error := Errorf "is a directory".
Definition ENOTEMPTY : error := Errorf "directory not empty".

(** The node at a path; the root is always there. *)
Definition node_at (s : fs) (l : list string) : option node :=
  match l with [] => Some NDir | _ => s !! l end.

(** Creating the directories of a path, from the root down. *)
Fixpoint mkdirs (pre l : list string) (s : fs) : (error + unit) * fs :=
  match l with
  | [] => (inr (), s)
  | c :: l =>
    let p := pre ++ [c] in
    match s !! p with
    | Some NDir => mkdirs p l s
    | Some _ => (inl ENOTDIR, s)
    | None => mkdirs p l (<[p := NDir]> s)
    end
  end.

Definition stat (p : string) (s : fs) : (error + file_info) * fs :=
  match node_at s (components p) with
  | None => (inl ENOENT, s)
  | Some (NFile b) => (inr (FileInfo false (bytes_len b) 0), s)
  | Some NDir => (inr (FileInfo true 4096 0), s)
  | Some (NLink _) => (inr (FileInfo false 0 0), s)
  end.

(** The last component of [l] if [l] is an entry of the directory [d]. *)
Definition child_of (d l : list string) : option string :=
  c ← last l;
  if bool_decide (removelast l = d) && bool_decide (plain c) then Some c else None.

Definition read_dir (p : string) (s : fs) : (error + list dir_entry) * fs :=
  match node_at s (components p) with
  | Some NDir =>
    (inr (omap (λ '(l, n), c ← child_of (components p) l;
                 Some (DirEntry c (match n with NDir => true | _ => false end))) (map_to_list s)), s)
  | Some _ => (inl ENOTDIR, s)
  | None => (inl ENOENT, s)
  end.

Definition parent_ok (s : fs) (l : list string) : bool :=
  match node_at s (removelast l) with Some NDir => true | _ => false end.

Definition read_file (p : string) (s : fs) : (error + bytes) * fs :=
  match node_at s (components p) with
  | Some (NFile b) => (inr b, s)
  | Some _ => (inl EISDIR, s)
  | None => (inl ENOENT, s)
  end.

Definition write_file (p : string) (b : bytes) (s : fs) : (error + unit) * fs :=
  let l := components p in
  match node_at s l with
  | Some (NFile _) => (inr (), <[l := NFile b]> s)
  | Some _ => (inl EISDIR, s)
  | None => if parent_ok s l then (inr (), <[l := NFile b]> s) else (inl ENOENT, s)
  end.

Definition below (d l : list string) : bool := bool_decide (d `prefix_of` l).

Definition remove (p : string) (s : fs) : (error + unit) * fs :=
  let l := components p in
  match node_at s l with
  | None => (inl ENOENT, s)
  | Some NDir =>
    if bool_decide (Forall (λ k, below l k = false ∨ k = l) (map_to_list s).*1) && negb (bool_decide (l = []))
    then (inr (), delete l s) else (inl ENOTEMPTY, s)
  | Some _ => (inr (), delete l s)
  end.

Definition remove_all (p : string) (s : fs) : (error + unit) * fs :=
  (inr (), filter (λ kn, below (components p) kn.1 = false) s).

Definition symlink (old new : string) (s : fs) : (error + unit) * fs :=
  let l := components new in
  match node_at s l with
  | Some _ => (inl EEXIST, s)
  | None => if parent_ok s l then (inr (), <[l := NLink old]> s) else (inl ENOENT, s)
  end.

#[export] Instance mem_os : OS fs := {|
  os_MkdirAll p := mkdirs [] (components p);
  os_ReadDir := read_dir;
  os_EntryInfo p n := stat (path_Join [p; n]);
  os_ReadFile := read_file;
  os_WriteFile := write_file;
  os_Stat := stat;
  os_Lstat := stat;
  os_Remove := remove;
  os_RemoveAll := remove_all;
  os_Symlink := symlink;
  os_IsNotExist e := bool_decide (e = ENOENT);
  os_ErrorText e := match e with Errorf t => t | _ => "error" end;
|}.

#[export] Instance mem_os_laws : OSLaws fs.
Proof.
  split.
  - intros p s r s'. cbn. unfold read_file. by repeat case_match; intros; simplify_eq.
  - intros p b s s'. cbn. unfold write_file, read_file, node_at.
    destruct (components p) as [|c l]; [done|].
    destruct (s !! (c :: l)) as [[]|]; [| | |case_match]; intros; simplify_eq; by rewrite lookup_insert_eq.
  - intros p s s'. cbn. unfold remove, read_file, node_at.
    destruct (components p) as [|c l].
    { rewrite andb_false_r. done. }
    intros H. exists ENOENT.
    assert (s' !! (c :: l) = None) as ->; [|done].
    repeat case_match; simplify_eq; by rewrite lookup_delete_eq.
Qed.

#[export] Instance mem_os_frame : OSFrame fs.
Proof.
  split. intros p q b s r s'. cbn. unfold write_file. intros H _ _ Hpq.
  assert (s' = s ∨ s' = <[components p := NFile b]> s) as [->| ->]; [repeat case_match; naive_solver|done|].
  unfold read_file, node_at. destruct (components q) as [|c l] eqn:Hq; [done|].
  rewrite lookup_insert_ne by done. by repeat case_match.
Qed.

End MemFs.
