(* ===== verification/Files.v ===== *)
(** * Files: the file and log servers of the agent

    internal/agent/files.go (listing, reading, writing and deleting the files of
    a volume) and internal/agent/logserver.go (the tail of a pod's log), over an
    arbitrary file system.  [resolveVolumePath] confines a request to the
    directory it computes for the volume; that directory lies below the volumes
    directory when the namespace and the name are plain names, and may lie
    anywhere when they are not, since nothing checks them. *)

From stdpp Require Import gmap strings list fin_maps.
From Stdlib Require Import Ascii ZArith Lia.
From S2P Require Import Prelude Text Path Http Agent.

Local Open Scope Z_scope.

(** [8 << 20] *)
Definition maxFileWriteBytes : Z := Z.shiftl 8 20.

Record fileEntry := FileEntry { fe_Name : string; fe_IsDir : bool; fe_Size : Z; fe_ModTimeUnix : Z }.

(** files.go: resolveVolumePath *)
Definition resolveVolumePath (volumesDir namespace name relPath : string) : option string :=
  if bool_decide (namespace = "") || bool_decide (name = "") then None
  else
    let volDir := path_Join [volumesDir; namespace; name] in
    let full := path_Join [volDir; relPath] in
    let cleanVolDir := Clean volDir in
    let cleanFull := Clean full in
    match Rel cleanVolDir cleanFull with
    | None => None
    | Some rel =>
      if bool_decide (rel = "..") || HasPrefix rel "../" then None else Some cleanFull
    end.

Section Handlers.
Context {E : Type} {O : OS E}.

Abbreviation handler := (E → reply (list fileEntry) * E).

(** [http.Error(w, err.Error(), http.StatusInternalServerError)] *)
Definition internal_error {B} (e : error) : reply B :=
  http_Error (os_ErrorText e) StatusInternalServerError.

(** The loop of /files/list: entries without information are left out. *)
Fixpoint list_entries (volDir : string) (l : list dir_entry) (s : E) : list fileEntry * E :=
  match l with
  | [] => ([], s)
  | e :: l =>
    match os_EntryInfo volDir (de_Name e) s with
    | (inl _, s) => list_entries volDir l s
    | (inr info, s) =>
      let '(out, s) := list_entries volDir l s in
      (FileEntry (de_Name e) (de_IsDir e) (fi_Size info) (fi_ModTime info) :: out, s)
    end
  end.

Definition files_list (volumesDir : string) (r : request) : handler := λ s,
  let namespace := Query_Get r "namespace" in
  let name := Query_Get r "name" in
  match resolveVolumePath volumesDir namespace name "." with
  | None => (http_Error "invalid namespace/name" StatusBadRequest, s)
  | Some volDir =>
    match os_MkdirAll volDir s with
    | (inl err, s) => (internal_error err, s)
    | (inr _, s) =>
      match os_ReadDir volDir s with
      | (inl err, s) => (internal_error err, s)
      | (inr entries, s) =>
        let '(out, s) := list_entries volDir entries s in (http_JSON out, s)
      end
    end
  end.

(** [full, ok := resolveVolumePath(...); if !ok || path == ""] *)
Definition requested_file (volumesDir : string) (r : request) : option string :=
  match resolveVolumePath volumesDir (Query_Get r "namespace") (Query_Get r "name") (Query_Get r "path") with
  | Some full => if bool_decide (Query_Get r "path" = "") then None else Some full
  | None => None
  end.

Definition files_read (volumesDir : string) (r : request) : handler := λ s,
  match requested_file volumesDir r with
  | None => (http_Error "invalid namespace/name/path" StatusBadRequest, s)
  | Some full =>
    match os_ReadFile full s with
    | (inl err, s) =>
      if os_IsNotExist err then (http_Error "file not found" StatusNotFound, s)
      else (internal_error err, s)
    | (inr b, s) => (http_Bytes b, s)
    end
  end.

Definition files_write (volumesDir : string) (r : request) : handler := λ s,
  if negb (bool_decide (r_Method r = "PUT")) && negb (bool_decide (r_Method r = "POST")) then
    (http_Error "method not allowed" StatusMethodNotAllowed, s)
  else
  match requested_file volumesDir r with
  | None => (http_Error "invalid namespace/name/path" StatusBadRequest, s)
  | Some full =>
    match ReadAll_limit (maxFileWriteBytes + 1) (r_Body r) with
    | inl err => (internal_error err, s)
    | inr body =>
      if maxFileWriteBytes <? bytes_len body then (http_Error "file too large" StatusRequestEntityTooLarge, s)
      else
      match os_MkdirAll (Dir full) s with
      | (inl err, s) => (internal_error err, s)
      | (inr _, s) =>
        match os_WriteFile full body s with
        | (inl err, s) => (internal_error err, s)
        | (inr _, s) => (http_Status StatusNoContent, s)
        end
      end
    end
  end.

Definition files_delete (volumesDir : string) (r : request) : handler := λ s,
  if negb (bool_decide (r_Method r = "DELETE")) then
    (http_Error "method not allowed" StatusMethodNotAllowed, s)
  else
  match requested_file volumesDir r with
  | None => (http_Error "invalid namespace/name/path" StatusBadRequest, s)
  | Some full =>
    match os_Stat full s with
    | (inl err, s) =>
      if os_IsNotExist err then (http_Error "file not found" StatusNotFound, s)
      else (internal_error err, s)
    | (inr info, s) =>
      if fi_IsDir info then (http_Error "cannot delete a directory" StatusBadRequest, s)
      else
      match os_Remove full s with
      | (inl err, s) => (internal_error err, s)
      | (inr _, s) => (http_Status StatusNoContent, s)
      end
    end
  end.

(** files.go: NewFilesHandler, the mux of the four handlers. *)
Definition NewFilesHandler (volumesDir : string) (r : request) : handler :=
  if bool_decide (r_Path r = "/files/list") then files_list volumesDir r
  else if bool_decide (r_Path r = "/files/read") then files_read volumesDir r
  else if bool_decide (r_Path r = "/files/write") then files_write volumesDir r
  else if bool_decide (r_Path r = "/files/delete") then files_delete volumesDir r
  else λ s, (http_NotFound, s).

(** ** The log server *)

(** [1 << 20] *)
Definition maxLogReadBytes : Z := Z.shiftl 1 20.

(** process.go: logFilePath *)
Definition logFilePath (logDir containerID : string) : string := path_Join [logDir; containerID +:+ ".log"].
(** build.go: buildLogFilePath *)
Definition buildLogFilePath (logDir containerID : string) : string :=
  path_Join [logDir; containerID +:+ ".build.log"].

Definition drop_bytes (n : Z) (l : bytes) : bytes := drop (Z.to_nat n) l.

(** The window of the file that is read: its last [maxLogReadBytes] bytes. *)
Definition tail_window (content : bytes) : string :=
  let size := bytes_len content in
  let readSize := if size <? maxLogReadBytes then size else maxLogReadBytes in
  String.string_of_list_byte (drop_bytes (size - readSize) content).

Definition is_newline (a : ascii) : bool := bool_decide (a = newline).

(** The last [maxLines] lines of a text, each ended by a newline. *)
Definition tail_lines (buf : string) (maxLines : Z) : string :=
  let lines := Split newline (TrimRight is_newline buf) in
  let n := Z.of_nat (length lines) in
  let lines := if maxLines <? n then drop (Z.to_nat (n - maxLines)) lines else lines in
  Join (char newline) lines +:+ char newline.

(** logserver.go: tailFile.  Opening, asking for the size, seeking and reading
    are one access here: the file does not change in between. *)
Definition tailFile (path : string) (maxLines : Z) (s : E) : (error + string) * E :=
  match os_ReadFile path s with
  | (inl err, s) => (inl err, s)
  | (inr content, s) => (inr (tail_lines (tail_window content) maxLines), s)
  end.

(** The number of lines to show: 200 unless the query has a positive number. *)
Definition tail_count (r : request) : Z :=
  match Atoi (Query_Get r "tail") with
  | Some n => if 0 <? n then n else 200
  | None => 200
  end.

Definition log_path (logDir : string) (r : request) : string :=
  let id := containerNameRaw (Query_Get r "namespace") (Query_Get r "name") in
  if bool_decide (Query_Get r "stream" = "build") then buildLogFilePath logDir id
  else logFilePath logDir id.

(** logserver.go: NewLogHandler *)
Definition NewLogHandler {B} (logDir : string) (r : request) (s : E) : reply B * E :=
  if negb (bool_decide (r_Path r = "/logs")) then (http_NotFound, s)
  else if bool_decide (Query_Get r "namespace" = "") || bool_decide (Query_Get r "name" = "") then
    (http_Error "namespace and name query parameters are required" StatusBadRequest, s)
  else
  match tailFile (log_path logDir r) (tail_count r) s with
  | (inl err, s) =>
    if os_IsNotExist err then (http_Error "no logs found for this pod yet" StatusNotFound, s)
    else (internal_error err, s)
  | (inr lines, s) => (Reply StatusOK None [] (Text lines), s)
  end.

End Handlers.

(** ** Confinement *)

Lemma resolve_inside volumesDir ns name rel full :
  resolveVolumePath volumesDir ns name rel = Some full →
  inside (path_Join [volumesDir; ns; name]) full.
Proof.
  unfold resolveVolumePath. case_match; [done|].
  destruct (Rel _ _) as [r|] eqn:Hr; [|done].
  destruct (bool_decide (r = "..") || HasPrefix r "../") eqn:He; [done|].
  intros Hs; apply (inj Some) in Hs as <-.
  destruct (inside_Rel _ _ _ Hr He) as [Ha (suf & Hc & Hp)].
  rewrite !IsAbs_Clean in Ha. rewrite !components_Clean in Hc.
  split; [by rewrite IsAbs_Clean|]. exists suf. by rewrite components_Clean.
Qed.

Lemma volume_dir_not_empty volumesDir (ns name : string) : ns ≠ "" → path_Join [volumesDir; ns; name] ≠ "".
Proof.
  intros Hns. simpl. case_bool_decide; [|apply Clean_not_empty].
  rewrite bool_decide_eq_false_2 by done. apply Clean_not_empty.
Qed.

(** A request is accepted exactly when the joined path lies in the directory
    of the volume, and the result is that path. *)
Lemma resolve_iff volumesDir (ns name : string) rel full :
  ns ≠ "" → name ≠ "" →
  resolveVolumePath volumesDir ns name rel = Some full ↔
  full = path_Join [path_Join [volumesDir; ns; name]; rel] ∧
  inside (path_Join [volumesDir; ns; name]) full.
Proof.
  intros Hns Hname. pose proof (volume_dir_not_empty volumesDir ns name Hns) as Hne.
  split.
  - intros H. split; [|by eapply resolve_inside]. revert H. unfold resolveVolumePath.
    rewrite !bool_decide_eq_false_2 by done. cbn [orb].
    destruct (Rel _ _); [|done]. case_match; [done|].
    intros Hs; apply (inj Some) in Hs as <-. by apply path_Join_Clean.
  - intros [-> Hin]. unfold resolveVolumePath. rewrite !(bool_decide_eq_false_2 (_ = "")) by done. cbn [orb].
    rewrite (path_Join_Clean _ [rel]) by done.
    destruct (Rel_inside (Clean (path_Join [volumesDir; ns; name])) (path_Join [path_Join [volumesDir; ns; name]; rel])) as (r & -> & Hesc).
    { destruct Hin as [Ha (suf & Hc & Hp)]. split; [by rewrite IsAbs_Clean|].
      exists suf. by rewrite components_Clean. }
    unfold escapes in Hesc. by rewrite Hesc.
Qed.

(** An access that stays in the directory [d]; creating directories may also
    create the parent of [d]. *)
Definition confined (d : string) (a : access) : Prop :=
  inside d a.2 ∨ a = (OpMkdirAll, Dir d).

Lemma Dir_confined d full : Clean d = d → Clean full = full → inside d full → confined d (OpMkdirAll, Dir full).
Proof.
  intros Hd Hf [Ha (suf & Hc & Hp)]. destruct suf as [|x suf _] using rev_ind.
  - right. rewrite app_nil_r in Hc. by rewrite <- Hd, <- Hf, (proj2 (Clean_inj full d)).
  - left. destruct (components_Dir full (components d ++ suf) x) as [H1 H2].
    { by rewrite components_Clean, Hc, app_assoc. }
    rewrite Hf in H1, H2. split; simpl; [by rewrite H2|]. exists suf. split; [done|]. by apply Forall_app in Hp as [Hp _].
Qed.

(** The names in a directory listing are plain names: no slash, not "." and not
    "..", as the operating system returns them. *)
Definition plain_listings {E} (O : OS E) : Prop :=
  ∀ p s l s', os_ReadDir p s = (inr l, s') → Forall (λ e, plain (de_Name e)) l.

Section Traced.
Context {E : Type} (O : OS E).

Lemma list_entries_confined (P : access → Prop) d l s tr :
  d ≠ "" → (∀ op p, inside d p → P (op, p)) → Forall (λ e, plain (de_Name e)) l → Forall P tr →
  Forall P (list_entries (O := traced O) d l (s, tr)).2.2.
Proof.
  intros Hd HP Hl. revert s tr. induction Hl as [|e l He Hl IH]; intros s tr Htr; [done|].
  cbn [list_entries]. cbn [os_EntryInfo traced]. rewrite record_access_run.
  assert (Forall P (tr ++ [(OpStat, path_Join [d; de_Name e])])) as Htr'.
  { apply Forall_app. split; [done|]. apply Forall_singleton, HP, inside_join; [done|]. by apply Forall_singleton. }
  specialize (IH (os_EntryInfo d (de_Name e) s).2 _ Htr').
  destruct (os_EntryInfo d (de_Name e) s) as [[?|?] s1]; cbn in IH |- *; [done|].
  by destruct (list_entries _ _ _) as [out [s2 tr2]].
Qed.

(** The directory of the volume a request names. *)
Definition volume_dir (volumesDir : string) (r : request) : string :=
  path_Join [volumesDir; Query_Get r "namespace"; Query_Get r "name"].

Lemma resolve_clean volumesDir ns name rel full :
  resolveVolumePath volumesDir ns name rel = Some full →
  ns ≠ "" ∧ name ≠ "" ∧ Clean full = full ∧ full ≠ "".
Proof.
  unfold resolveVolumePath. do 2 case_bool_decide; cbn [orb]; try done.
  destruct (Rel _ _); [|done]. case_match; [done|]. intros Hs; apply (inj Some) in Hs as <-.
  rewrite Clean_Clean. by repeat split; try apply Clean_not_empty.
Qed.

Lemma requested_file_spec volumesDir r full :
  requested_file volumesDir r = Some full →
  inside (volume_dir volumesDir r) full ∧ confined (volume_dir volumesDir r) (OpMkdirAll, Dir full).
Proof.
  unfold requested_file. destruct (resolveVolumePath _ _ _ _) as [f|] eqn:Hr; [|done].
  case_bool_decide; [done|]. intros ?; simplify_eq.
  pose proof (resolve_inside _ _ _ _ _ Hr) as Hin. apply resolve_clean in Hr as (Hns & _ & Hcl & _).
  split; [done|]. apply Dir_confined; [|done..].
  unfold volume_dir. simpl. case_bool_decide; [|apply Clean_Clean].
  rewrite bool_decide_eq_false_2 by done. apply Clean_Clean.
Qed.

Lemma files_list_confined volumesDir r s :
  plain_listings O →
  Forall (confined (volume_dir volumesDir r)) (files_list (O := traced O) volumesDir r (s, [])).2.2.
Proof.
  intros HO. unfold files_list. destruct (resolveVolumePath _ _ _ _) as [d|] eqn:Hr; [|constructor].
  pose proof (resolve_inside _ _ _ _ _ Hr) as Hin. apply resolve_clean in Hr as (_ & _ & _ & Hd).
  fold (volume_dir volumesDir r) in Hin.
  cbn [os_MkdirAll traced]. rewrite record_access_run.
  destruct (os_MkdirAll d s) as [[?|?] s1]; cbn [fst snd]; [by trace_ok|].
  cbn [os_ReadDir traced]. rewrite record_access_run.
  destruct (os_ReadDir d s1) as [[?|l] s2] eqn:Hl; cbn [fst snd]; [by trace_ok|].
  pose proof (list_entries_confined (confined (volume_dir volumesDir r)) d l s2 (([] ++ [(OpMkdirAll, d)]) ++ [(OpReadDir, d)]) Hd) as H.
  destruct (list_entries _ _ _) as [out [s3 tr]]. apply H; [|by eapply HO|by trace_ok].
  intros op p Hp. left. by eapply inside_trans.
Qed.

Lemma files_read_confined volumesDir r s :
  Forall (confined (volume_dir volumesDir r)) (files_read (O := traced O) volumesDir r (s, [])).2.2.
Proof.
  unfold files_read. destruct (requested_file volumesDir r) as [full|] eqn:Hr; [|constructor].
  apply requested_file_spec in Hr as [Hin _].
  cbn [os_ReadFile traced]. rewrite record_access_run.
  destruct (os_ReadFile full s) as [[?|?] s1]; cbn [fst snd]; [case_match|]; by trace_ok.
Qed.

Lemma files_write_confined volumesDir r s :
  Forall (confined (volume_dir volumesDir r)) (files_write (O := traced O) volumesDir r (s, [])).2.2.
Proof.
  unfold files_write. case_match; [constructor|].
  destruct (requested_file volumesDir r) as [full|] eqn:Hr; [|constructor].
  apply requested_file_spec in Hr as [Hin Hdir].
  destruct (ReadAll_limit _ _); [constructor|]. case_match; [constructor|].
  cbn [os_MkdirAll traced]. rewrite record_access_run.
  destruct (os_MkdirAll _ s) as [[?|?] s1]; cbn [fst snd]; [by trace_ok|].
  cbn [os_WriteFile traced]. rewrite record_access_run.
  destruct (os_WriteFile _ _ s1) as [[?|?] s2]; cbn [fst snd]; by trace_ok.
Qed.

Lemma files_delete_confined volumesDir r s :
  Forall (confined (volume_dir volumesDir r)) (files_delete (O := traced O) volumesDir r (s, [])).2.2.
Proof.
  unfold files_delete. case_match; [constructor|].
  destruct (requested_file volumesDir r) as [full|] eqn:Hr; [|constructor].
  apply requested_file_spec in Hr as [Hin _].
  cbn [os_Stat traced]. rewrite record_access_run.
  destruct (os_Stat full s) as [[?|info] s1]; cbn [fst snd]; [case_match; by trace_ok|].
  case_match; [by trace_ok|]. cbn [os_Remove traced]. rewrite record_access_run.
  destruct (os_Remove full s1) as [[?|?] s2]; cbn [fst snd]; by trace_ok.
Qed.

End Traced.


(** For a namespace and a name that are plain names, the directory of the
    volume lies below the volumes directory, and the directories of two
    different volumes have no path in common. *)
Theorem volume_dirs_disjoint volumesDir ns name ns' name' p :
  volumesDir ≠ "" → plain ns → plain name → plain ns' → plain name' →
  inside volumesDir (path_Join [volumesDir; ns; name]) ∧
  (inside (path_Join [volumesDir; ns; name]) p → inside (path_Join [volumesDir; ns'; name']) p →
   ns = ns' ∧ name = name').
Proof.
  intros Hv H1 H2 H3 H4. split; [apply inside_join; [done|]; by rewrite Forall_cons, Forall_singleton|].
  assert (∀ a b, plain a → plain b → components (path_Join [volumesDir; a; b]) = components volumesDir ++ [a; b]) as Hc.
  { intros a b Ha Hb. destruct Ha as ((?&?&Ha)&?), Hb as ((?&?&Hb)&?).
    rewrite components_Join_3, !Split_word by done. rewrite <- clean_from_app. by apply clean_from_plain; rewrite Forall_cons, Forall_singleton. }
  intros [_ (suf & E1 & _)] [_ (suf' & E2 & _)]. rewrite Hc in E1, E2 by done.
  rewrite E1, <- !app_assoc in E2. apply app_inv_head in E2. by simplify_eq/=.
Qed.

(** ** What a request does *)

(** The request [r] with another method and body. *)
Definition as_method (m : string) (b : http_body) (r : request) : request :=
  Request m (r_Path r) (r_Query r) (r_Cookies r) b.

Definition no_body : http_body := HttpBody [] None.

Section Behaviour.
Context {E : Type} {O : OS E}.

Lemma files_write_ok volumesDir r s rep s' :
  files_write volumesDir r s = (rep, s') → rp_Status rep = StatusNoContent →
  ∃ full s1, requested_file volumesDir r = Some full ∧
    os_WriteFile full (hb_bytes (r_Body r)) s1 = (inr (), s') ∧
    bytes_len (hb_bytes (r_Body r)) ≤ maxFileWriteBytes ∧ hb_err (r_Body r) = None.
Proof.
  unfold files_write. case_match; [by intros; simplify_eq|].
  destruct (requested_file volumesDir r) as [full|]; [|by intros; simplify_eq].
  destruct (ReadAll_limit _ _) as [e|body] eqn:Hb; [by intros; simplify_eq|].
  destruct (Z.ltb_spec maxFileWriteBytes (bytes_len body)); [by intros; simplify_eq|].
  apply ReadAll_limit_short in Hb as [-> He]; [|lia].
  destruct (os_MkdirAll _ s) as [[?|?] s1]; [by intros; simplify_eq|].
  destruct (os_WriteFile _ _ s1) as [[?|[]] s2] eqn:Hw; intros Heq Hst; simplify_eq. eauto 10.
Qed.

Lemma requested_file_as_method volumesDir r m b :
  requested_file volumesDir (as_method m b r) = requested_file volumesDir r.
Proof. done. Qed.

Lemma files_delete_ok volumesDir r s rep s' :
  files_delete volumesDir r s = (rep, s') → rp_Status rep = StatusNoContent →
  ∃ full s1, requested_file volumesDir r = Some full ∧ os_Remove full s1 = (inr (), s').
Proof.
  unfold files_delete. case_match; [by intros; simplify_eq|].
  destruct (requested_file volumesDir r) as [full|]; [|by intros; simplify_eq].
  destruct (os_Stat full s) as [[e|info] s1]; [case_match; by intros; simplify_eq|].
  case_match; [by intros; simplify_eq|].
  destruct (os_Remove full s1) as [[e|[]] s2] eqn:Hrm; intros Heq Hst; simplify_eq. eauto.
Qed.

(** A file that was written with status 204 is read back byte for byte by the
    next GET of the same path, and a file deleted with status 204 is answered
    with 404 from then on. *)
Theorem file_write_read_delete {L : OSLaws E} volumesDir r s rep s' :
  (files_write volumesDir r s = (rep, s') → rp_Status rep = StatusNoContent →
   files_read volumesDir (as_method "GET" no_body r) s' = (http_Bytes (hb_bytes (r_Body r)), s')) ∧
  (files_delete volumesDir r s = (rep, s') → rp_Status rep = StatusNoContent →
   files_read volumesDir (as_method "GET" no_body r) s' = (http_Error "file not found" StatusNotFound, s')).
Proof.
  split; intros H Hst.
  - apply files_write_ok in H as (full & s1 & Hr & Hw & _); [|done].
    unfold files_read. rewrite requested_file_as_method, Hr. by rewrite (os_write_read _ _ _ _ Hw).
  - apply files_delete_ok in H as (full & s1 & Hr & Hd); [|done].
    unfold files_read. rewrite requested_file_as_method, Hr.
    destruct (os_remove_read _ _ _ Hd) as (e & -> & He). by rewrite He.
Qed.

(** A write of more than 8 MiB is answered with 413 and changes nothing; a
    write that changes anything or succeeds has at most 8 MiB. *)
Theorem file_write_bounded volumesDir r s full :
  r_Method r = "PUT" ∨ r_Method r = "POST" →
  requested_file volumesDir r = Some full →
  maxFileWriteBytes < bytes_len (hb_bytes (r_Body r)) →
  files_write volumesDir r s = (http_Error "file too large" StatusRequestEntityTooLarge, s).
Proof.
  intros Hm Hr Hl. unfold files_write.
  assert (negb (bool_decide (r_Method r = "PUT")) && negb (bool_decide (r_Method r = "POST")) = false) as ->.
  { destruct Hm as [-> | ->]; done. }
  rewrite Hr. change maxFileWriteBytes with 8388608 in *.
  unfold ReadAll_limit. rewrite (proj2 (Z.leb_le _ _)) by lia. rewrite take_bytes_length by lia.
  by rewrite (proj2 (Z.ltb_lt _ _)) by lia.
Qed.

End Behaviour.

(** ** Names that are not plain *)

(** Nothing checks the namespace and the name: with the namespace "..", the
    directory of the volume is a sibling of the volumes directory, and its files
    are served like those of a volume. *)
Theorem namespace_escapes_volumes volumesDir l c name file :
  IsAbs volumesDir = true → components volumesDir = l ++ [c] → plain name → plain file →
  ∃ full, resolveVolumePath volumesDir ".." name file = Some full ∧
    components full = l ++ [name; file] ∧ (name ≠ c → ¬ inside volumesDir full).
Proof.
  intros Ha Hc Hn Hf. assert (volumesDir ≠ "") as Hne by by intros ->.
  assert (plain c) as Pc.
  { pose proof (components_plain _ Ha) as Pk. rewrite Hc in Pk. apply Forall_app in Pk as [_ Pk]. by inv Pk. }
  assert (components (path_Join [volumesDir; ".."; name]) = l ++ [name]) as Hd.
  { rewrite components_Join_3, Hc, Ha by done. change (Split slash "..") with [".."].
    rewrite clean_from_dotdot, clean_from_nil, Split_word by (done || apply Hn).
    rewrite clean_from_plain; [done|]. by apply Forall_singleton. }
  set (full := path_Join [path_Join [volumesDir; ".."; name]; file]).
  assert (components full = l ++ [name; file]) as Hfull.
  { unfold full. rewrite components_Join, Hd by by apply path_Join_not_empty.
    rewrite Split_word, clean_from_plain by (apply Hf || by apply Forall_singleton).
    by rewrite <- app_assoc. }
  exists full. split; [|split; [done|]].
  - apply resolve_iff; [done| |split; [done|]].
    { intros ->. by destruct Hn as ((? & _) & _). }
    split; [by unfold full; rewrite !IsAbs_Join by (done || by apply path_Join_not_empty)|].
    exists [file]. rewrite Hfull, Hd, <- app_assoc. split; [done|]. by apply Forall_singleton.
  - intros Hnc [_ (suf & Hs & _)]. rewrite Hfull, Hc, <- app_assoc in Hs. by simplify_list_eq.
Qed.

(** The log server does not check the name either: a name that starts with
    "/../.." reads a file above the log directory, whatever its name before the
    suffix ".log". *)
Theorem log_name_escapes logDir l c (ns file : string) r :
  IsAbs logDir = true → components logDir = l ++ [c] → contains_char slash ns = false → plain (file +:+ ".log") →
  Query_Get r "namespace" = ns → Query_Get r "name" = "/../../" +:+ file → Query_Get r "stream" = "" →
  components (log_path logDir r) = l ++ [file +:+ ".log"].
Proof.
  intros Ha Hc Hns Hf H1 H2 H3. unfold log_path. rewrite H1, H2, H3. simpl.
  unfold logFilePath, containerNameRaw. rewrite components_Join, Hc, Ha by by intros ->.
  set (p := "nimbus-" +:+ ns +:+ "-").
  assert (("nimbus-" +:+ ns +:+ "-" +:+ "/../../" +:+ file) +:+ ".log" =
    p +:+ String slash (".." +:+ String slash (".." +:+ String slash (file +:+ ".log")))) as ->.
  { unfold p. by rewrite !string_app_assoc. }
  rewrite !Split_app. change (Split slash "..") with [".."].
  assert (contains_char slash p = false) as Hp.
  { unfold p. rewrite !contains_char_app. by rewrite Hns. }
  rewrite (Split_word slash p), (Split_word slash (file +:+ ".log")) by (done || apply Hf).
  assert (plain p) as Pp by (unfold p; repeat split; done).
  cbn [app]. rewrite clean_from_cons, clean_step_plain by done.
  pose proof (components_plain _ Ha) as Pk. rewrite Hc in Pk. apply Forall_app in Pk as [_ Pk]. inv Pk.
  rewrite !clean_from_dotdot by done. apply clean_from_plain. by apply Forall_singleton.
Qed.

(** ** The tail of a log *)

Lemma TrimRight_app p s t : TrimRight p (s +:+ t) =
  match TrimRight p t with EmptyString => TrimRight p s | u => s +:+ u end.
Proof.
  induction s as [|a s IH]; rewrite ?string_app_nil_l, ?string_app_cons; simpl.
  - by destruct (TrimRight p t).
  - rewrite IH. destruct (TrimRight p t) as [|b u] eqn:E; [done|].
    destruct (s +:+ String b u) as [|b' u'] eqn:E'; [by destruct s|]. by rewrite string_app_cons, E'.
Qed.

Lemma TrimRight_word w : contains_char newline w = false → TrimRight is_newline w = w.
Proof.
  induction w as [|a w IH]; [done|]; simpl. intros [Ha Hw]%orb_false_elim. rewrite IH by done.
  unfold is_newline. rewrite Ha. by destruct w.
Qed.

Lemma TrimRight_lines lines w :
  contains_char newline w = false → w ≠ "" →
  TrimRight is_newline (Join (char newline) (lines ++ [w]) +:+ char newline) = Join (char newline) (lines ++ [w]).
Proof.
  intros Hw Hne. rewrite TrimRight_app. cbn.
  destruct lines as [|x l]; [by apply TrimRight_word|].
  rewrite Join_app by done. cbn [Join]. rewrite !TrimRight_app, TrimRight_word by done.
  by destruct w.
Qed.

(** For a log that fits in the window and does not end in an empty line, the
    log server returns the last [maxLines] lines, all of them when there are
    fewer. *)
Theorem log_tail_exact {E} {O : OS E} path maxLines s s' lines w :
  0 < maxLines →
  Forall (λ x, contains_char newline x = false) (lines ++ [w]) → w ≠ "" →
  os_ReadFile path s =
    (inr (String.list_byte_of_string (Join (char newline) (lines ++ [w]) +:+ char newline)), s') →
  Z.of_nat (String.length (Join (char newline) (lines ++ [w]) +:+ char newline)) ≤ maxLogReadBytes →
  tailFile path maxLines s =
    (inr (Join (char newline) (drop (length (lines ++ [w]) - Z.to_nat maxLines) (lines ++ [w])) +:+ char newline), s').
Proof.
  intros Hm Hl Hw Hr Hlen. unfold tailFile. rewrite Hr. do 2 f_equal.
  set (text := Join (char newline) (lines ++ [w])) in *.
  assert (tail_window (String.list_byte_of_string (text +:+ char newline)) = text +:+ char newline) as ->.
  { unfold tail_window, bytes_len, drop_bytes.
    rewrite length_list_byte_of_string. set (n := Z.of_nat _) in *.
    assert (Z.to_nat (n - (if n <? maxLogReadBytes then n else maxLogReadBytes)) = 0%nat) as ->.
    { destruct (Z.ltb_spec n maxLogReadBytes); lia. }
    rewrite drop_0. apply String.string_of_list_byte_of_string. }
  unfold tail_lines, text. rewrite TrimRight_lines; [|by apply Forall_app in Hl as [_ Hl]; inv Hl|done].
  rewrite (Split_Join newline) by (done || by destruct lines).
  set (l := lines ++ [w]). destruct (Z.ltb_spec maxLines (Z.of_nat (length l))).
  - do 3 f_equal. lia.
  - assert (length l - Z.to_nat maxLines = 0)%nat as -> by lia. done.
Qed.

(** ** Witnesses *)

Module FilesDemo.

Import MemFs.

Definition dir : string := "/var/lib/nimbus/volumes".

Definition req (method path file : string) (b : bytes) : request :=
  Request method path [("namespace", "default"); ("name", "data"); ("path", file)] [] (HttpBody b None).

Definition hello : bytes := String.list_byte_of_string "hello".

(** A file system with the file conf/a.txt of the volume default/data. *)
Definition fs1 : fs := (files_write dir (req "PUT" "/files/write" "conf/a.txt" hello) ∅).2.

Lemma plain_listings_mem : plain_listings mem_os.
Proof.
  intros p s l s'. cbn. unfold read_dir. destruct (node_at s _) as [[]|]; intros; simplify_eq.
  apply Forall_forall. intros e He. apply list_elem_of_omap in He as ([k n] & _ & He).
  unfold child_of in He. destruct (last k) as [c|]; [|done]. cbn in He.
  destruct (bool_decide (removelast k = _)); [|done]. cbn in He. case_bool_decide; by simplify_eq/=.
Qed.


Lemma volume_dirs_disjoint_witness :
  inside dir (path_Join [dir; "default"; "data"]) ∧
  (inside (path_Join [dir; "default"; "data"]) "/x" → inside (path_Join [dir; "default"; "logs"]) "/x" →
   "default" = "default" ∧ "data" = "logs").
Proof. apply volume_dirs_disjoint; [done|by apply (bool_decide_unpack _); vm_compute..]. Defined.

Lemma file_write_read_delete_witness :
  files_read dir (as_method "GET" no_body (req "PUT" "/files/write" "conf/a.txt" hello)) fs1 = (http_Bytes hello, fs1).
Proof.
  refine (proj1 (file_write_read_delete dir (req "PUT" "/files/write" "conf/a.txt" hello) ∅ _ fs1) _ _);
    [apply surjective_pairing|vm_compute; reflexivity].
Defined.

(** A body of more than 8 MiB, without writing it out. *)
Definition big : bytes := replicate (Z.to_nat (maxFileWriteBytes + 1)) Byte.x00.

Lemma file_write_bounded_witness :
  files_write dir (req "PUT" "/files/write" "a" big) fs1 =
    (http_Error "file too large" StatusRequestEntityTooLarge, fs1).
Proof.
  apply (file_write_bounded dir (req "PUT" "/files/write" "a" big) fs1 "/var/lib/nimbus/volumes/default/data/a").
  - left; reflexivity.
  - reflexivity.
  - cbn [r_Body req hb_bytes]. unfold bytes_len, big. rewrite length_replicate, Z2Nat.id; [lia|].
    unfold maxFileWriteBytes. rewrite Z.shiftl_mul_pow2; lia.
Defined.

Lemma namespace_escapes_volumes_witness :
  ∃ full, resolveVolumePath dir ".." "raft" "raft.db" = Some full ∧
    components full = ["var"; "lib"; "nimbus"] ++ ["raft"; "raft.db"] ∧ ("raft" ≠ "volumes" → ¬ inside dir full).
Proof.
  apply (namespace_escapes_volumes dir ["var"; "lib"; "nimbus"] "volumes");
    [reflexivity|reflexivity|by apply (bool_decide_unpack _); vm_compute..].
Defined.

Definition log_req (name : string) : request :=
  Request "GET" "/logs" [("namespace", "a"); ("name", name)] [] no_body.

Lemma log_name_escapes_witness :
  components (log_path "/var/log/nimbus" (log_req "/../../syslog")) = ["var"; "log"] ++ ["syslog.log"].
Proof.
  apply (log_name_escapes "/var/log/nimbus" ["var"; "log"] "nimbus" "a" "syslog" (log_req "/../../syslog"));
    [reflexivity|reflexivity|reflexivity|by apply (bool_decide_unpack _); vm_compute|reflexivity..].
Defined.

Definition log_text : string :=
  Join (char newline) (["one"; "two"] ++ ["three"]) +:+ char newline.
Definition fs2 : fs := <[["a.log"] := NFile (String.list_byte_of_string log_text)]> ∅.

Lemma log_tail_exact_witness :
  tailFile "/a.log" 2 fs2 = (inr (Join (char newline) ["two"; "three"] +:+ char newline), fs2).
Proof.
  apply (log_tail_exact "/a.log" 2 fs2 fs2 ["one"; "two"] "three");
    [lia|by repeat constructor|done|vm_compute; reflexivity|].
  vm_compute. discriminate.
Defined.

End FilesDemo.
