(* ===== verification/Hostpath.v ===== *)
(** * Hostpath: the CSI driver of internal/csi/hostpath

    Volumes are directories below a base directory, each with its metadata in
    the file .volume.json.  The driver runs over an arbitrary file system [OS];
    the JSON encoding of the metadata is the parameter [MetaCodec].  The API
    server calls it with the identifier "namespace/name" (volume_service.go), so
    the theorems look at such identifiers too. *)

From stdpp Require Import gmap strings list fin_maps pretty.
From Stdlib Require Import Ascii ZArith Lia.
From S2P Require Import Prelude Text Path Http.

Local Open Scope Z_scope.

Record volumeMeta := VolumeMeta { vm_Name : string; vm_CapacityBytes : Z }.

#[export] Instance volumeMeta_eq_decision : EqDecision volumeMeta.
Proof. solve_decision. Defined.

(** encoding/json on [volumeMeta]. *)
Class MetaCodec := {
  meta_Marshal : volumeMeta → result bytes;
  meta_Unmarshal : bytes → result volumeMeta;
  meta_roundtrip : ∀ m b, meta_Marshal m = Ok b → meta_Unmarshal b = Ok m;
}.

(** The driver: its node and its base directory. *)
Record Driver := MkDriver { d_nodeID : string; d_baseDir : string }.

(** [csi.Volume] *)
Record csi_volume := CsiVolume { cv_VolumeId : string; cv_CapacityBytes : Z }.

#[export] Instance csi_volume_eq_decision : EqDecision csi_volume.
Proof. solve_decision. Defined.

Section Driver.
Context {E : Type} {O : OS E} {JC : MetaCodec}.

Definition New (nodeID baseDir : string) (s : E) : result Driver * E :=
  match os_MkdirAll baseDir s with
  | (inl err, s) => (Err (Wrapf "hostpath: create base dir" err), s)
  | (inr _, s) => (Ok (MkDriver nodeID baseDir), s)
  end.

Definition volumeDir (d : Driver) (id : string) : string := path_Join [d_baseDir d; id].
Definition metaPath (d : Driver) (id : string) : string := path_Join [volumeDir d id; ".volume.json"].

Definition validVolumeID (d : Driver) (id : string) : bool :=
  if bool_decide (id = "") then false
  else
    let dir := Clean (volumeDir d id) in
    let base := Clean (d_baseDir d) in
    match Rel base dir with
    | None => false
    | Some rel => negb (bool_decide (rel = "..")) && negb (HasPrefix rel "../")
    end.

(** The capabilities and the identity the driver reports. *)
Definition DriverName : string := "hostpath.nimbuscore.local".
Definition DriverVersion : string := "0.1.0".
Definition GetPluginInfo : string * string := (DriverName, DriverVersion).
Definition ControllerGetCapabilities : list string := ["CREATE_DELETE_VOLUME"; "LIST_VOLUMES"].
Definition NodeGetInfo (d : Driver) : string := d_nodeID d.

Definition CreateVolume (d : Driver) (name : string) (capacity : Z) (s : E) : result csi_volume * E :=
  if bool_decide (name = "") then (Err (Status InvalidArgument "name is required"), s)
  else if negb (validVolumeID d name) then (Err (Status InvalidArgument "invalid volume name"), s)
  else
  match os_MkdirAll (volumeDir d name) s with
  | (inl _, s) => (Err (Status Internal "create volume directory"), s)
  | (inr _, s) =>
    match meta_Marshal (VolumeMeta name capacity) with
    | Err _ => (Err (Status Internal "marshal volume metadata"), s)
    | Panic => (Panic, s)
    | Ok b =>
      match os_WriteFile (metaPath d name) b s with
      | (inl _, s) => (Err (Status Internal "write volume metadata"), s)
      | (inr _, s) => (Ok (CsiVolume name capacity), s)
      end
    end
  end.

Definition DeleteVolume (d : Driver) (id : string) (s : E) : result unit * E :=
  if bool_decide (id = "") then (Err (Status InvalidArgument "volume_id is required"), s)
  else if negb (validVolumeID d id) then (Err (Status InvalidArgument "invalid volume_id"), s)
  else
  match os_RemoveAll (volumeDir d id) s with
  | (inl _, s) => (Err (Status Internal "delete volume directory"), s)
  | (inr _, s) => (Ok (), s)
  end.

Definition readMeta (d : Driver) (id : string) (s : E) : result volumeMeta * E :=
  match os_ReadFile (metaPath d id) s with
  | (inl e, s) => (Err e, s)
  | (inr b, s) => (meta_Unmarshal b, s)
  end.

(** The loop of [ListVolumes]: files and directories without readable metadata
    are skipped. *)
Fixpoint list_loop (d : Driver) (l : list dir_entry) (s : E) : list csi_volume * E :=
  match l with
  | [] => ([], s)
  | e :: l =>
    if negb (de_IsDir e) then list_loop d l s
    else
    match readMeta d (de_Name e) s with
    | (Ok meta, s) =>
      let '(out, s) := list_loop d l s in (CsiVolume (vm_Name meta) (vm_CapacityBytes meta) :: out, s)
    | (_, s) => list_loop d l s
    end
  end.

Definition ListVolumes (d : Driver) (s : E) : result (list csi_volume) * E :=
  match os_ReadDir (d_baseDir d) s with
  | (inl _, s) => (Err (Status Internal "list volumes"), s)
  | (inr entries, s) => let '(out, s) := list_loop d entries s in (Ok out, s)
  end.

Definition NodePublishVolume (d : Driver) (id target : string) (s : E) : result unit * E :=
  if bool_decide (id = "") || bool_decide (target = "") then
    (Err (Status InvalidArgument "volume_id and target_path are required"), s)
  else if negb (validVolumeID d id) then (Err (Status InvalidArgument "invalid volume_id"), s)
  else
  let source := volumeDir d id in
  match os_Stat source s with
  | (inl _, s) => (Err (Status NotFound "volume"), s)
  | (inr _, s) =>
    match os_MkdirAll (Dir target) s with
    | (inl _, s) => (Err (Status Internal "prepare target path"), s)
    | (inr _, s) =>
      match os_Lstat target s with
      | (inr _, s) => (Ok (), s)
      | (inl _, s) =>
        match os_Symlink source target s with
        | (inl _, s) => (Err (Status Internal "publish volume"), s)
        | (inr _, s) => (Ok (), s)
        end
      end
    end
  end.

Definition NodeUnpublishVolume (target : string) (s : E) : result unit * E :=
  if bool_decide (target = "") then (Err (Status InvalidArgument "target_path is required"), s)
  else
  match os_Remove target s with
  | (inl err, s) => if os_IsNotExist err then (Ok (), s) else (Err (Status Internal "unpublish"), s)
  | (inr _, s) => (Ok (), s)
  end.

End Driver.

(** ** Valid identifiers *)

(** An identifier is valid exactly when its directory lies in the base
    directory. *)
Lemma validVolumeID_iff d id :
  d_baseDir d ≠ "" → validVolumeID d id = true ↔ id ≠ "" ∧ inside (d_baseDir d) (volumeDir d id).
Proof.
  intros Hb. unfold validVolumeID. case_bool_decide; [naive_solver|]. split.
  - intros H'. split; [done|]. destruct (Rel _ _) as [rel|] eqn:Hr; [|done].
    apply inside_Rel in Hr as [Ha (suf & Hc & Hp)].
    + rewrite !IsAbs_Clean in Ha. rewrite !components_Clean in Hc. split; [done|]. eauto.
    + unfold escapes. by rewrite <- negb_orb, negb_true_iff in H'.
  - intros [_ [Ha (suf & Hc & Hp)]].
    destruct (Rel_inside (Clean (d_baseDir d)) (Clean (volumeDir d id))) as (rel & -> & He).
    + split; [by rewrite !IsAbs_Clean|]. exists suf. by rewrite !components_Clean.
    + unfold escapes in He. by rewrite <- negb_orb, He.
Qed.

Lemma components_volumeDir d id :
  d_baseDir d ≠ "" → components (volumeDir d id) = clean_from (IsAbs (d_baseDir d)) (components (d_baseDir d)) (Split slash id).
Proof. intros. by apply components_Join. Qed.

(** The identifier of the API server for a volume of a namespace. *)
Definition api_id (namespace name : string) : string := namespace +:+ "/" +:+ name.

Lemma Split_api_id ns name :
  contains_char slash ns = false → contains_char slash name = false → Split slash (api_id ns name) = [ns; name].
Proof.
  intros H1 H2. unfold api_id. change ("/" +:+ name) with (String slash name).
  by rewrite Split_app, !Split_word.
Qed.

Lemma components_api d ns name :
  d_baseDir d ≠ "" → plain ns → plain name →
  components (volumeDir d (api_id ns name)) = components (d_baseDir d) ++ [ns; name].
Proof.
  intros Hb ((? & ? & Hn) & ?) ((? & ? & Hm) & ?). rewrite components_volumeDir, Split_api_id by done.
  apply clean_from_plain. by rewrite Forall_cons, Forall_singleton.
Qed.

Lemma validVolumeID_api d ns name :
  d_baseDir d ≠ "" → plain ns → plain name → validVolumeID d (api_id ns name) = true.
Proof.
  intros Hb Hn Hm. apply validVolumeID_iff; [done|]. split.
  { unfold api_id. destruct ns; [by destruct Hn as ((? & _) & _)|done]. }
  split; [by apply IsAbs_Join|]. exists [ns; name]. rewrite components_api by done.
  split; [done|]. by rewrite Forall_cons, Forall_singleton.
Qed.

Lemma volumeDir_not_empty d id : d_baseDir d ≠ "" → volumeDir d id ≠ "".
Proof. intros. by apply path_Join_not_empty. Qed.

Lemma metaPath_inside d id : d_baseDir d ≠ "" → inside (volumeDir d id) (metaPath d id).
Proof.
  intros Hb. apply inside_join; [by apply volumeDir_not_empty|]. apply Forall_singleton. by repeat split.
Qed.

(** ** Confinement *)

Section Traced.
Context {E : Type} (O : OS E) {JC : MetaCodec}.


End Traced.

Lemma create_meta {E} {O : OS E} {JC : MetaCodec} {L : OSLaws E} d id capacity s v s' :
  CreateVolume d id capacity s = (Ok v, s') →
  v = CsiVolume id capacity ∧ readMeta d id s' = (Ok (VolumeMeta id capacity), s').
Proof.
  unfold CreateVolume, readMeta. case_bool_decide; [done|]. destruct (validVolumeID d id); simpl; [|done].
  destruct (os_MkdirAll _ s) as [[?|?] s1]; [done|].
  destruct (meta_Marshal _) as [b| |] eqn:Hm; [|done..].
  destruct (os_WriteFile _ _ s1) as [[?|[]] s2] eqn:Hw; [done|]. intros; simplify_eq.
  split; [done|]. by rewrite (os_write_read _ _ _ _ Hw), (meta_roundtrip _ _ Hm).
Qed.

(** A volume whose creation succeeded has its metadata on disk: reading them
    gives back the identifier and the capacity; and creating it again, as the
    CSI specification asks, answers the same. *)
Theorem hostpath_meta_roundtrip {E} {O : OS E} {JC : MetaCodec} {L : OSLaws E} d id capacity s v s' :
  CreateVolume d id capacity s = (Ok v, s') →
  readMeta d id s' = (Ok (VolumeMeta id capacity), s') ∧
  (∀ v' s'', CreateVolume d id capacity s' = (Ok v', s'') →
   v' = v ∧ readMeta d id s'' = (Ok (VolumeMeta id capacity), s'')).
Proof.
  intros H. apply create_meta in H as [-> H]. split; [done|]. intros v' s'' H'. by apply create_meta in H'.
Qed.

(** A name ".." passes the check of the driver, since the directory it leads
    to is the base directory itself: deleting the volume ".." of a namespace
    removes the base directory with all volumes in it. *)
Theorem hostpath_dotdot_deletes_base {E} (O : OS E) d ns s :
  d_baseDir d ≠ "" → plain ns →
  (DeleteVolume (O := traced O) d (api_id ns "..") (s, [])).2.2 = [(OpRemoveAll, Clean (d_baseDir d))].
Proof.
  intros Hb Hn. pose proof Hn as ((Hne & _ & Hs) & _).
  assert (volumeDir d (api_id ns "..") = Clean (d_baseDir d)) as Hd.
  { unfold volumeDir. rewrite path_Join_2 by done. apply Clean_inj. split; [by apply IsAbs_app|].
    rewrite components_app, Split_api_id by done.
    rewrite (clean_from_cons _ _ ns), clean_step_plain, clean_from_dotdot by done. apply clean_from_nil. }
  assert (validVolumeID d (api_id ns "..") = true) as Hv.
  { apply validVolumeID_iff; [done|]. split; [unfold api_id; by destruct ns|].
    rewrite Hd. split; [apply IsAbs_Clean|]. exists []. by rewrite components_Clean, app_nil_r. }
  unfold DeleteVolume. rewrite bool_decide_eq_false_2 by (unfold api_id; by destruct ns).
  rewrite Hv, Hd. cbn [os_RemoveAll traced negb]. rewrite record_access_run.
  by destruct (os_RemoveAll _ s) as [[?|?] s1].
Qed.

(** ** Listing *)

(** One entry of the base directory in the listing. *)
Definition listed {E} {O : OS E} {JC : MetaCodec} (d : Driver) (s : E) (e : dir_entry) : option csi_volume :=
  if de_IsDir e then
    match (readMeta d (de_Name e) s).1 with
    | Ok m => Some (CsiVolume (vm_Name m) (vm_CapacityBytes m))
    | _ => None
    end
  else None.

Lemma list_loop_spec {E} {O : OS E} {JC : MetaCodec} {L : OSLaws E} d l s :
  list_loop d l s = (omap (listed d s) l, s).
Proof.
  induction l as [|e l IH]; [done|]. cbn [list_loop omap list_omap]. unfold listed at 1.
  destruct (de_IsDir e); simpl negb; cbv iota; [|done].
  assert ((readMeta d (de_Name e) s).2 = s) as Hs.
  { unfold readMeta. destruct (os_ReadFile _ s) as [r s1] eqn:Hr. apply os_read_pure in Hr as ->. by destruct r. }
  destruct (readMeta d (de_Name e) s) as [r s1]. simpl in Hs. subst s1. destruct r; simpl; rewrite IH; done.
Qed.

Lemma omap_all_None {A C} (f : A → option C) l : (∀ x, x ∈ l → f x = None) → omap f l = [].
Proof.
  induction l as [|x l IH]; intros H; [done|]. cbn. rewrite H by constructor. apply IH. intros. apply H. by constructor.
Qed.

(** *** On the file system in memory *)

Section MemListing.
Import MemFs.
Context {JC : MetaCodec}.

Lemma mkdirs_spec pre l s s' :
  mkdirs pre l s = (inr (), s') →
  (∀ k, k ≠ [] → k `prefix_of` l → s' !! (pre ++ k) = Some NDir) ∧
  (∀ x, s' !! x = s !! x ∨ (s' !! x = Some NDir ∧ ∃ k, k `prefix_of` l ∧ x = pre ++ k)) ∧
  (∀ x n, s !! x = Some n → s' !! x = Some n).
Proof.
  revert pre s. induction l as [|c l IH]; intros pre s; simpl.
  { intros ?; simplify_eq. split; [by intros k Hk ->%prefix_nil_inv|]. auto. }
  intros H. assert (∃ s1, mkdirs (pre ++ [c]) l s1 = (inr (), s') ∧ s1 !! (pre ++ [c]) = Some NDir ∧
    (∀ x, s1 !! x = s !! x ∨ (s1 !! x = Some NDir ∧ x = pre ++ [c])) ∧ (∀ x n, s !! x = Some n → s1 !! x = Some n)) as (s1 & Hm & Hc & Hf & Hp).
  { destruct (s !! (pre ++ [c])) as [[]|] eqn:Hc; try done; [by eauto 10|].
    exists (<[pre ++ [c] := NDir]> s). split; [done|]. split; [by rewrite lookup_insert_eq|]. split; intros x.
    - destruct (decide (x = pre ++ [c])) as [->|]; [rewrite lookup_insert_eq; auto|rewrite lookup_insert_ne; auto].
    - intros n Hx. destruct (decide (x = pre ++ [c])) as [->|]; [congruence|by rewrite lookup_insert_ne]. }
  destruct (IH _ _ Hm) as (H1 & H2 & H3). split; [|split].
  - intros [|k0 k] Hk Hpre; [done|]. apply prefix_cons_inv_1 in Hpre as Heq. subst k0.
    apply prefix_cons_inv_2 in Hpre. destruct k as [|k1 k]; [by apply H3|].
    specialize (H1 (k1 :: k)). rewrite <- app_assoc in H1. by apply H1.
  - intros x. destruct (H2 x) as [-> | (-> & k & Hk & ->)].
    + destruct (Hf x) as [-> | [-> ->]]; [auto|]. right. split; [done|]. exists [c]. split; [by exists l|done].
    + right. split; [done|]. exists (c :: k). rewrite <- app_assoc. split; [by apply prefix_cons|done].
  - auto.
Qed.

Context (d : Driver) (Hb : d_baseDir d ≠ "").

Let B := components (d_baseDir d).

Lemma components_metaPath id : components (metaPath d id) = components (volumeDir d id) ++ [".volume.json"].
Proof.
  unfold metaPath. rewrite components_Join by by apply volumeDir_not_empty.
  rewrite Split_word by done. apply clean_from_plain, Forall_singleton. by repeat split.
Qed.

Lemma create_mem id capacity s v s' :
  CreateVolume d id capacity s = (Ok v, s') →
  ∃ b s1, meta_Marshal (VolumeMeta id capacity) = Ok b ∧
    mkdirs [] (components (volumeDir d id)) s = (inr (), s1) ∧
    s' = <[components (volumeDir d id) ++ [".volume.json"] := NFile b]> s1.
Proof.
  unfold CreateVolume. case_bool_decide; [done|]. destruct (validVolumeID d id); simpl; [|done].
  cbn [os_MkdirAll mem_os]. destruct (mkdirs _ _ s) as [[?|[]] s1] eqn:Hm; [done|].
  destruct (meta_Marshal _) as [b| |]; [|done..].
  cbn [os_WriteFile mem_os]. unfold write_file. rewrite components_metaPath.
  destruct (node_at s1 _) as [[]|]; [| | |destruct (parent_ok s1 _)]; intros; simplify_eq; eauto 10.
Qed.

Lemma create_mem_nodes id capacity s v s' :
  plain id → CreateVolume d id capacity s = (Ok v, s') →
  s' !! (B ++ [id]) = Some NDir ∧ node_at s' B = Some NDir.
Proof.
  intros Hid H. apply create_mem in H as (b & s1 & _ & Hm & ->).
  assert (components (volumeDir d id) = B ++ [id]) as Hc.
  { rewrite components_volumeDir, Split_word by (done || apply Hid). by apply clean_from_plain, Forall_singleton. }
  rewrite Hc in *. apply mkdirs_spec in Hm as (H1 & _ & _). split.
  - rewrite lookup_insert_ne by by intros ?%(f_equal length); rewrite length_app in *; simpl in *; lia.
    apply (H1 (B ++ [id])); [by destruct B|done].
  - destruct B as [|c l] eqn:HB; [done|]. simpl node_at.
    rewrite lookup_insert_ne by by intros ?%(f_equal length); simpl in *; rewrite !length_app in *; simpl in *; lia.
    apply (H1 (c :: l)); [done|]. by apply prefix_app_r.
Qed.

(** A volume with a plain identifier is listed after its creation, with its
    capacity. *)
Theorem hostpath_create_listed id capacity s v s' :
  plain id → CreateVolume d id capacity s = (Ok v, s') →
  ∃ out, ListVolumes d s' = (Ok out, s') ∧ CsiVolume id capacity ∈ out.
Proof.
  intros Hid H. destruct (create_mem_nodes _ _ _ _ _ Hid H) as [Hd HB].
  unfold ListVolumes. cbn [os_ReadDir mem_os]. unfold read_dir. fold B. rewrite HB, list_loop_spec.
  eexists. split; [done|]. apply list_elem_of_omap. exists (DirEntry id true). split.
  - apply list_elem_of_omap. exists (B ++ [id], NDir). split; [by apply elem_of_map_to_list|].
    unfold child_of. rewrite last_snoc, removelast_last. cbn. by rewrite !bool_decide_eq_true_2.
  - unfold listed. simpl. destruct (create_meta _ _ _ _ _ _ H) as [_ Hr]. by rewrite Hr.
Qed.

(** Volumes created through the API server, whose identifiers have the form
    "namespace/name", are not among the volumes the driver lists: the listing
    looks at the directories right below the base directory only. *)
Theorem hostpath_api_volume_unlisted ns name capacity s v s' :
  plain ns → plain name →
  (∀ c b, s !! (B ++ [c; ".volume.json"]) ≠ Some (NFile b)) →
  CreateVolume d (api_id ns name) capacity s = (Ok v, s') →
  ListVolumes d s' = (Ok [], s').
Proof.
  intros Hn Hm Hno H. apply create_mem in H as (b & s1 & _ & Hmk & ->).
  rewrite components_api in * by done. fold B in Hmk |- *. rewrite <- app_assoc. simpl app.
  apply mkdirs_spec in Hmk as (H1 & H2 & _).
  set (s' := <[_ := _]> s1). assert (node_at s' B = Some NDir) as HB.
  { destruct B as [|c l] eqn:HB; [done|]. simpl node_at. unfold s'.
    rewrite lookup_insert_ne by by intros ?%(f_equal length); simpl in *; rewrite !length_app in *; simpl in *; lia.
    apply (H1 (c :: l)); [done|]. by apply prefix_app_r. }
  unfold ListVolumes. cbn [os_ReadDir mem_os]. unfold read_dir. fold B. rewrite HB, list_loop_spec.
  do 2 f_equal. apply omap_all_None. intros e He. apply list_elem_of_omap in He as ([k n] & _ & He).
  unfold child_of in He. destruct (last k) as [c|]; [|done]. cbn in He.
  destruct (bool_decide (removelast k = B)); [|done]. cbn in He. case_bool_decide as Hc; simplify_eq/=.
  unfold listed. case_match; [|done]. cbn [de_Name]. unfold readMeta. cbn [os_ReadFile mem_os].
  unfold read_file. rewrite components_metaPath, components_volumeDir, Split_word by (done || apply Hc).
  rewrite clean_from_plain by by apply Forall_singleton. rewrite <- app_assoc. fold B. simpl app.
  assert (∀ b', s' !! (B ++ [c; ".volume.json"]) ≠ Some (NFile b')) as Hnone.
  { intros b'. unfold s'. rewrite lookup_insert_ne.
    - destruct (H2 (B ++ [c; ".volume.json"])) as [-> | [-> _]]; [apply Hno|done].
    - intros ?%app_inv_head. done. }
  destruct (node_at s' (B ++ [c; ".volume.json"])) as [[]|] eqn:Hnode; try done.
  exfalso. apply (Hnone b0). rewrite <- Hnode. by destruct B.
Qed.

Lemma mkdirs_exist pre l s :
  (∀ k, k ≠ [] → k `prefix_of` l → s !! (pre ++ k) = Some NDir) → mkdirs pre l s = (inr (), s).
Proof.
  revert pre. induction l as [|c l IH]; intros pre H; [done|]. simpl.
  rewrite (H [c]) by (done || by exists l). apply IH. intros k Hk Hp.
  rewrite <- app_assoc. apply (H (c :: k)); [done|]. by apply prefix_cons.
Qed.

(** A directory made on the way to [l ++ [c]] is not [l ++ [c]] itself. *)
Lemma mkdirs_parent l c s s1 :
  mkdirs [] l s = (inr (), s1) → node_at s (l ++ [c]) = None → node_at s1 (l ++ [c]) = None ∧ parent_ok s1 (l ++ [c]) = true.
Proof.
  intros Hm Hnone. apply mkdirs_spec in Hm as (H1 & H2 & _). split.
  - replace (node_at s1 (l ++ [c])) with (s1 !! (l ++ [c])) by by destruct l.
    destruct (H2 (l ++ [c])) as [-> | (_ & k & Hk & Heq)]; [by destruct l|].
    apply prefix_length in Hk. simpl in Heq. subst k. rewrite length_app in Hk. simpl in Hk. lia.
  - unfold parent_ok. rewrite removelast_last. destruct l as [|x l]; [done|]. simpl node_at.
    by rewrite (H1 (x :: l) ltac:(done) ltac:(done) : s1 !! (x :: l) = _).
Qed.

Lemma stat_exists p n s : node_at s (components p) = Some n → ∃ i, stat p s = (inr i, s).
Proof. unfold stat. intros ->. destruct n; eauto. Qed.

Lemma stat_missing p s : node_at s (components p) = None → stat p s = (inl ENOENT, s).
Proof. unfold stat. by intros ->. Qed.

Lemma publish_mem id target l c s s' :
  Clean target = target → components target = l ++ [c] → node_at s (l ++ [c]) = None →
  NodePublishVolume d id target s = (Ok (), s') →
  id ≠ "" ∧ target ≠ "" ∧ validVolumeID d id = true ∧
  ∃ s1 n, node_at s (components (volumeDir d id)) = Some n ∧ mkdirs [] l s = (inr (), s1) ∧
    s' = <[l ++ [c] := NLink (volumeDir d id)]> s1.
Proof.
  intros Hcl Hc Hnone. unfold NodePublishVolume.
  destruct (bool_decide (id = "") || bool_decide (target = "")) eqn:E; [done|].
  apply orb_false_elim in E as [E1%bool_decide_eq_false E2%bool_decide_eq_false].
  destruct (validVolumeID d id); simpl negb; cbv iota; [|done].
  cbn [os_Stat os_MkdirAll os_Lstat os_Symlink mem_os].
  destruct (node_at s (components (volumeDir d id))) as [n|] eqn:Hsrc; [|by rewrite stat_missing].
  destruct (stat_exists _ _ _ Hsrc) as [i ->].
  destruct (components_Dir target l c) as [Hdir _]; [by rewrite Hcl|]. rewrite Hcl in Hdir. rewrite Hdir.
  destruct (mkdirs [] l s) as [[?|[]] s1] eqn:Hm; [done|].
  destruct (mkdirs_parent _ _ _ _ Hm Hnone) as [Hn Hp].
  rewrite stat_missing by by rewrite Hc. unfold symlink. rewrite Hc, Hn, Hp.
  intros H; simplify_eq; repeat (split; [done|]); eauto 10.
Qed.

(** Publishing a volume at a free path makes that path a link to the
    directory of the volume; publishing it again changes nothing, and
    unpublishing it removes the link. *)
Theorem hostpath_publish_unpublish id target l c s s' :
  Clean target = target → components target = l ++ [c] → node_at s (l ++ [c]) = None →
  NodePublishVolume d id target s = (Ok (), s') →
  s' !! (l ++ [c]) = Some (NLink (volumeDir d id)) ∧
  NodePublishVolume d id target s' = (Ok (), s') ∧
  NodeUnpublishVolume target s' = (Ok (), delete (l ++ [c]) s').
Proof.
  intros Hcl Hc Hnone H.
  apply (publish_mem _ _ _ _ _ _ Hcl Hc Hnone) in H as (Hid & Ht & Hv & s1 & n & Hsrc & Hm & ->).
  pose proof (mkdirs_spec _ _ _ _ Hm) as (H1 & _ & H3).
  set (s' := <[_ := _]> s1).
  assert (s' !! (l ++ [c]) = Some (NLink (volumeDir d id))) as Hl by apply lookup_insert_eq.
  assert (node_at s' (l ++ [c]) = Some (NLink (volumeDir d id))) as Hnode by (rewrite <- Hl; by destruct l).
  split; [done|]. split.
  - unfold NodePublishVolume. rewrite !bool_decide_eq_false_2 by done. simpl orb. rewrite Hv. simpl negb. cbv iota.
    cbn [os_Stat os_MkdirAll os_Lstat mem_os].
    assert (node_at s' (components (volumeDir d id)) = Some n) as Hsrc'.
    { destruct (components (volumeDir d id)) as [|x k] eqn:Hk; [done|]. simpl in Hsrc |- *. unfold s'.
      rewrite lookup_insert_ne; [by apply H3|]. intros Heq. rewrite Heq in Hnone. simpl in Hnone. congruence. }
    destruct (components_Dir target l c) as [Hdir _]; [by rewrite Hcl|]. rewrite Hcl in Hdir.
    assert (mkdirs [] l s' = (inr (), s')) as Hmk.
    { apply mkdirs_exist. intros k Hk Hp. unfold s'. rewrite lookup_insert_ne; [by apply H1|].
      intros Heq. apply prefix_length in Hp. simpl in Heq. rewrite <- Heq, length_app in Hp. simpl in Hp. lia. }
    destruct (stat_exists _ _ _ Hsrc') as [i ->]. rewrite Hdir, Hmk.
    rewrite <- Hc in Hnode. by destruct (stat_exists _ _ _ Hnode) as [j ->].
  - unfold NodeUnpublishVolume. rewrite bool_decide_eq_false_2 by done.
    cbn [os_Remove mem_os]. unfold remove. by rewrite Hc, Hnode.
Qed.

End MemListing.

(** ** Witnesses *)

Module HostpathDemo.

Import MemFs.

(** Metadata as "capacity,name". *)
Definition demo_unmarshal (b : bytes) : result volumeMeta :=
  match Cut ","%char (String.string_of_list_byte b) with
  | Some (cap, name) =>
    match Atoi cap with Some c => Ok (VolumeMeta name c) | None => Err (Errorf "invalid metadata") end
  | None => Err (Errorf "invalid metadata")
  end.

Definition demo_marshal (m : volumeMeta) : result bytes :=
  let b := String.list_byte_of_string (pretty (vm_CapacityBytes m) +:+ "," +:+ vm_Name m) in
  if decide (demo_unmarshal b = Ok m) then Ok b else Err (Errorf "cannot encode").

#[export] Program Instance demo_codec : MetaCodec :=
  {| meta_Marshal := demo_marshal; meta_Unmarshal := demo_unmarshal |}.
Next Obligation. intros m b. unfold demo_marshal. case_decide; intros; by simplify_eq. Qed.

Definition d0 : Driver := MkDriver "node-1" "/data".
Definition fs0 : fs := (New "node-1" "/data" ∅).2.
Definition fs1 : fs := (CreateVolume d0 "vol-1" 1024 fs0).2.
Definition fs2 : fs := (CreateVolume d0 (api_id "default" "data") 1024 fs0).2.
Definition fs3 : fs := (NodePublishVolume d0 "vol-1" "/mnt/a" fs1).2.


Lemma hostpath_meta_roundtrip_witness : readMeta d0 "vol-1" fs1 = (Ok (VolumeMeta "vol-1" 1024), fs1).
Proof.
  refine (proj1 (hostpath_meta_roundtrip d0 "vol-1" 1024 fs0 (CsiVolume "vol-1" 1024) fs1 _)).
  apply run_result. vm_compute. reflexivity.
Defined.

Lemma hostpath_dotdot_witness :
  (DeleteVolume (O := traced mem_os) d0 (api_id "default" "..") (fs2, [])).2.2 = [(OpRemoveAll, "/data")] ∧
  (DeleteVolume d0 (api_id "default" "..") fs2).2 = ∅.
Proof.
  split; [|vm_compute; reflexivity].
  refine (hostpath_dotdot_deletes_base mem_os d0 "default" fs2 _ _); [done|].
  by apply (bool_decide_unpack _); vm_compute.
Defined.

Lemma hostpath_create_listed_witness :
  ∃ out, ListVolumes d0 fs1 = (Ok out, fs1) ∧ CsiVolume "vol-1" 1024 ∈ out.
Proof.
  refine (hostpath_create_listed d0 _ "vol-1" 1024 fs0 (CsiVolume "vol-1" 1024) fs1 _ _);
    [done|by apply (bool_decide_unpack _); vm_compute|apply run_result; vm_compute; reflexivity].
Defined.

Lemma hostpath_api_volume_unlisted_witness : ListVolumes d0 fs2 = (Ok [], fs2).
Proof.
  refine (hostpath_api_volume_unlisted d0 _ "default" "data" 1024 fs0 (CsiVolume (api_id "default" "data") 1024) fs2 _ _ _ _);
    [done|by apply (bool_decide_unpack _); vm_compute..| |apply run_result; vm_compute; reflexivity].
  intros c b. change fs0 with ({[ ["data"] := NDir ]} : fs). change (components (d_baseDir d0)) with ["data"].
  rewrite lookup_singleton_ne; done.
Defined.

Lemma hostpath_publish_unpublish_witness :
  fs3 !! ["mnt"; "a"] = Some (NLink "/data/vol-1") ∧
  NodePublishVolume d0 "vol-1" "/mnt/a" fs3 = (Ok (), fs3) ∧
  NodeUnpublishVolume "/mnt/a" fs3 = (Ok (), delete ["mnt"; "a"] fs3).
Proof.
  refine (hostpath_publish_unpublish d0 "vol-1" "/mnt/a" ["mnt"] "a" fs1 fs3 _ _ _ _);
    [vm_compute; reflexivity..|apply run_result; vm_compute; reflexivity].
Defined.

End HostpathDemo.
