(* ===== verification/Finops.v ===== *)
(** * Finops: the cost report

    internal/finops/cost.go and apiserver/finops_service.go.  Costs are float64
    and are added in the order of the pods (and, within a container, in the
    order in which Go iterates over the map of accelerators); the report is
    compared with one fold per namespace and per label value. *)

From stdpp Require Import gmap strings list fin_maps.
From Stdlib Require Import ZArith Lia SpecFloat.
From S2P Require Import Prelude Api Codec Store Registry Cluster Scheduling Deployment Float.

Local Open Scope Z_scope.

(** ** Time *)

(** A wall-clock time: Unix seconds and nanoseconds. *)
Record go_time := GoTime { t_Unix : Z; t_Nsec : Z }.

(** Package time counts seconds from the year 1, in 64 bits. *)
Definition internal_sec (unix : Z) : Z := wrap64 (unix + 62135596800).

Definition MinDuration : Z := - 2 ^ 63.

(** [t.Sub(u)]: nanoseconds, saturated. *)
Definition time_Sub (t u : go_time) : Z :=
  let d := (internal_sec (t_Unix t) - internal_sec (t_Unix u)) * 1000000000 + (t_Nsec t - t_Nsec u) in
  if d <? MinDuration then MinDuration else if MaxInt64 <? d then MaxInt64 else d.

Definition Hour : Z := 3600000000000.

(** [d.Hours()] for a duration that is not negative. *)
Definition Hours (d : Z) : float64 :=
  f_add (f_of_int (d / Hour)) (f_div (f_of_int (d mod Hour)) (f_of_int Hour)).

Definition f_zero : float64 := S754_zero false.
Definition f_leb (x y : float64) : bool := SFleb x y.

(** ** The estimate *)

Record CostModel := MkCostModel {
  CPUCoreHour : float64;
  MemoryGBHour : float64;
  AcceleratorHour : gmap string float64;
}.

(** 0.03 and 0.004 *)
Definition DefaultCostModel : CostModel :=
  MkCostModel (f_div (f_of_int 3) (f_of_int 100)) (f_div (f_of_int 4) (f_of_int 1000)) ∅.

Record Report := MkReport {
  Total : float64;
  ByNamespace : gmap string float64;
  ByLabel : gmap string float64;
}.

Definition newReport : Report := MkReport f_zero ∅ ∅.

Definition runningHours (p : Pod) (now : go_time) : float64 :=
  let createdAt := ObjectMeta_GetCreatedAtUnix (Pod_GetMetadata (Some p)) in
  if createdAt <=? 0 then f_zero
  else
    let elapsed := time_Sub now (GoTime createdAt 0) in
    if elapsed <=? 0 then f_zero else Hours elapsed.

(** [m[k] += x] on a map of floats. *)
Definition add_to (k : string) (x : float64) (m : gmap string float64) : gmap string float64 :=
  <[k := f_add (default f_zero (m !! k)) x]> m.

Section Estimate.
Context {Sh : Shuffle}.

(** The cost of one container added to [acc]; [n] counts map iterations. *)
Definition container_cost (model : CostModel) (hours : float64) (n : nat) (c : Container) (acc : float64) : float64 :=
  let req := ResourceRequirements_GetRequests (Container_GetResources (Some c)) in
  let acc := f_add acc (f_mul (f_mul (f_div (f_of_int (ResourceList_GetCpuMillis req)) (f_of_int 1000))
                                     (CPUCoreHour model)) hours) in
  let acc := f_add acc (f_mul (f_mul (f_div (f_of_int (ResourceList_GetMemoryBytes req)) (f_of_int (2 ^ 30)))
                                     (MemoryGBHour model)) hours) in
  foldl (λ acc '(name, count),
      f_add acc (f_mul (f_mul (f_of_int count) (default f_zero (AcceleratorHour model !! name))) hours))
    acc (shuffle n (map_to_list (ResourceList_GetAccelerators req))).

Fixpoint containers_cost (model : CostModel) (hours : float64) (n : nat) (cs : list Container) (acc : float64) : float64 * nat :=
  match cs with
  | [] => (acc, n)
  | c :: cs => containers_cost model hours (S n) cs (container_cost model hours n c acc)
  end.

Definition pod_cost (model : CostModel) (hours : float64) (n : nat) (p : Pod) : float64 * nat :=
  containers_cost model hours n (PodSpec_GetContainers (Pod_GetSpec (Some p))) f_zero.

(** One pod's cost in the report. *)
Definition charge (labelKey : string) (p : Pod) (cost : float64) (r : Report) : Report :=
  MkReport
    (f_add (Total r) cost)
    (add_to (podNamespace p) cost (ByNamespace r))
    (if bool_decide (labelKey = "") then ByLabel r
     else match podLabels p !! labelKey with
          | Some v => add_to v cost (ByLabel r)
          | None => add_to "unlabeled" cost (ByLabel r)
          end).

Fixpoint estimate_loop (model : CostModel) (labelKey : string) (now : go_time) (pods : list Pod) (n : nat) (r : Report)
    : Report * nat :=
  match pods with
  | [] => (r, n)
  | p :: pods =>
    let hours := runningHours p now in
    if f_leb hours f_zero then estimate_loop model labelKey now pods n r
    else
      let '(cost, n) := pod_cost model hours n p in
      estimate_loop model labelKey now pods n (charge labelKey p cost r)
  end.

Definition Estimate (pods : list Pod) (model : CostModel) (labelKey : string) (now : go_time) (n : nat) : Report * nat :=
  estimate_loop model labelKey now pods n newReport.

(** ** The reference: a list of charges *)

(** The pods that are charged, with their costs, in order. *)
Fixpoint charges (model : CostModel) (now : go_time) (pods : list Pod) (n : nat) : list (Pod * float64) :=
  match pods with
  | [] => []
  | p :: pods =>
    let hours := runningHours p now in
    if f_leb hours f_zero then charges model now pods n
    else let '(cost, n) := pod_cost model hours n p in (p, cost) :: charges model now pods n
  end.

Definition sum (l : list float64) : float64 := foldl f_add f_zero l.

(** The costs of the charges whose key is [k]. *)
Definition costs_of (key : Pod → option string) (k : string) (l : list (Pod * float64)) : list float64 :=
  (filter (λ pc, key pc.1 = Some k) l).*2.

(** The sum for a key, if there is a charge with that key. *)
Definition total_of (key : Pod → option string) (k : string) (l : list (Pod * float64)) : option float64 :=
  match costs_of key k l with [] => None | cs => Some (sum cs) end.

Definition namespace_key (p : Pod) : option string := Some (podNamespace p).
Definition label_key (labelKey : string) (p : Pod) : option string :=
  if bool_decide (labelKey = "") then None else Some (default "unlabeled" (podLabels p !! labelKey)).

(** [m] continued with the charges [l]. *)
Definition extended (key : Pod → option string) (m m' : gmap string float64) (l : list (Pod * float64)) : Prop :=
  ∀ k, m' !! k = match costs_of key k l with
                 | [] => m !! k
                 | cs => Some (foldl f_add (default f_zero (m !! k)) cs)
                 end.

Lemma extended_nil key m : extended key m m [].
Proof. by intros k. Qed.

Lemma extended_cons key m m' p c l :
  extended key (match key p with Some k => add_to k c m | None => m end) m' l → extended key m m' ((p, c) :: l).
Proof.
  intros H k. rewrite (H k). unfold costs_of. rewrite filter_cons. simpl.
  destruct (key p) as [k0|]; [|by rewrite decide_False].
  case_decide as Hk; simplify_eq; simpl.
  - unfold add_to. rewrite lookup_insert_eq. by destruct (filter _ l).
  - unfold add_to. rewrite lookup_insert_ne by congruence. done.
Qed.

Lemma charge_label labelKey p c r :
  ByLabel (charge labelKey p c r) = match label_key labelKey p with Some k => add_to k c (ByLabel r) | None => ByLabel r end.
Proof. unfold charge, label_key. simpl. case_bool_decide; [done|]. by destruct (podLabels p !! labelKey). Qed.

Lemma estimate_loop_spec model labelKey now pods n r :
  let l := charges model now pods n in
  let r' := (estimate_loop model labelKey now pods n r).1 in
  Total r' = foldl f_add (Total r) l.*2 ∧
  extended namespace_key (ByNamespace r) (ByNamespace r') l ∧
  extended (label_key labelKey) (ByLabel r) (ByLabel r') l.
Proof.
  revert n r. induction pods as [|p pods IH]; intros n r; simpl; [by repeat split|].
  destruct (f_leb (runningHours p now) f_zero); [apply IH|].
  destruct (pod_cost _ _ _ _) as [cost n']. destruct (IH n' (charge labelKey p cost r)) as (H1 & H2 & H3).
  split; [done|]. split; apply extended_cons; [done|]. by rewrite <- charge_label.
Qed.


Lemma runningHours_unset p now :
  ObjectMeta_GetCreatedAtUnix (Pod_GetMetadata (Some p)) ≤ 0 → runningHours p now = f_zero.
Proof. intros H. unfold runningHours. by rewrite (proj2 (Z.leb_le _ _) H). Qed.

(** The pods that the deployment controller creates carry no creation time, so
    the report over them is empty, whatever they request and however long they
    run. *)
Theorem controller_pods_cost_nothing (ds : list (Deployment * Z)) model labelKey now n :
  (Estimate ((λ '(d, i), newPod d i) <$> ds) model labelKey now n).1 = newReport.
Proof.
  set (pods := _ <$> ds). assert (Forall (λ p, ObjectMeta_GetCreatedAtUnix (Pod_GetMetadata (Some p)) ≤ 0) pods) as Hp.
  { apply Forall_fmap, Forall_true. by intros [d i]. }
  clearbody pods. unfold Estimate. revert n. induction Hp as [|p pods Hp _ IH]; intros n; [done|]. cbn [estimate_loop].
  rewrite runningHours_unset by done. apply IH.
Qed.

End Estimate.

(** apiserver/finops_service.go: GetCostReport *)
Definition GetCostReport {S} `{!Store S, !ApiMessages} {Sh : Shuffle} (model : CostModel) (namespace labelKey : string)
    (now : go_time) : M S Report := λ w,
  match statusM Internal "list pods" (reg_List podsR namespace) w with
  | (Ok pods, w) =>
    let '(r, n) := Estimate pods model labelKey now (w_tick w) in (Ok r, World (w_store w) n)
  | (Err e, w) => (Err e, w)
  | (Panic, w) => (Panic, w)
  end.

Module FinopsDemo.

(** Two core hours at 0.03 are 0.06. *)
Example two_core_hours :
  let p := MkPod (Some (MkObjectMeta "a" "default" "" "" ∅ 1000))
             (Some (MkPodSpec [MkContainer "c" "i" (Some (MkResourceRequirements (Some (MkResourceList 1000 0 ∅)) None)) None [] "" [] ∅ None] "" [] RESTART_POLICY_UNSPECIFIED)) None in
  (Estimate (Sh := shuffle_id) [p] DefaultCostModel "" (GoTime 8200 0) 0).1.(Total) =
    f_mul (f_div (f_of_int 3) (f_of_int 100)) (f_of_int 2).
Proof. vm_compute. reflexivity. Qed.

End FinopsDemo.
