(* ===== verification/Base64.v ===== *)
(** * Base64: the encodings of encoding/base64 that the code uses

    [StdEncoding] (the signatures of the trust file) pads its output with [=];
    [RawURLEncoding] (the session tokens) does not, and has its own last two
    digits.  The decoder is the one of the Go library: it skips line breaks,
    refuses missing or extra padding, and ignores the unused bits of the last
    digit. *)

From stdpp Require Import strings list.
From Stdlib Require Import Strings.Byte Ascii ZArith Lia.
From S2P Require Import Prelude Text.

Local Open Scope Z_scope.

(** ** Bytes as numbers *)

Definition byte_Z (b : byte) : Z := Z.of_N (Byte.to_N b).
(** [byte(z)] *)
Definition Z_byte (z : Z) : byte := default Byte.x00 (Byte.of_N (Z.to_N (z mod 256))).

Lemma byte_Z_range b : 0 ≤ byte_Z b < 256.
Proof. unfold byte_Z. pose proof (Byte.to_N_bounded b). lia. Qed.

Lemma Z_byte_Z b : Z_byte (byte_Z b) = b.
Proof.
  unfold Z_byte. rewrite Z.mod_small by apply byte_Z_range. unfold byte_Z.
  by rewrite N2Z.id, Byte.of_to_N.
Qed.

(** ** Encodings *)

Record encoding := MkEncoding {
  (** digits 62 and 63 *)
  enc_62 : ascii; enc_63 : ascii;
  (** whether the output is padded *)
  enc_pad : bool;
}.

Definition StdEncoding : encoding := MkEncoding "+" "/" true.
Definition RawURLEncoding : encoding := MkEncoding "-" "_" false.

Definition padChar : ascii := "=".

(** The digit of a value below 64. *)
Definition encode_digit (enc : encoding) (d : Z) : ascii :=
  if d <? 26 then ascii_of_N (Z.to_N (65 + d))
  else if d <? 52 then ascii_of_N (Z.to_N (97 + (d - 26)))
  else if d <? 62 then ascii_of_N (Z.to_N (48 + (d - 52)))
  else if d =? 62 then enc_62 enc else enc_63 enc.

(** [decodeMap] *)
Definition decode_digit (enc : encoding) (c : ascii) : option Z :=
  let n := Z.of_N (N_of_ascii c) in
  if (65 <=? n) && (n <=? 90) then Some (n - 65)
  else if (97 <=? n) && (n <=? 122) then Some (n - 97 + 26)
  else if (48 <=? n) && (n <=? 57) then Some (n - 48 + 52)
  else if Ascii.eqb c (enc_62 enc) then Some 62
  else if Ascii.eqb c (enc_63 enc) then Some 63
  else None.

(** Three bytes in one number, and its digits. *)
Definition pack (b0 b1 b2 : Z) : Z := Z.lor (Z.lor (Z.shiftl b0 16) (Z.shiftl b1 8)) b2.
Definition digit (v k : Z) : Z := Z.land (Z.shiftr v k) 63.

Definition pad_chars (enc : encoding) (n : nat) : list ascii := if enc_pad enc then replicate n padChar else [].

Fixpoint encode_bytes (enc : encoding) (l : bytes) : list ascii :=
  match l with
  | [] => []
  | [b0] =>
    let v := pack (byte_Z b0) 0 0 in
    [encode_digit enc (digit v 18); encode_digit enc (digit v 12)] ++ pad_chars enc 2
  | [b0; b1] =>
    let v := pack (byte_Z b0) (byte_Z b1) 0 in
    [encode_digit enc (digit v 18); encode_digit enc (digit v 12); encode_digit enc (digit v 6)] ++ pad_chars enc 1
  | b0 :: b1 :: b2 :: l =>
    let v := pack (byte_Z b0) (byte_Z b1) (byte_Z b2) in
    [encode_digit enc (digit v 18); encode_digit enc (digit v 12); encode_digit enc (digit v 6);
     encode_digit enc (digit v 0)] ++ encode_bytes enc l
  end.

Definition EncodeToString (enc : encoding) (b : bytes) : string := String.string_of_list_ascii (encode_bytes enc b).

(** Four digits in one number, and its bytes. *)
Definition unpack (d0 d1 d2 d3 : Z) : Z :=
  Z.lor (Z.lor (Z.lor (Z.shiftl d0 18) (Z.shiftl d1 12)) (Z.shiftl d2 6)) d3.
Definition byte_at (v k : Z) : byte := Z_byte (Z.shiftr v k).

Definition is_newline (c : ascii) : bool := Ascii.eqb c "010" || Ascii.eqb c "013".
Definition is_pad (enc : encoding) (c : ascii) : bool := enc_pad enc && Ascii.eqb c padChar.

(** [decodeQuantum] after [decodeQuantum], on the digits without line breaks. *)
Fixpoint decode_chars (enc : encoding) (l : list ascii) : option bytes :=
  match l with
  | [] => Some []
  | c0 :: l =>
    d0 ← decode_digit enc c0;
    match l with
    | [] => None
    | c1 :: l =>
      d1 ← decode_digit enc c1;
      match l with
      | [] => if enc_pad enc then None else Some [byte_at (unpack d0 d1 0 0) 16]
      | c2 :: l =>
        if is_pad enc c2 then
          match l with
          | [c3] => if is_pad enc c3 then Some [byte_at (unpack d0 d1 0 0) 16] else None
          | _ => None
          end
        else
        d2 ← decode_digit enc c2;
        match l with
        | [] => if enc_pad enc then None
                else Some [byte_at (unpack d0 d1 d2 0) 16; byte_at (unpack d0 d1 d2 0) 8]
        | c3 :: l =>
          if is_pad enc c3 then
            match l with
            | [] => Some [byte_at (unpack d0 d1 d2 0) 16; byte_at (unpack d0 d1 d2 0) 8]
            | _ => None
            end
          else
          d3 ← decode_digit enc c3;
          rest ← decode_chars enc l;
          let v := unpack d0 d1 d2 d3 in
          Some (byte_at v 16 :: byte_at v 8 :: byte_at v 0 :: rest)
        end
      end
    end
  end.

Definition DecodeString (enc : encoding) (s : string) : option bytes :=
  decode_chars enc (List.filter (λ c, negb (is_newline c)) (String.list_ascii_of_string s)).

(** ** Decoding what was encoded *)

Section Roundtrip.
Context (enc : encoding).

(** The digits decode, and are neither padding nor line breaks. *)
Definition digits_ok : bool :=
  forallb (λ n, let d := Z.of_nat n in let c := encode_digit enc d in
    bool_decide (decode_digit enc c = Some d) && negb (is_newline c) && negb (Ascii.eqb c padChar)) (seq 0 64).

Context (Hok : digits_ok = true).

Lemma digit_facts d : 0 ≤ d < 64 →
  decode_digit enc (encode_digit enc d) = Some d ∧ is_newline (encode_digit enc d) = false ∧
  Ascii.eqb (encode_digit enc d) padChar = false.
Proof.
  intros Hd. unfold digits_ok in Hok. rewrite forallb_forall in Hok.
  specialize (Hok (Z.to_nat d)). rewrite Z2Nat.id in Hok by lia.
  assert (In (Z.to_nat d) (seq 0 64)) as Hin by (apply in_seq; lia). specialize (Hok Hin).
  cbv zeta in Hok. rewrite !andb_true_iff, !negb_true_iff, bool_decide_eq_true in Hok. naive_solver.
Qed.

Lemma digit_range v k : 0 ≤ digit v k < 64.
Proof. unfold digit. change 63 with (Z.ones 6). rewrite Z.land_ones by lia. apply Z.mod_pos_bound. lia. Qed.

Lemma decode_encode_digit v k : decode_digit enc (encode_digit enc (digit v k)) = Some (digit v k).
Proof. apply (digit_facts _ (digit_range v k)). Qed.

Lemma lor_disjoint a b k : 0 ≤ k → 0 ≤ b < 2 ^ k → Z.lor (Z.shiftl a k) b = a * 2 ^ k + b.
Proof.
  intros Hk Hb.
  rewrite <-(Z.shiftl_mul_pow2 a k) by lia.
  symmetry. rewrite <-Z.lxor_lor; [apply Z.add_nocarry_lxor|].
  all: apply Z.bits_inj'; intros n Hn; rewrite Z.land_spec, Z.bits_0.
  all: destruct (Z.lt_ge_cases n k);
    [rewrite Z.shiftl_spec_low by lia; done|].
  all: rewrite andb_comm; rewrite <-(Z.mod_small b (2 ^ k)) by lia;
    rewrite Z.mod_pow2_bits_high by lia; done.
Qed.

Lemma pack_sum b0 b1 b2 : 0 ≤ b1 < 256 → 0 ≤ b2 < 256 → pack b0 b1 b2 = b0 * 65536 + b1 * 256 + b2.
Proof.
  intros H1 H2. unfold pack. rewrite <-Z.lor_assoc, (lor_disjoint b1 b2 8), lor_disjoint by lia. lia.
Qed.

Lemma unpack_sum d0 d1 d2 d3 : 0 ≤ d1 < 64 → 0 ≤ d2 < 64 → 0 ≤ d3 < 64 →
  unpack d0 d1 d2 d3 = d0 * 262144 + d1 * 4096 + d2 * 64 + d3.
Proof.
  intros H1 H2 H3. unfold unpack.
  rewrite <-!Z.lor_assoc, (lor_disjoint d2 d3 6), (lor_disjoint d1 _ 12), lor_disjoint by lia. lia.
Qed.

Lemma digit_div v k : 0 ≤ k → digit v k = v / 2 ^ k mod 64.
Proof. intros Hk. unfold digit. rewrite Z.shiftr_div_pow2 by done. by rewrite (Z.land_ones _ 6) by lia. Qed.

Lemma byte_at_is v k b : 0 ≤ k → v / 2 ^ k mod 256 = byte_Z b → byte_at v k = b.
Proof.
  intros Hk H. unfold byte_at. rewrite Z.shiftr_div_pow2 by done.
  rewrite <-(Z_byte_Z b), <-H. unfold Z_byte. by rewrite Z.mod_mod by lia.
Qed.

(** The digits of three bytes give the number back. *)
Lemma unpack_pack v : 0 ≤ v < 2 ^ 24 → unpack (digit v 18) (digit v 12) (digit v 6) (digit v 0) = v.
Proof.
  intros Hv. rewrite unpack_sum by apply digit_range. rewrite !digit_div by lia.
  Z.to_euclidean_division_equations. lia.
Qed.

Lemma pack_range b0 b1 b2 : 0 ≤ b0 < 256 → 0 ≤ b1 < 256 → 0 ≤ b2 < 256 → 0 ≤ pack b0 b1 b2 < 2 ^ 24.
Proof. intros. rewrite pack_sum by done. lia. Qed.

(** The bytes of a packed number. *)
Lemma byte_at_pack (a0 a1 a2 : byte) b1 b2 :
  0 ≤ b1 < 256 → 0 ≤ b2 < 256 →
  byte_at (pack (byte_Z a0) b1 b2) 16 = a0 ∧
  (b1 = byte_Z a1 → byte_at (pack (byte_Z a0) b1 b2) 8 = a1) ∧
  (b2 = byte_Z a2 → byte_at (pack (byte_Z a0) b1 b2) 0 = a2).
Proof.
  intros H1 H2. pose proof (byte_Z_range a0). rewrite pack_sum by done.
  split_and!; [|intros Hb..]; apply byte_at_is; try lia; subst; Z.to_euclidean_division_equations; lia.
Qed.

(** Low digits of a number whose low bytes are zero. *)
Lemma digit_zero b0 b1 : 0 ≤ b1 < 256 → digit (pack b0 b1 0) 0 = 0.
Proof. intros. rewrite pack_sum, digit_div by lia. Z.to_euclidean_division_equations. lia. Qed.

Lemma digit_zero2 b0 : digit (pack b0 0 0) 6 = 0.
Proof. rewrite pack_sum, digit_div by lia. Z.to_euclidean_division_equations. lia. Qed.

Lemma is_pad_digit v k : is_pad enc (encode_digit enc (digit v k)) = false.
Proof. unfold is_pad. destruct (digit_facts _ (digit_range v k)) as (_ & _ & ->). apply andb_false_r. Qed.

(** One full group of four digits. *)
Lemma decode_group v l :
  0 ≤ v < 2 ^ 24 →
  decode_chars enc ([encode_digit enc (digit v 18); encode_digit enc (digit v 12); encode_digit enc (digit v 6);
     encode_digit enc (digit v 0)] ++ l) =
  (λ rest, byte_at v 16 :: byte_at v 8 :: byte_at v 0 :: rest) <$> decode_chars enc l.
Proof.
  intros Hv. cbn [decode_chars app]. rewrite !decode_encode_digit, !is_pad_digit. cbn [mbind option_bind]. rewrite unpack_pack by done.
  by destruct (decode_chars enc l).
Qed.

Lemma decode_encode_bytes (n : nat) l : (length l < n)%nat → decode_chars enc (encode_bytes enc l) = Some l.
Proof.
  revert l. induction n as [|n IH]; intros l Hl; [lia|].
  destruct l as [|b0 [|b1 [|b2 l]]]; [done|..]; cbn [encode_bytes].
  - destruct (byte_at_pack b0 b0 b0 0 0) as [H0 _]; [lia..|].
    pose proof (unpack_pack (pack (byte_Z b0) 0 0)) as Hu. rewrite digit_zero2, digit_zero in Hu by lia.
    specialize (Hu (pack_range _ 0 0 (byte_Z_range b0) ltac:(done) ltac:(done))).
    unfold pad_chars. destruct (enc_pad enc) eqn:Ep; cbn [decode_chars app replicate];
      rewrite !decode_encode_digit; cbn [mbind option_bind]; unfold is_pad; rewrite Ep; cbn; by rewrite Hu, H0.
  - pose proof (byte_Z_range b1) as Hb1. destruct (byte_at_pack b0 b1 b1 (byte_Z b1) 0) as (H0 & H1 & _); [lia..|].
    pose proof (unpack_pack (pack (byte_Z b0) (byte_Z b1) 0)) as Hu. rewrite digit_zero in Hu by lia.
    specialize (Hu (pack_range _ _ 0 (byte_Z_range b0) Hb1 ltac:(done))).
    unfold pad_chars. destruct (enc_pad enc) eqn:Ep; cbn [decode_chars app replicate];
      rewrite !decode_encode_digit; cbn [mbind option_bind]; rewrite is_pad_digit; unfold is_pad; rewrite ?Ep; cbn; by rewrite Hu, H0, H1.
  - rewrite decode_group by (apply pack_range; apply byte_Z_range).
    rewrite IH by (simpl in Hl; lia). cbn [fmap option_fmap option_map].
    destruct (byte_at_pack b0 b1 b2 (byte_Z b1) (byte_Z b2)) as (-> & -> & ->); try done; apply byte_Z_range.
Qed.

(** No line breaks in the output. *)
Lemma encode_no_newline (n : nat) l : (length l < n)%nat →
  List.filter (λ c, negb (is_newline c)) (encode_bytes enc l) = encode_bytes enc l.
Proof.
  assert (∀ v k, is_newline (encode_digit enc (digit v k)) = false) as Hd
    by (intros v k; apply (digit_facts _ (digit_range v k))).
  revert l. induction n as [|n IH]; intros l Hl; [lia|].
  destruct l as [|b0 [|b1 [|b2 l]]]; [done|..]; cbn [encode_bytes app List.filter]; rewrite !Hd; cbn [negb];
    [by unfold pad_chars; destruct (enc_pad enc)..|].
  rewrite IH by (simpl in Hl; lia). done.
Qed.

Lemma Decode_Encode b : DecodeString enc (EncodeToString enc b) = Some b.
Proof.
  unfold DecodeString, EncodeToString.
  rewrite String.list_ascii_of_string_of_list_ascii, (encode_no_newline (S (length b))) by lia.
  apply (decode_encode_bytes (S (length b))). lia.
Qed.

End Roundtrip.

(** Both encodings decode what they encode. *)
Lemma StdEncoding_roundtrip b : DecodeString StdEncoding (EncodeToString StdEncoding b) = Some b.
Proof. by apply Decode_Encode. Qed.

Lemma RawURLEncoding_roundtrip b : DecodeString RawURLEncoding (EncodeToString RawURLEncoding b) = Some b.
Proof. by apply Decode_Encode. Qed.

(** What is encoded is ASCII text. *)
Lemma encode_digit_ascii enc d :
  (N_of_ascii (enc_62 enc) < 128)%N → (N_of_ascii (enc_63 enc) < 128)%N → 0 ≤ d < 64 →
  (N_of_ascii (encode_digit enc d) < 128)%N.
Proof.
  intros H62 H63 Hd. unfold encode_digit.
  repeat case_match; try done; repeat match goal with H : (_ <? _) = _ |- _ => apply Z.ltb_lt in H || apply Z.ltb_ge in H end;
    rewrite N_ascii_embedding by lia; lia.
Qed.

Lemma EncodeToString_ascii enc b :
  (N_of_ascii (enc_62 enc) < 128)%N → (N_of_ascii (enc_63 enc) < 128)%N → ascii_text (EncodeToString enc b).
Proof.
  intros H62 H63. unfold ascii_text, EncodeToString. rewrite String.list_ascii_of_string_of_list_ascii.
  apply Is_true_true, forallb_forall. intros c Hc. apply N.ltb_lt.
  assert (∀ v k, (N_of_ascii (encode_digit enc (digit v k)) < 128)%N) as Hd
    by (intros; by apply encode_digit_ascii, digit_range).
  assert (∀ n, Forall (λ c, (N_of_ascii c < 128)%N) (pad_chars enc n)) as Hp.
  { intros n. unfold pad_chars. destruct (enc_pad enc); [by apply Forall_replicate|constructor]. }
  assert (Forall (λ c, (N_of_ascii c < 128)%N) (encode_bytes enc b)) as Hall;
    [|by apply (proj1 (List.Forall_forall _ _) Hall)].
  clear c Hc. remember (S (length b)) as n eqn:Hn. assert (length b < n)%nat as Hl by lia. clear Hn.
  revert b Hl. induction n as [|n IH]; intros b Hl; [lia|].
  destruct b as [|b0 [|b1 [|b2 b]]]; cbn [encode_bytes app]; [constructor|..]; repeat (apply Forall_cons; split; [apply Hd|]);
    [apply Hp..|]. apply IH. simpl in Hl. lia.
Qed.

Example std_example : EncodeToString StdEncoding (String.list_byte_of_string "Nimbus?>") = "TmltYnVzPz4=".
Proof. reflexivity. Qed.

Example url_example : EncodeToString RawURLEncoding (String.list_byte_of_string "Nimbus?>") = "TmltYnVzPz4".
Proof. reflexivity. Qed.

Example std_refuses : DecodeString StdEncoding "TmltYnVzPz4" = None.
Proof. reflexivity. Qed.
