(* ===== verification/Session.v ===== *)
(** * Session: the login sessions of the dashboard

    internal/dashboard/session.go.  A session is a cookie "expiry.signature"
    whose signature is the HMAC-SHA256 of the expiry under a secret drawn at
    start-up; nothing is kept on the server.  HMAC and the JSON body of the login
    are the parameter [SessionCrypto]; base64 is that of Base64.v. *)

From stdpp Require Import strings list pretty.
From Stdlib Require Import Ascii ZArith Lia.
From S2P Require Import Prelude Text Http Base64.

Local Open Scope Z_scope.

Class SessionCrypto := {
  (** HMAC-SHA256 under a secret *)
  hmac_sha256 : bytes → string → bytes;
  (** the JSON body of the login: user name and password *)
  login_Decode : http_body → option (string * string);
}.

Definition sessionCookieName : string := "nimbus_session".
(** [24 * time.Hour], in seconds *)
Definition sessionTTL : Z := 24 * 3600.

Record sessionAuth := MkSessionAuth {
  sa_username : string;
  sa_password : string;
  sa_secret : bytes;
  (** the file login.html of the static files *)
  sa_login_html : option bytes;
}.

Section Session.
Context {SC : SessionCrypto}.

(** newSessionAuth: [random] is what crypto/rand returns; a failure panics. *)
Definition newSessionAuth (random : option bytes) (username password : string) (login_html : option bytes)
    : result sessionAuth :=
  match random with
  | None => Panic
  | Some secret => Ok (MkSessionAuth username password secret login_html)
  end.

(** issueToken at the Unix time [now]. *)
Definition issueToken (s : sessionAuth) (now : Z) : string :=
  let expiry := pretty (wrap64 (now + sessionTTL)) in
  expiry +:+ "." +:+ EncodeToString RawURLEncoding (hmac_sha256 (sa_secret s) expiry).

Definition validToken (s : sessionAuth) (now : Z) (token : string) : bool :=
  match Cut "."%char token with
  | None => false
  | Some (expiryStr, sigB64) =>
    match DecodeString RawURLEncoding sigB64 with
    | None => false
    | Some sig =>
      if negb (bool_decide (sig = hmac_sha256 (sa_secret s) expiryStr)) then false
      else match parse_int64 expiryStr with
           | None => false
           | Some expiry => now <? expiry
           end
    end
  end.

Definition isAuthenticated (s : sessionAuth) (now : Z) (r : request) : bool :=
  match Cookie r sessionCookieName with
  | None => false
  | Some v => validToken s now v
  end.

(** requireSession: [next] runs for an authenticated request only; [write] sends
    a reply without it. *)
Definition requireSession {R B} (s : sessionAuth) (now : Z) (write : reply B → R) (next : request → R) (r : request) : R :=
  if isAuthenticated s now r then next r
  else if HasPrefix (r_Path r) "/api/" then write (http_Error "unauthorized" StatusUnauthorized)
  else write (http_Redirect "/login" StatusFound).

(** [next] as a handler that threads a state [St]. *)
Definition guarded {St B} (s : sessionAuth) (now : Z) (next : request → St → reply B * St) (r : request) (st : St)
    : reply B * St :=
  requireSession s now (λ rep st, (rep, st)) next r st.

(** The session cookie that the two handlers set. *)
Definition session_cookie (value : string) (maxAge : Z) : cookie :=
  SetCookie sessionCookieName value "/" true "Lax" maxAge.

Definition handleLogin {B} (s : sessionAuth) (now : Z) (r : request) : reply B :=
  if negb (bool_decide (r_Method r = "POST")) then http_Error "method not allowed" StatusMethodNotAllowed
  else
  match login_Decode (r_Body r) with
  | None => http_Error "invalid request body" StatusBadRequest
  | Some (username, password) =>
    let userMatch := bool_decide (username = sa_username s) in
    let passMatch := bool_decide (password = sa_password s) in
    if negb userMatch || negb passMatch then http_Error "invalid credentials" StatusUnauthorized
    else Reply StatusNoContent None [session_cookie (issueToken s now) sessionTTL] NoBody
  end.

Definition handleLogout {B} (r : request) : reply B :=
  if negb (bool_decide (r_Method r = "POST")) then http_Error "method not allowed" StatusMethodNotAllowed
  else Reply StatusNoContent None [session_cookie "" (-1)] NoBody.

Definition handleLoginPage {B} (s : sessionAuth) (now : Z) (r : request) : reply B :=
  if isAuthenticated s now r then http_Redirect "/" StatusFound
  else match sa_login_html s with
       | None => http_Error "login page not found" StatusInternalServerError
       | Some b => http_Bytes b
       end.

(** ** Tokens *)

(** The token of the expiry [e]. *)
Lemma validToken_issued s now t0 :
  0 ≤ t0 + sessionTTL < 2 ^ 63 → validToken s now (issueToken s t0) = (now <? t0 + sessionTTL).
Proof.
  intros Hr. unfold issueToken, validToken. rewrite wrap64_id by (unfold in_int64; lia).
  set (e := pretty (t0 + sessionTTL)).
  assert (Cut "."%char (e +:+ "." +:+ EncodeToString RawURLEncoding (hmac_sha256 (sa_secret s) e)) =
          Some (e, EncodeToString RawURLEncoding (hmac_sha256 (sa_secret s) e))) as ->.
  { apply Cut_Some. split; [done|]. by apply contains_pretty. }
  rewrite RawURLEncoding_roundtrip, bool_decide_eq_true_2 by done. simpl.
  unfold e. by rewrite (Atoi_pretty_Z (t0 + sessionTTL) Hr : parse_int64 _ = _).
Qed.

Lemma validToken_inv s now token :
  validToken s now token = true →
  ∃ e sig n, token = e +:+ "." +:+ sig ∧ DecodeString RawURLEncoding sig = Some (hmac_sha256 (sa_secret s) e) ∧
    parse_int64 e = Some n ∧ now < n.
Proof.
  unfold validToken. destruct (Cut _ token) as [[e sig]|] eqn:Hc; [|done].
  apply Cut_Some in Hc as [-> _]. destruct (DecodeString RawURLEncoding sig) as [b|] eqn:Hb; [|done].
  case_bool_decide; [|done]. simpl. destruct (parse_int64 e) as [n|] eqn:Hn; [|done].
  intros Hlt%Z.ltb_lt. subst b. by exists e, sig, n.
Qed.

(** A browser that stored the cookies of a reply sends them back. *)
Definition with_cookies (r : request) (l : list cookie) : request :=
  Request (r_Method r) (r_Path r) (r_Query r) ((λ c, (ck_Name c, ck_Value c)) <$> l) (r_Body r).

(** A login with the configured user name and password at time [t0] opens a
    session that lasts exactly 24 hours: any request that carries the cookie of
    the reply is let through to the application before [t0] plus 24 hours, and
    not from then on. *)
Theorem session_lasts_a_day {St B} s t0 now r r' (next : request → St → reply B * St) st :
  0 ≤ t0 + sessionTTL < 2 ^ 63 →
  r_Method r = "POST" → login_Decode (r_Body r) = Some (sa_username s, sa_password s) →
  let rep : reply B := handleLogin s t0 r in
  let r'' := with_cookies r' (rp_Cookies rep) in
  rp_Status rep = StatusNoContent ∧
  (now < t0 + sessionTTL → guarded s now next r'' st = next r'' st) ∧
  (t0 + sessionTTL ≤ now → (guarded s now next r'' st).2 = st ∧
    (rp_Status (guarded s now next r'' st).1 = StatusUnauthorized ∨
     rp_Location (guarded s now next r'' st).1 = Some "/login")).
Proof.
  intros Ht Hm Hd. unfold handleLogin. rewrite Hm, Hd, !bool_decide_eq_true_2 by done. simpl.
  split; [done|]. unfold guarded, requireSession, isAuthenticated.
  change (Cookie _ sessionCookieName) with (Some (issueToken s t0)). cbv iota beta.
  rewrite validToken_issued by done. split; intros Hn.
  - by rewrite (proj2 (Z.ltb_lt _ _) Hn).
  - rewrite (proj2 (Z.ltb_ge _ _) Hn). case_match; simpl; auto.
Qed.

(** The application behind the guard runs only for a request whose session
    cookie is an unexpired expiry time signed with the secret of the server;
    every other request is answered with 401 or a redirect to the login page and
    changes nothing.  A login without the right user name and password sets no
    cookie. *)
Theorem session_guard {St B} s now (next : request → St → reply B * St) r st :
  ((∃ v e sig n, Cookie r sessionCookieName = Some v ∧ v = e +:+ "." +:+ sig ∧
      DecodeString RawURLEncoding sig = Some (hmac_sha256 (sa_secret s) e) ∧ parse_int64 e = Some n ∧ now < n ∧
      guarded s now next r st = next r st) ∨
   ((guarded s now next r st).2 = st ∧
    (rp_Status (guarded s now next r st).1 = StatusUnauthorized ∨
     rp_Location (guarded s now next r st).1 = Some "/login"))) ∧
  (rp_Cookies (handleLogin s now r : reply B) ≠ [] →
   r_Method r = "POST" ∧ login_Decode (r_Body r) = Some (sa_username s, sa_password s)).
Proof.
  split.
  - unfold guarded, requireSession, isAuthenticated. destruct (Cookie r _) as [v|]; [|right; case_match; simpl; auto].
    destruct (validToken s now v) eqn:Hv; [left|right; case_match; simpl; auto].
    apply validToken_inv in Hv as (e & sig & n & Hv & Hs & He & Hn). by exists v, e, sig, n.
  - unfold handleLogin. case_bool_decide; [|done]. simpl.
    destruct (login_Decode _) as [[u p]|]; [|done].
    case_bool_decide; [|done]. case_bool_decide; [|done]. by subst.
Qed.

End Session.

Module SessionDemo.

(** A stand-in for the cryptography, on which the definitions evaluate. *)
#[export] Instance demo_crypto : SessionCrypto := {|
  hmac_sha256 secret e := secret ++ String.list_byte_of_string e;
  login_Decode b := '(u, p) ← Cut ":"%char (String.string_of_list_byte (hb_bytes b)); Some (u, p);
|}.

Definition auth : sessionAuth := MkSessionAuth "admin" "pw" (String.list_byte_of_string "secret") None.
Definition login : request :=
  Request "POST" "/api/login" [] [] (HttpBody (String.list_byte_of_string "admin:pw") None).
Definition page : request := Request "GET" "/api/pods" [] [] (HttpBody [] None).
Definition app (r : request) (n : nat) : reply nat * nat := (http_JSON n, Datatypes.S n).

Lemma session_lasts_a_day_witness :
  let r := with_cookies page (rp_Cookies (handleLogin auth 1000 login : reply nat)) in
  guarded auth 2000 app r 7%nat = (http_JSON 7%nat, 8%nat) ∧
  (guarded auth 87400 app r 7%nat).2 = 7%nat.
Proof.
  destruct (session_lasts_a_day auth 1000 2000 login page app 7%nat) as (_ & H1 & _); [done|done|by vm_compute|].
  destruct (session_lasts_a_day auth 1000 87400 login page app 7%nat) as (_ & _ & H2); [done|done|by vm_compute|].
  split; [apply H1; done|apply H2; done].
Defined.

End SessionDemo.
