(* ===== verification/Dashboard.v ===== *)
(** * Dashboard: the HTTP handlers of internal/dashboard/dashboard.go

    The dashboard runs in the API server and calls its registries and services
    directly.  A handler takes a request and runs in the monad of the store; it
    always produces a reply, unless it panics.  The decoding of JSON bodies, the
    texts of errors, the failures of protojson and the agents the dashboard
    forwards requests to are the parameter [DashIO]. *)

From stdpp Require Import gmap strings list fin_maps pretty.
From Stdlib Require Import ZArith Lia.
From S2P Require Import Prelude Api Codec Store Registry Cluster Scheduler Scheduling Deployment Admission Rbac.
From S2P Require Import Services GitOps Text Http Float Finops Session.

Local Open Scope Z_scope.

(** ** Requests and replies *)

Record createDeploymentRequest := MkCreateRequest {
  cr_Name : string;
  cr_Namespace : string;
  cr_Image : string;
  cr_GitRepoURL : string;
  cr_GitBranch : string;
  cr_GitDockerfile : string;
  cr_GitContext : string;
  cr_Replicas : Z;
  cr_Port : Z;
  cr_Command : list string;
  cr_Env : gmap string string;
  cr_CPUMillis : Z;
  cr_MemoryBytes : Z;
  cr_AddPersistentStorage : bool;
  cr_MountPath : string;
  cr_Links : list string;
}.

Record scaleDeploymentRequest := MkScaleRequest { sr_Namespace : string; sr_Name : string; sr_Replicas : Z }.

Record nodeMetrics := MkNodeMetrics {
  nm_Name : string;
  nm_Ready : bool;
  nm_CPUAllocatableMillis : Z;
  nm_CPURequestedMillis : Z;
  nm_MemoryAllocatableBytes : Z;
  nm_MemoryRequestedBytes : Z;
  nm_MemoryUsedBytes : Z;
}.

Record clusterMetrics := MkClusterMetrics {
  cm_Nodes : list nodeMetrics;
  cm_CPUAllocatableMillis : Z;
  cm_CPURequestedMillis : Z;
  cm_MemoryAllocatableBytes : Z;
  cm_MemoryRequestedBytes : Z;
  cm_MemoryUsedBytes : Z;
}.

Record cicdDeployment := MkCicdDeployment {
  ci_Namespace : string;
  ci_Name : string;
  ci_Image : string;
  ci_Replicas : Z;
  ci_ReadyReplicas : Z;
  ci_Source : string;
}.

(** [cicdGitOps]; the status of the reconciler when there is one. *)
Record cicdResponse := MkCicdResponse { cc_GitOps : option GitStatus; cc_Deployments : list cicdDeployment }.

(** What the handlers encode as JSON.  The envelope of a created deployment has
    the service or the text of the error that creating it gave. *)
Inductive dash_value :=
  | DNodes (l : list Node)
  | DPods (l : list Pod)
  | DNamespaces (l : list Namespace)
  | DNamespace (n : Namespace)
  | DDeployments (l : list Deployment)
  | DDeployment (d : Deployment)
  | DServices (l : list Service)
  | DService (s : Service)
  | DEnvelope (d : Deployment) (svc : option Service) (svcErr : option string)
  | DMetrics (m : clusterMetrics)
  | DReport (r : Report)
  | DCicd (r : cicdResponse).

(** [linksToLabel] *)
Definition linksToLabel : string := "nimbuscore.io/links-to".

Class DashIO := {
  create_Decode : http_body → error + createDeploymentRequest;
  scale_Decode : http_body → error + scaleDeploymentRequest;
  name_Decode : http_body → error + string;
  dash_ErrorText : error → string;
  (** the error of protojson.Marshal, if any *)
  protojson_Error : dash_value → option error;
  (** a request to the agent at an address and port: an error of the client or
      its reply *)
  agent_Do : string → Z → request → error + reply dash_value;
  (** the static files *)
  static_File : request → reply dash_value;
}.

Section Dashboard.
Context {S : Type} `{!Store S} {Sh : Shuffle} {CE : CelEnv} {SP : Spiffe}.
Context `{AM : !ApiMessages, MM : !MoreMessages} {IO : DashIO}.

(** The configuration of the dashboard with the services it is given. *)
Record Config := MkConfig {
  cfg_chain : list (Validator S CE);
  cfg_csi_CreateVolume : string → Z → M S Z;
  cfg_GitOps : option GitReconciler;
  cfg_CostModel : CostModel;
  cfg_Username : string;
  cfg_Password : string;
  cfg_AgentLogPort : Z;
  cfg_AgentFilesPort : Z;
}.

Abbreviation Reply_t := (reply dash_value).

Definition error_reply (code : Z) (e : error) : Reply_t := http_Error (dash_ErrorText e) code.

(** [v, err := m; if err != nil { reply; return }] *)
Definition call {A} (m : M S A) (on_err : error → Reply_t) (k : A → M S Reply_t) : M S Reply_t :=
  r ← attempt m;
  match r with
  | Ok a => k a
  | Err e => mret (on_err e)
  | Panic => panic
  end.

(** writeProto *)
Definition writeProto (v : dash_value) : Reply_t :=
  match protojson_Error v with
  | Some e => error_reply StatusInternalServerError e
  | None => http_JSON v
  end.

Definition method_not_allowed : Reply_t := http_Error "method not allowed" StatusMethodNotAllowed.
Definition name_required : Reply_t := http_Error "name query parameter is required" StatusBadRequest.

(** [namespace := query.Get("namespace"); if namespace == "" { namespace = "default" }] *)
Definition query_namespace (r : request) : string :=
  let ns := Query_Get r "namespace" in if bool_decide (ns = "") then "default" else ns.

Definition handleNodes (r : request) : M S Reply_t :=
  call (reg_List nodesR "") (error_reply StatusInternalServerError) (λ items, mret (writeProto (DNodes items))).

Definition handlePods (r : request) : M S Reply_t :=
  if bool_decide (r_Method r = "GET") then
    call (reg_List podsR "") (error_reply StatusInternalServerError) (λ items, mret (writeProto (DPods items)))
  else if bool_decide (r_Method r = "DELETE") then
    if bool_decide (Query_Get r "name" = "") then mret name_required
    else call (reg_Delete podsR (query_namespace r) (Query_Get r "name")) (error_reply StatusInternalServerError)
           (λ _, mret (http_Status StatusNoContent))
  else mret method_not_allowed.

Definition handleNamespaces (r : request) : M S Reply_t :=
  if bool_decide (r_Method r = "GET") then
    call ListNamespaces (error_reply StatusInternalServerError) (λ items, mret (writeProto (DNamespaces items)))
  else if bool_decide (r_Method r = "POST") then
    match name_Decode (r_Body r) with
    | inl e => mret (http_Error ("invalid request body: " +:+ dash_ErrorText e) StatusBadRequest)
    | inr name =>
      if bool_decide (name = "") then mret (http_Error "name is required" StatusBadRequest)
      else call (CreateNamespace (Some (MkNamespace (Some (MkObjectMeta name "" "" "" ∅ 0)))))
             (error_reply StatusBadRequest) (λ created, mret (writeProto (DNamespace created)))
    end
  else if bool_decide (r_Method r = "DELETE") then
    if bool_decide (Query_Get r "name" = "") then mret name_required
    else call (DeleteNamespace (Query_Get r "name")) (error_reply StatusInternalServerError)
           (λ _, mret (http_Status StatusNoContent))
  else mret method_not_allowed.

Definition resolveNodeIP (nodeName : string) : M S string :=
  node ← wrapM "node not found" (reg_Get nodesR "" nodeName);
  let ip := NodeStatus_GetInternalIp (Node_Status node) in
  if bool_decide (ip = "") then fail (Errorf "node has no internal IP recorded") else mret ip.

(** proxyToAgent: the method, the raw query and the body are passed on as they
    came. *)
Definition proxyToAgent (r : request) (internalIP : string) (port : Z) (path : string) : Reply_t :=
  match agent_Do internalIP port (Request (r_Method r) path (r_Query r) [] (r_Body r)) with
  | inl e => http_Error ("fetch from node: " +:+ dash_ErrorText e) StatusBadGateway
  | inr rep => Reply (rp_Status rep) None [] (rp_Body rep)
  end.

Definition handleLogs (cfg : Config) (r : request) : M S Reply_t :=
  let namespace := query_namespace r in
  let name := Query_Get r "name" in
  if bool_decide (name = "") then mret name_required
  else
  call (reg_Get podsR namespace name) (λ e, http_Error ("pod not found: " +:+ dash_ErrorText e) StatusNotFound) (λ pod,
  let nodeName := podNodeName pod in
  if bool_decide (nodeName = "") then mret (http_Error "pod is not scheduled to a node yet" StatusNotFound)
  else
  call (resolveNodeIP nodeName) (error_reply StatusNotFound) (λ internalIP,
  let port := if cfg_AgentLogPort cfg <=? 0 then 10250 else cfg_AgentLogPort cfg in
  mret (proxyToAgent r internalIP port "/logs"))).

(** The operation of the file API that a method stands for. *)
Definition files_op (r : request) : option string :=
  if bool_decide (r_Method r = "GET") then
    Some (if bool_decide (Query_Get r "op" = "read") then "read" else "list")
  else if bool_decide (r_Method r = "PUT") then Some "write"
  else if bool_decide (r_Method r = "DELETE") then Some "delete"
  else None.

Definition handleFiles (cfg : Config) (r : request) : M S Reply_t :=
  let namespace := query_namespace r in
  let name := Query_Get r "name" in
  if bool_decide (name = "") then mret name_required
  else
  call (GetVolume namespace name) (λ e, http_Error ("volume not found: " +:+ dash_ErrorText e) StatusNotFound) (λ vol,
  let nodeName := VolumeStatus_GetNodeName (Volume_Status vol) in
  if bool_decide (nodeName = "") then mret (http_Error "volume is not yet claimed by any node" StatusNotFound)
  else
  call (resolveNodeIP nodeName) (error_reply StatusNotFound) (λ internalIP,
  let port := if cfg_AgentFilesPort cfg <=? 0 then 10251 else cfg_AgentFilesPort cfg in
  match files_op r with
  | None => mret method_not_allowed
  | Some op => mret (proxyToAgent r internalIP port ("/files/" +:+ op))
  end)).

(** ** Deployments *)

(** The request with its defaults: namespace "default" and one replica. *)
Definition with_defaults (req : createDeploymentRequest) : createDeploymentRequest :=
  let ns := if bool_decide (cr_Namespace req = "") then "default" else cr_Namespace req in
  let replicas := if cr_Replicas req <=? 0 then 1 else cr_Replicas req in
  MkCreateRequest (cr_Name req) ns (cr_Image req) (cr_GitRepoURL req) (cr_GitBranch req) (cr_GitDockerfile req)
    (cr_GitContext req) replicas (cr_Port req) (cr_Command req) (cr_Env req) (cr_CPUMillis req) (cr_MemoryBytes req)
    (cr_AddPersistentStorage req) (cr_MountPath req) (cr_Links req).

(** The checks on the request, in order. *)
Definition check_create (req : createDeploymentRequest) : option string :=
  if bool_decide (cr_Name req = "") then Some "name is required"
  else if bool_decide (cr_Image req = "") && bool_decide (cr_GitRepoURL req = "") then
    Some "image or gitRepoUrl is required"
  else
    let req := with_defaults req in
    if cr_AddPersistentStorage req && (1 <? cr_Replicas req) then
      Some "deployments with persistent storage must have replicas = 1"
    else if cr_AddPersistentStorage req && bool_decide (cr_MountPath req = "") then
      Some "mountPath is required when addPersistentStorage is set"
    else None.

Definition container_of (req : createDeploymentRequest) : Container :=
  let git := negb (bool_decide (cr_GitRepoURL req = "")) in
  MkContainer (cr_Name req)
    (if git then "" else cr_Image req)
    (if (0 <? cr_CPUMillis req) || (0 <? cr_MemoryBytes req) then
       Some (MkResourceRequirements (Some (MkResourceList (cr_CPUMillis req) (cr_MemoryBytes req) ∅)) None)
     else None)
    None (cr_Command req) ""
    (if 0 <? cr_Port req then [cr_Port req] else [])
    (cr_Env req)
    (if git then Some (MkBuildSource (cr_GitRepoURL req) (cr_GitBranch req) (cr_GitDockerfile req) (cr_GitContext req))
     else None).

Definition labels_of (req : createDeploymentRequest) : gmap string string :=
  let labels : gmap string string := {[ "app" := cr_Name req ]} in
  match cr_Links req with
  | [] => labels
  | links => <[linksToLabel := Join "," links]> labels
  end.

Definition deployment_of (req : createDeploymentRequest) (volumes : list VolumeMount) : Deployment :=
  MkDeployment
    (Some (MkObjectMeta (cr_Name req) (cr_Namespace req) "" "" (labels_of req) 0))
    (Some (MkDeploymentSpec (cr_Replicas req) {[ "app" := cr_Name req ]}
      (Some (MkPodSpec [container_of req] "" volumes RESTART_POLICY_UNSPECIFIED)) 0 0))
    None.

(** The volumes of the new template: the requested one, created when it is not
    there; on an edit without a request for storage, those the deployment
    already has.  The error is the text of the reply. *)
Definition volumes_for (cfg : Config) (req : createDeploymentRequest) (existing : result Deployment)
    : M S (string + list VolumeMount) :=
  if cr_AddPersistentStorage req then
    vol ← attempt (GetVolume (cr_Namespace req) (cr_Name req));
    match vol with
    | Ok _ => mret (inr [MkVolumeMount (cr_Name req) (cr_MountPath req) false])
    | _ =>
      created ← attempt (CreateVolume (cfg_csi_CreateVolume cfg)
        (Some (MkVolume (Some (MkObjectMeta (cr_Name req) (cr_Namespace req) "" "" ∅ 0))
                 (Some (MkVolumeSpec (Z.shiftl 1 30))) None)));
      match created with
      | Ok _ => mret (inr [MkVolumeMount (cr_Name req) (cr_MountPath req) false])
      | Err e => mret (inl ("create volume: " +:+ dash_ErrorText e))
      | Panic => panic
      end
    end
  else
    match existing with
    | Ok d => mret (inr (depMounts d))
    | _ => mret (inr [])
    end.

(** restartOwnedPods: the pods of the deployment are deleted, errors dropped. *)
Definition restartOwnedPods (namespace name : string) : M S unit :=
  pods ← attempt (reg_List podsR namespace);
  match pods with
  | Ok pods => for_each pods (λ p,
      if decide (slookup (podLabels p) OwnerDeploymentLabel = name) then
        logged (reg_Delete podsR (podNamespace p) (podName p))
      else mret ())
  | Err _ => mret ()
  | Panic => panic
  end.

(** The service of a deployment with a port; its error goes into the reply. *)
Definition service_of (req : createDeploymentRequest) : Service :=
  MkService (Some (MkObjectMeta (cr_Name req) (cr_Namespace req) "" "" {[ "app" := cr_Name req ]} 0))
    (Some (MkServiceSpec {[ "app" := cr_Name req ]} (cr_Port req) (cr_Port req) 0)) None.

(** The last part of handleCreateDeployment: the envelope with the service. *)
Definition create_envelope (req : createDeploymentRequest) (created : Deployment) : M S Reply_t :=
  match protojson_Error (DDeployment created) with
  | Some e => mret (error_reply StatusInternalServerError e)
  | None =>
    if 0 <? cr_Port req then
      svc ← attempt (CreateService (Some (service_of req)));
      match svc with
      | Ok svc =>
        match protojson_Error (DService svc) with
        | None => mret (http_JSON (DEnvelope created (Some svc) None))
        | Some _ => mret (http_JSON (DEnvelope created None None))
        end
      | Err e => mret (http_JSON (DEnvelope created None (Some (dash_ErrorText e))))
      | Panic => panic
      end
    else mret (http_JSON (DEnvelope created None None))
  end.

Definition handleCreateDeployment (cfg : Config) (r : request) (c : cache) : M S (cache * Reply_t) :=
  match create_Decode (r_Body r) with
  | inl e => mret (c, http_Error ("invalid request body: " +:+ dash_ErrorText e) StatusBadRequest)
  | inr req =>
    match check_create req with
    | Some msg => mret (c, http_Error msg StatusBadRequest)
    | None =>
      let req := with_defaults req in
      existing ← attempt (GetDeployment (cr_Namespace req) (cr_Name req));
      let isEdit := match existing with Ok _ => true | _ => false end in
      volumes ← volumes_for cfg req existing;
      match volumes with
      | inl msg => mret (c, http_Error msg StatusInternalServerError)
      | inr volumes =>
        '(c, created) ← CreateDeployment (cfg_chain cfg) (Some (deployment_of req volumes)) c;
        match created with
        | Panic => panic
        | Err e => mret (c, error_reply StatusBadRequest e)
        | Ok created =>
          _ ← (if (isEdit : bool) then restartOwnedPods (cr_Namespace req) (cr_Name req) else mret ());
          rep ← create_envelope req created;
          mret (c, rep)
        end
      end
    end
  end.

Definition handleDeleteDeployment (r : request) : M S Reply_t :=
  if bool_decide (Query_Get r "name" = "") then mret name_required
  else call (DeleteDeployment (query_namespace r) (Query_Get r "name")) (error_reply StatusInternalServerError)
         (λ _, mret (http_Status StatusNoContent)).

(** The checks on a scale request that do not need the deployment. *)
Definition check_scale (req : scaleDeploymentRequest) : option string :=
  if bool_decide (sr_Name req = "") then Some "name is required"
  else if sr_Replicas req <? 0 then Some "replicas must be >= 0"
  else None.

Definition scale_namespace (req : scaleDeploymentRequest) : string :=
  if bool_decide (sr_Namespace req = "") then "default" else sr_Namespace req.

Definition handleScaleDeployment (cfg : Config) (r : request) (c : cache) : M S (cache * Reply_t) :=
  match scale_Decode (r_Body r) with
  | inl e => mret (c, http_Error ("invalid request body: " +:+ dash_ErrorText e) StatusBadRequest)
  | inr req =>
    match check_scale req with
    | Some msg => mret (c, http_Error msg StatusBadRequest)
    | None =>
      current ← attempt (GetDeployment (scale_namespace req) (sr_Name req));
      match current with
      | Panic => panic
      | Err e => mret (c, error_reply StatusNotFound e)
      | Ok current =>
        if bool_decide (depMounts current ≠ []) && (1 <? sr_Replicas req) then
          mret (c, http_Error "deployments with persistent storage must have replicas <= 1" StatusBadRequest)
        else
        match Deployment_Spec current with
        (** [current.Spec.Replicas = req.Replicas] on a nil spec *)
        | None => panic
        | Some spec =>
          '(c, updated) ← CreateDeployment (cfg_chain cfg)
            (Some (deployment_set_spec (Some (depspec_set_replicas (sr_Replicas req) spec)) current)) c;
          match updated with
          | Panic => panic
          | Err e => mret (c, error_reply StatusBadRequest e)
          | Ok updated => mret (c, writeProto (DDeployment updated))
          end
        end
      end
    end
  end.

Definition handleDeployments (cfg : Config) (r : request) (c : cache) : M S (cache * Reply_t) :=
  if bool_decide (r_Method r = "GET") then
    rep ← call (ListDeployments "") (error_reply StatusInternalServerError)
            (λ items, mret (writeProto (DDeployments items)));
    mret (c, rep)
  else if bool_decide (r_Method r = "POST") then handleCreateDeployment cfg r c
  else if bool_decide (r_Method r = "PATCH") then handleScaleDeployment cfg r c
  else if bool_decide (r_Method r = "DELETE") then
    rep ← handleDeleteDeployment r; mret (c, rep)
  else mret (c, method_not_allowed).

Definition handleServices (r : request) : M S Reply_t :=
  if bool_decide (r_Method r = "GET") then
    call (ListServices "") (error_reply StatusInternalServerError) (λ items, mret (writeProto (DServices items)))
  else if bool_decide (r_Method r = "DELETE") then
    if bool_decide (Query_Get r "name" = "") then mret name_required
    else call (DeleteService (query_namespace r) (Query_Get r "name")) (error_reply StatusInternalServerError)
           (λ _, mret (http_Status StatusNoContent))
  else mret method_not_allowed.

(** ** Metrics, costs and CI/CD *)

(** [usage] of handleMetrics *)
Record usage := MkMetricUsage { mu_cpu : Z; mu_mem : Z; mu_used : Z }.
Definition metric_zero : usage := MkMetricUsage 0 0 0.

Definition metric_add_container (u : usage) (c : Container) : usage :=
  let req := ResourceRequirements_GetRequests (Container_Resources c) in
  MkMetricUsage (wrap64 (mu_cpu u + ResourceList_GetCpuMillis req))
    (wrap64 (mu_mem u + ResourceList_GetMemoryBytes req)) (mu_used u).

Definition metric_add_pod (byNode : gmap string usage) (p : Pod) : gmap string usage :=
  let name := podNodeName p in
  if bool_decide (name = "") then byNode
  else
    let u := default metric_zero (byNode !! name) in
    let u := foldl metric_add_container u (PodSpec_GetContainers (Pod_Spec p)) in
    <[name := MkMetricUsage (mu_cpu u) (mu_mem u)
                (wrap64 (mu_used u + PodStatus_GetMemoryUsageBytes (Pod_Status p)))]> byNode.

Definition node_metrics (byNode : gmap string usage) (n : Node) : nodeMetrics :=
  let name := ObjectMeta_GetName (Node_Metadata n) in
  let u := default metric_zero (byNode !! name) in
  let alloc := NodeStatus_GetAllocatable (Node_Status n) in
  MkNodeMetrics name (NodeStatus_GetReady (Node_Status n)) (ResourceList_GetCpuMillis alloc) (mu_cpu u)
    (ResourceList_GetMemoryBytes alloc) (mu_mem u) (mu_used u).

Definition cluster_add (out : clusterMetrics) (nm : nodeMetrics) : clusterMetrics :=
  MkClusterMetrics (cm_Nodes out ++ [nm])
    (wrap64 (cm_CPUAllocatableMillis out + nm_CPUAllocatableMillis nm))
    (wrap64 (cm_CPURequestedMillis out + nm_CPURequestedMillis nm))
    (wrap64 (cm_MemoryAllocatableBytes out + nm_MemoryAllocatableBytes nm))
    (wrap64 (cm_MemoryRequestedBytes out + nm_MemoryRequestedBytes nm))
    (wrap64 (cm_MemoryUsedBytes out + nm_MemoryUsedBytes nm)).

Definition metrics_of (nodes : list Node) (pods : list Pod) : clusterMetrics :=
  let byNode := foldl metric_add_pod ∅ pods in
  foldl (λ out n, cluster_add out (node_metrics byNode n)) (MkClusterMetrics [] 0 0 0 0 0) nodes.

Definition handleMetrics (r : request) : M S Reply_t :=
  call (reg_List nodesR "") (error_reply StatusInternalServerError) (λ nodes,
  call (reg_List podsR "") (error_reply StatusInternalServerError) (λ pods,
  mret (http_JSON (DMetrics (metrics_of nodes pods))))).

Definition handleFinops (cfg : Config) (now : go_time) (r : request) : M S Reply_t :=
  call (reg_List podsR "") (error_reply StatusInternalServerError) (λ pods w,
    let '(report, n) := Estimate pods (cfg_CostModel cfg) "" now (w_tick w) in
    (Ok (http_JSON (DReport report)), World (w_store w) n)).

Definition cicd_of (d : Deployment) : cicdDeployment :=
  let source :=
    if bool_decide (slookup (ObjectMeta_GetLabels (Deployment_Metadata d)) ManagedByLabel = ManagedByValue)
    then "gitops" else "manual" in
  let image :=
    match PodSpec_GetContainers (depTemplate d) with
    | [] => ""
    | c :: _ =>
      match Container_BuildSource c with
      | Some build => "git: " +:+ BuildSource_RepoUrl build
      | None => Container_Image c
      end
    end in
  MkCicdDeployment (depNamespace d) (depName d) image (depReplicas d)
    (DeploymentStatus_GetReadyReplicas (Deployment_Status d)) source.

Definition handleCICD (cfg : Config) (r : request) : M S Reply_t :=
  call (ListDeployments "") (error_reply StatusInternalServerError) (λ items,
    mret (http_JSON (DCicd (MkCicdResponse (gr_status <$> cfg_GitOps cfg) (cicd_of <$> items))))).

(** ** The mux *)

(** The application: the API and the static files. *)
Definition appMux (cfg : Config) (now : go_time) (r : request) (c : cache) : M S (cache * Reply_t) :=
  let plain (m : M S Reply_t) : M S (cache * Reply_t) := rep ← m; mret (c, rep) in
  let p := r_Path r in
  if bool_decide (p = "/api/nodes") then plain (handleNodes r)
  else if bool_decide (p = "/api/pods") then plain (handlePods r)
  else if bool_decide (p = "/api/deployments") then handleDeployments cfg r c
  else if bool_decide (p = "/api/services") then plain (handleServices r)
  else if bool_decide (p = "/api/finops") then plain (handleFinops cfg now r)
  else if bool_decide (p = "/api/cicd") then plain (handleCICD cfg r)
  else if bool_decide (p = "/api/metrics") then plain (handleMetrics r)
  else if bool_decide (p = "/api/logs") then plain (handleLogs cfg r)
  else if bool_decide (p = "/api/namespaces") then plain (handleNamespaces r)
  else if bool_decide (p = "/api/files") then plain (handleFiles cfg r)
  else mret (c, static_File r).

(** The paths that are served without a session: the files of the login page. *)
Definition public_file (p : string) : bool :=
  HasPrefix p "/fonts/" || HasPrefix p "/vendor/" || bool_decide (p = "/style.css") || bool_decide (p = "/logo.png")
  || bool_decide (p = "/login.js") || bool_decide (p = "/particles.js").

Context {SC : SessionCrypto}.

(** NewHandler: without a password there is no guard; with one, everything but
    the login and its files needs a session.  [auth] is what newSessionAuth
    returned at start-up. *)
Definition NewHandler (cfg : Config) (auth : sessionAuth) (now : go_time) (r : request) (c : cache)
    : M S (cache * Reply_t) :=
  if bool_decide (cfg_Password cfg = "") then appMux cfg now r c
  else
    let p := r_Path r in
    let t := t_Unix now in
    if bool_decide (p = "/login") then mret (c, handleLoginPage auth t r)
    else if bool_decide (p = "/api/login") then mret (c, handleLogin auth t r)
    else if bool_decide (p = "/api/logout") then mret (c, handleLogout r)
    else if public_file p then mret (c, static_File r)
    else requireSession auth t (λ rep, mret (c, rep)) (λ r, appMux cfg now r c) r.

End Dashboard.
