(* ===== verification/DashboardCorrect.v ===== *)
(** * DashboardCorrect: what the dashboard does to the cluster

    Every request to the dashboard is a sequence of steps of System.v, so what
    holds for those steps holds with the dashboard running; without a session
    nothing runs at all.  The metrics agree with the usage the scheduler works
    with, and a restart deletes exactly the pods of the deployment.  Two defects
    are proved: saving a deployment again moves its service to another node
    port, and a request for logs without a namespace is refused by the agent. *)

From stdpp Require Import gmap strings list fin_maps pretty.
From Stdlib Require Import ZArith Lia Relations.
From S2P Require Import Prelude Api Codec Store RaftStore Registry Cluster Scheduler Scheduling Deployment Admission Rbac.
From S2P Require Import Services ServicesCorrect System GitOps Text Path Http Agent Files Float Finops Session Dashboard.

Local Open Scope Z_scope.

(** ** Metrics *)

(** The same requests per node in the dashboard's and in the scheduler's map. *)
Definition same_usage (m : gmap string usage) (u : gmap string nodeResourceUsage) : Prop :=
  ∀ name, mu_cpu (default metric_zero (m !! name)) = u_cpuMillis (usage_of u name) ∧
          mu_mem (default metric_zero (m !! name)) = u_memoryBytes (usage_of u name).

Lemma add_containers_same l u v :
  mu_cpu u = u_cpuMillis v → mu_mem u = u_memoryBytes v →
  mu_cpu (foldl metric_add_container u l) = u_cpuMillis (foldl add_container v l) ∧
  mu_mem (foldl metric_add_container u l) = u_memoryBytes (foldl add_container v l).
Proof.
  revert u v. induction l as [|c l IH]; intros u v Hc Hm; [done|]. simpl. apply IH; simpl; by rewrite ?Hc, ?Hm.
Qed.

Lemma add_pod_same m u p : same_usage m u → same_usage (metric_add_pod m p) (add_pod u p).
Proof.
  intros H name. unfold metric_add_pod, add_pod. destruct (decide (podNodeName p = "")) as [Hn|Hn].
  { rewrite bool_decide_eq_true_2 by done. apply H. }
  rewrite bool_decide_eq_false_2 by done. unfold usage_of.
  destruct (decide (podNodeName p = name)) as [<-|Hne].
  - rewrite !lookup_insert_eq. simpl. destruct (H (podNodeName p)) as [H1 H2]. by apply add_containers_same.
  - rewrite !lookup_insert_ne by done. apply H.
Qed.

Lemma foldl_same pods m u : same_usage m u → same_usage (foldl metric_add_pod m pods) (foldl add_pod u pods).
Proof.
  revert m u. induction pods as [|p pods IH]; intros m u H; [done|]. simpl. by apply IH, add_pod_same.
Qed.

Lemma cluster_fold byNode nodes out :
  let out' := foldl (λ out n, cluster_add out (node_metrics byNode n)) out nodes in
  cm_Nodes out' = cm_Nodes out ++ (node_metrics byNode <$> nodes) ∧
  cm_CPURequestedMillis out' = foldl (λ z n, wrap64 (z + nm_CPURequestedMillis n)) (cm_CPURequestedMillis out) (node_metrics byNode <$> nodes) ∧
  cm_MemoryUsedBytes out' = foldl (λ z n, wrap64 (z + nm_MemoryUsedBytes n)) (cm_MemoryUsedBytes out) (node_metrics byNode <$> nodes).
Proof.
  revert out. induction nodes as [|n nodes IH]; intros out; simpl; [by rewrite app_nil_r|].
  destruct (IH (cluster_add out (node_metrics byNode n))) as (-> & -> & ->). simpl.
  by rewrite <- app_assoc.
Qed.

Lemma foldl_wrap64_sum (f : nodeMetrics → Z) l z :
  in_int64 z → foldl (λ z n, wrap64 (z + f n)) z l = wrap64 (z + foldr (λ n acc, f n + acc) 0 l).
Proof.
  revert z. induction l as [|n l IH]; intros z Hz; simpl; [by rewrite Z.add_0_r, wrap64_id|].
  rewrite IH by apply wrap64_range. by rewrite wrap64_add_l, Z.add_assoc.
Qed.

(** C29: The CPU and memory the dashboard shows as requested on a node are those
    the scheduler computes for it from the same pods, and the requested CPU of
    the cluster is the sum over the nodes, in 64-bit arithmetic. *)
Theorem metrics_match_scheduler nodes pods :
  let m := metrics_of nodes pods in
  let usage := foldl add_pod ∅ pods in
  nm_Name <$> cm_Nodes m = nodeName <$> nodes ∧
  Forall (λ nm, nm_CPURequestedMillis nm = u_cpuMillis (usage_of usage (nm_Name nm)) ∧
                nm_MemoryRequestedBytes nm = u_memoryBytes (usage_of usage (nm_Name nm))) (cm_Nodes m) ∧
  cm_CPURequestedMillis m = wrap64 (foldr (λ n acc, nm_CPURequestedMillis n + acc) 0 (cm_Nodes m)).
Proof.
  intros m usage. destruct (cluster_fold (foldl metric_add_pod ∅ pods) nodes (MkClusterMetrics [] 0 0 0 0 0)) as (H1 & H2 & _).
  fold (metrics_of nodes pods) in H1, H2. fold m in H1, H2. rewrite H1, H2. simpl app. split; [|split].
  - by rewrite <- list_fmap_compose.
  - apply Forall_fmap, Forall_true. intros n. simpl.
    pose proof (foldl_same pods ∅ ∅ ltac:(done) (nodeName n)) as [Hc Hm]. done.
  - by rewrite foldl_wrap64_sum.
Qed.

Section Correct.
Context {S : Type} `{!Store S, !StoreLaws S} {Sh : Shuffle} {CE : CelEnv} {SP : Spiffe}.
Context `{AM : !ApiMessages, AL : !ApiLaws, MM : !MoreMessages, ML : !MoreLaws}.
Context `{SCH : !Scheduler} {FC : FloatConv} {IO : DashIO} {SC : SessionCrypto}.

(** ** Restarting *)

Lemma restart_loop name l w c :
  holds w c →
  ∃ w', for_each l (λ p, if decide (slookup (podLabels p) OwnerDeploymentLabel = name) then
            logged (reg_Delete podsR (podNamespace p) (podName p)) else mret ()) w = (Ok tt, w') ∧
    holds w' (with_pods c (remove_pods (filter (λ p, slookup (podLabels p) OwnerDeploymentLabel = name) l) (c_pods c))).
Proof.
  revert w c. induction l as [|p l IH]; intros w c Hw; [by exists w; destruct c|]. cbn [for_each].
  rewrite filter_cons. case_decide as Hd.
  - destruct (delete_pod w c (podNamespace p) (podName p) Hw) as (w1 & Hdel & Hw1).
    mstep (logged_run_Ok _ _ _ Hdel). apply (IH _ _ Hw1).
  - assert ((mret () : M S unit) w = (Ok tt, w)) as Hr by done. mstep Hr. by apply IH.
Qed.

(** Restarting the pods of a deployment after an edit deletes the pods of its
    namespace that carry its label and leaves everything else as it is. *)
Theorem restart_deletes_owned_pods ns name w c :
  holds w c → wf_pods (c_pods c) → simple ns → ns ≠ "" →
  ∃ w', restartOwnedPods ns name w = (Ok tt, w') ∧
    holds w' (with_pods c
      (filter (λ kp, ¬ (podNamespace kp.2 = ns ∧ slookup (podLabels kp.2) OwnerDeploymentLabel = name)) (c_pods c))).
Proof.
  intros Hw HP Hns Hne. unfold restartOwnedPods. destruct (list_pods w c ns Hw) as (l & w1 & Hl & Hw1 & Hp).
  mstep (attempt_run_Ok _ _ _ _ Hl). destruct (restart_loop name l w1 c Hw1) as (w2 & Hr & Hw2).
  exists w2. split; [exact Hr|]. by rewrite (remove_owned_pods ns) in Hw2.
Qed.

(** ** The guard *)

(** C33: With a password configured, a request without a valid session never
    reaches the application: the store stays as it is, and the reply comes from
    the login, the public files of the login page, a 401 or a redirect to the
    login page. *)
Theorem dashboard_needs_session (cfg : Config) auth now r c w res w' :
  cfg_Password cfg ≠ "" → isAuthenticated auth (t_Unix now) r = false →
  NewHandler cfg auth now r c w = (res, w') →
  w' = w ∧ ∃ rep, res = Ok (c, rep) ∧
    (r_Path r = "/login" ∨ r_Path r = "/api/login" ∨ r_Path r = "/api/logout" ∨ public_file (r_Path r) = true ∨
     rp_Status rep = StatusUnauthorized ∨ rp_Location rep = Some "/login").
Proof.
  intros Hp Ha. unfold NewHandler, requireSession. rewrite bool_decide_eq_false_2, Ha by done. cbn zeta.
  repeat (case_match; [intros [= <- <-]; split; [done|]; eexists; split; [done|];
    repeat match goal with H : bool_decide _ = true |- _ => apply bool_decide_eq_true in H end; simpl; auto 10|]).
  intros [= <- <-]; split; [done|]. eexists; split; [done|]. simpl. auto 10.
Qed.

(** ** The service of a saved deployment *)

(** A service that asks for no port gets one that no stored service has, not
    even the one it replaces. *)
Lemma create_service_fresh_port s w s' w' :
  services_ok w → svcNodePort s = 0 → CreateService (Some s) w = (Ok s', w') →
  ∀ k t, objs servicesR (w_view w) !! k = Some t → svcNodePort t ≠ svcNodePort s'.
Proof.
  intros Hw Hz. unfold CreateService. cbn zeta. cbn [Service_GetMetadata default]. case_decide as Hnm; [done|].
  rewrite (decide_True _ _ (Hz : svcNodePort (svc_set_node_port (svcNodePort (id s)) (id s)) = 0)).
  destruct (allocateNodePort_spec w Hw) as (x & w1 & Ha & Hs & Hx).
  intros H. apply bind_Ok in H as (s1 & w2 & H1 & H2).
  apply bind_Ok in H1 as (port & w3 & H1 & H3). injection H3 as <- <-.
  unfold statusM in H1. rewrite Ha in H1. destruct x as [p|e|]; [|done..]. injection H1 as <- <-.
  destruct Hx as [_ Hfree]. intros k t Ht. assert (svcNodePort s' = p) as ->; [|by eapply Hfree].
  apply bind_Ok in H2 as (u & w4 & _ & Hres). clear -Hres. unfold resolve in Hres.
  case_decide; [by injection Hres as <- _|].
  apply bind_Ok in Hres as (l & w5 & _ & Hl). apply bind_Ok in Hl as (es & w6 & _ & He). by injection He as <- _.
Qed.

(** Saving a deployment that has a port again moves its service: the service
    is created anew without a node port, so it is given one that is free, and
    the port it had counts as taken. *)
Theorem edit_moves_node_port req created w w' svc old :
  services_ok w → 0 < cr_Port req →
  objs servicesR (w_view w) !! reg_key servicesR (cr_Namespace req) (cr_Name req) = Some old →
  create_envelope req created w = (Ok (http_JSON (DEnvelope created (Some svc) None)), w') →
  svcNodePort svc ≠ svcNodePort old.
Proof.
  intros Hw Hp Hold. unfold create_envelope. destruct (protojson_Error (DDeployment created)); [done|].
  rewrite (proj2 (Z.ltb_lt _ _) Hp). intros H. apply bind_Ok in H as (x & w1 & H1 & H2).
  unfold attempt in H1. destruct (CreateService _ w) as [[s'|e|] w2] eqn:Hc; [|by injection H1 as <- <-|done].
  injection H1 as <- <-. destruct (protojson_Error (DService s')); [done|]. injection H2 as <- <-.
  intros Heq. by apply (create_service_fresh_port (service_of req) _ _ _ Hw eq_refl Hc _ _ Hold).
Qed.

(** ** Logs without a namespace *)

(** The dashboard looks a pod up in the namespace "default" when the request
    names none, but passes the query on as it came: an agent that runs the log
    server of this repository refuses it with 400, although the pod exists, is
    scheduled and its node has an address. *)
Theorem logs_default_namespace_refused {E} (O : OS E) logDir (st : E) (cfg : Config) r w c pod node :
  (∀ ip port r', agent_Do ip port r' = inr (NewLogHandler logDir r' st).1) →
  holds w c → Query_Get r "namespace" = "" → Query_Get r "name" ≠ "" →
  c_pods c !! reg_key podsR "default" (Query_Get r "name") = Some pod → podNodeName pod ≠ "" →
  c_nodes c !! reg_key nodesR "" (podNodeName pod) = Some node → NodeStatus_GetInternalIp (Node_Status node) ≠ "" →
  handleLogs cfg r w =
    (Ok (http_Error "namespace and name query parameters are required" StatusBadRequest), w).
Proof.
  intros Hag Hw Hns Hname Hpod Hn Hnode Hip. unfold handleLogs, query_namespace. rewrite Hns.
  cbn zeta. rewrite (bool_decide_eq_true_2 ("" = "")), (bool_decide_eq_false_2 (Query_Get r "name" = "")) by done.
  pose proof (get_pod w c "default" (Query_Get r "name") Hw) as Hg. rewrite Hpod in Hg. simpl in Hg.
  unfold call at 1. mstep (attempt_run_Ok _ _ _ _ Hg). rewrite bool_decide_eq_false_2 by done.
  pose proof (get_node w c "" (podNodeName pod) Hw) as Hgn. rewrite Hnode in Hgn. simpl in Hgn.
  assert (resolveNodeIP (podNodeName pod) w = (Ok (NodeStatus_GetInternalIp (Node_Status node)), w)) as Hr.
  { unfold resolveNodeIP. mstep (wrapM_run_Ok "node not found" _ _ _ _ Hgn). by rewrite bool_decide_eq_false_2. }
  unfold call. mstep (attempt_run_Ok _ _ _ _ Hr). unfold proxyToAgent. rewrite Hag.
  unfold NewLogHandler. cbn [r_Path]. rewrite bool_decide_eq_true_2 by done. cbn [negb].
  change (Query_Get (Request (r_Method r) "/logs" (r_Query r) [] (r_Body r)) "namespace") with (Query_Get r "namespace").
  rewrite Hns. done.
Qed.

End Correct.

(** ** The dashboard as steps of the system *)

Section Simulation.
Context {S : Type} `{!Store S, !StoreLaws S} {Sh : Shuffle} {CE : CelEnv} {SP : Spiffe}.
Context `{AM : !ApiMessages, AL : !ApiLaws, MM : !MoreMessages, ML : !MoreLaws}.
Context `{SCH : !Scheduler} {FC : FloatConv} {IO : DashIO} {SC : SessionCrypto}.
Context (allowed : list string) (Verify : string → M S unit) (quota : option ResourceList).

Abbreviation sys_step := (step allowed Verify quota).

(** [m] does nothing that a sequence of steps could not do. *)
Definition simulated {A} (m : M S A) : Prop := ∀ w r w', m w = (r, w') → rtc sys_step w w'.

Lemma sim_ret {A} (a : A) : simulated (mret a).
Proof. intros w r w' [= <- <-]. apply rtc_refl. Qed.

Lemma sim_fail {A} e : simulated (fail e : M S A).
Proof. intros w r w' [= <- <-]. apply rtc_refl. Qed.

Lemma sim_panic {A} : simulated (panic : M S A).
Proof. intros w r w' [= <- <-]. apply rtc_refl. Qed.

Lemma sim_bind {A B} (m : M S A) (f : A → M S B) : simulated m → (∀ a, simulated (f a)) → simulated (m ≫= f).
Proof.
  intros Hm Hf w r w'. unfold mbind, M_mbind, M_bind. destruct (m w) as [[a|e|] w1] eqn:E.
  - intros H. eapply rtc_trans; [by eapply Hm|by eapply Hf].
  - intros [= <- <-]. by eapply Hm.
  - intros [= <- <-]. by eapply Hm.
Qed.

Lemma sim_attempt {A} (m : M S A) : simulated m → simulated (attempt m).
Proof.
  intros Hm w r w'. unfold attempt. destruct (m w) as [[a|e|] w1] eqn:E; intros [= <- <-]; by eapply Hm.
Qed.

Lemma sim_logged (m : M S unit) : simulated m → simulated (logged m).
Proof.
  intros Hm w r w'. unfold logged. destruct (m w) as [[a|e|] w1] eqn:E; intros [= <- <-]; by eapply Hm.
Qed.

Lemma sim_for_each {A} (l : list A) (f : A → M S unit) : (∀ x, simulated (f x)) → simulated (for_each l f).
Proof. intros Hf. induction l as [|x l IH]; simpl; [apply sim_ret|]. by apply sim_bind. Qed.

Lemma sim_reads {A} (m : M S A) : reads_only m → simulated m.
Proof. intros Hm w r w' E. apply rtc_once. by eapply step_read. Qed.

(** A registry call that a handler makes, without its gRPC status. *)
Lemma sim_delete_pod ns n : simulated (reg_Delete podsR ns n).
Proof.
  intros w r w' E. apply rtc_once. destruct (DeletePod ns n w) as [r1 w1] eqn:Hd.
  assert (w1 = w') as -> by (unfold DeletePod, statusM in Hd; rewrite E in Hd; by destruct r; injection Hd).
  by eapply step_DeletePod.
Qed.

Lemma sim_call {A} (m : M S A) on_err k : simulated m → (∀ a, simulated (k a)) → simulated (call m on_err k).
Proof.
  intros Hm Hk. apply sim_bind; [by apply sim_attempt|]. intros [a|e|]; [apply Hk|apply sim_ret|apply sim_panic].
Qed.

Ltac one_step c := intros ? ? ? ?; apply rtc_once; by eapply c.

Lemma sim_CreateDeployment d c : simulated (CreateDeployment (chain allowed Verify quota) d c).
Proof. one_step step_CreateDeployment. Qed.
Lemma sim_DeleteDeployment ns n : simulated (DeleteDeployment ns n).
Proof. one_step step_DeleteDeployment. Qed.
Lemma sim_CreateService s : simulated (CreateService s).
Proof. one_step step_CreateService. Qed.
Lemma sim_DeleteService ns n : simulated (DeleteService ns n).
Proof. one_step step_DeleteService. Qed.
Lemma sim_CreateNamespace x : simulated (CreateNamespace x).
Proof. one_step step_CreateNamespace. Qed.
Lemma sim_DeleteNamespace n : simulated (DeleteNamespace n).
Proof. one_step step_DeleteNamespace. Qed.
Lemma sim_CreateVolume csi v : (∀ id n, reads_only (csi id n)) → simulated (CreateVolume csi v).
Proof. intros Hc. intros ????. apply rtc_once. by eapply step_CreateVolume. Qed.

Lemma reads_ListServices ns : reads_only (ListServices ns).
Proof.
  unfold ListServices. apply reads_bind; [apply reads_statusM, reads_list|]. intros l.
  apply reads_map_each. intros s. apply reads_bind; [apply reads_resolve|]. intros; apply reads_ret.
Qed.

Ltac sim := repeat first
  [ apply sim_ret | apply sim_fail | apply sim_panic | apply sim_CreateDeployment | apply sim_DeleteDeployment
  | apply sim_CreateService | apply sim_DeleteService | apply sim_CreateNamespace | apply sim_DeleteNamespace
  | apply sim_delete_pod | apply sim_reads, reads_statusM, reads_list | apply sim_reads, reads_statusM, reads_get
  | apply sim_reads, reads_list | apply sim_reads, reads_get | apply sim_reads, reads_wrapM, reads_get | apply sim_reads, reads_ListServices
  | apply sim_call; [|intros ?] | apply sim_attempt | apply sim_logged | apply sim_for_each; intros ?
  | apply sim_bind; [|intros ?] | progress cbn zeta | case_match ].

Context (cfg : Config) (Hchain : cfg_chain cfg = chain allowed Verify quota).
Context (Hcsi : ∀ id n, reads_only (cfg_csi_CreateVolume cfg id n)).

Lemma sim_volumes_for req existing : simulated (volumes_for cfg req existing).
Proof. unfold volumes_for. case_match; [|sim]. sim; by apply sim_CreateVolume. Qed.

Lemma sim_handleCreateDeployment r c : simulated (handleCreateDeployment cfg r c).
Proof.
  unfold handleCreateDeployment. case_match; [sim|]. case_match; [sim|]. cbn zeta. rewrite Hchain.
  apply sim_bind; [sim|]. intros existing. apply sim_bind; [apply sim_volumes_for|]. intros [msg|volumes]; [sim|].
  apply sim_bind; [sim|]. intros [c' [created|e|]]; [|sim..].
  apply sim_bind; [unfold restartOwnedPods; sim|]. intros _. apply sim_bind; [unfold create_envelope; sim|]. intros; sim.
Qed.

Lemma sim_handleScaleDeployment r c : simulated (handleScaleDeployment cfg r c).
Proof. unfold handleScaleDeployment. rewrite Hchain. sim. Qed.

Lemma sim_appMux now r c : simulated (appMux cfg now r c).
Proof.
  unfold appMux. cbn zeta.
  repeat (case_match; [try (apply sim_bind; [|intros; apply sim_ret])|]); [..|sim].
  - unfold handleNodes. sim.
  - unfold handlePods. sim.
  - unfold handleDeployments. repeat (case_match; [first [apply sim_handleCreateDeployment|apply sim_handleScaleDeployment|idtac]|]); [..|sim].
    + sim.
    + unfold handleDeleteDeployment. sim.
  - unfold handleServices. sim.
  - unfold handleFinops. apply sim_call; [sim|]. intros pods. apply sim_reads. intros w x w'.
    by destruct (Estimate _ _ _ _ _) as [report n]; intros [= <- <-].
  - unfold handleCICD. sim.
  - unfold handleMetrics. sim.
  - unfold handleLogs. sim.
  - unfold handleNamespaces. sim.
  - unfold handleFiles. sim.
Qed.

(** C11: Whatever a request to the dashboard does, with or without a session and
    whatever its outcome, a sequence of calls to the API handlers could have
    done: the dashboard has no way around them, in particular not around
    admission. *)
Theorem dashboard_refines_api auth now r c w res w' :
  NewHandler cfg auth now r c w = (res, w') → rtc sys_step w w'.
Proof.
  assert (simulated (NewHandler cfg auth now r c)) as H; [|by apply H].
  unfold NewHandler, requireSession. cbn zeta.
  repeat (case_match; [first [apply sim_appMux|apply sim_ret]|]). apply sim_ret.
Qed.

End Simulation.

(** ** Witnesses *)

Section Put.
Context {S : Type} `{!Store S, !StoreLaws S} {Sh : Shuffle} {SP : Spiffe}.
Context `{AM : !ApiMessages, AL : !ApiLaws, MM : !MoreMessages, ML : !MoreLaws}.

Lemma services_ok_put s w :
  services_ok w →
  ∃ w', reg_Put servicesR (svcNamespace s) (svcName s) s w = (Ok tt, w') ∧ services_ok w' ∧
    objs servicesR (w_view w') = <[reg_key servicesR (svcNamespace s) (svcName s) := s]> (objs servicesR (w_view w)).
Proof.
  intros (Hh & Hd & Hwf).
  destruct (reg_Put_spec servicesR (svcNamespace s) (svcName s) s w Hh) as (w2 & b & Hp & Hh2 & Hb & Hv2).
  assert (objs servicesR (w_view w2) = <[reg_key servicesR (svcNamespace s) (svcName s) := s]> (objs servicesR (w_view w)))
    as Ho by (rewrite Hv2; by apply objs_insert).
  exists w2. split; [done|]. split; [|done]. split; [done|]. split; [rewrite Hv2; by eapply decodable_insert|].
  rewrite Ho. intros k t [[<- <-]|[_ Ht]]%lookup_insert_Some; [done|by apply Hwf].
Qed.
End Put.

Module DashboardDemo.
Import Codec.Reference DemoAdmission MemFs.

#[local] Existing Instance toy_cel.
#[local] Existing Instance toy_spiffe.
#[local] Existing Instance shuffle_id.
#[local] Existing Instance amd64_conv.
#[local] Existing Instance SessionDemo.demo_crypto.
#[local] Instance dash_messages : ApiMessages := Build_ApiMessages _ _ _ _.
#[local] Instance dash_laws : ApiLaws := Build_ApiLaws _ _ _ _ _.
#[local] Instance dash_more : MoreMessages := Build_MoreMessages _ _ _ _ _ _.
#[local] Instance dash_more_laws : MoreLaws := Build_MoreLaws _ _ _ _ _ _ _.

Definition save (replicas : Z) : createDeploymentRequest :=
  MkCreateRequest "web" "default" "nginx" "" "" "" "" replicas 80 [] ∅ 0 0 false "" [].

(** Every create request is [save], every agent runs the log server. *)
#[local] Instance demo_io : DashIO := {|
  create_Decode _ := inr (save 1);
  scale_Decode _ := inr (MkScaleRequest "" "web" 3);
  name_Decode _ := inr "team";
  dash_ErrorText _ := "error";
  protojson_Error _ := None;
  agent_Do _ _ r := inr (NewLogHandler (O := mem_os) "/logs" r ∅).1;
  static_File _ := http_NotFound;
|}.

Definition cfg : Config :=
  MkConfig (chain [] allow_all None) (λ _ n, mret n) None DefaultCostModel "admin" "pw" 0 0.

Definition get (path : string) (q : list (string * string)) : request :=
  Request "GET" path q [] (HttpBody [] None).

Lemma restart_deletes_owned_pods_witness :
  ∃ w', restartOwnedPods "default" "web" demo_world = (Ok tt, w').
Proof.
  destruct (restart_deletes_owned_pods "default" "web" demo_world DemoServices.empty DemoServices.empty_holds) as (w' & H & _).
  - by intros ? ? ?.
  - reflexivity.
  - discriminate.
  - exists w'. exact H.
Defined.

Lemma dashboard_needs_session_witness :
  (NewHandler cfg SessionDemo.auth (GoTime 1000 0) (get "/api/pods" []) ∅ demo_world).2 = demo_world.
Proof.
  refine (proj1 (dashboard_needs_session cfg SessionDemo.auth (GoTime 1000 0) (get "/api/pods" []) ∅ demo_world _ _ _ _ (surjective_pairing _)));
    [discriminate|reflexivity].
Defined.

Lemma edit_moves_node_port_witness :
  ∃ w w' svc, objs servicesR (w_view w) !! reg_key servicesR "default" "web" = Some (DemoServices.demo_service 30000) ∧
    create_envelope (save 1) Deployment_zero w = (Ok (http_JSON (DEnvelope Deployment_zero (Some svc) None)), w') ∧
    svcNodePort svc ≠ 30000.
Proof.
  assert (services_ok demo_world) as Hok by (split; [exact I|]; split; [by intros ? ? ?|by intros ? ? ?]).
  set (run0 := reg_Put servicesR "default" "web" (DemoServices.demo_service 30000) demo_world).
  destruct (services_ok_put (DemoServices.demo_service 30000) demo_world Hok) as (w & Hput & Hw & Ho).
  change (run0 = (Ok tt, w)) in Hput. assert (w = run0.2) as -> by by rewrite Hput.
  set (run := create_envelope (save 1) Deployment_zero run0.2).
  assert (∃ svc, run.1 = Ok (http_JSON (DEnvelope Deployment_zero (Some svc) None))) as [svc Hr]
    by (vm_compute; eauto).
  assert (objs servicesR (w_view run0.2) !! reg_key servicesR "default" "web" = Some (DemoServices.demo_service 30000)) as Hold
    by (refine (eq_trans (f_equal (lookup _) Ho) _); apply lookup_insert_eq).
  exists run0.2, run.2, svc. split; [exact Hold|].
  assert (run = (Ok (http_JSON (DEnvelope Deployment_zero (Some svc) None)), run.2)) as Hrun
    by (rewrite <- Hr; apply surjective_pairing).
  split; [exact Hrun|].
  exact (edit_moves_node_port (save 1) Deployment_zero run0.2 run.2 svc _ Hw eq_refl Hold Hrun).
Defined.

Lemma logs_default_namespace_refused_witness :
  ∃ w, handleLogs cfg (get "/api/logs" [("name", "web-0")]) w =
    (Ok (http_Error "namespace and name query parameters are required" StatusBadRequest), w).
Proof.
  destruct (put_pod demo_world DemoServices.empty "default" "web-0" DemoServices.demo_endpoint_pod DemoServices.empty_holds) as (w1 & _ & H1).
  destruct (put_node w1 _ "" "node-a" demo_node H1) as (w2 & _ & H2).
  exists w2. eapply (logs_default_namespace_refused mem_os "/logs" ∅ cfg (get "/api/logs" [("name", "web-0")]) w2 _
    DemoServices.demo_endpoint_pod demo_node); [reflexivity|exact H2|reflexivity|discriminate|..].
  - apply lookup_insert_eq.
  - discriminate.
  - apply lookup_insert_eq.
  - discriminate.
Defined.

Lemma dashboard_refines_api_witness :
  rtc (step [] allow_all None) demo_world
    (NewHandler cfg SessionDemo.auth (GoTime 1000 0)
      (with_cookies (get "/api/deployments" []) [session_cookie (issueToken SessionDemo.auth 1000) 1]) ∅ demo_world).2.
Proof.
  refine (dashboard_refines_api [] allow_all None cfg eq_refl _ SessionDemo.auth (GoTime 1000 0) _ ∅ demo_world _ _ (surjective_pairing _)).
  intros id n. apply reads_ret.
Defined.

End DashboardDemo.
