(* ===== verification/Federation.v ===== *)
(** * Federation: remote clusters

    internal/federation/registry.go and apiserver/federation_service.go.  The
    service keeps the clusters and their connections under its own mutex, the
    registry keeps the connections to ask under another; registering and
    unregistering each take both, one after the other.  The two critical
    sections are separate steps here: run one after the other they keep the maps
    in agreement, interleaved they do not.  Enrolling, dialling and the answers
    of the remote clusters are arguments. *)

From stdpp Require Import gmap strings list fin_maps.
From Stdlib Require Import ZArith Lia.
From S2P Require Import Prelude Api.

(** A gRPC connection, by its number. *)
Abbreviation conn := nat.

Record RemoteCluster := MkRemoteCluster { rc_Name : string; rc_ApiAddr : string }.

(** The registry, the maps of the service, the connections that were closed,
    and the number of connections opened so far. *)
Record fed_state := MkFed {
  f_registry : gmap string conn;
  f_clusters : gmap string RemoteCluster;
  f_conns : gmap string conn;
  f_closed : gset conn;
  f_opened : nat;
}.

(** NewRegistry and NewFederationService *)
Definition NewFederation : fed_state := MkFed ∅ ∅ ∅ ∅ 0.

(** ** The registry *)

Definition Register (name : string) (c : conn) (s : fed_state) : fed_state :=
  MkFed (<[name := c]> (f_registry s)) (f_clusters s) (f_conns s) (f_closed s) (f_opened s).

Definition Unregister (name : string) (s : fed_state) : fed_state :=
  MkFed (delete name (f_registry s)) (f_clusters s) (f_conns s) (f_closed s) (f_opened s).

Definition Clusters {Sh : Shuffle} (n : nat) (s : fed_state) : list string :=
  shuffle n (map_to_list (f_registry s)).*1.

Record ClusterPods := MkClusterPods { cp_Cluster : string; cp_Items : list Pod; cp_Err : option error }.
Definition ClusterPods_zero : ClusterPods := MkClusterPods "" [] None.

(** What one goroutine of ListPodsAll writes. *)
Definition fetch (ListPods : conn → string → error + list Pod) (namespace : string) (nc : string * conn) : ClusterPods :=
  match ListPods nc.2 namespace with
  | inl e => MkClusterPods nc.1 [] (Some e)
  | inr items => MkClusterPods nc.1 items None
  end.

(** ListPodsAll: the goroutine [i] writes the slot [i]; they finish in the order
    [finish].  [n] is the map iteration that numbers them. *)
Definition ListPodsAll {Sh : Shuffle} (n : nat) (ListPods : conn → string → error + list Pod) (namespace : string)
    (finish : list nat) (s : fed_state) : list ClusterPods :=
  let conns := shuffle n (map_to_list (f_registry s)) in
  foldl (λ results i,
      match conns !! i with
      | Some nc => <[i := fetch ListPods namespace nc]> results
      | None => results
      end)
    (replicate (length conns) ClusterPods_zero) finish.

(** ** The service *)

(** The first critical section of RegisterCluster: a connection that was there
    is closed, cluster and connection are recorded. *)
Definition record_cluster (name addr : string) (c : conn) (s : fed_state) : fed_state :=
  MkFed (f_registry s) (<[name := MkRemoteCluster name addr]> (f_clusters s)) (<[name := c]> (f_conns s))
    (match f_conns s !! name with Some old => {[ old ]} ∪ f_closed s | None => f_closed s end) (f_opened s).

(** grpc.NewClient: a new connection. *)
Definition open_conn (s : fed_state) : conn * fed_state :=
  (f_opened s, MkFed (f_registry s) (f_clusters s) (f_conns s) (f_closed s) (S (f_opened s))).

(** The second critical section of UnregisterCluster. *)
Definition forget_cluster (name : string) (s : fed_state) : fed_state :=
  MkFed (f_registry s) (delete name (f_clusters s)) (delete name (f_conns s))
    (match f_conns s !! name with Some c => {[ c ]} ∪ f_closed s | None => f_closed s end) (f_opened s).

(** RegisterCluster; [enroll], [selfID] and [dial] are the outcomes of the
    enrolment, of reading the identity and of creating the client. *)
Definition RegisterCluster (enroll selfID dial : result unit) (name addr token : string) (s : fed_state)
    : result RemoteCluster * fed_state :=
  if bool_decide (name = "") || bool_decide (addr = "") || bool_decide (token = "") then
    (Err (Status InvalidArgument "name, api_addr, and join_token are required"), s)
  else
  match enroll with
  | Panic => (Panic, s)
  | Err _ => (Err (Status PermissionDenied "enroll with remote cluster"), s)
  | Ok _ =>
    match selfID with
    | Panic => (Panic, s)
    | Err _ => (Err (Status Internal "read enrolled identity"), s)
    | Ok _ =>
      match dial with
      | Panic => (Panic, s)
      | Err _ => (Err (Status Internal "dial remote cluster"), s)
      | Ok _ =>
        let '(c, s) := open_conn s in
        (Ok (MkRemoteCluster name addr), Register name c (record_cluster name addr c s))
      end
    end
  end.

Definition UnregisterCluster (name : string) (s : fed_state) : fed_state :=
  forget_cluster name (Unregister name s).

Definition ListClusters {Sh : Shuffle} (n : nat) (s : fed_state) : list RemoteCluster :=
  shuffle n (map_to_list (f_clusters s)).*2.

Record FederatedPods := MkFederatedPods { fp_Cluster : string; fp_Items : list Pod; fp_Error : string }.

Definition ListFederatedPods {Sh : Shuffle} (error_text : error → string) (n : nat)
    (ListPods : conn → string → error + list Pod) (namespace : string) (finish : list nat) (s : fed_state)
    : list FederatedPods :=
  (λ r : ClusterPods, MkFederatedPods (cp_Cluster r) (cp_Items r) (match cp_Err r with Some e => error_text e | None => "" end))
    <$> ListPodsAll n ListPods namespace finish s.

(** ** One operation at a time *)

Inductive seq_step : fed_state → fed_state → Prop :=
  | seq_register enroll selfID dial name addr token s r s' :
      RegisterCluster enroll selfID dial name addr token s = (r, s') → seq_step s s'
  | seq_unregister name s : seq_step s (UnregisterCluster name s).

(** The registry and the service know the same clusters by the same
    connections, these are open, and every other connection ever opened has
    been closed. *)
Record agrees (s : fed_state) : Prop := {
  a_registry : f_registry s = f_conns s;
  a_clusters : dom (f_clusters s) = dom (f_conns s);
  a_names : ∀ n rc, f_clusters s !! n = Some rc → rc_Name rc = n;
  a_open : ∀ n c, f_conns s !! n = Some c → (c ∉ f_closed s) ∧ (c < f_opened s)%nat;
  a_inj : ∀ n n' c, f_conns s !! n = Some c → f_conns s !! n' = Some c → n = n';
  a_closed : ∀ c, c ∈ f_closed s → (c < f_opened s)%nat;
  a_no_leak : ∀ c, (c < f_opened s)%nat → c ∈ f_closed s ∨ ∃ n, f_conns s !! n = Some c;
}.

Lemma agrees_init : agrees NewFederation.
Proof. split; simpl; intros; try done; lia. Qed.

Lemma agrees_register name addr s :
  agrees s →
  let '(c, s1) := open_conn s in agrees (Register name c (record_cluster name addr c s1)).
Proof.
  intros H. destruct H as [H1 H2 H3 H4 H5 H6 H7]. unfold open_conn.
  split; simpl.
  - by rewrite H1.
  - rewrite !dom_insert_L. by rewrite H2.
  - intros n rc [[<- <-]|[_ Hn]]%lookup_insert_Some; [done|by apply H3].
  - intros n c [[<- <-]|[Hne Hn]]%lookup_insert_Some.
    + split; [|lia]. case_match eqn:Ho; [|intros ?%H6; lia].
      intros [Hx%elem_of_singleton|Hc%H6]%elem_of_union; [|lia]. destruct (H4 _ _ Ho). lia.
    + destruct (H4 _ _ Hn). split; [|lia]. case_match eqn:Ho; [|done].
      intros [->%elem_of_singleton|?]%elem_of_union; [|done]. by apply Hne, (H5 _ _ _ Ho Hn).
  - intros n n' c [[<- <-]|[Hne Hn]]%lookup_insert_Some [[<- Hc]|[Hne' Hn']]%lookup_insert_Some; [done|..].
    + destruct (H4 _ _ Hn'). lia.
    + subst. destruct (H4 _ _ Hn). lia.
    + by eapply H5.
  - intros c. case_match eqn:Ho; [|intros ?%H6; lia].
    intros [->%elem_of_singleton|?%H6]%elem_of_union; [|lia]. destruct (H4 _ _ Ho). lia.
  - intros c Hc. destruct (decide (c = f_opened s)) as [->|Hco]; [right; exists name; by rewrite lookup_insert_eq|].
    destruct (H7 c) as [Hcl|[n Hn]]; [lia|left; case_match; set_solver|].
    destruct (decide (n = name)) as [->|Hnn]; [left; rewrite Hn; set_solver|].
    right. exists n. by rewrite lookup_insert_ne.
Qed.

Lemma agrees_unregister name s : agrees s → agrees (UnregisterCluster name s).
Proof.
  intros [H1 H2 H3 H4 H5 H6 H7]. split; simpl.
  - by rewrite H1.
  - rewrite !dom_delete_L. by rewrite H2.
  - intros n rc [_ Hn]%lookup_delete_Some. by apply H3.
  - intros n c [Hne Hn]%lookup_delete_Some. destruct (H4 _ _ Hn). split; [|done].
    case_match eqn:Ho; [|done]. intros [->%elem_of_singleton|?]%elem_of_union; [|done]. by apply Hne, (H5 _ _ _ Ho Hn).
  - intros n n' c [_ Hn]%lookup_delete_Some [_ Hn']%lookup_delete_Some. by eapply H5.
  - intros c. case_match eqn:Ho; [|apply H6].
    intros [->%elem_of_singleton|?%H6]%elem_of_union; [|done]. by destruct (H4 _ _ Ho).
  - intros c Hc. destruct (H7 c Hc) as [Hcl|[n Hn]]; [left; case_match; set_solver|].
    destruct (decide (n = name)) as [->|Hnn]; [left; rewrite Hn; set_solver|].
    right. exists n. by rewrite lookup_delete_ne.
Qed.

Lemma seq_step_agrees s s' : seq_step s s' → agrees s → agrees s'.
Proof.
  destruct 1 as [enroll selfID dial name addr token s r s' H|name s]; [|apply agrees_unregister].
  intros Ha. unfold RegisterCluster in H. case_match; [by simplify_eq|].
  pose proof (agrees_register name addr s Ha) as Hr. destruct (open_conn s) as [c s1].
  destruct enroll, selfID, dial; by simplify_eq.
Qed.

(** C31: As long as operations run one at a time, the service and the registry
    agree: the clusters that are listed are the ones that are asked for pods,
    over connections that are open, and no connection is left open that nobody
    holds. *)
Theorem federation_agrees s : rtc seq_step NewFederation s → agrees s.
Proof.
  assert (∀ s s', rtc seq_step s s' → agrees s → agrees s') as H.
  { induction 1 as [|s1 s2 s3 Hs _ IH]; [done|]. intros Ha. by apply IH, (seq_step_agrees s1). }
  intros Hs. apply (H _ _ Hs), agrees_init.
Qed.

(** ** Interleaved *)

(** What a call has still to do after its first critical section. *)
Inductive pending := PRegister (name : string) (c : conn) | PForget (name : string).

(** The steps of calls that run at the same time. *)
Inductive par_step : fed_state * list pending → fed_state * list pending → Prop :=
  | par_register_begin name addr s l c s1 :
      open_conn s = (c, s1) → par_step (s, l) (record_cluster name addr c s1, l ++ [PRegister name c])
  | par_register_end name c s l l' :
      par_step (s, l ++ PRegister name c :: l') (Register name c s, l ++ l')
  | par_unregister_begin name s l : par_step (s, l) (Unregister name s, l ++ [PForget name])
  | par_unregister_end name s l l' :
      par_step (s, l ++ PForget name :: l') (forget_cluster name s, l ++ l').

(** Interleaved, they do not agree.  When a cluster is unregistered while it is
    being registered, the registry can end up with a connection that is closed,
    for a cluster that the service no longer lists: with all calls finished, it
    is still asked for its pods, and cannot answer. *)
Theorem federation_race (name addr : string) :
  ∃ s c, rtc par_step (NewFederation, []) (s, []) ∧
    f_registry s !! name = Some c ∧ c ∈ f_closed s ∧ f_clusters s !! name = None.
Proof.
  set (s1 := record_cluster name addr 0%nat (open_conn NewFederation).2).
  set (s2 := Unregister name s1). set (s3 := forget_cluster name s2). set (s4 := Register name 0%nat s3).
  exists s4, 0%nat. split; [|split; [|split]].
  - eapply rtc_l; [by apply (par_register_begin name addr NewFederation [])|]. fold s1.
    eapply rtc_l; [apply (par_unregister_begin name s1)|]. fold s2.
    eapply rtc_l; [apply (par_unregister_end name s2 [PRegister name 0%nat] [])|]. fold s3.
    apply rtc_once. apply (par_register_end name 0%nat s3 [] []).
  - apply lookup_insert_eq.
  - simpl. rewrite lookup_insert_eq. set_solver.
  - simpl. apply lookup_delete_eq.
Qed.

(** ** Asking all clusters *)

Lemma fill_slots {A B} (f : A → B) (l : list A) (finish : list nat) (init : list B) i :
  length init = length l →
  foldl (λ results i, match l !! i with Some x => <[i := f x]> results | None => results end) init finish !! i =
  if bool_decide (i ∈ finish) then f <$> l !! i else init !! i.
Proof.
  revert init. induction finish as [|j finish IH]; intros init Hlen; simpl; [done|].
  rewrite IH by (by destruct (l !! j); rewrite ?length_insert).
  destruct (decide (i ∈ finish)) as [Hi|Hi].
  { rewrite !bool_decide_eq_true_2 by (rewrite ?elem_of_cons; auto). done. }
  rewrite (bool_decide_eq_false_2 (i ∈ finish)) by done.
  destruct (decide (i = j)) as [->|Hne].
  - rewrite bool_decide_eq_true_2 by apply list_elem_of_here. destruct (l !! j) as [x|] eqn:Hj; simpl.
    + apply list_lookup_insert_eq. rewrite Hlen. by eapply lookup_lt_Some.
    + apply lookup_ge_None in Hj. apply lookup_ge_None. lia.
  - rewrite bool_decide_eq_false_2 by (rewrite elem_of_cons; tauto).
    destruct (l !! j); [by rewrite list_lookup_insert_ne|done].
Qed.

(** However the goroutines interleave, the federated listing has exactly one
    entry for each registered cluster: its pods, or the text of its error and no
    pods. *)
Theorem federated_listing_exact {Sh : Shuffle} error_text n ListPods namespace finish s :
  finish ≡ₚ seq 0 (size (f_registry s)) →
  ListFederatedPods error_text n ListPods namespace finish s ≡ₚ
  (λ '(name, c), match ListPods c namespace with
                 | inr items => MkFederatedPods name items ""
                 | inl e => MkFederatedPods name [] (error_text e)
                 end) <$> map_to_list (f_registry s).
Proof.
  intros Hf. unfold ListFederatedPods, ListPodsAll. set (conns := shuffle n (map_to_list (f_registry s))).
  assert (length conns = size (f_registry s)) as Hlen.
  { unfold conns. by rewrite shuffle_perm, length_map_to_list. }
  assert (foldl (λ results i, match conns !! i with Some nc => <[i := fetch ListPods namespace nc]> results | None => results end)
    (replicate (length conns) ClusterPods_zero) finish = fetch ListPods namespace <$> conns) as ->.
  { apply list_eq. intros i. rewrite fill_slots by by rewrite length_replicate.
    rewrite list_lookup_fmap. destruct (decide (i < length conns)%nat) as [Hi|Hi].
    - rewrite bool_decide_eq_true_2; [done|]. rewrite Hf, elem_of_seq. lia.
    - rewrite bool_decide_eq_false_2 by (rewrite Hf, elem_of_seq; lia).
      rewrite (lookup_ge_None_2 conns), (lookup_ge_None_2 (replicate _ _)); [done|rewrite length_replicate; lia|lia]. }
  rewrite <- list_fmap_compose. unfold conns. rewrite shuffle_perm. apply reflexive_eq, list_fmap_ext.
  intros i [name c] _. unfold compose, fetch. simpl. by destruct (ListPods c namespace).
Qed.

Module FederationDemo.

Definition s1 : fed_state := (RegisterCluster (Ok ()) (Ok ()) (Ok ()) "east" "10.0.0.1:6443" "t" NewFederation).2.
Definition s2 : fed_state := UnregisterCluster "east" s1.

Lemma federation_agrees_witness : agrees s2 ∧ f_conns s1 = {[ "east" := 0%nat ]}.
Proof.
  split; [|vm_compute; reflexivity]. apply federation_agrees.
  eapply rtc_l; [eapply (seq_register (Ok ()) (Ok ()) (Ok ()) "east" "10.0.0.1:6443" "t"); apply surjective_pairing|].
  apply rtc_once. apply (seq_unregister "east" s1).
Defined.

Definition answer (c : conn) (ns : string) : error + list Pod :=
  if bool_decide (c = 0%nat) then inr [Pod_zero] else inl (Errorf "unavailable").

Lemma federated_listing_exact_witness :
  ListFederatedPods (Sh := shuffle_id) (λ _, "unavailable") 0 answer "default" [0%nat] s1 ≡ₚ
  [MkFederatedPods "east" [Pod_zero] ""].
Proof. apply (federated_listing_exact (Sh := shuffle_id) (λ _, "unavailable") 0 answer "default" [0%nat] s1). reflexivity. Defined.

End FederationDemo.
