(* ===== verification/Identity.v ===== *)
(** * Identity: the certificate authority and the identities it issues

    internal/identity (ca.go, svid.go, rotate.go, enroll.go, persist.go) and
    apiserver/identity_service.go.  X.509, the elliptic curve, PEM, JSON and the
    SPIFFE library are the parameters [X509] and [SpiffeIDs], with the laws the
    code relies on; times are nanoseconds since the epoch. *)

From stdpp Require Import gmap strings list.
From Stdlib Require Import Ascii ZArith Lia.
From S2P Require Import Prelude Text Path Http Rbac.

Local Open Scope Z_scope.

Definition Second : Z := 1000000000.
Definition Minute : Z := 60 * Second.

(** [1 * time.Hour] *)
Definition DefaultSVIDTTL : Z := 60 * Minute.

(** The fields of a certificate template that the code sets and later reads. *)
Record template := MkTemplate {
  tm_Serial : Z;
  tm_CommonName : string;
  tm_URIs : list string;
  tm_NotBefore : Z;
  tm_NotAfter : Z;
  tm_IsCA : bool;
}.

(** What the code does not see the inside of: keys, certificates and encodings. *)
Class X509 := {
  priv : Type;
  pub : Type;
  public_of : priv → pub;
  (** DER encodings *)
  der : Type;
  (** a parsed certificate: its fields, its key and its encoding *)
  cert : Type;
  cert_fields : cert → template;
  cert_pub : cert → pub;
  cert_Raw : cert → der;
  x509_CreateCertificate : template → cert → pub → priv → result der;
  (** a certificate signed with its own key *)
  x509_SelfSign : template → priv → result der;
  x509_ParseCertificate : der → result cert;
  (** [leaf.Verify] with roots, intermediates and the current time *)
  x509_Verify : list cert → list cert → Z → cert → result unit;
  (** a certificate request: its parsing, its signature check, its key if that is
      an ECDSA key *)
  csr : Type;
  csr_Parse : der → result csr;
  csr_CheckSignature : csr → result unit;
  csr_ECDSA : csr → option pub;
  csr_Create : string → priv → result der;
  (** private keys and PEM *)
  ec_Marshal : priv → result der;
  ec_Parse : der → result priv;
  pem_Encode : string → der → string;
  pem_Decode : string → option der;
}.

(** [c] carries a signature made with the key of [parent]. *)
Class X509Laws {X : X509} := {
  signed_by : cert → cert → Prop;
  (** times in a certificate are whole seconds *)
  parse_create : ∀ t parent p k d, x509_CreateCertificate t parent p k = Ok d →
    ∃ c, x509_ParseCertificate d = Ok c ∧ cert_pub c = p ∧
      cert_fields c = MkTemplate (tm_Serial t) (tm_CommonName t) (tm_URIs t)
                        (tm_NotBefore t / Second * Second) (tm_NotAfter t / Second * Second) (tm_IsCA t) ∧
      (cert_pub parent = public_of k → signed_by c parent);
  parse_selfsign : ∀ t k d, x509_SelfSign t k = Ok d →
    ∃ c, x509_ParseCertificate d = Ok c ∧ cert_pub c = public_of k ∧
      cert_fields c = MkTemplate (tm_Serial t) (tm_CommonName t) (tm_URIs t)
                        (tm_NotBefore t / Second * Second) (tm_NotAfter t / Second * Second) (tm_IsCA t);
  (** a certificate signed by a CA among the roots verifies exactly in its
      validity period, as long as the CA is valid *)
  verify_root : ∀ roots ints now c ca, ca ∈ roots → tm_IsCA (cert_fields ca) = true → signed_by c ca →
    tm_NotBefore (cert_fields ca) ≤ now ≤ tm_NotAfter (cert_fields ca) →
    x509_Verify roots ints now c = Ok () ↔ tm_NotBefore (cert_fields c) ≤ now ≤ tm_NotAfter (cert_fields c);
  parse_raw : ∀ c, x509_ParseCertificate (cert_Raw c) = Ok c;
  ec_roundtrip : ∀ k d, ec_Marshal k = Ok d → ec_Parse d = Ok k;
  pem_roundtrip : ∀ ty d, pem_Decode (pem_Encode ty d) = Some d;
  pem_ascii : ∀ ty d, ascii_text ty → ascii_text (pem_Encode ty d);
}.

(** The SPIFFE library beyond [spiffeid_FromURI]. *)
Class SpiffeIDs {SP : Spiffe} := {
  spiffeid_FromPath : string → string → result ID;
  spiffeid_URL : ID → string;
  spiffeid_TrustDomain : string → result string;
  FromPath_Ok : ∀ td path id, spiffeid_FromPath td path = Ok id → id = MkID td path;
  FromURI_URL : ∀ td path id, spiffeid_FromPath td path = Ok id → spiffeid_FromURI (spiffeid_URL id) = Ok id;
  (** a trust domain prints as itself *)
  TrustDomain_idem : ∀ s td, spiffeid_TrustDomain s = Ok td → spiffeid_TrustDomain td = Ok td;
  (** lower-case letters, digits, dots, dashes and underscores *)
  TrustDomain_ascii : ∀ s td, spiffeid_TrustDomain s = Ok td → ascii_text td;
}.

Section Identity.
Context {X : X509} {SP : Spiffe} {SI : SpiffeIDs}.

(** ** The certificate authority (ca.go) *)

Record CA := MkCA { ca_trustDomain : string; ca_cert : cert; ca_key : priv }.

(** NewCA at time [now]; [gen] and [serial] are what the random source gives. *)
Definition NewCA (gen : result priv) (serial : result Z) (now : Z) (trustDomain : string) : result CA :=
  td ← wrap_result "identity: invalid trust domain" (spiffeid_TrustDomain trustDomain);
  key ← wrap_result "identity: generate CA key" gen;
  serial ← wrap_result "identity: generate serial number" serial;
  let tmpl := MkTemplate serial ("NimbusCore CA - " +:+ td) [] (now - 5 * Minute)
                (now + 10 * 365 * 24 * 60 * Minute) true in
  der ← wrap_result "identity: self-sign CA cert" (x509_SelfSign tmpl key);
  cert ← wrap_result "identity: parse CA cert" (x509_ParseCertificate der);
  Ok (MkCA td cert key).

Definition TrustBundle (ca : CA) : list cert := [ca_cert ca].

(** [id.MemberOf(td)] *)
Definition MemberOf (id : ID) (td : string) : bool := bool_decide (id_TrustDomain id = td).

Definition IssueSVID (ca : CA) (serial : result Z) (now : Z) (p : pub) (id : ID) (ttl : Z) : result cert :=
  if negb (MemberOf id (ca_trustDomain ca)) then Err (Errorf "identity: not a member of trust domain")
  else
    let ttl := if ttl <=? 0 then DefaultSVIDTTL else ttl in
    serial ← wrap_result "identity: generate serial number" serial;
    let tmpl := MkTemplate serial (spiffeid_URL id) [spiffeid_URL id] (now - Minute) (now + ttl) false in
    der ← wrap_result "identity: issue SVID" (x509_CreateCertificate tmpl (ca_cert ca) p (ca_key ca));
    x509_ParseCertificate der.

(** ** Identities (svid.go) *)

Record SVID := NewSVID { sv_key : priv; sv_cert : cert; sv_bundle : list cert }.

Definition Rotate (key : priv) (c : cert) (s : SVID) : SVID := NewSVID key c (sv_bundle s).
Definition Materials (s : SVID) : priv * cert := (sv_key s, sv_cert s).

(** The identity in a certificate: its only URI. *)
Definition cert_ID (c : cert) : result ID :=
  match tm_URIs (cert_fields c) with
  | [uri] => spiffeid_FromURI uri
  | _ => Err (Errorf "identity: SVID certificate must carry exactly one URI SAN")
  end.
Definition SVID_ID (s : SVID) : result ID := cert_ID (sv_cert s).

(** GenerateCSR: the request and its key. *)
Definition GenerateCSR (gen : result priv) (commonName : string) : result (der * priv) :=
  key ← wrap_result "identity: generate key" gen;
  d ← wrap_result "identity: create CSR" (csr_Create commonName key);
  Ok (d, key).

Fixpoint parse_all (l : list der) : result (list cert) :=
  match l with
  | [] => Ok []
  | d :: l =>
    c ← wrap_result "identity: parse peer certificate" (x509_ParseCertificate d);
    cs ← parse_all l;
    Ok (c :: cs)
  end.

(** verifyPeerSPIFFE at time [now]; [expect] is the matcher. *)
Definition verifyPeerSPIFFE (bundle : list cert) (expect : ID → result unit) (now : Z) (rawCerts : list der)
    : result unit :=
  match rawCerts with
  | [] => Err (Errorf "identity: peer presented no certificate")
  | d :: rest =>
    leaf ← wrap_result "identity: parse peer certificate" (x509_ParseCertificate d);
    intermediates ← parse_all rest;
    _ ← wrap_result "identity: verify peer chain" (x509_Verify bundle intermediates now leaf);
    match tm_URIs (cert_fields leaf) with
    | [uri] =>
      id ← wrap_result "identity: peer certificate URI is not a SPIFFE ID" (spiffeid_FromURI uri);
      wrap_result "identity: peer rejected" (expect id)
    | _ => Err (Errorf "identity: peer certificate must carry exactly one URI SAN")
    end
  end.

(** ** The identity service (apiserver/identity_service.go) *)

Inductive SVIDRole := SVID_ROLE_UNSPECIFIED | SVID_ROLE_NODE | SVID_ROLE_CONTROL_PLANE | SVID_ROLE_CLIENT.

#[export] Instance SVIDRole_eq_decision : EqDecision SVIDRole.
Proof. solve_decision. Defined.

Record identityService := MkIdentityService {
  is_ca : CA;
  is_joinToken : string;
  is_svidTTL : Z;
  is_dataEncryptionKey : bytes;
}.

Record RequestSVIDResponse := MkSVIDResponse {
  rs_Cert : cert;
  rs_TrustBundle : cert;
  rs_DataEncryptionKey : option bytes;
}.

(** The path of an identity of a role. *)
Definition role_path (role : SVIDRole) (name : string) : option string :=
  match role with
  | SVID_ROLE_NODE => Some ("/node/" +:+ name)
  | SVID_ROLE_CONTROL_PLANE => Some ("/control-plane/" +:+ name)
  | SVID_ROLE_CLIENT => Some ("/client/" +:+ name)
  | SVID_ROLE_UNSPECIFIED => None
  end.

Definition status_result {A} (c : code) (s : string) (r : result A) : result A :=
  match r with Err _ => Err (Status c s) | r => r end.

Definition RequestSVID (svc : identityService) (serial : result Z) (now : Z)
    (joinToken : string) (csrDer : der) (nodeName : string) (role : SVIDRole) : result RequestSVIDResponse :=
  if negb (bool_decide (joinToken = is_joinToken svc)) then Err (Status PermissionDenied "invalid join token")
  else if bool_decide (nodeName = "") then Err (Status InvalidArgument "node_name is required")
  else
    req ← status_result InvalidArgument "parse CSR" (csr_Parse csrDer);
    _ ← status_result InvalidArgument "CSR signature invalid" (csr_CheckSignature req);
    match csr_ECDSA req with
    | None => Err (Status InvalidArgument "CSR must use an ECDSA public key")
    | Some p =>
      match role_path role nodeName with
      | None => Err (Status InvalidArgument "role must be SVID_ROLE_NODE, SVID_ROLE_CONTROL_PLANE, or SVID_ROLE_CLIENT")
      | Some idPath =>
        id ← status_result Internal "build SPIFFE ID" (spiffeid_FromPath (ca_trustDomain (is_ca svc)) idPath);
        c ← status_result Internal "issue SVID" (IssueSVID (is_ca svc) serial now p id (is_svidTTL svc));
        Ok (MkSVIDResponse c (ca_cert (is_ca svc))
             (if bool_decide (role = SVID_ROLE_CONTROL_PLANE) then Some (is_dataEncryptionKey svc) else None))
      end
    end.

(** ** Enrolment (enroll.go) *)

(** Enroll: [request] is the call of RequestSVID over the network. *)
Definition Enroll (gen : result priv)
    (request : string → der → string → SVIDRole → result RequestSVIDResponse)
    (joinToken name : string) (role : SVIDRole) : result (SVID * option bytes) :=
  '(csrDER, key) ← GenerateCSR gen name;
  resp ← wrap_result "identity: RequestSVID" (request joinToken csrDER name role);
  c ← wrap_result "identity: parse issued certificate" (x509_ParseCertificate (cert_Raw (rs_Cert resp)));
  caCert ← wrap_result "identity: parse trust bundle" (x509_ParseCertificate (cert_Raw (rs_TrustBundle resp)));
  Ok (NewSVID key c [caCert], rs_DataEncryptionKey resp).

(** ** Rotation (rotate.go) *)

(** One tick of StartSelfIssueRotateLoop: on any error the identity stays. *)
Definition self_issue_tick (ca : CA) (path : string) (ttl : Z) (gen : result priv) (serial : result Z) (now : Z)
    (s : SVID) : SVID :=
  match gen with
  | Ok key =>
    match spiffeid_FromPath (ca_trustDomain ca) path with
    | Ok id =>
      match IssueSVID ca serial now (public_of key) id ttl with
      | Ok c => Rotate key c s
      | _ => s
      end
    | _ => s
    end
  | _ => s
  end.

(** One tick of StartReenrollRotateLoop. *)
Definition reenroll_tick (enrolled : result (SVID * option bytes)) (s : SVID) : SVID :=
  match enrolled with
  | Ok (renewed, _) => let '(key, c) := Materials renewed in Rotate key c s
  | _ => s
  end.

(** The ticks of the loop started at time [t0]: the [k]-th is at
    [t0 + k * (ttl / 2)], where [ttl] is not positive for the default. *)
Definition rotate_period (ttl : Z) : Z := (if ttl <=? 0 then DefaultSVIDTTL else ttl) / 2.

Fixpoint self_issue_loop (ca : CA) (path : string) (ttl : Z) (gen : nat → result priv) (serial : nat → result Z)
    (t0 : Z) (s : SVID) (k : nat) : SVID :=
  match k with
  | O => s
  | S k' =>
    self_issue_tick ca path (if ttl <=? 0 then DefaultSVIDTTL else ttl) (gen k) (serial k)
      (t0 + Z.of_nat k * rotate_period ttl) (self_issue_loop ca path ttl gen serial t0 s k')
  end.

(** ** Persistence (persist.go) *)

Record persistedBootstrap := MkBootstrap {
  pb_TrustDomain : string; pb_CAKeyPEM : string; pb_CACertPEM : string; pb_DEK : bytes;
}.

Definition BootstrapStatePath (dataDir : string) : string := path_Join [dataDir; "bootstrap-identity.json"].

End Identity.

(** JSON reads back the strings it prints when they are ASCII. *)
Definition boot_text (m : persistedBootstrap) : bool :=
  ascii_text (pb_TrustDomain m) && ascii_text (pb_CAKeyPEM m) && ascii_text (pb_CACertPEM m).

(** encoding/json on [persistedBootstrap]. *)
Class BootstrapCodec := {
  boot_Marshal : persistedBootstrap → result bytes;
  boot_Unmarshal : bytes → result persistedBootstrap;
  boot_roundtrip : ∀ m b, boot_text m → boot_Marshal m = Ok b → boot_Unmarshal b = Ok m;
}.

Section Persist.
Context {X : X509} {SP : Spiffe} {SI : SpiffeIDs} {BC : BootstrapCodec} {E : Type} {O : OS E}.

Definition bootstrap_of (ca : CA) (keyDER : der) (dek : bytes) : persistedBootstrap :=
  MkBootstrap (ca_trustDomain ca) (pem_Encode "EC PRIVATE KEY" keyDER)
    (pem_Encode "CERTIFICATE" (cert_Raw (ca_cert ca))) dek.

Definition SaveBootstrapState (path : string) (ca : CA) (dek : bytes) (s : E) : result unit * E :=
  match ec_Marshal (ca_key ca) with
  | Panic => (Panic, s)
  | Err e => (Err (Wrapf "identity: marshal CA key" e), s)
  | Ok keyDER =>
    match boot_Marshal (bootstrap_of ca keyDER dek) with
    | Panic => (Panic, s)
    | Err e => (Err (Wrapf "identity: marshal bootstrap state" e), s)
    | Ok raw =>
      match os_WriteFile path raw s with
      | (inl e, s) => (Err (Wrapf "identity: write bootstrap state" e), s)
      | (inr _, s) => (Ok (), s)
      end
    end
  end.

(** What LoadBootstrapState makes of the contents of the file. *)
Definition parse_bootstrap (raw : bytes) : result (CA * bytes) :=
  state ← wrap_result "identity: parse bootstrap state" (boot_Unmarshal raw);
  td ← wrap_result "identity: parse persisted trust domain" (spiffeid_TrustDomain (pb_TrustDomain state));
  match pem_Decode (pb_CAKeyPEM state) with
  | None => Err (Errorf "identity: decode persisted CA key PEM")
  | Some keyDER =>
    key ← wrap_result "identity: parse persisted CA key" (ec_Parse keyDER);
    match pem_Decode (pb_CACertPEM state) with
    | None => Err (Errorf "identity: decode persisted CA cert PEM")
    | Some certDER =>
      c ← wrap_result "identity: parse persisted CA cert" (x509_ParseCertificate certDER);
      Ok (MkCA td c key, pb_DEK state)
    end
  end.

(** The error of reading the file is returned as it is. *)
Definition LoadBootstrapState (path : string) (s : E) : (error + result (CA * bytes)) * E :=
  match os_ReadFile path s with
  | (inl e, s) => (inl e, s)
  | (inr raw, s) => (inr (parse_bootstrap raw), s)
  end.

(** The identity a control plane issues to itself. *)
Definition self_issue (gen : result priv) (serial : result Z) (now : Z) (nodeID : string) (ca : CA) (dek : bytes)
    : result (SVID * CA * bytes) :=
  key ← wrap_result "identity: generate key" gen;
  id ← spiffeid_FromPath (ca_trustDomain ca) ("/control-plane/" +:+ nodeID);
  c ← IssueSVID ca serial now (public_of key) id DefaultSVIDTTL;
  Ok (NewSVID key c (TrustBundle ca), ca, dek).

(** cmd/nimbus-apiserver: loadOrBootstrapIdentity with -bootstrap.  The random
    source gives the keys [genCA] and [gen], the serial numbers and the data
    key. *)
Definition bootstrapIdentity (genCA gen : result priv) (serialCA serial : result Z) (random : result bytes) (now : Z)
    (trustDomain nodeID dataDir : string) (s : E) : result (SVID * CA * bytes) * E :=
  let statePath := BootstrapStatePath dataDir in
  let issue := self_issue gen serial now nodeID in
  match LoadBootstrapState statePath s with
  | (inr (Ok (ca, dek)), s) => (issue ca dek, s)
  | (inr (Err e), s) => (Err (Wrapf "apiserver: load persisted bootstrap identity" e), s)
  | (inr Panic, s) => (Panic, s)
  | (inl e, s) =>
    if negb (os_IsNotExist e) then (Err (Wrapf "apiserver: load persisted bootstrap identity" e), s)
    else
    match NewCA genCA serialCA now trustDomain with
    | Panic => (Panic, s)
    | Err e => (Err e, s)
    | Ok ca =>
      match random with
      | Panic => (Panic, s)
      | Err e => (Err e, s)
      | Ok dek =>
        match os_MkdirAll dataDir s with
        | (inl e, s) => (Err (Wrapf "apiserver: create data dir" e), s)
        | (inr _, s) =>
          match SaveBootstrapState statePath ca dek s with
          | (Ok _, s) => (issue ca dek, s)
          | (Err e, s) => (Err (Wrapf "apiserver: persist bootstrap identity" e), s)
          | (Panic, s) => (Panic, s)
          end
        end
      end
    end
  end.

End Persist.

(** ** Issued identities *)

Section Correct.
Context {X : X509} {XL : X509Laws} {SP : Spiffe} {SI : SpiffeIDs}.

(** The certificate of the authority is a CA certificate for its key. *)
Definition ca_ok (ca : CA) : Prop :=
  cert_pub (ca_cert ca) = public_of (ca_key ca) ∧ tm_IsCA (cert_fields (ca_cert ca)) = true.

Definition ca_valid (ca : CA) (now : Z) : Prop :=
  tm_NotBefore (cert_fields (ca_cert ca)) ≤ now ≤ tm_NotAfter (cert_fields (ca_cert ca)).

(** The lifetime that is used for [ttl]. *)
Definition effective_ttl (ttl : Z) : Z := if ttl <=? 0 then DefaultSVIDTTL else ttl.

(** The whole seconds in which a certificate issued at [t] is valid. *)
Definition in_validity (t ttl now : Z) : Prop :=
  (t - Minute) / Second * Second ≤ now ≤ (t + effective_ttl ttl) / Second * Second.

Lemma wrap_result_Ok {A} s (r : result A) a : wrap_result s r = Ok a → r = Ok a.
Proof. by destruct r. Qed.

Lemma status_result_Ok {A} c s (r : result A) a : status_result c s r = Ok a → r = Ok a.
Proof. by destruct r. Qed.

Lemma result_bind_Ok {A B} (r : result A) (f : A → result B) b : r ≫= f = Ok b → ∃ a, r = Ok a ∧ f a = Ok b.
Proof. destruct r; simpl; try done. eauto. Qed.

Lemma NewCA_ok gen serial now td ca : NewCA gen serial now td = Ok ca → ca_ok ca.
Proof.
  unfold NewCA. intros (td' & _ & H)%result_bind_Ok. apply result_bind_Ok in H as (key & _ & H).
  apply result_bind_Ok in H as (n & _ & H). cbn zeta in H. apply result_bind_Ok in H as (d & Hd & H).
  apply result_bind_Ok in H as (c & Hc & H). apply wrap_result_Ok in Hd, Hc. injection H as <-.
  destruct (parse_selfsign _ _ _ Hd) as (c' & Hc' & Hp & Hf). rewrite Hc' in Hc. injection Hc as <-.
  split; [done|]. simpl. by rewrite Hf.
Qed.

Lemma IssueSVID_spec ca serial now p id ttl c :
  IssueSVID ca serial now p id ttl = Ok c →
  id_TrustDomain id = ca_trustDomain ca ∧ cert_pub c = p ∧ tm_URIs (cert_fields c) = [spiffeid_URL id] ∧
  (∀ t, in_validity now ttl t ↔ tm_NotBefore (cert_fields c) ≤ t ≤ tm_NotAfter (cert_fields c)) ∧
  (ca_ok ca → signed_by c (ca_cert ca)).
Proof.
  unfold IssueSVID, MemberOf. case_bool_decide as Hm; [|done]. simpl negb. cbv iota zeta.
  intros (n & _ & H)%result_bind_Ok. apply result_bind_Ok in H as (d & Hd & H). apply wrap_result_Ok in Hd.
  destruct (parse_create _ _ _ _ _ Hd) as (c' & Hc & Hp & Hf & Hs). rewrite H in Hc. injection Hc as <-.
  rewrite Hf. split_and!; [done|done|done|by unfold in_validity|]. intros [Hk _]. by apply Hs.
Qed.

(** A certificate of the authority passes the check of a peer that trusts it. *)
Lemma issued_accepted ca serial t p path id ttl c expect now :
  ca_ok ca → ca_valid ca now → spiffeid_FromPath (ca_trustDomain ca) path = Ok id →
  IssueSVID ca serial t p id ttl = Ok c →
  verifyPeerSPIFFE (TrustBundle ca) expect now [cert_Raw c] = Ok () ↔ in_validity t ttl now ∧ expect id = Ok ().
Proof.
  intros Hca Hv Hid Hi. destruct (IssueSVID_spec _ _ _ _ _ _ _ Hi) as (_ & _ & Hu & Hval & Hs).
  assert (x509_Verify (TrustBundle ca) [] now c = Ok () ↔ in_validity t ttl now) as Hver.
  { rewrite Hval. apply (verify_root _ _ _ _ (ca_cert ca)); [by left|apply Hca|by apply Hs|done]. }
  rewrite <- Hver. unfold verifyPeerSPIFFE. rewrite parse_raw. cbn. rewrite Hu, (FromURI_URL _ _ _ Hid).
  destruct (x509_Verify _ _ _ _) as [[]| |]; cbn; [|naive_solver..].
  destruct (expect id) as [[]| |]; cbn; naive_solver.
Qed.

(** An identity issued by a certificate authority is accepted by a peer that
    trusts this authority exactly from one minute before it was issued until its
    lifetime is over (in whole seconds), and only if the peer expects it. *)
Theorem svid_validity gen serialCA t0 td ca serial t p path id ttl c expect now :
  NewCA gen serialCA t0 td = Ok ca → ca_valid ca now →
  spiffeid_FromPath (ca_trustDomain ca) path = Ok id → IssueSVID ca serial t p id ttl = Ok c →
  verifyPeerSPIFFE (TrustBundle ca) expect now [cert_Raw c] = Ok () ↔ in_validity t ttl now ∧ expect id = Ok ().
Proof. intros Hca%NewCA_ok. by apply issued_accepted. Qed.

(** What a successful request says about the caller and the identity. *)
Lemma RequestSVID_Ok svc serial now token csrDer name role resp :
  RequestSVID svc serial now token csrDer name role = Ok resp →
  token = is_joinToken svc ∧ name ≠ "" ∧
  (rs_DataEncryptionKey resp = if bool_decide (role = SVID_ROLE_CONTROL_PLANE) then Some (is_dataEncryptionKey svc) else None) ∧
  ∃ path, role_path role name = Some path ∧ cert_ID (rs_Cert resp) = Ok (MkID (ca_trustDomain (is_ca svc)) path) ∧
    ∀ r v, Allow default_authorizer path r v =
      match role with
      | SVID_ROLE_NODE => rules_allow node_rules r v
      | SVID_ROLE_CLIENT => rules_allow client_rules r v
      | _ => true
      end.
Proof.
  unfold RequestSVID. case_bool_decide as Ht; [|done]. case_bool_decide as Hn; [done|]. simpl negb. cbv iota.
  intros (req & _ & H)%result_bind_Ok. apply result_bind_Ok in H as (u & _ & H).
  destruct (csr_ECDSA req) as [p|]; [|done]. destruct (role_path role name) as [path|] eqn:Hr; [|done].
  apply result_bind_Ok in H as (id & Hid & H). apply result_bind_Ok in H as (c & Hc & H). injection H as <-.
  apply status_result_Ok in Hid, Hc. split_and!; [done|done|done|]. exists path. split; [done|].
  destruct (IssueSVID_spec _ _ _ _ _ _ _ Hc) as (_ & _ & Hu & _). simpl. split.
  - unfold cert_ID. rewrite Hu, (FromURI_URL _ _ _ Hid). by rewrite (FromPath_Ok _ _ _ Hid).
  - intros r v. destruct role; simplify_eq/=; [apply default_allow_node|apply default_allow_control_plane|apply default_allow_client].
Qed.

(** The identity service gives an identity only to a caller with the join
    token, under the prefix of the role the caller asks for and the trust domain
    of the cluster; the key of the encrypted store goes with control-plane
    identities and with no others; and with the default bindings an identity may
    do what its role allows. *)
Theorem request_svid_policy svc serial now token csrDer name role resp :
  RequestSVID svc serial now token csrDer name role = Ok resp →
  token = is_joinToken svc ∧ name ≠ "" ∧
  (rs_DataEncryptionKey resp = if bool_decide (role = SVID_ROLE_CONTROL_PLANE) then Some (is_dataEncryptionKey svc) else None) ∧
  ∃ path, role_path role name = Some path ∧ cert_ID (rs_Cert resp) = Ok (MkID (ca_trustDomain (is_ca svc)) path) ∧
    ∀ r v, Allow default_authorizer path r v =
      match role with
      | SVID_ROLE_NODE => rules_allow node_rules r v
      | SVID_ROLE_CLIENT => rules_allow client_rules r v
      | _ => true
      end.
Proof. apply RequestSVID_Ok. Qed.

(** ** Rotation *)

Lemma rotate_window t ttl now :
  2 * Second ≤ effective_ttl ttl → t ≤ now ≤ t + rotate_period ttl → in_validity t ttl now.
Proof.
  unfold rotate_period, in_validity, effective_ttl. set (e := if ttl <=? 0 then _ else _). intros He Hn.
  pose proof (Z.div_mod e 2 ltac:(lia)). pose proof (Z.mod_pos_bound e 2 ltac:(lia)).
  unfold Minute, Second in *. Z.to_euclidean_division_equations. lia.
Qed.

Section Loop.
Context (ca : CA) (path : string) (id : ID) (ttl t0 : Z) (s0 : SVID).
Context (gen : nat → result priv) (serial : nat → result Z).
Context (Hca : ca_ok ca) (Hid : spiffeid_FromPath (ca_trustDomain ca) path = Ok id).

(** The time of the [k]-th tick. *)
Definition tick_time (k : nat) : Z := t0 + Z.of_nat k * rotate_period ttl.

(** Nothing fails: keys, serial numbers and certificates are always made. *)
Definition no_failures : Prop :=
  (∀ k, ∃ key, gen k = Ok key) ∧ (∀ k, ∃ n, serial k = Ok n) ∧
  (∀ t p, ∃ d, x509_CreateCertificate t (ca_cert ca) p (ca_key ca) = Ok d).

Lemma IssueSVID_total k t p ttl' : no_failures → ∃ c, IssueSVID ca (serial k) t p id ttl' = Ok c.
Proof.
  intros (_ & Hn & Hd). unfold IssueSVID, MemberOf. rewrite (FromPath_Ok _ _ _ Hid). simpl.
  rewrite bool_decide_eq_true_2 by done. simpl. destruct (Hn k) as [n ->]. simpl.
  set (tm := MkTemplate _ _ _ _ _ _). destruct (Hd tm p) as [d Hd']. rewrite Hd'. simpl.
  destruct (parse_create _ _ _ _ _ Hd') as (c & -> & _). eauto.
Qed.

Lemma effective_idem : effective_ttl (effective_ttl ttl) = effective_ttl ttl.
Proof.
  unfold effective_ttl. destruct (Z.leb_spec ttl 0); [done|]. by rewrite (proj2 (Z.leb_gt _ _)).
Qed.

Lemma loop_current (k : nat) :
  no_failures → (∃ n p, IssueSVID ca n t0 p id ttl = Ok (sv_cert s0)) →
  ∃ n p, IssueSVID ca n (tick_time k) p id (effective_ttl ttl) = Ok (sv_cert (self_issue_loop ca path ttl gen serial t0 s0 k)).
Proof.
  intros Hno (n & p & H0). destruct k as [|k].
  - exists n, p. unfold tick_time. rewrite Z.mul_0_l, Z.add_0_r. simpl. rewrite <- H0. unfold IssueSVID.
    fold (effective_ttl ttl) (effective_ttl (effective_ttl ttl)). by rewrite effective_idem.
  - destruct Hno as [Hg Hno]. destruct (Hg (S k)) as [key Hkey].
    destruct (IssueSVID_total (S k) (tick_time (S k)) (public_of key) (effective_ttl ttl) (conj Hg Hno)) as [c Hc].
    exists (serial (S k)), (public_of key). cbn [self_issue_loop]. fold (tick_time (S k)) (effective_ttl ttl).
    unfold self_issue_tick. by rewrite Hkey, Hid, Hc.
Qed.

(** C14: While keys and certificates can be made, the identity of an API server
    never runs out: at every moment between two ticks of the rotation loop (and
    for lifetimes of two seconds or more), peers that trust the authority accept
    the current certificate. *)
Theorem rotation_keeps_identity_valid (k : nat) expect now :
  no_failures → (∃ n p, IssueSVID ca n t0 p id ttl = Ok (sv_cert s0)) →
  2 * Second ≤ effective_ttl ttl → ca_valid ca now → expect id = Ok () →
  tick_time k ≤ now ≤ tick_time (S k) →
  verifyPeerSPIFFE (TrustBundle ca) expect now [cert_Raw (sv_cert (self_issue_loop ca path ttl gen serial t0 s0 k))] = Ok ().
Proof.
  intros Hno H0 Httl Hv He Hnow. destruct (loop_current k Hno H0) as (n & p & Hc).
  apply (issued_accepted _ _ _ _ _ _ _ _ expect now Hca Hv Hid Hc). split; [|done].
  unfold in_validity. rewrite effective_idem. fold (in_validity (tick_time k) ttl now). apply rotate_window; [done|].
  unfold tick_time in *. lia.
Qed.
End Loop.

(** ** Restarting *)

Context {BC : BootstrapCodec} {E : Type} {O : OS E} {L : OSLaws E}.

Lemma bootstrap_text ca keyDER dek :
  spiffeid_TrustDomain (ca_trustDomain ca) = Ok (ca_trustDomain ca) → boot_text (bootstrap_of ca keyDER dek).
Proof.
  intros Htd. unfold boot_text. rewrite !andb_True. split_and!; simpl;
    [by eapply TrustDomain_ascii|by apply pem_ascii..].
Qed.

Lemma save_load path ca dek s s' :
  spiffeid_TrustDomain (ca_trustDomain ca) = Ok (ca_trustDomain ca) →
  SaveBootstrapState path ca dek s = (Ok (), s') → LoadBootstrapState path s' = (inr (Ok (ca, dek)), s').
Proof.
  intros Htd. unfold SaveBootstrapState, LoadBootstrapState.
  destruct (ec_Marshal (ca_key ca)) as [keyDER| |] eqn:Hk; [|done..].
  destruct (boot_Marshal _) as [raw| |] eqn:Hm; [|done..].
  destruct (os_WriteFile path raw s) as [[e|[]] s1] eqn:Hw; [done|]. intros [= ->].
  rewrite (os_write_read _ _ _ _ Hw). unfold parse_bootstrap. rewrite (boot_roundtrip _ _ (bootstrap_text _ _ _ Htd) Hm). cbn.
  rewrite Htd. cbn. rewrite !pem_roundtrip, (ec_roundtrip _ _ Hk). cbn. rewrite parse_raw. by destruct ca.
Qed.

Lemma NewCA_domain gen serial now td ca :
  NewCA gen serial now td = Ok ca → spiffeid_TrustDomain (ca_trustDomain ca) = Ok (ca_trustDomain ca).
Proof.
  unfold NewCA. intros (td' & Htd & H)%result_bind_Ok. apply result_bind_Ok in H as (key & _ & H).
  apply result_bind_Ok in H as (n & _ & H). cbn zeta in H. apply result_bind_Ok in H as (d & _ & H).
  apply result_bind_Ok in H as (c & _ & H). injection H as <-. simpl.
  apply wrap_result_Ok in Htd. by eapply TrustDomain_idem.
Qed.

Lemma self_issue_Ok gen serial now nodeID ca0 dek0 svid ca dek :
  self_issue gen serial now nodeID ca0 dek0 = Ok (svid, ca, dek) → ca0 = ca ∧ dek0 = dek.
Proof.
  unfold self_issue. intros (key & _ & H)%result_bind_Ok.
  apply result_bind_Ok in H as (id & _ & H). apply result_bind_Ok in H as (c & _ & H). by simplify_eq.
Qed.

Lemma bootstrap_loads genCA gen serialCA serial random now td nodeID dataDir s svid ca dek s' :
  bootstrapIdentity genCA gen serialCA serial random now td nodeID dataDir s = (Ok (svid, ca, dek), s') →
  LoadBootstrapState (BootstrapStatePath dataDir) s' = (inr (Ok (ca, dek)), s').
Proof.
  unfold bootstrapIdentity. cbn zeta. destruct (LoadBootstrapState _ s) as [[e|[[ca1 dek1]| |]] s1] eqn:Hl.
  - destruct (os_IsNotExist e); simpl; [|done].
    destruct (NewCA genCA serialCA now td) as [ca1| |] eqn:Hca; [|done..]. destruct random as [dek1| |]; [|done..].
    destruct (os_MkdirAll dataDir s1) as [[?|?] s2]; [done|].
    destruct (SaveBootstrapState _ ca1 dek1 s2) as [[[]| |] s3] eqn:Hsave; [|done..].
    intros [= H <-]. apply self_issue_Ok in H as [-> ->]. eapply save_load; [by eapply NewCA_domain|done].
  - intros [= H <-]. apply self_issue_Ok in H as [-> ->]. unfold LoadBootstrapState in *.
    destruct (os_ReadFile _ s) as [[?|raw] s2] eqn:Hr; [done|]. pose proof (os_read_pure _ _ _ _ Hr) as ->.
    injection Hl as Hp ->. by rewrite Hr, Hp.
  - done.
  - done.
Qed.

(** A control plane that is bootstrapped again on the same data directory is
    the same one: it has the authority and the data key of the first start,
    whatever the random source gives now, and does not touch the file. *)
Theorem bootstrap_identity_persists genCA gen serialCA serial random now td nodeID dataDir s svid ca dek s'
    genCA' gen' serialCA' serial' random' now' td' nodeID' svid' ca' dek' s'' :
  bootstrapIdentity genCA gen serialCA serial random now td nodeID dataDir s = (Ok (svid, ca, dek), s') →
  bootstrapIdentity genCA' gen' serialCA' serial' random' now' td' nodeID' dataDir s' = (Ok (svid', ca', dek'), s'') →
  ca' = ca ∧ dek' = dek ∧ s'' = s'.
Proof.
  intros H1%bootstrap_loads H2. unfold bootstrapIdentity in H2. rewrite H1 in H2. injection H2 as H2 <-.
  by apply self_issue_Ok in H2 as [-> ->].
Qed.

End Correct.

(** cmd/nimbus-apiserver: loadOrBootstrapIdentity.  Without -bootstrap the node
    enrols with the cluster it joins, and has no authority of its own. *)
Definition loadOrBootstrapIdentity {X : X509} {SP : Spiffe} {SI : SpiffeIDs} {BC : BootstrapCodec} {E} {O : OS E}
    (bootstrap : bool) (request : string → der → string → SVIDRole → result RequestSVIDResponse)
    (genCA gen : result priv) (serialCA serial : result Z) (random : result bytes) (now : Z)
    (trustDomain nodeID joinToken dataDir : string) (s : E) : result (SVID * option CA * option bytes) * E :=
  if negb bootstrap then
    (match Enroll gen request joinToken nodeID SVID_ROLE_CONTROL_PLANE with
     | Ok (svid, dek) => Ok (svid, None, dek)
     | Err e => Err e
     | Panic => Panic
     end, s)
  else
    match bootstrapIdentity genCA gen serialCA serial random now trustDomain nodeID dataDir s with
    | (Ok (svid, ca, dek), s) => (Ok (svid, Some ca, Some dek), s)
    | (Err e, s) => (Err e, s)
    | (Panic, s) => (Panic, s)
    end.

(** ** Witnesses *)

(** Values of a countable type as text, for stand-ins of encodings. *)
Module Bits.

Fixpoint print (p : positive) : string :=
  match p with
  | xH => ""
  | xO p => String "0"%char (print p)
  | xI p => String "1"%char (print p)
  end.

Fixpoint parse (s : string) : option positive :=
  match s with
  | EmptyString => Some xH
  | String c s => if Ascii.eqb c "0"%char then xO <$> parse s else xI <$> parse s
  end.

Lemma print_ascii p : ascii_text (print p).
Proof. unfold ascii_text. induction p; done. Qed.

Lemma parse_print p : parse (print p) = Some p.
Proof. induction p as [p IH|p IH|]; simpl; rewrite ?IH; done. Qed.

Definition to_text `{Countable A} (a : A) : string := print (encode a).
Definition of_text `{Countable A} (s : string) : option A := p ← parse s; decode p.

Lemma of_to_text `{Countable A} (a : A) : of_text (to_text a) = Some a.
Proof. unfold of_text, to_text. rewrite parse_print. simpl. apply decode_encode. Qed.

End Bits.

Module IdentityDemo.

(** Keys are numbers, a certificate is its fields, its key and its signer. *)
Abbreviation toy_cert := ((Z * string * list string * Z * Z * bool) * nat * nat)%type.
Abbreviation toy_der := (toy_cert + nat)%type.

Definition toy_fields (c : toy_cert) : template :=
  let '((n, cn, uris, nb, na, isca), _, _) := c in MkTemplate n cn uris nb na isca.
Definition toy_make (t : template) (p signer : nat) : toy_cert :=
  ((tm_Serial t, tm_CommonName t, tm_URIs t, tm_NotBefore t / Second * Second, tm_NotAfter t / Second * Second, tm_IsCA t),
   p, signer).
Definition toy_in (c : toy_cert) (now : Z) : bool :=
  (tm_NotBefore (toy_fields c) <=? now) && (now <=? tm_NotAfter (toy_fields c)).

#[export] Instance toy_x509 : X509 := {|
  priv := nat;
  pub := nat;
  public_of k := k;
  der := toy_der;
  cert := toy_cert;
  cert_fields := toy_fields;
  cert_pub c := c.1.2;
  cert_Raw := inl;
  x509_CreateCertificate t _ p k := Ok (inl (toy_make t p k));
  x509_SelfSign t k := Ok (inl (toy_make t k k));
  x509_ParseCertificate d := match d with inl c => Ok c | inr _ => Err (Errorf "not a certificate") end;
  x509_Verify roots _ now c :=
    if existsb (λ r : toy_cert, bool_decide (r.1.2 = c.2) && tm_IsCA (toy_fields r) && toy_in r now) roots && toy_in c now
    then Ok () else Err (Errorf "unknown authority");
  csr := nat;
  csr_Parse d := match d with inr k => Ok k | inl _ => Err (Errorf "not a request") end;
  csr_CheckSignature _ := Ok ();
  csr_ECDSA k := Some k;
  csr_Create _ k := Ok (inr k);
  ec_Marshal k := Ok (inr k);
  ec_Parse d := match d with inr k => Ok k | inl _ => Err (Errorf "not a key") end;
  pem_Encode _ d := Bits.to_text d;
  pem_Decode s := Bits.of_text s;
|}.

#[export] Program Instance toy_x509_laws : X509Laws := {| signed_by c ca := (c : toy_cert).2 = (ca : toy_cert).1.2 |}.
Next Obligation. intros t parent p k d [= <-]. exists (toy_make t p k). split_and!; try done. Qed.
Next Obligation. intros t k d [= <-]. exists (toy_make t k k). by split_and!. Qed.
Next Obligation.
  intros roots ints now c ca Hin Hca Hs Hv. cbn.
  assert (existsb (λ r : toy_cert, bool_decide (r.1.2 = c.2) && tm_IsCA (toy_fields r) && toy_in r now) roots = true) as ->.
  { apply existsb_exists. exists ca. split; [by apply list_elem_of_In|].
    rewrite bool_decide_eq_true_2 by done. cbn in Hca. rewrite Hca. simpl. unfold toy_in.
    apply andb_true_intro. split; apply Z.leb_le; apply Hv. }
  simpl. unfold toy_in. rewrite <- !Z.leb_le, <- andb_true_iff. by destruct (_ && _).
Qed.
Next Obligation. done. Qed.
Next Obligation. by intros k d [= <-]. Qed.
Next Obligation. intros ty d. apply Bits.of_to_text. Qed.
Next Obligation. intros ty d _. apply Bits.print_ascii. Qed.

#[export] Instance demo_spiffe : Spiffe :=
  {| spiffeid_FromURI u := match Cut "#"%char u with Some (td, p) => Ok (MkID td p) | None => Err (Errorf "not an ID") end |}.

#[export] Program Instance demo_ids : SpiffeIDs := {|
  spiffeid_FromPath td path := if contains_char "#"%char td then Err (Errorf "bad trust domain") else Ok (MkID td path);
  spiffeid_URL id := id_TrustDomain id +:+ "#" +:+ id_Path id;
  spiffeid_TrustDomain s := if ascii_text s then Ok s else Err (Errorf "bad trust domain");
|}.
Next Obligation. intros td path id. cbn. by destruct (contains_char _ td); intros; simplify_eq. Qed.
Next Obligation.
  intros td path id. cbn. destruct (contains_char _ td) eqn:H; [done|]. intros [= <-]. simpl.
  rewrite (proj2 (Cut_Some "#"%char _ td path)); done.
Qed.
Next Obligation. intros s td. cbn. destruct (ascii_text s) eqn:H; [|done]. intros [= <-]. by rewrite H. Qed.
Next Obligation. intros s td. cbn. destruct (ascii_text s) eqn:H; [|done]. intros [= <-]. by rewrite H. Qed.

Definition boot_tuple (b : persistedBootstrap) := (pb_TrustDomain b, pb_CAKeyPEM b, pb_CACertPEM b, String.string_of_list_byte (pb_DEK b)).
#[export] Program Instance demo_boot : BootstrapCodec := {|
  boot_Marshal b := Ok (String.list_byte_of_string (Bits.to_text (boot_tuple b)));
  boot_Unmarshal raw :=
    match (Bits.of_text (String.string_of_list_byte raw) : option (string * string * string * string)) with
    | Some (td, k, c, d) => Ok (MkBootstrap td k c (String.list_byte_of_string d))
    | None => Err (Errorf "invalid state")
    end;
|}.
Next Obligation.
  intros [td k c d] b _ [= <-]. cbn. rewrite String.string_of_list_byte_of_string.
  rewrite Bits.of_to_text. simpl. by rewrite String.list_byte_of_string_of_list_byte.
Qed.

Definition day : Z := 24 * 60 * Minute.
Definition ca0 : CA := MkCA "cluster" (toy_make (MkTemplate 1 "NimbusCore CA - cluster" [] (100 * day - 5 * Minute)
  (100 * day + 10 * 365 * 24 * 60 * Minute) true) 7%nat 7%nat) 7%nat.
Definition id0 : ID := MkID "cluster" "/control-plane/cp-1".
Definition cert0 : cert := toy_make (MkTemplate 2 "" ["cluster#/control-plane/cp-1"] (100 * day - Minute) (100 * day + 60 * Minute) false) 9%nat 7%nat.

Lemma svid_validity_witness :
  NewCA (Ok 7%nat) (Ok 1) (100 * day) "cluster" = Ok ca0 ∧
  ∃ c, IssueSVID ca0 (Ok 2) (100 * day) 9%nat id0 0 = Ok c ∧
    verifyPeerSPIFFE (TrustBundle ca0) (λ _, Ok ()) (100 * day + Minute) [cert_Raw c] = Ok ().
Proof.
  split; [reflexivity|]. eexists. split; [reflexivity|].
  refine (proj2 (svid_validity (Ok 7%nat) (Ok 1) (100 * day) "cluster" ca0 (Ok 2) (100 * day) 9%nat "/control-plane/cp-1" id0 0 _
    (λ _, Ok ()) (100 * day + Minute) _ _ _ _) _).
  - reflexivity.
  - split; done.
  - reflexivity.
  - reflexivity.
  - split; [split; done|reflexivity].
Defined.

Definition svc0 : identityService := MkIdentityService ca0 "token" 0 [Byte.x01].

Lemma request_svid_policy_witness :
  ∃ resp, RequestSVID svc0 (Ok 3) (100 * day) "token" (inr 9%nat) "n1" SVID_ROLE_NODE = Ok resp ∧
    rs_DataEncryptionKey resp = None.
Proof.
  eexists. split; [reflexivity|].
  refine (proj1 (proj2 (proj2 (request_svid_policy svc0 (Ok 3) (100 * day) "token" (inr 9%nat) "n1" SVID_ROLE_NODE _ _)))).
  reflexivity.
Defined.

Definition svid0 : SVID := NewSVID (9%nat : priv) (toy_make (MkTemplate 2 "cluster#/control-plane/cp-1" ["cluster#/control-plane/cp-1"]
  (100 * day - Minute) (100 * day + 60 * Minute) false) 9%nat 7%nat) (TrustBundle ca0).

Lemma rotation_keeps_identity_valid_witness :
  verifyPeerSPIFFE (TrustBundle ca0) (λ _, Ok ()) (100 * day + 100 * Minute)
    [cert_Raw (sv_cert (self_issue_loop ca0 "/control-plane/cp-1" 0 (λ k, Ok (10 + k)%nat) (λ k, Ok 5) (100 * day) svid0 3))] = Ok ().
Proof.
  apply (rotation_keeps_identity_valid ca0 "/control-plane/cp-1" id0 0 (100 * day) svid0 (λ k, Ok (10 + k)%nat) (λ k, Ok 5)
    ltac:(split; reflexivity) ltac:(reflexivity) 3 (λ _, Ok ()) (100 * day + 100 * Minute)).
  - split_and!; intros; eexists; reflexivity.
  - exists (Ok 2), 9%nat. reflexivity.
  - done.
  - split; done.
  - reflexivity.
  - split; done.
Defined.

Import MemFs.
Definition boot (n : nat) (s : fs) := bootstrapIdentity (Ok n) (Ok (n + 1)%nat) (Ok 1) (Ok 2) (Ok [Byte.x05]) (100 * day) "cluster" "cp-1" "/data" s.

Lemma boot_ok (r : result (SVID * CA * bytes)) :
  match r with Ok _ => true | _ => false end = true → ∃ svid ca dek, r = Ok (svid, ca, dek).
Proof. destruct r as [[[svid ca] dek]| |]; [|done..]. by exists svid, ca, dek. Qed.

Lemma bootstrap_identity_persists_witness :
  ∃ svid svid' ca dek s', boot 1 ∅ = (Ok (svid, ca, dek), s') ∧ boot 50 s' = (Ok (svid', ca, dek), s').
Proof.
  destruct (boot_ok (boot 1 ∅).1) as (svid & ca & dek & H1); [vm_compute; reflexivity|].
  destruct (boot_ok (boot 50 (boot 1 ∅).2).1) as (svid' & ca' & dek' & H2); [vm_compute; reflexivity|].
  apply run_result in H1, H2. remember (boot 1 ∅).2 as s1. remember (boot 50 s1).2 as s2. clear Heqs1 Heqs2.
  exists svid, svid', ca, dek, s1. unfold boot in *.
  destruct (bootstrap_identity_persists _ _ _ _ _ _ _ _ _ _ _ _ _ _ _ _ _ _ _ _ _ _ _ _ _ _ H1 H2) as (Hca & Hdek & Hs).
  split; [exact H1|]. rewrite H2, Hca, Hdek, Hs. reflexivity.
Defined.

End IdentityDemo.
