(* ===== verification/Imagesign.v ===== *)
(** * Imagesign: signed images and the trust file

    internal/imagesign/imagesign.go, the commands generate-key and sign-image of
    cmd/nimbusctl/imagesign.go, and loadImageVerifier of
    cmd/nimbus-apiserver/main.go.  The digest, the ECDSA signatures and the
    encodings of keys are the parameter [Ecdsa]; JSON on the trust file is
    [TrustCodec]; base64 is that of Base64.v. *)

From stdpp Require Import gmap strings list.
From Stdlib Require Import Ascii ZArith Lia.
From S2P Require Import Prelude Api Codec Store Registry Cluster Scheduler Admission Rbac Services System Text Path Http Base64 Identity.

Local Open Scope Z_scope.

(** crypto/ecdsa, crypto/sha256 and crypto/x509 beyond [X509]. *)
Class Ecdsa {X : X509} := {
  sha256 : string → bytes;
  (** a signature, from what the random source gives *)
  ecdsa_SignASN1 : Z → priv → bytes → result bytes;
  ecdsa_VerifyASN1 : pub → bytes → bytes → bool;
  x509_MarshalPKIX : pub → result der;
  (** [None]: the key is not an ECDSA key *)
  x509_ParsePKIX : der → result (option pub);
}.

Class EcdsaLaws {X : X509} {EC : Ecdsa} : Prop := {
  sign_verify : ∀ r k d sig, ecdsa_SignASN1 r k d = Ok sig → ecdsa_VerifyASN1 (public_of k) d sig = true;
  pkix_roundtrip : ∀ p d, x509_MarshalPKIX p = Ok d → x509_ParsePKIX d = Ok (Some p);
}.

(** The map of a trust file; [None] is the nil map. *)
Record TrustFile := MkTrustFile { tf_Signatures : option (gmap string string) }.

Definition trust_text (m : gmap string string) : Prop :=
  map_Forall (λ k v, ascii_text k ∧ ascii_text v) m.

(** encoding/json on [TrustFile]. *)
Class TrustCodec := {
  trust_Marshal : TrustFile → result bytes;
  trust_Unmarshal : bytes → result TrustFile;
  trust_roundtrip : ∀ m b, trust_text m → trust_Marshal (MkTrustFile (Some m)) = Ok b →
    trust_Unmarshal b = Ok (MkTrustFile (Some m));
}.

Section Imagesign.
Context {X : X509} {EC : Ecdsa} {TC : TrustCodec} {E : Type} {O : OS E}.

(** ** Keys and signatures *)

Definition Sign (random : Z) (key : priv) (imageRef : string) : result bytes :=
  ecdsa_SignASN1 random key (sha256 imageRef).

Definition Verify (p : pub) (imageRef : string) (sig : bytes) : result unit :=
  if negb (ecdsa_VerifyASN1 p (sha256 imageRef) sig) then Err (Errorf "imagesign: signature verification failed")
  else Ok ().

Definition pem_bytes (ty : string) (d : der) : bytes := String.list_byte_of_string (pem_Encode ty d).

Definition MarshalPublicKey (p : pub) : result bytes :=
  d ← wrap_result "imagesign: marshal public key" (x509_MarshalPKIX p);
  Ok (pem_bytes "PUBLIC KEY" d).

Definition MarshalPrivateKey (key : priv) : result bytes :=
  d ← wrap_result "imagesign: marshal private key" (ec_Marshal key);
  Ok (pem_bytes "EC PRIVATE KEY" d).

Definition ParsePublicKey (pemBytes : bytes) : result pub :=
  match pem_Decode (String.string_of_list_byte pemBytes) with
  | None => Err (Errorf "imagesign: no PEM block found")
  | Some d =>
    p ← wrap_result "imagesign: parse public key" (x509_ParsePKIX d);
    match p with
    | None => Err (Errorf "imagesign: key is not ECDSA")
    | Some p => Ok p
    end
  end.

Definition ParsePrivateKey (pemBytes : bytes) : result priv :=
  match pem_Decode (String.string_of_list_byte pemBytes) with
  | None => Err (Errorf "imagesign: no PEM block found")
  | Some d => ec_Parse d
  end.

(** ** The trust file *)

Definition LoadTrustFile (path : string) (s : E) : result TrustFile * E :=
  match os_ReadFile path s with
  | (inl e, s) =>
    if os_IsNotExist e then (Ok (MkTrustFile (Some ∅)), s)
    else (Err (Wrapf "imagesign: read trust file" e), s)
  | (inr b, s) =>
    (tf ← wrap_result "imagesign: parse trust file" (trust_Unmarshal b);
     Ok (match tf_Signatures tf with None => MkTrustFile (Some ∅) | Some _ => tf end), s)
  end.

Definition Save (tf : TrustFile) (path : string) (s : E) : result unit * E :=
  match trust_Marshal tf with
  | Panic => (Panic, s)
  | Err e => (Err (Wrapf "imagesign: marshal trust file" e), s)
  | Ok b => match os_WriteFile path b s with
            | (inl e, s) => (Err e, s)
            | (inr _, s) => (Ok (), s)
            end
  end.

(** Writing to the nil map panics. *)
Definition Add (imageRef : string) (sig : bytes) (tf : TrustFile) : result TrustFile :=
  match tf_Signatures tf with
  | None => Panic
  | Some m => Ok (MkTrustFile (Some (<[imageRef := EncodeToString StdEncoding sig]> m)))
  end.

(** ** The verifier of the admission chain *)

Record KeyVerifier := NewKeyVerifier { kv_pub : pub; kv_tf : TrustFile }.

Definition KeyVerifier_Verify (v : KeyVerifier) (imageRef : string) : result unit :=
  match tf_Signatures (kv_tf v) ≫= (.!! imageRef) with
  | None => Err (Errorf "imagesign: no signature on file for image")
  | Some encoded =>
    match DecodeString StdEncoding encoded with
    | None => Err (Errorf "imagesign: decode signature")
    | Some sig => Verify (kv_pub v) imageRef sig
    end
  end.

(** main.go: the verifier the API server runs with. *)
Inductive ImageVerifier :=
  | allowAllVerifier
  | TrustVerifier (v : KeyVerifier).

Definition ImageVerifier_Verify (v : ImageVerifier) (imageRef : string) : result unit :=
  match v with
  | allowAllVerifier => Ok ()
  | TrustVerifier v => KeyVerifier_Verify v imageRef
  end.

(** loadImageVerifier; an error ends the process ([log.Fatal]). *)
Definition loadImageVerifier (trustFile pubKeyFile : string) (insecureSkip : bool) (s : E)
    : result (ImageVerifier * option pub) * E :=
  if insecureSkip then (Ok (allowAllVerifier, None), s)
  else if bool_decide (pubKeyFile = "") || bool_decide (trustFile = "")
  then (Err (Errorf "apiserver: -image-signing-pubkey and -image-trust-file are required"), s)
  else
  match os_ReadFile pubKeyFile s with
  | (inl e, s) => (Err (Wrapf "apiserver: read image signing public key" e), s)
  | (inr pubPEM, s) =>
    match ParsePublicKey pubPEM with
    | Panic => (Panic, s)
    | Err e => (Err (Wrapf "apiserver: parse image signing public key" e), s)
    | Ok p =>
      let '(r, s) := LoadTrustFile trustFile s in
      (tf ← wrap_result "apiserver: load image trust file" r;
       Ok (TrustVerifier (NewKeyVerifier p tf), Some p), s)
    end
  end.

(** ** nimbusctl *)

Definition privPath (outDir : string) : string := path_Join [outDir; "image-signing-key.pem"].
Definition pubPath (outDir : string) : string := path_Join [outDir; "image-signing-key.pub.pem"].

(** generate-key; [gen] is the key the random source gives. *)
Definition generate_key (gen : result priv) (outDir : string) (s : E) : result unit * E :=
  match (key ← gen; privPEM ← MarshalPrivateKey key; pubPEM ← MarshalPublicKey (public_of key); Ok (privPEM, pubPEM)) with
  | Panic => (Panic, s)
  | Err e => (Err e, s)
  | Ok (privPEM, pubPEM) =>
    match os_MkdirAll outDir s with
    | (inl e, s) => (Err e, s)
    | (inr _, s) =>
      match os_WriteFile (privPath outDir) privPEM s with
      | (inl e, s) => (Err e, s)
      | (inr _, s) =>
        match os_WriteFile (pubPath outDir) pubPEM s with
        | (inl e, s) => (Err e, s)
        | (inr _, s) => (Ok (), s)
        end
      end
    end
  end.

(** sign-image. *)
Definition sign_image (random : Z) (keyFile trustFile imageRef : string) (s : E) : result unit * E :=
  match os_ReadFile keyFile s with
  | (inl e, s) => (Err (Wrapf "read key file" e), s)
  | (inr keyPEM, s) =>
    match (key ← wrap_result "parse key file" (ParsePrivateKey keyPEM);
           wrap_result "sign image" (Sign random key imageRef)) with
    | Panic => (Panic, s)
    | Err e => (Err e, s)
    | Ok sig =>
      match LoadTrustFile trustFile s with
      | (Panic, s) => (Panic, s)
      | (Err e, s) => (Err (Wrapf "load trust file" e), s)
      | (Ok tf, s) =>
        match Add imageRef sig tf with
        | Panic => (Panic, s)
        | Err e => (Err e, s)
        | Ok tf => match Save tf trustFile s with
                   | (Err e, s) => (Err (Wrapf "save trust file" e), s)
                   | r => r
                   end
        end
      end
    end
  end.

End Imagesign.

(** ** Signing and verifying *)

Section Correct.
Context {X : X509} {XL : X509Laws} {EC : Ecdsa} {EL : EcdsaLaws} {TC : TrustCodec}.

Lemma Verify_Sign r key ref sig : Sign r key ref = Ok sig → Verify (public_of key) ref sig = Ok ().
Proof. intros H. unfold Verify. by rewrite (sign_verify _ _ _ _ H). Qed.

(** A reference is signed for a key in a trust file. *)
Definition signed_in (p : pub) (m : gmap string string) (ref : string) : Prop :=
  ∃ encoded sig, m !! ref = Some encoded ∧ DecodeString StdEncoding encoded = Some sig ∧
    ecdsa_VerifyASN1 p (sha256 ref) sig = true.

Lemma KeyVerifier_Verify_spec p m ref :
  KeyVerifier_Verify (NewKeyVerifier p (MkTrustFile (Some m))) ref = Ok () ↔ signed_in p m ref.
Proof.
  unfold KeyVerifier_Verify, signed_in, Verify. simpl. destruct (m !! ref) as [encoded|]; [|by split; [|intros (? & ? & ? & _)]].
  destruct (DecodeString StdEncoding encoded) as [sig|] eqn:Hd; [|by split; [|intros (? & ? & [= <-] & ? & _); congruence]].
  destruct (ecdsa_VerifyASN1 p (sha256 ref) sig) eqn:Hv; simpl; split; [eauto|done|done|].
  intros (? & ? & [= <-] & ? & ?). congruence.
Qed.

Lemma ParsePublicKey_Marshal p b : MarshalPublicKey p = Ok b → ParsePublicKey b = Ok p.
Proof.
  unfold MarshalPublicKey, ParsePublicKey. intros (d & Hd & [= <-])%result_bind_Ok.
  unfold pem_bytes. rewrite String.string_of_list_byte_of_string, pem_roundtrip.
  apply wrap_result_Ok in Hd. by rewrite (pkix_roundtrip _ _ Hd).
Qed.

Lemma ParsePrivateKey_Marshal key b : MarshalPrivateKey key = Ok b → ParsePrivateKey b = Ok key.
Proof.
  unfold MarshalPrivateKey, ParsePrivateKey. intros (d & Hd & [= <-])%result_bind_Ok.
  unfold pem_bytes. rewrite String.string_of_list_byte_of_string, pem_roundtrip.
  apply wrap_result_Ok in Hd. by rewrite (ec_roundtrip _ _ Hd).
Qed.

Context {E : Type} {O : OS E} {L : OSLaws E} {F : OSFrame E}.

(** A loaded trust file has a map, and loading changes nothing. *)
Lemma LoadTrustFile_Ok path s tf s' :
  LoadTrustFile path s = (Ok tf, s') → s' = s ∧ ∃ m, tf = MkTrustFile (Some m).
Proof.
  unfold LoadTrustFile. destruct (os_ReadFile path s) as [[e|b] s1] eqn:Hr;
    pose proof (os_read_pure _ _ _ _ Hr) as ->.
  - destruct (os_IsNotExist e); [|done]. intros [= <- <-]. eauto.
  - intros [= H <-]. split; [done|]. apply result_bind_Ok in H as (tf0 & _ & H).
    destruct tf0 as [[m|]]; simplify_eq; eauto.
Qed.

Lemma Load_Save m path s s' :
  trust_text m → Save (MkTrustFile (Some m)) path s = (Ok (), s') →
  LoadTrustFile path s' = (Ok (MkTrustFile (Some m)), s') ∧ ∃ b, os_WriteFile path b s = (inr (), s').
Proof.
  intros Hm. unfold Save. destruct (trust_Marshal _) as [b| |] eqn:Hb; [|done..].
  destruct (os_WriteFile path b s) as [[e|[]] s1] eqn:Hw; [done|]. intros [= ->].
  split; [|eauto]. unfold LoadTrustFile. rewrite (os_write_read _ _ _ _ Hw), (trust_roundtrip _ _ Hm Hb). done.
Qed.

(** What sign-image does to the trust file. *)
Lemma sign_image_Ok r keyFile trustFile ref m s s' :
  sign_image r keyFile trustFile ref s = (Ok (), s') →
  ascii_text ref → LoadTrustFile trustFile s = (Ok (MkTrustFile (Some m)), s) → trust_text m →
  ∃ keyPEM key sig, os_ReadFile keyFile s = (inr keyPEM, s) ∧ ParsePrivateKey keyPEM = Ok key ∧ Sign r key ref = Ok sig ∧
    LoadTrustFile trustFile s' = (Ok (MkTrustFile (Some (<[ref := EncodeToString StdEncoding sig]> m))), s') ∧
    ∃ b, os_WriteFile trustFile b s = (inr (), s').
Proof.
  unfold sign_image. intros H Href Hl Hm.
  destruct (os_ReadFile keyFile s) as [[e|keyPEM] s1] eqn:Hr; [done|]. pose proof (os_read_pure _ _ _ _ Hr) as ->.
  destruct (_ ≫= _) as [sig| |] eqn:Hsig in H; [|done..]. rewrite Hl in H. cbn [Add tf_Signatures] in H.
  apply result_bind_Ok in Hsig as (key & Hk%wrap_result_Ok & Hsig%wrap_result_Ok).
  set (m' := <[ref := _]> m) in *.
  assert (trust_text m') as Hm'.
  { apply map_Forall_insert_2; [|done]. split; [done|]. by apply EncodeToString_ascii. }
  destruct (Save _ trustFile s) as [[[]| |] s1] eqn:Hs; [|done..]. injection H as ->.
  destruct (Load_Save _ _ _ _ Hm' Hs) as [? ?]. by exists keyPEM, key, sig.
Qed.

Lemma key_paths outDir : outDir ≠ "" → components (privPath outDir) ≠ components (pubPath outDir).
Proof.
  intros Hd. unfold privPath, pubPath. rewrite !components_Join by done.
  rewrite !(clean_from_plain _ _ (Split slash _)) by (repeat constructor; try done; by compute_done).
  intros H%(inj (components outDir ++.)). discriminate H.
Qed.

Lemma generate_key_Ok gen outDir s s' :
  IsAbs outDir → generate_key gen outDir s = (Ok (), s') →
  ∃ key privPEM pubPEM, gen = Ok key ∧ ParsePrivateKey privPEM = Ok key ∧ ParsePublicKey pubPEM = Ok (public_of key) ∧
    os_ReadFile (privPath outDir) s' = (inr privPEM, s') ∧ os_ReadFile (pubPath outDir) s' = (inr pubPEM, s').
Proof.
  intros Habs. unfold generate_key. assert (outDir ≠ "") as Hne by (by intros ->).
  destruct (_ ≫= _) as [[privPEM pubPEM]| |] eqn:Hk; [|done..].
  apply result_bind_Ok in Hk as (key & -> & Hk). apply result_bind_Ok in Hk as (pr & Hpr & Hk).
  apply result_bind_Ok in Hk as (pu & Hpu & [= <- <-]).
  destruct (os_MkdirAll outDir s) as [[?|?] s1]; [done|].
  destruct (os_WriteFile (privPath outDir) pr s1) as [[?|[]] s2] eqn:Hw1; [done|].
  destruct (os_WriteFile (pubPath outDir) pu s2) as [[?|[]] s3] eqn:Hw2; [done|]. intros [= <-].
  exists key, pr, pu. split_and!; [done|by apply ParsePrivateKey_Marshal|by apply ParsePublicKey_Marshal| |by eapply os_write_read].
  pose proof (os_write_frame _ (privPath outDir) _ _ _ _ Hw2) as Hf.
  rewrite (os_write_read _ _ _ _ Hw1) in Hf. unfold privPath, pubPath in Hf |- *. rewrite !IsAbs_Join in Hf by done.
  specialize (Hf Habs Habs (not_eq_sym (key_paths outDir Hne))).
  destruct (os_ReadFile _ s3) as [x s4] eqn:Hr. pose proof (os_read_pure _ _ _ _ Hr) as ->. by simpl in Hf; subst x.
Qed.

(** C16: signing makes an image trusted.  After generate-key and sign-image, an API
    server started with the public key and the trust file accepts the signed
    reference, and judges every other reference by what the trust file said of
    it before. *)
Theorem sign_image_trusted gen r outDir trustFile ref m s0 s1 s2 :
  IsAbs outDir → IsAbs trustFile → components trustFile ≠ components (pubPath outDir) → ascii_text ref →
  generate_key gen outDir s0 = (Ok (), s1) →
  LoadTrustFile trustFile s1 = (Ok (MkTrustFile (Some m)), s1) → trust_text m →
  sign_image r (privPath outDir) trustFile ref s1 = (Ok (), s2) →
  ∃ v p, loadImageVerifier trustFile (pubPath outDir) false s2 = (Ok (TrustVerifier v, Some p), s2) ∧
    KeyVerifier_Verify v ref = Ok () ∧
    ∀ ref', ref' ≠ ref → KeyVerifier_Verify v ref' = Ok () ↔ signed_in p m ref'.
Proof.
  intros Ha Ht Hne Href Hg Hl Hm Hs. assert (outDir ≠ "" ∧ trustFile ≠ "") as [Ho Htr] by (split; by intros ->).
  destruct (generate_key_Ok _ _ _ _ Ha Hg) as (key & prPEM & puPEM & _ & Hpr & Hpu & Hr1 & Hr2).
  destruct (sign_image_Ok _ _ _ _ _ _ _ Hs Href Hl Hm) as (keyPEM & key' & sig & Hr & Hk & Hsig & Hl2 & b & Hw).
  rewrite Hr1 in Hr. injection Hr as <-. rewrite Hpr in Hk. injection Hk as <-.
  pose proof (os_write_frame _ (pubPath outDir) _ _ _ _ Hw Ht) as Hf.
  unfold pubPath in Hf at 1. rewrite IsAbs_Join in Hf by done. specialize (Hf Ha Hne). rewrite Hr2 in Hf.
  destruct (os_ReadFile (pubPath outDir) s2) as [x s3] eqn:Hr3. pose proof (os_read_pure _ _ _ _ Hr3) as ->.
  simpl in Hf. subst x. eexists _, _. split_and!.
  - unfold loadImageVerifier. rewrite !bool_decide_eq_false_2 by (done || by apply path_Join_not_empty). simpl.
    rewrite Hr3, Hpu, Hl2. done.
  - apply KeyVerifier_Verify_spec. exists (EncodeToString StdEncoding sig), sig.
    rewrite lookup_insert_eq, StdEncoding_roundtrip. split_and!; [done..|]. by eapply sign_verify.
  - intros ref' Hr'. rewrite KeyVerifier_Verify_spec. unfold signed_in. by rewrite lookup_insert_ne.
Qed.

End Correct.

(** ** Admission with signed images *)

Section SignedChain.
Context {X : X509} {EC : Ecdsa} {TC : TrustCodec}.
Context {S : Type} `{!Store S, !StoreLaws S} {Sh : Shuffle} {CE : CelEnv}.
Context `{AM : !ApiMessages, AL : !ApiLaws, MM : !MoreMessages, ML : !MoreLaws}.
Context (allowed : list string) (quota : option ResourceList) (p : pub) (m : gmap string string).

(** The verifier as the admission chain calls it. *)
Definition server_Verify (v : ImageVerifier) (imageRef : string) : M S unit := lift (ImageVerifier_Verify v imageRef).

(** The chain of a server that was started with the trust file [m]. *)
Definition signed_chain : list (Validator S CE) :=
  chain allowed (server_Verify (TrustVerifier (NewKeyVerifier p (MkTrustFile (Some m))))) quota.

Definition images (s : option PodSpec) : list string := Container_Image <$> PodSpec_GetContainers s.

Lemma chain_signed a w a' w' :
  chain_Admit signed_chain a w = (Ok (a', Ok tt), w') →
  images (req_Spec (as_req a')) = images (req_Spec (as_req a)) ∧ Forall (signed_in p m) (images (req_Spec (as_req a))).
Proof.
  intros H. apply chain_guarantees in H as (_ & Hc & _ & _ & Hv & _); [|intros ref; apply reads_lift].
  split.
  - unfold images. unfold reqContainers in Hc. rewrite Hc, <- list_fmap_compose. by apply list_fmap_ext.
  - unfold images. rewrite Forall_fmap, Forall_forall. intros c Hin. destruct (Hv c Hin) as (w1 & w2 & _ & Hr).
    apply KeyVerifier_Verify_spec. by injection Hr.
Qed.

(** A request with an image that the trust file does not know. *)
Lemma chain_unsigned a w r w' ref :
  ref ∈ images (req_Spec (as_req a)) → m !! ref = None → chain_Admit signed_chain a w = (r, w') →
  w_store w' = w_store w ∧ ∀ a', r ≠ Ok (a', Ok tt).
Proof.
  intros Hin Hm H. split.
  - eapply (reads_chain allowed _ quota); [|exact H]. intros; apply reads_lift.
  - intros a' ->. apply chain_signed in H as [_ H]. rewrite Forall_forall in H.
    destruct (H _ Hin) as (? & ? & ? & _). congruence.
Qed.

Lemma accepted_images_signed :
  (∀ pod c w c' pod' w', CreatePod signed_chain pod c w = (Ok (c', Ok pod'), w') →
     Forall (signed_in p m) (images (Pod_Spec pod'))) ∧
  (∀ d c w c' d' w', CreateDeployment signed_chain d c w = (Ok (c', Ok d'), w') →
     Forall (signed_in p m) (images (depTemplate d'))).
Proof.
  split.
  - intros pod c w c' pod' w' H. unfold CreatePod in H. cbn zeta in H. case_decide as Hn; [done|]. minv H.
    destruct a as [a [[]|e|]]; [|done..]. minv H1. injection H3 as _ H3 _.
    destruct a0 as [[]| |]; [|done..]. injection H3 as <-. simpl.
    by apply chain_signed in H0 as [-> ?].
  - intros d c w c' d' w' H. unfold CreateDeployment in H. cbn zeta in H. case_decide as Hn; [done|]. minv H.
    destruct a as [a [[]|e|]]; [|done..]. minv H1. injection H3 as _ H3 _.
    destruct a0 as [[]| |]; [|done..]. injection H3 as <-. unfold depTemplate.
    apply chain_signed in H0 as [Heq ?]. simpl in *. destruct (Deployment_GetSpec d); [|constructor]. simpl in *.
    by rewrite Heq.
Qed.

(** C12: what runs is signed.  With a trust file, a pod or deployment that the API
    accepts has only images for which the file holds a signature of exactly that
    reference that verifies under the configured key. *)
Theorem running_images_signed :
  (∀ pod c w c' pod' w', CreatePod signed_chain pod c w = (Ok (c', Ok pod'), w') →
     Forall (signed_in p m) (images (Pod_Spec pod'))) ∧
  (∀ d c w c' d' w', CreateDeployment signed_chain d c w = (Ok (c', Ok d'), w') →
     Forall (signed_in p m) (images (depTemplate d'))).
Proof. exact accepted_images_signed. Qed.

(** Nothing but the trust file of the start makes an image acceptable.  A
    deployment with an image that the file does not list is refused in every
    state of the cluster, and nothing is stored: also one whose image was pushed
    to the registry of the cluster, and one whose container is built from Git
    and so has no image at all. *)
Theorem unsigned_image_refused d c w r w' ref :
  ref ∈ images (DeploymentSpec_GetTemplate (Deployment_GetSpec d)) → m !! ref = None →
  CreateDeployment signed_chain d c w = (r, w') →
  w_store w' = w_store w ∧ ∀ c' d', r ≠ Ok (c', Ok d').
Proof.
  intros Hin Hm H. unfold CreateDeployment in H. cbn zeta in H. case_decide; [injection H as <- <-; by split|].
  unfold mbind, M_mbind, M_bind in H. destruct (chain_Admit signed_chain _ w) as [r1 w1] eqn:Hc in H.
  pose proof (λ Hin, chain_unsigned _ _ _ _ ref Hin Hm Hc) as Hno. destruct (Hno Hin) as [Hst Hno']. clear Hno.
  destruct r1 as [[a [[]|e|]]|e|]; [by destruct (Hno' a)|..]; injection H as <- <-; by split.
Qed.

End SignedChain.

(** ** Witnesses *)

Module ImagesignDemo.
Import IdentityDemo MemFs Codec.Reference DemoAdmission.

#[local] Existing Instance toy_cel.
#[local] Existing Instance toy_spiffe.
#[local] Existing Instance shuffle_id.
#[local] Instance sign_messages : ApiMessages := Build_ApiMessages _ _ _ _.
#[local] Instance sign_laws : ApiLaws := Build_ApiLaws _ _ _ _ _.
#[local] Instance sign_more : MoreMessages := Build_MoreMessages _ _ _ _ _ _.
#[local] Instance sign_more_laws : MoreLaws := Build_MoreLaws _ _ _ _ _ _ _.

(** A signature is the digest with the number of the key. *)
Definition toy_sig (k : nat) (d : bytes) : bytes := Z_byte (Z.of_nat k) :: d.

#[export] Instance toy_ecdsa : Ecdsa := {|
  sha256 := String.list_byte_of_string;
  ecdsa_SignASN1 _ (k : @priv toy_x509) d := Ok (toy_sig k d);
  ecdsa_VerifyASN1 (k : @pub toy_x509) d sig := bool_decide (sig = toy_sig k d);
  x509_MarshalPKIX (k : @pub toy_x509) := Ok (inr k);
  x509_ParsePKIX d := match d with inr k => Ok (Some k) | inl _ => Ok None end;
|}.

#[export] Instance toy_ecdsa_laws : EcdsaLaws.
Proof.
  split.
  - intros r k d sig [= <-]. by apply bool_decide_eq_true_2.
  - by intros p d [= <-].
Qed.

#[export] Program Instance toy_trust : TrustCodec := {|
  trust_Marshal tf := Ok (String.list_byte_of_string (Bits.to_text (tf_Signatures tf)));
  trust_Unmarshal b :=
    match Bits.of_text (String.string_of_list_byte b) with
    | Some m => Ok (MkTrustFile m)
    | None => Err (Errorf "invalid trust file")
    end;
|}.
Next Obligation.
  intros m b _ [= <-]. cbn. by rewrite String.string_of_list_byte_of_string, Bits.of_to_text.
Qed.

Definition key7 : result (@priv toy_x509) := Ok 7%nat.
Definition keyed : fs := (generate_key key7 "/keys" ∅).2.
Definition signed : fs := (sign_image 0 (privPath "/keys") "/trust.json" "nginx:1.27" keyed).2.

Lemma sign_image_trusted_witness :
  ∃ v p, loadImageVerifier "/trust.json" (pubPath "/keys") false signed = (Ok (TrustVerifier v, Some p), signed) ∧
    KeyVerifier_Verify v "nginx:1.27" = Ok () ∧ KeyVerifier_Verify v "redis:7" ≠ Ok ().
Proof.
  destruct (sign_image_trusted key7 0 "/keys" "/trust.json" "nginx:1.27" ∅ ∅ keyed signed) as (v & p & Hl & Hv & Ho).
  - done.
  - done.
  - by compute_done.
  - done.
  - apply run_result. reflexivity.
  - reflexivity.
  - by intros ? ? ?.
  - apply run_result. vm_compute. reflexivity.
  - exists v, p. split_and!; [done..|]. rewrite Ho by done. by intros (? & ? & ? & _).
Defined.

(** A deployment built from Git: its container has no image. *)
Definition git_deployment : Deployment :=
  MkDeployment (Some (MkObjectMeta "web" "default" "" "" ∅ 0))
    (Some (MkDeploymentSpec 1 ∅ (Some (MkPodSpec [Container_zero] "" [] (PodSpec_RestartPolicy PodSpec_zero))) 0 0)) None.

Lemma unsigned_image_refused_witness :
  w_store (CreateDeployment (signed_chain (CE := toy_cel) [] None (7%nat : @pub toy_x509) {["nginx" := "AAAA"]}) (Some git_deployment) ∅ demo_world).2
    = w_store demo_world.
Proof.
  refine (proj1 (unsigned_image_refused [] None (7%nat : @pub toy_x509) {["nginx" := "AAAA"]} (Some git_deployment) ∅ demo_world _ _ ""
    _ _ (surjective_pairing _))).
  - vm_compute. left.
  - reflexivity.
Defined.

(** A trust file with a signature of nginx by key 7. *)
Definition trusted : gmap string string :=
  {["nginx" := EncodeToString StdEncoding (toy_sig 7%nat (String.list_byte_of_string "nginx"))]}.

Definition nginx_pod : Pod :=
  MkPod (Some (MkObjectMeta "web" "default" "" "" ∅ 0))
    (Some (MkPodSpec [MkContainer "web" "nginx" None None [] "" [] ∅ None] "" [] (PodSpec_RestartPolicy PodSpec_zero))) None.

Lemma running_images_signed_witness :
  ∃ c pod', (CreatePod (signed_chain (CE := toy_cel) [] None (7%nat : @pub toy_x509) trusted) (Some nginx_pod) ∅ demo_world).1
      = Ok (c, Ok pod') ∧ Forall (signed_in (7%nat : @pub toy_x509) trusted) (images (Pod_Spec pod')).
Proof.
  assert (∃ c pod', (CreatePod (signed_chain (CE := toy_cel) [] None (7%nat : @pub toy_x509) trusted) (Some nginx_pod) ∅ demo_world).1
    = Ok (c, Ok pod')) as (c & pod' & H) by (eexists _, _; vm_compute; reflexivity).
  exists c, pod'. split; [exact H|].
  exact (proj1 (running_images_signed [] None (7%nat : @pub toy_x509) trusted) (Some nginx_pod) ∅ demo_world c pod' _ (run_result _ _ H)).
Defined.

End ImagesignDemo.
