(* ===== verification/Build.v ===== *)
(** * Build: images built from Git repositories

    internal/agent/build.go and its call in process.go.  The build cleans its
    working directory, clones the branch, synthesizes a Dockerfile when the
    repository has none, and runs buildctl.  Git, buildctl, the build log and
    encoding/json are the parameter [BuildEnv]. *)

From stdpp Require Import gmap strings list.
From Stdlib Require Import Ascii ZArith Lia.
From S2P Require Import Prelude Api Text Path Http Files.

Local Open Scope Z_scope.

(** What json.Unmarshal leaves in the struct of package.json: the fields it could
    read, and zero values for the rest. *)
Record packageJSON := MkPackage { pkg_Main : string; pkg_Scripts : gmap string string }.

(** [CloneOptions]: a single branch at depth one *)
Record cloneOptions := MkClone {
  co_URL : string;
  co_ReferenceName : string;
  (** user name and password, if any *)
  co_Auth : option (string * string);
}.

Class BuildEnv (E : Type) := {
  git_PlainClone : string → cloneOptions → E → (error + unit) * E;
  (** os.Create of the build log, and writing to an open log *)
  log_Create : string → E → (error + unit) * E;
  log_Write : string → string → E → E;
  (** buildctl with its arguments, its output going to a log or nowhere *)
  buildctl_Run : list string → option string → E → (error + unit) * E;
  package_Unmarshal : bytes → packageJSON;
  (** json.Marshal of a string *)
  json_String : string → string;
  (** [src.GetCloneToken()], which api/v1 does not declare *)
  GetCloneToken : BuildSource → string;
}.

Definition dquote : string := String "034"%char "".
Definition eol : string := String newline "".

Definition cloneAuth (token : string) : option (string * string) :=
  if bool_decide (token = "") then None else Some ("x-access-token", token).

(** The templates, up to and after the command. *)
Definition nodeDockerfileTemplate (cmd : string) : string :=
  "FROM node:21-alpine" +:+ eol +:+ "WORKDIR /app" +:+ eol +:+ "COPY . ." +:+ eol +:+
  "RUN npm install --omit=dev" +:+ eol +:+ cmd +:+ eol.

Definition nodeDockerfileWithBuildTemplate (cmd : string) : string :=
  "FROM node:21-alpine" +:+ eol +:+ "WORKDIR /app" +:+ eol +:+ "COPY . ." +:+ eol +:+
  "RUN npm install" +:+ eol +:+ "RUN npm run build" +:+ eol +:+ "RUN npm prune --omit=dev" +:+ eol +:+ cmd +:+ eol.

Definition staticDockerfile : string :=
  "FROM nginx:alpine" +:+ eol +:+ "COPY . /usr/share/nginx/html" +:+ eol.

Section Build.
Context {E : Type} {O : OS E} {BE : BuildEnv E}.

Definition node_cmd (pkg : packageJSON) : string :=
  if bool_decide (slookup (pkg_Scripts pkg) "start" = "") then
    let main := if bool_decide (pkg_Main pkg = "") then "index.js" else pkg_Main pkg in
    "CMD [" +:+ dquote +:+ "node" +:+ dquote +:+ ", " +:+ json_String main +:+ "]"
  else "CMD [" +:+ dquote +:+ "npm" +:+ dquote +:+ ", " +:+ dquote +:+ "start" +:+ dquote +:+ "]".

Definition nodeDockerfile (pkgJSON : bytes) : string :=
  let pkg := package_Unmarshal pkgJSON in
  let cmd := node_cmd pkg in
  if bool_decide (slookup (pkg_Scripts pkg) "build" = "") then nodeDockerfileTemplate cmd
  else nodeDockerfileWithBuildTemplate cmd.

Definition detectDockerfile (contextDir : string) (s : E) : (error + string) * E :=
  match os_ReadFile (path_Join [contextDir; "package.json"]) s with
  | (inr pkgJSON, s) => (inr (nodeDockerfile pkgJSON), s)
  | (inl _, s) =>
    match os_Stat (path_Join [contextDir; "index.html"]) s with
    | (inr _, s) => (inr staticDockerfile, s)
    | (inl _, s) => (inl (Errorf "no supported stack detected"), s)
    end
  end.

Definition branch_of (src : BuildSource) : string :=
  if bool_decide (BuildSource_Branch src = "") then "main" else BuildSource_Branch src.

Definition clone_options (src : BuildSource) : cloneOptions :=
  MkClone (BuildSource_RepoUrl src) ("refs/heads/" +:+ branch_of src) (cloneAuth (GetCloneToken src)).

Definition context_dir (workDir : string) (src : BuildSource) : string :=
  if bool_decide (BuildSource_ContextPath src = "") then workDir else path_Join [workDir; BuildSource_ContextPath src].

Definition dockerfile_dir (workDir : string) (src : BuildSource) : string :=
  if bool_decide (BuildSource_DockerfilePath src = "") then context_dir workDir src
  else path_Join [workDir; Dir (BuildSource_DockerfilePath src)].

Definition image_tag (containerID : string) : string := "docker.io/library/" +:+ containerID +:+ ":latest".

(** The arguments of buildctl. *)
Definition buildctl_args (buildkitAddr contextDir dockerfileDir imageTag : string) : list string :=
  ["--addr"; buildkitAddr; "build"; "--frontend"; "dockerfile.v0";
   "--local"; "context=" +:+ contextDir; "--local"; "dockerfile=" +:+ dockerfileDir;
   "--output"; "type=image,name=" +:+ imageTag +:+ ",unpack=true"].

(** The log that the build writes to. *)
Definition open_log (logDir containerID : string) (s : E) : (error + option string) * E :=
  if bool_decide (logDir = "") then (inr None, s)
  else
  match os_MkdirAll logDir s with
  | (inl e, s) => (inl (Wrapf "agent: create log dir" e), s)
  | (inr _, s) =>
    let p := buildLogFilePath logDir containerID in
    match log_Create p s with
    | (inl e, s) => (inl (Wrapf "agent: create build log" e), s)
    | (inr _, s) => (inr (Some p), s)
    end
  end.

Definition write_log (log : option string) (text : string) (s : E) : E :=
  match log with None => s | Some p => log_Write p text s end.

(** The Dockerfile is synthesized when the source names none and there is none. *)
Definition ensure_dockerfile (workDir : string) (src : BuildSource) (log : option string) (s : E) : (error + unit) * E :=
  if negb (bool_decide (BuildSource_DockerfilePath src = "")) then (inr (), s)
  else
  let f := path_Join [dockerfile_dir workDir src; "Dockerfile"] in
  match os_Stat f s with
  | (inr _, s) => (inr (), s)
  | (inl e, s) =>
    if negb (os_IsNotExist e) then (inr (), s)
    else
    match detectDockerfile (context_dir workDir src) s with
    | (inl e, s) => (inl (Wrapf "agent" e), s)
    | (inr generated, s) =>
      match os_WriteFile f (String.list_byte_of_string generated) s with
      | (inl e, s) => (inl (Wrapf "agent: write generated Dockerfile" e), s)
      | (inr _, s) =>
        (inr (), write_log log ("nimbuscore: no Dockerfile found, auto-detected stack and generated one:" +:+ eol +:+ generated +:+ eol) s)
      end
    end
  end.

Definition buildImageFromSource (buildkitAddr workDir logDir containerID : string) (src : BuildSource) (s : E)
    : (error + string) * E :=
  match os_RemoveAll workDir s with
  | (inl e, s) => (inl (Wrapf "agent: clean build workdir" e), s)
  | (inr _, s) =>
  match os_MkdirAll workDir s with
  | (inl e, s) => (inl (Wrapf "agent: create build workdir" e), s)
  | (inr _, s) =>
  match git_PlainClone workDir (clone_options src) s with
  | (inl e, s) => (inl (Wrapf "agent: clone" e), s)
  | (inr _, s) =>
  match open_log logDir containerID s with
  | (inl e, s) => (inl e, s)
  | (inr log, s) =>
  match ensure_dockerfile workDir src log s with
  | (inl e, s) => (inl e, s)
  | (inr _, s) =>
  match buildctl_Run (buildctl_args buildkitAddr (context_dir workDir src) (dockerfile_dir workDir src)
                        (image_tag containerID)) log s with
  | (inl e, s) => (inl (Wrapf "agent: buildctl build failed (see build logs)" e), s)
  | (inr _, s) => (inr (image_tag containerID), s)
  end end end end end end.

End Build.

(** ** What is built *)

Section Correct.
Context {E : Type} {O : OS E} {BE : BuildEnv E}.

(** The output of json.Marshal has no line breaks: control characters are
    escaped.  Writing the log leaves every other file as it is. *)
Class BuildLaws : Prop := {
  json_one_line : ∀ t, contains_char newline (json_String t) = false;
  log_write_frame : ∀ p text q s, components p ≠ components q → IsAbs p → IsAbs q →
    (os_ReadFile q (log_Write p text s)).1 = (os_ReadFile q s).1;
}.
Context {BL : BuildLaws} {L : OSLaws E}.

Lemma node_cmd_line pkg : contains_char newline (node_cmd pkg) = false ∧ HasPrefix (node_cmd pkg) "CMD [" = true.
Proof.
  unfold node_cmd. case_bool_decide; [|done]. split.
  - rewrite !contains_char_app, json_one_line. done.
  - done.
Qed.

Lemma Split_line w t : contains_char newline w = false → Split newline (w +:+ eol +:+ t) = w :: Split newline t.
Proof. intros Hw. change (w +:+ eol +:+ t) with (w +:+ String newline t). by rewrite Split_app, Split_word. Qed.

(** A repository cannot add instructions to its generated Dockerfile.  Whatever
    its package.json says, the file has the lines of one of the two templates
    and a single CMD line. *)
Theorem node_dockerfile_lines pkgJSON :
  ∃ cmd, HasPrefix cmd "CMD [" = true ∧
    (Split newline (nodeDockerfile pkgJSON) =
       ["FROM node:21-alpine"; "WORKDIR /app"; "COPY . ."; "RUN npm install --omit=dev"; cmd; ""] ∨
     Split newline (nodeDockerfile pkgJSON) =
       ["FROM node:21-alpine"; "WORKDIR /app"; "COPY . ."; "RUN npm install"; "RUN npm run build";
        "RUN npm prune --omit=dev"; cmd; ""]).
Proof.
  unfold nodeDockerfile. destruct (node_cmd_line (package_Unmarshal pkgJSON)) as [Hl Hp].
  exists (node_cmd (package_Unmarshal pkgJSON)). split; [done|]. cbv zeta.
  case_bool_decide; [left; unfold nodeDockerfileTemplate|right; unfold nodeDockerfileWithBuildTemplate];
    rewrite !Split_line by done;
    (by change (node_cmd ?p +:+ eol) with (node_cmd p +:+ String newline ""); rewrite Split_app, Split_word).
Qed.

(** The synthesized Dockerfile is the one that is built.  When the source names
    no Dockerfile and there is none, a build that gets past this point has one,
    and its contents are what the detection made of the repository. *)
Theorem synthesized_dockerfile workDir src log s e s1 s' :
  let f := path_Join [dockerfile_dir workDir src; "Dockerfile"] in
  BuildSource_DockerfilePath src = "" → os_Stat f s = (inl e, s1) → os_IsNotExist e = true →
  (∀ p, log = Some p → IsAbs p ∧ IsAbs f ∧ components p ≠ components f) →
  ensure_dockerfile workDir src log s = (inr (), s') →
  ∃ text, (detectDockerfile (context_dir workDir src) s1).1 = inr text ∧
    os_ReadFile f s' = (inr (String.list_byte_of_string text), s').
Proof.
  intros f Hd Hs He Hlog. unfold ensure_dockerfile. rewrite bool_decide_eq_true_2 by done. fold f. cbn zeta.
  rewrite Hs, He. simpl.
  destruct (detectDockerfile _ s1) as [[?|text] s2]; [done|].
  destruct (os_WriteFile f _ s2) as [[?|[]] s3] eqn:Hw; [done|]. intros [= <-]. exists text. split; [done|].
  pose proof (os_write_read _ _ _ _ Hw) as Hr. destruct log as [p|]; simpl; [|done].
  destruct (Hlog p eq_refl) as (Ha & Hb & Hne).
  pose proof (log_write_frame p ("nimbuscore: no Dockerfile found, auto-detected stack and generated one:" +:+ eol +:+ text +:+ eol) f s3 Hne Ha Hb) as Hf.
  rewrite Hr in Hf. destruct (os_ReadFile f _) as [x s4] eqn:Hr' in Hf |- *.
  simpl in Hf. subst x. by rewrite (os_read_pure _ _ _ _ Hr') in Hr' |- *.
Qed.

(** The image is made by buildctl from the directories of the source. *)
Lemma build_Ok buildkitAddr workDir logDir id src s tag s' :
  buildImageFromSource buildkitAddr workDir logDir id src s = (inr tag, s') →
  tag = image_tag id ∧ ∃ log s1, buildctl_Run (buildctl_args buildkitAddr (context_dir workDir src)
    (dockerfile_dir workDir src) (image_tag id)) log s1 = (inr (), s').
Proof.
  unfold buildImageFromSource.
  destruct (os_RemoveAll _ _) as [[?|?] ?]; [done|]. destruct (os_MkdirAll _ _) as [[?|?] ?]; [done|].
  destruct (git_PlainClone _ _ _) as [[?|?] ?]; [done|]. destruct (open_log _ _ _) as [[?|log] ?]; [done|].
  destruct (ensure_dockerfile _ _ _ _) as [[?|?] s1]; [done|].
  destruct (buildctl_Run _ _ _) as [[?|[]] ?] eqn:Hb; [done|]. intros [= <- <-]. eauto.
Qed.

Definition with_dockerfile (p : string) (src : BuildSource) : BuildSource :=
  MkBuildSource (BuildSource_RepoUrl src) (BuildSource_Branch src) p (BuildSource_ContextPath src).

(** The name of the Dockerfile is ignored.  Two sources that name different
    Dockerfiles of the same directory are built alike: only the directory is
    passed to buildctl, which takes the file called Dockerfile in it. *)
Theorem dockerfile_name_ignored buildkitAddr workDir logDir id src p q s :
  p ≠ "" → q ≠ "" → Dir p = Dir q →
  GetCloneToken (with_dockerfile p src) = GetCloneToken (with_dockerfile q src) →
  buildImageFromSource buildkitAddr workDir logDir id (with_dockerfile p src) s =
  buildImageFromSource buildkitAddr workDir logDir id (with_dockerfile q src) s.
Proof.
  intros Hp Hq Hd Ht. unfold buildImageFromSource, clone_options, ensure_dockerfile, dockerfile_dir. simpl.
  rewrite Ht, (bool_decide_eq_false_2 _ Hp), (bool_decide_eq_false_2 _ Hq), Hd. done.
Qed.

(** The build context is not confined to the clone.  Without dot-dot the
    context is below the working directory; with it, it is any directory of the
    node: for every absolute path there is a context path that selects it. *)
Theorem context_not_confined workDir src :
  IsAbs workDir = true →
  (Forall plain (Split slash (BuildSource_ContextPath src)) → inside workDir (context_dir workDir src)) ∧
  (∀ target, IsAbs target = true → Clean target = target → components target ≠ [] → ∃ ctx,
     context_dir workDir (MkBuildSource (BuildSource_RepoUrl src) (BuildSource_Branch src) "" ctx) = target).
Proof.
  intros Ha. assert (workDir ≠ "") as Hne by (by intros ->). split.
  - intros Hp. unfold context_dir. case_bool_decide as Hc; [apply inside_refl|].
    split; [by apply IsAbs_Join|]. exists (Split slash (BuildSource_ContextPath src)). split; [|done].
    rewrite components_Join by done. by apply clean_from_plain.
  - intros target Ht Hcl Hcs.
    exists (Join "/" (replicate (length (components workDir)) ".." ++ components target)).
    unfold context_dir. cbn [BuildSource_ContextPath].
    set (l := replicate _ _ ++ components target).
    assert (Forall word l) as Hw.
    { apply Forall_app. split; [by apply Forall_replicate|].
      eapply Forall_impl; [by apply components_plain|]. by intros ? []. }
    assert (l ≠ []) as Hl by (unfold l; destruct (replicate _ _); [done|discriminate]).
    assert (Split slash (Join "/" l) = l) as Hs.
    { apply (Split_Join slash); [done|]. eapply Forall_impl; [exact Hw|]. by intros ? (? & ? & ?). }
    rewrite bool_decide_eq_false_2 by (intros Hj; rewrite Hj in Hs; destruct l as [|x [|]]; simplify_eq/=; by inv Hw as [|?? (? & _)]).
    rewrite <- (path_Join_Clean workDir), <- Hcl by done. apply (proj2 (Clean_inj _ _)). split; [rewrite IsAbs_Join by done; congruence|].
    rewrite components_Join, Hs, Ha by done. unfold l. rewrite clean_from_app.
    assert (∀ k, Forall plain k → clean_from true k (replicate (length k) "..") = []) as Hup.
    { clear. induction k as [|x k IH] using rev_ind; intros Hk; [done|]. apply Forall_app in Hk as [Hk [Hx _]%Forall_cons].
      rewrite length_app, Nat.add_comm. simpl. rewrite clean_from_dotdot by done. by apply IH. }
    rewrite Hup by (by apply components_plain). by rewrite clean_from_plain by (by apply components_plain).
Qed.

(** The log of a build is also the log of another container's output. *)
Lemma build_log_collides logDir id : buildLogFilePath logDir id = logFilePath logDir (id +:+ ".build").
Proof. unfold buildLogFilePath, logFilePath. by rewrite string_app_assoc. Qed.

End Correct.

(** ** Witnesses *)

Module BuildDemo.
Import MemFs.

(** A clone leaves a package.json and an index.html; buildctl succeeds. *)
#[export] Instance demo_build : BuildEnv fs := {|
  git_PlainClone dir _ s :=
    (inr (), <[components dir ++ ["package.json"] := NFile []]> (<[components dir ++ ["index.html"] := NFile []]> s));
  log_Create p s := write_file p [] s;
  log_Write p text s := (write_file p (String.list_byte_of_string text) s).2;
  buildctl_Run _ _ s := (inr (), s);
  package_Unmarshal _ := MkPackage "server.js" {["build" := "tsc"]};
  json_String t := dquote +:+ String.string_of_list_ascii (List.filter (λ c, negb (Ascii.eqb c newline)) (String.list_ascii_of_string t)) +:+ dquote;
  GetCloneToken _ := "";
|}.

Lemma filtered t : contains_char newline (String.string_of_list_ascii (List.filter (λ c, negb (Ascii.eqb c newline)) t)) = false.
Proof.
  induction t as [|c t IH]; [done|]. simpl. destruct (Ascii.eqb_spec c newline) as [->|Hc]; simpl; [done|].
  by rewrite bool_decide_eq_false_2.
Qed.

#[export] Instance demo_build_laws : BuildLaws.
Proof.
  split.
  - intros t. cbn [json_String demo_build]. rewrite !contains_char_app, filtered. done.
  - intros p text q s Hne Hp Hq.
    exact (os_write_frame p q (String.list_byte_of_string text) s _ _ (surjective_pairing _) Hp Hq Hne).
Qed.

Definition src : BuildSource := MkBuildSource "https://example.org/app.git" "" "" "".
Definition cloned : fs := (git_PlainClone "/b/w" (clone_options src) {[ ["b"] := NDir; ["b"; "w"] := NDir ]}).2.
Definition ensured : fs := (ensure_dockerfile "/b/w" src None cloned).2.

Lemma synthesized_dockerfile_witness :
  ∃ text, os_ReadFile "/b/w/Dockerfile" ensured = (inr (String.list_byte_of_string text), ensured).
Proof.
  destruct (synthesized_dockerfile "/b/w" src None cloned ENOENT (os_Stat "/b/w/Dockerfile" cloned).2 ensured)
    as (text & _ & H).
  - done.
  - apply run_result. vm_compute. done.
  - done.
  - done.
  - apply run_result. vm_compute. done.
  - exists text. exact H.
Defined.

Lemma dockerfile_name_ignored_witness :
  buildImageFromSource "" "/b/w" "" "web" (with_dockerfile "docker/Dockerfile.prod" src) ∅ =
  buildImageFromSource "" "/b/w" "" "web" (with_dockerfile "docker/Dockerfile.dev" src) ∅.
Proof. apply (dockerfile_name_ignored "" "/b/w" "" "web" src); [done..| |]; reflexivity. Defined.

Lemma context_not_confined_witness :
  ∃ ctx, context_dir "/b/w" (MkBuildSource "https://example.org/app.git" "" "" ctx) = "/etc".
Proof. apply (proj2 (context_not_confined "/b/w" src eq_refl) "/etc"); [reflexivity..|discriminate]. Defined.

Lemma build_example :
  (buildImageFromSource "unix:///run/buildkit.sock" "/b/w" "" "web" src {[ ["b"] := NDir ]}).1 = inr "docker.io/library/web:latest".
Proof. vm_compute. reflexivity. Qed.

End BuildDemo.
