(* ===== verification/Containerd.v ===== *)
(** * Containerd: the containerd client of the agent

    internal/agent/containerd_client.go, and the rest of what process.go calls
    on the node (directories, logs, builds).  [real_host] puts them together as
    an instance of the interface [Host] that the agent of Agent.v runs on, so
    that the theorems about the agent hold for this client.

    The containerd library, the kernel and the remaining services of the node
    are parameters: [Containerd] (one method per library call), [OS],
    [BuildEnv] and [NodeEnv].  [ContainerdLaws] says what the client relies on. *)

From stdpp Require Import gmap strings list sorting.
From Stdlib Require Import Ascii ZArith Lia.
From S2P Require Import Prelude Api Agent AgentCorrect Text Path Http Files Build.

Local Open Scope Z_scope.

(** ** The library *)

(** task.Status and the fields of task.Process that are used *)
Inductive task_status := TASK_UNKNOWN | TASK_CREATED | TASK_RUNNING | TASK_STOPPED | TASK_PAUSED | TASK_PAUSING.

#[export] Instance task_status_eq_decision : EqDecision task_status.
Proof. solve_decision. Defined.

Record task_process := MkTask { task_ID : string; task_Pid : Z; task_Status : task_status }.

(** The oci.SpecOpts that the client composes. *)
Inductive SpecOpt :=
  | WithDefaultSpec
  | WithDefaultUnixDevices
  | WithImageConfig (image : string)
  | WithEnv (env : list string)
  | WithHostNamespace (ns : string)
  | WithHostHostsFile
  | WithHostResolvconf
  | WithProcessArgs (args : list string)
  | WithMounts (mounts : list mount)
  | WithCPUCFS (quota period : Z)
  | WithMemoryLimit (limit : Z).

Class Containerd (E : Type) := {
  (** containerd.New with the default namespace and the timeout *)
  cd_New : string → Z → E → (error + unit) * E;
  cd_Pull : string → E → (error + string) * E;
  cd_GetImage : string → E → (error + string) * E;
  os_Hostname : E → (error + string) * E;
  (** NewContainer with an image, a new snapshot of it and a spec *)
  cd_NewContainer : string → string → list SpecOpt → E → (error + unit) * E;
  (** NewTask with its output going to a file or nowhere *)
  cd_NewTask : string → option string → E → (error + unit) * E;
  cd_Start : string → E → (error + unit) * E;
  cd_LoadContainer : string → E → (error + unit) * E;
  cd_Task : string → E → (error + unit) * E;
  (** task.Delete with ProcessKill, container.Delete with SnapshotCleanup *)
  cd_TaskDelete : string → E → (error + unit) * E;
  cd_Delete : string → E → (error + unit) * E;
  cd_List : E → (error + list task_process) * E;
}.

Definition containerdNamespace : string := "default".
Definition second : Z := 1000000000.
Definition containerdCallTimeout : Z := 2 * second.

(** ** The client *)

(** The process-wide client: the result of the one call of containerd.New, once
    there was one, next to the rest of the node. *)
Record host_state (E : Type) := MkHost { hs_client : option (error + unit); hs_env : E }.
Arguments MkHost {E}.
Arguments hs_client {E}.
Arguments hs_env {E}.

(** Programs that may fail, over the state of the node. *)
Abbreviation N E A := (host_state E → (error + A) * host_state E).

Definition bindN {E A B} (m : N E A) (f : A → N E B) : N E B := λ s,
  match m s with (inl e, s) => (inl e, s) | (inr a, s) => f a s end.
Definition retN {E A} (a : A) : N E A := λ s, (inr a, s).
Definition failN {E A} (e : error) : N E A := λ s, (inl e, s).
(** [if err != nil { return fmt.Errorf(text, err) }] *)
Definition wrapN {E A} (text : string) (m : N E A) : N E A := λ s,
  match m s with (inl e, s) => (inl (Wrapf text e), s) | r => r end.
(** The result of a call, whatever it is. *)
Definition tryN {E A} (m : N E A) : N E (error + A) := λ s, let '(r, s) := m s in (inr r, s).

Declare Scope node_scope.
Delimit Scope node_scope with node.
Notation "'let*' x := m 'in' k" := (bindN m (λ x, k))
  (at level 10, x binder, m at level 100, k at level 200, only parsing) : node_scope.
Local Open Scope node_scope.

(** A call of something that does not use the client. *)
Definition env {E A} (f : E → (error + A) * E) : N E A := λ s,
  let '(r, e) := f (hs_env s) in (r, MkHost (hs_client s) e).

Section Client.
Context {E : Type} {CD : Containerd E} {Sh : Shuffle}.

Definition containerdClient : N E unit := λ s,
  match hs_client s with
  | Some r => (r, s)
  | None =>
    let '(r, e) := cd_New containerdNamespace containerdCallTimeout (hs_env s) in
    (r, MkHost (Some r) e)
  end.

Definition pullContainerdImage (ref : string) : N E string :=
  let* _ := containerdClient in
  wrapN ("agent: pull image " +:+ ref) (env (cd_Pull ref)).

Definition localContainerdImage (ref : string) : N E string :=
  let* _ := containerdClient in
  wrapN ("agent: look up built image " +:+ ref) (env (cd_GetImage ref)).

(** The environment as a slice: the keys in the order in which this iteration of
    the map finds them, sorted, with their values. *)
Definition envSlice (t : nat) (env : gmap string string) : list string :=
  let envKeys := merge_sort String.le (shuffle t (map_to_list env).*1) in
  (λ k, k +:+ "=" +:+ slookup env k) <$> envKeys.

Definition specOpts (t : nat) (hostname : string) (spec : containerdRunSpec) : list SpecOpt :=
  [WithDefaultSpec; WithDefaultUnixDevices; WithImageConfig (rs_image spec); WithEnv (envSlice t (rs_env spec));
   WithHostNamespace "network"; WithHostHostsFile; WithHostResolvconf; WithEnv ["HOSTNAME=" +:+ hostname]] ++
  (if (0 <? length (rs_command spec))%nat then [WithProcessArgs (rs_command spec)] else []) ++
  (if (0 <? length (rs_mounts spec))%nat then [WithMounts (rs_mounts spec)] else []) ++
  (if 0 <? rs_cpuMillis spec then [WithCPUCFS (wrap64 (rs_cpuMillis spec * 100)) 100000] else []) ++
  (if 0 <? rs_memBytes spec then [WithMemoryLimit (rs_memBytes spec mod 2 ^ 64)] else []).

Definition runContainerdContainer (t : nat) (spec : containerdRunSpec) : N E unit :=
  let id := rs_id spec in
  let* _ := containerdClient in
  let* hostname := wrapN "agent: get hostname" (env os_Hostname) in
  let* _ := wrapN ("agent: create container " +:+ id) (env (cd_NewContainer id (rs_image spec) (specOpts t hostname spec))) in
  let ioCreator := if bool_decide (rs_logPath spec = "") then None else Some (rs_logPath spec) in
  let* task := tryN (env (cd_NewTask id ioCreator)) in
  match task with
  | inl err =>
    let* _ := tryN (env (cd_Delete id)) in
    failN (Wrapf ("agent: create task for " +:+ id) err)
  | inr _ =>
    let* started := tryN (env (cd_Start id)) in
    match started with
    | inl err =>
      let* _ := tryN (env (cd_TaskDelete id)) in
      let* _ := tryN (env (cd_Delete id)) in
      failN (Wrapf ("agent: start task for " +:+ id) err)
    | inr _ => retN ()
    end
  end.

(** The body of removeContainerdContainer, whose early returns are failures here;
    it returns nothing to its caller. *)
Definition remove_container (id : string) : N E unit :=
  let* _ := containerdClient in
  let* _ := env (cd_LoadContainer id) in
  let* task := tryN (env (cd_Task id)) in
  let* _ := match task with inl _ => retN () | inr _ => let* _ := tryN (env (cd_TaskDelete id)) in retN () end in
  let* _ := tryN (env (cd_Delete id)) in
  retN ().

Definition removeContainerdContainer (id : string) (s : host_state E) : host_state E := (remove_container id s).2.

Definition containerdTasks : N E (list task_process) :=
  let* _ := containerdClient in env cd_List.

Definition containerdTaskPID (containerID : string) : N E Z :=
  let* procs := containerdTasks in
  match list_find (λ p, task_ID p = containerID) procs with
  | Some (_, p) => retN (wrap32 (task_Pid p))
  | None => failN (Errorf ("agent: task " +:+ containerID +:+ " not found"))
  end.

Definition task_statuses (procs : list task_process) : gmap string bool :=
  foldl (λ running p, <[task_ID p := bool_decide (task_Status p = TASK_RUNNING)]> running) ∅ procs.

Definition listContainerdTaskStatuses : N E (gmap string bool) :=
  let* procs := containerdTasks in retN (task_statuses procs).

End Client.

(** ** The host of the agent *)

(** What is left of the node: the API server, processes, sockets, wazero, and
    what the operating system knows of the agent's own process. *)
Class NodeEnv (E : Type) := {
  nd_ListPods : E → (error + list Pod) * E;
  nd_ListServices : E → (error + list Service) * E;
  nd_UpdatePodStatus : statusReport → E → (error + unit) * E;
  nd_Exec : list string → E → (error + Z) * E;
  nd_Kill : Z → E → E;
  nd_RSS : Z → E → (error + Z) * E;
  nd_Listen : Z → E → (error + unit) * E;
  nd_CloseListener : Z → E → E;
  nd_WasmNew : E → (error + Z) * E;
  nd_WasmClose : Z → E → E;
  filepath_Abs : string → E → (error + string) * E;
  os_TempDir : string;
}.

Section HostOf.
Context {E : Type} {CD : Containerd E} {O : OS E} {BE : BuildEnv E} {NE : NodeEnv E} {Sh : Shuffle}.

Definition env_do (f : E → E) (s : host_state E) : host_state E := MkHost (hs_client s) (f (hs_env s)).

(** process.go: ensureVolumeDir *)
Definition ensureVolumeDir (volumesDir namespace volumeName : string) : N E string :=
  let dir := path_Join [volumesDir; namespace; volumeName] in
  let* _ := wrapN ("agent: create volume dir " +:+ dir) (env (os_MkdirAll dir)) in
  wrapN ("agent: resolve volume dir " +:+ dir) (env (filepath_Abs dir)).

(** The log file of a container: an absolute path, and no file there. *)
Definition prepare_log (logDir id : string) : N E string :=
  let* _ := wrapN ("agent: create log dir " +:+ logDir) (env (os_MkdirAll logDir)) in
  let* logPath := wrapN "agent: resolve log path" (env (filepath_Abs (logFilePath logDir id))) in
  let* _ := tryN (env (os_Remove logPath)) in
  retN logPath.

(** An image from source: built, then looked up in the store of containerd. *)
Definition build_image (buildkitAddr buildDir logDir id : string) (src : BuildSource) : N E string :=
  let buildDir := if bool_decide (buildDir = "") then path_Join [os_TempDir; "nimbus-builds"] else buildDir in
  let* built := env (buildImageFromSource buildkitAddr (path_Join [buildDir; id]) logDir id src) in
  localContainerdImage built.

(** The iteration over the environment is the zeroth one: by [envSlice_order] any
    other gives the same container. *)
#[export] Instance real_host : Host (host_state E) := {|
  h_ListPods := env nd_ListPods;
  h_ListServices := env nd_ListServices;
  h_UpdatePodStatus r := env (nd_UpdatePodStatus r);
  h_TaskStatuses := listContainerdTaskStatuses;
  h_TaskPID := containerdTaskPID;
  h_RemoveContainer := removeContainerdContainer;
  h_PullImage := pullContainerdImage;
  h_RunContainer := runContainerdContainer 0;
  h_BuildImage := build_image;
  h_PrepareLog := prepare_log;
  h_EnsureVolumeDir := ensureVolumeDir;
  h_Exec args := env (nd_Exec args);
  h_Kill pid := env_do (nd_Kill pid);
  h_ReadFile p := env (os_ReadFile p);
  h_RSS pid := env (nd_RSS pid);
  h_Listen port := env (nd_Listen port);
  h_CloseListener port := env_do (nd_CloseListener port);
  h_WasmNew := env nd_WasmNew;
  h_WasmClose rt := env_do (nd_WasmClose rt);
  h_ErrorText := os_ErrorText;
|}.

End HostOf.

(** ** What the client relies on *)

(** The containers that containerd holds, each with whether it has a task (which
    stays until it is deleted, also when its process has exited).  A call of the
    library has its effect on the container it names or fails without one. *)
Class ContainerdLaws (E : Type) {CD : Containerd E} := {
  cd_held : E → gmap string bool;
  cd_New_held : ∀ ns d e, cd_held (cd_New ns d e).2 = cd_held e;
  cd_Pull_held : ∀ ref e, cd_held (cd_Pull ref e).2 = cd_held e;
  cd_GetImage_held : ∀ ref e, cd_held (cd_GetImage ref e).2 = cd_held e;
  os_Hostname_held : ∀ e, cd_held (os_Hostname e).2 = cd_held e;
  cd_NewContainer_held : ∀ id image opts e r e', cd_NewContainer id image opts e = (r, e') →
    match r with inr _ => cd_held e !! id = None ∧ cd_held e' = <[id := false]> (cd_held e)
               | inl _ => cd_held e' = cd_held e end;
  cd_NewTask_held : ∀ id io e r e', cd_NewTask id io e = (r, e') →
    cd_held e' = match r with inr _ => <[id := true]> (cd_held e) | inl _ => cd_held e end;
  cd_Start_held : ∀ id e, cd_held (cd_Start id e).2 = cd_held e;
  cd_LoadContainer_held : ∀ id e, cd_held (cd_LoadContainer id e).2 = cd_held e;
  cd_Task_held : ∀ id e r e', cd_Task id e = (r, e') →
    cd_held e' = cd_held e ∧ (∀ u, r = inr u → cd_held e !! id = Some true);
  cd_TaskDelete_held : ∀ id e r e', cd_TaskDelete id e = (r, e') →
    cd_held e' = match r with inr _ => <[id := false]> (cd_held e) | inl _ => cd_held e end;
  cd_Delete_held : ∀ id e r e', cd_Delete id e = (r, e') →
    cd_held e' = match r with inr _ => delete id (cd_held e) | inl _ => cd_held e end;
  cd_List_held : ∀ e r e', cd_List e = (r, e') →
    cd_held e' = cd_held e ∧
    (∀ ps, r = inr ps → ∀ id, id ∈ task_ID <$> ps ↔ cd_held e !! id = Some true);
}.

(** A daemon that answers, and deletes what may be deleted: a task that exists,
    a container that exists and has no task. *)
Class ContainerdAnswers (E : Type) {CD : Containerd E} {CL : ContainerdLaws E} : Prop := {
  cd_Load_ok : ∀ id e, is_Some (cd_held e !! id) → ∃ u, (cd_LoadContainer id e).1 = inr u;
  cd_Task_ok : ∀ id e, cd_held e !! id = Some true → ∃ u, (cd_Task id e).1 = inr u;
  cd_TaskDelete_ok : ∀ id e, cd_held e !! id = Some true → ∃ u, (cd_TaskDelete id e).1 = inr u;
  cd_Delete_ok : ∀ id e, cd_held e !! id = Some false → ∃ u, (cd_Delete id e).1 = inr u;
}.

(** Files, builds and name resolution do not touch containers. *)
Class NodeNeutral (E : Type) {CD : Containerd E} {CL : ContainerdLaws E} {O : OS E} {BE : BuildEnv E} {NE : NodeEnv E} : Prop := {
  nn_MkdirAll : ∀ p e, cd_held (os_MkdirAll p e).2 = cd_held e;
  nn_ReadFile : ∀ p e, cd_held (os_ReadFile p e).2 = cd_held e;
  nn_WriteFile : ∀ p b e, cd_held (os_WriteFile p b e).2 = cd_held e;
  nn_Stat : ∀ p e, cd_held (os_Stat p e).2 = cd_held e;
  nn_Remove : ∀ p e, cd_held (os_Remove p e).2 = cd_held e;
  nn_RemoveAll : ∀ p e, cd_held (os_RemoveAll p e).2 = cd_held e;
  nn_Abs : ∀ p e, cd_held (filepath_Abs p e).2 = cd_held e;
  nn_Clone : ∀ dir opts e, cd_held (git_PlainClone dir opts e).2 = cd_held e;
  nn_LogCreate : ∀ p e, cd_held (log_Create p e).2 = cd_held e;
  nn_LogWrite : ∀ p text e, cd_held (log_Write p text e) = cd_held e;
  nn_Buildctl : ∀ args log e, cd_held (buildctl_Run args log e).2 = cd_held e;
}.

(** ** Reasoning about the client *)

Section Logic.
Context {E : Type}.

(** Running [m] from [s] ends as [Q] says. *)
Definition wpN {A} (m : N E A) (Q : error + A → host_state E → Prop) (s : host_state E) : Prop := Q (m s).1 (m s).2.

Lemma wpN_mono {A} (m : N E A) (Q Q' : error + A → host_state E → Prop) s :
  wpN m Q s → (∀ r s', Q r s' → Q' r s') → wpN m Q' s.
Proof. unfold wpN. auto. Qed.

Lemma wpN_bind {A B} (m : N E A) (f : A → N E B) Q s :
  wpN m (λ r s', match r with inl e => Q (inl e) s' | inr a => wpN (f a) Q s' end) s → wpN (bindN m f) Q s.
Proof. unfold wpN, bindN. by destruct (m s) as [[e|a] s']. Qed.

Lemma wpN_wrap {A} text (m : N E A) Q s :
  wpN m (λ r s', Q (match r with inl e => inl (Wrapf text e) | inr a => inr a end) s') s → wpN (wrapN text m) Q s.
Proof. unfold wpN, wrapN. by destruct (m s) as [[e|a] s']. Qed.

Lemma wpN_try {A} (m : N E A) Q s : wpN m (λ r s', Q (inr r) s') s → wpN (tryN m) Q s.
Proof. unfold wpN, tryN. by destruct (m s) as [r s']. Qed.

Lemma wpN_env {A} (f : E → (error + A) * E) Q s :
  (∀ r e, f (hs_env s) = (r, e) → Q r (MkHost (hs_client s) e)) → wpN (env f) Q s.
Proof. unfold wpN, env. intros HQ. destruct (f (hs_env s)) as [r e] eqn:Hf. by apply HQ. Qed.

End Logic.

Section Correct.
Context {E : Type} {CD : Containerd E} {CL : ContainerdLaws E} {Sh : Shuffle}.

(** The containers of a node; a client that can be dialled, or has been. *)
Definition held (s : host_state E) : gmap string bool := cd_held (hs_env s).
Definition dials (s : host_state E) : Prop := (containerdClient s).1 = inr ().
Definition connected (s : host_state E) : Prop := hs_client s = Some (inr ()).

Lemma connected_dials s : connected s → dials s.
Proof. unfold connected, dials, containerdClient. by intros ->. Qed.

(** The client is dialled at most once, and its containers stay as they are. *)
Lemma wpN_client Q s :
  (∀ r s', hs_client s' = Some r → held s' = held s → (dials s → r = inr ()) → Q r s') → wpN containerdClient Q s.
Proof.
  unfold wpN, dials, held, containerdClient. intros HQ. destruct (hs_client s) as [r|] eqn:Hs; [by apply HQ|].
  pose proof (cd_New_held containerdNamespace containerdCallTimeout (hs_env s)).
  destruct (cd_New _ _ _) as [r e]. by apply HQ.
Qed.

(** A call that leaves the containers as they are and the client connected. *)
Definition still {A} (m : N E A) : Prop :=
  ∀ s, held (m s).2 = held s ∧ (connected s → connected (m s).2).

Lemma still_client : still containerdClient.
Proof.
  intros s. apply (wpN_client (λ _ s', held s' = held s ∧ (connected s → connected s'))).
  intros r s' Hc Hh Hd. split; [done|]. intros Hs. unfold connected. by rewrite Hc, Hd by by apply connected_dials.
Qed.

Lemma still_env {A} (f : E → (error + A) * E) : (∀ e, cd_held (f e).2 = cd_held e) → still (env f).
Proof. intros Hf [c e]. unfold held, env; simpl. specialize (Hf e). by destruct (f e). Qed.

Lemma still_bind {A B} (m : N E A) (f : A → N E B) : still m → (∀ a, still (f a)) → still (bindN m f).
Proof.
  intros Hm Hf s. unfold bindN. destruct (Hm s) as [H1 H2]. destruct (m s) as [[e|a] s1]; [done|].
  destruct (Hf a s1) as [H3 H4]. simpl in *. split; [congruence|auto].
Qed.

Lemma still_wrap {A} text (m : N E A) : still m → still (wrapN text m).
Proof. intros Hm s. unfold wrapN. specialize (Hm s). by destruct (m s) as [[e|a] s1]. Qed.

Lemma still_try {A} (m : N E A) : still m → still (tryN m).
Proof. intros Hm s. unfold tryN. specialize (Hm s). by destruct (m s) as [[e|a] s1]. Qed.

Lemma still_ret {A} (a : A) : still (retN a).
Proof. done. Qed.

Lemma still_fail {A} e : still (@failN E A e).
Proof. done. Qed.

Hint Resolve still_client still_env still_bind still_wrap still_try still_ret still_fail
  cd_Pull_held cd_GetImage_held : nimbus.

Lemma still_pull ref : still (pullContainerdImage ref).
Proof. unfold pullContainerdImage. auto with nimbus. Qed.

Lemma still_local ref : still (localContainerdImage ref).
Proof. unfold localContainerdImage. auto with nimbus. Qed.

Lemma task_statuses_dom ps id : is_Some (task_statuses ps !! id) ↔ id ∈ task_ID <$> ps.
Proof.
  unfold task_statuses. induction ps as [|p ps IH] using rev_ind; [simpl; rewrite lookup_empty; set_solver|].
  rewrite foldl_snoc, fmap_app, elem_of_app, <- IH. simpl. destruct (decide (task_ID p = id)) as [<-|Hne].
  - rewrite lookup_insert_eq. split; [right; set_solver|eauto].
  - rewrite lookup_insert_ne by done. set_solver.
Qed.

(** The list of tasks, and that listing them changes nothing. *)
Lemma wpN_tasks Q s :
  (∀ r s', held s' = held s → (dials s → connected s') →
     (∀ ps, r = inr ps → ∀ id, id ∈ task_ID <$> ps ↔ held s !! id = Some true) → Q r s') →
  wpN containerdTasks Q s.
Proof.
  intros HQ. apply wpN_bind, wpN_client. intros [err|[]] s1 Hc Hh Hd.
  { apply HQ; [done| |done]. intros Hs. by specialize (Hd Hs). }
  apply wpN_env. intros r e [He Hl]%cd_List_held. apply HQ; unfold held in *; simpl; [congruence|done|].
  intros ps -> id. rewrite <- Hh. by apply Hl.
Qed.

(** The statuses have an entry for exactly the containers with a task. *)
Lemma wpN_statuses Q s :
  dials s →
  (∀ r s', held s' = held s → connected s' →
     (∀ m, r = inr m → ∀ id, is_Some (m !! id) ↔ held s !! id = Some true) → Q r s') →
  wpN listContainerdTaskStatuses Q s.
Proof.
  intros Hd HQ. apply wpN_bind, wpN_tasks. intros [err|ps] s' Hh Hc Hps; [by apply HQ; auto|].
  apply HQ; [done|by apply Hc|]. intros m [= <-] id. rewrite task_statuses_dom. by apply Hps.
Qed.

(** *** Running and removing *)

Context {CA : ContainerdAnswers E}.

(** A call whose success is known. *)
Lemma answered {A} (x : (error + A) * E) r e : x = (r, e) → (∃ u, x.1 = inr u) → ∃ u, r = inr u.
Proof. by intros ->. Qed.

(** The container runs or there is no trace of it.  runContainerdContainer
    succeeds only for an id that was free, and then there is a container with a
    task; when any step fails the containers are what they were before. *)
Lemma run_atomic t spec s :
  wpN (runContainerdContainer t spec) (λ r s',
    (connected s → connected s') ∧
    match r with
    | inr _ => held s !! rs_id spec = None ∧ held s' = <[rs_id spec := true]> (held s)
    | inl _ => held s' = held s
    end) s.
Proof.
  apply wpN_bind, wpN_client. intros [err|[]] s1 Hc Hh Hd; [by split; [intros Hs%connected_dials; specialize (Hd Hs)|]|].
  rewrite <- Hh. clear Hh Hd. apply wpN_bind, wpN_wrap, wpN_env. intros r e He.
  assert (cd_held e = held s1) as Hh by (unfold held; by rewrite <- (os_Hostname_held (hs_env s1)), He).
  rewrite <- Hh. clear Hh He. destruct r as [err|hostname]; [done|].
  apply wpN_bind, wpN_wrap, wpN_env. simpl. intros r e1 Hn%cd_NewContainer_held.
  destruct r as [err|[]]; [done|]. destruct Hn as [Hf Hn].
  apply wpN_bind, wpN_try, wpN_env. simpl. intros r e2 Ht%cd_NewTask_held. destruct r as [err|[]].
  { apply wpN_bind, wpN_try, wpN_env. simpl. intros r e3 Hdel. split; [done|]. unfold held; simpl.
    destruct (answered _ _ _ Hdel) as [u ->]; [apply cd_Delete_ok; by rewrite Ht, Hn, lookup_insert_eq|].
    by rewrite (cd_Delete_held _ _ _ _ Hdel), Ht, Hn, delete_insert_id. }
  apply wpN_bind, wpN_try, wpN_env. simpl. intros r e3 Hs.
  assert (cd_held e3 = cd_held e2) as Hst by (by rewrite <- (cd_Start_held (rs_id spec) e2), Hs).
  rewrite Ht, Hn, insert_insert_eq in Hst. destruct r as [err|[]]; [|by rewrite <- Hst].
  apply wpN_bind, wpN_try, wpN_env. simpl. intros r e4 Htd.
  destruct (answered _ _ _ Htd) as [u ->]; [apply cd_TaskDelete_ok; by rewrite Hst, lookup_insert_eq|].
  apply cd_TaskDelete_held in Htd. rewrite Hst, insert_insert_eq in Htd.
  apply wpN_bind, wpN_try, wpN_env. simpl. intros r e5 Hdel. split; [done|]. unfold held; simpl.
  destruct (answered _ _ _ Hdel) as [u' ->]; [apply cd_Delete_ok; by rewrite Htd, lookup_insert_eq|].
  by rewrite (cd_Delete_held _ _ _ _ Hdel), Htd, delete_insert_id.
Qed.

(** The last step of a removal, once there is no task. *)
Lemma delete_done id e e1 r e2 :
  cd_held e1 = <[id := false]> (cd_held e) ∨ cd_held e1 = cd_held e ∧ cd_held e1 !! id ≠ Some true →
  cd_Delete id e1 = (r, e2) → cd_held e2 = delete id (cd_held e).
Proof.
  intros H1 Hd. assert (delete id (cd_held e1) = delete id (cd_held e)) as <-.
  { destruct H1 as [->|[-> _]]; [by rewrite delete_insert_eq|done]. }
  rewrite (cd_Delete_held _ _ _ _ Hd). destruct r as [err|u]; [|done].
  symmetry. apply delete_id. destruct (cd_held e1 !! id) as [[]|] eqn:Hid; [|..].
  - destruct H1 as [H1|[_ ?]]; [|done]. by rewrite H1, lookup_insert_eq in Hid.
  - apply cd_Delete_ok in Hid as [u Hu]. by rewrite Hd in Hu.
  - done.
Qed.

(** Removing a container removes it with its task, and nothing else; an id that
    is not held is left alone. *)
Lemma remove_exact id s :
  dials s → let s' := removeContainerdContainer id s in connected s' ∧ held s' = delete id (held s).
Proof.
  intros Hs. change (wpN (remove_container id) (λ _ s', connected s' ∧ held s' = delete id (held s)) s).
  apply wpN_bind, wpN_client. intros r0 s1 Hc Hh Hd. rewrite (Hd Hs) in *. rewrite <- Hh. clear r0 Hh Hd Hs.
  apply wpN_bind, wpN_env. intros r e1 Hl.
  assert (cd_held e1 = held s1) as H1 by (unfold held; by rewrite <- (cd_LoadContainer_held id (hs_env s1)), Hl).
  destruct r as [err|[]].
  { split; [done|]. change (cd_held e1 = delete id (held s1)). rewrite H1. symmetry. apply delete_id.
    apply eq_None_not_Some. intros [u Hu]%cd_Load_ok. by rewrite Hl in Hu. }
  rewrite <- H1. apply wpN_bind, wpN_try, wpN_env. simpl. clear Hl. intros r e2 Ht.
  destruct (cd_Task_held _ _ _ _ Ht) as [H2 Hp]. apply wpN_bind.
  enough (wpN (match r with inl _ => retN () | inr _ => bindN (tryN (env (cd_TaskDelete id))) (λ _, retN ()) end)
    (λ r s3, r = inr () ∧ connected s3 ∧ (held s3 = <[id := false]> (cd_held e1) ∨
       held s3 = cd_held e1 ∧ held s3 !! id ≠ Some true)) (MkHost (hs_client s1) e2)) as Hdone.
  { eapply wpN_mono; [exact Hdone|]. intros ? s3 (-> & Hc3 & H3).
    apply wpN_bind, wpN_try, wpN_env. simpl. intros r3 e3 Hdel. split; [done|].
    apply (delete_done id e1 (hs_env s3) r3 e3 H3 Hdel). }
  destruct r as [err|[]].
  - split; [done|]. split; [done|]. right. split; [done|]. simpl. unfold held; simpl. rewrite H2.
    intros [u Hu]%cd_Task_ok. by rewrite Ht in Hu.
  - apply wpN_bind, wpN_try, wpN_env. simpl. intros r e3 Htd. split; [done|]. split; [done|]. left.
    destruct (answered _ _ _ Htd) as [u ->]; [apply cd_TaskDelete_ok; rewrite H2; by apply (Hp ())|].
    unfold held; simpl. by rewrite (cd_TaskDelete_held _ _ _ _ Htd), H2.
Qed.
End Correct.

(** ** The agent on this host *)

Section Node.
Context {E : Type} {CD : Containerd E} {CL : ContainerdLaws E} {CA : ContainerdAnswers E}.
Context {O : OS E} {BE : BuildEnv E} {NE : NodeEnv E} {NN : NodeNeutral E} {Sh : Shuffle}.
Context (cfg : Config).

(** One call of a build: it leaves the containers alone. *)
Ltac build_call H :=
  match goal with
  | |- context [match ?x with (_, _) => _ end] =>
      assert (cd_held x.2 = cd_held _) as H by (first [apply nn_MkdirAll | apply nn_ReadFile | apply nn_WriteFile
        | apply nn_Stat | apply nn_RemoveAll | apply nn_Clone | apply nn_LogCreate | apply nn_Buildctl]);
      destruct x as [[?|?] ?]; simpl in H
  end.

Lemma open_log_held logDir id e : cd_held (open_log logDir id e).2 = cd_held e.
Proof.
  unfold open_log. case_bool_decide; [done|]. build_call H1; [done|]. build_call H2; simpl; congruence.
Qed.

Lemma ensure_dockerfile_held workDir src log e : cd_held (ensure_dockerfile workDir src log e).2 = cd_held e.
Proof.
  unfold ensure_dockerfile. destruct (negb _); [done|]. build_call H1; [|done].
  destruct (negb _); [done|]. unfold detectDockerfile.
  assert (∀ text s, cd_held (write_log log text s) = cd_held s) as Hw
    by (intros; destruct log; simpl; [apply nn_LogWrite|done]).
  build_call H2; [build_call H3; [simpl; congruence|]|];
    (build_call H4; simpl; rewrite ?Hw; congruence).
Qed.

Lemma build_held addr dir log id src e : cd_held (buildImageFromSource addr dir log id src e).2 = cd_held e.
Proof.
  unfold buildImageFromSource. build_call H1; [done|]. build_call H2; [simpl; congruence|].
  build_call H3; [simpl; congruence|].
  match goal with |- context [open_log ?d ?i ?s] => pose proof (open_log_held d i s); destruct (open_log d i s) as [[?|?] ?] end;
    simpl in *; [congruence|].
  match goal with |- context [ensure_dockerfile ?d ?i ?l ?s] =>
    pose proof (ensure_dockerfile_held d i l s); destruct (ensure_dockerfile d i l s) as [[?|?] ?] end;
    simpl in *; [congruence|].
  build_call H6; simpl; congruence.
Qed.

Hint Resolve still_client still_env still_bind still_wrap still_try still_ret still_fail still_pull still_local
  build_held : nimbus.
Hint Extern 1 (cd_held _ = cd_held _) => first [apply nn_MkdirAll | apply nn_Remove | apply nn_Abs] : nimbus.

Lemma still_build_image addr dir log id src : still (build_image addr dir log id src).
Proof. unfold build_image. auto with nimbus. Qed.
Lemma still_prepare_log logDir id : still (prepare_log logDir id).
Proof. unfold prepare_log. auto 10 with nimbus. Qed.
Lemma still_ensureVolumeDir dir ns name : still (ensureVolumeDir dir ns name).
Proof. unfold ensureVolumeDir. auto with nimbus. Qed.

(** A state of the agent whose table is [procs] and whose host holds [h], its
    client being connected. *)
Definition holds (procs : gmap string trackedProcess) (h : gmap string bool) (s : agent_state (host_state E)) : Prop :=
  ag_procs s = procs ∧ connected (ag_host s) ∧ held (ag_host s) = h.

Lemma wp_holds_call {B} (m : N E B) procs h s :
  still m → holds procs h s → wp (hcall m) (λ r s', r ≠ Panic ∧ holds procs h s') s.
Proof.
  intros Hm (Hp & Hc & Hh). apply wp_hcall. destruct (Hm (ag_host s)) as [Hh' Hk].
  split; [by destruct (m _).1|]. split; [done|]. split; simpl; [auto|congruence].
Qed.

Lemma wp_holds_bind {B C} (m : M (agent_state (host_state E)) B) (f : B → M (agent_state (host_state E)) C) procs h Q s :
  wp m (λ r s', r ≠ Panic ∧ holds procs h s') s →
  (∀ s', holds procs h s' → ∀ e, Q (Err e) s') → (∀ s', holds procs h s' → ∀ b, wp (f b) Q s') →
  wp (m ≫= f) Q s.
Proof.
  intros Hm He Hf. apply wp_bind. eapply wp_mono; [exact Hm|]. intros [b|e|] s' [? Hs']; auto.
Qed.

Lemma mounts_hold pod procs h s : holds procs h s → wp (pod_mounts cfg pod) (λ r s', r ≠ Panic ∧ holds procs h s') s.
Proof.
  intros Hs. unfold pod_mounts. destruct (decide _); [by apply wp_ret|].
  generalize (PodSpec_GetVolumes (Pod_Spec pod)) as vols. intros vols. revert s Hs.
  induction vols as [|m vols IH]; intros s Hs; simpl; [by apply wp_ret|].
  apply wp_bind. eapply wp_holds_bind; [by apply wp_holds_call; [apply still_ensureVolumeDir|]|done|].
  intros s' Hs' dir. apply wp_ret. eapply wp_holds_bind; [by apply IH|done|]. intros s'' Hs'' ms. by apply wp_ret.
Qed.

(** The step that runs the container, and records it when it runs. *)
Lemma run_holds spec key pod procs h s :
  h !! rs_id spec = None → holds procs h s →
  wp (hcall (h_RunContainer spec) ≫= λ _, track key pod None None (rs_id spec)) (λ r s',
    match r with Ok _ => held (ag_host s') = <[rs_id spec := true]> h ∧ is_Some (ag_procs s' !! key)
               | _ => held (ag_host s') = h ∧ ag_procs s' = procs end) s.
Proof.
  intros Hf (Hp & Hc & Hh). apply wp_bind, wp_hcall. cbn [h_RunContainer real_host].
  pose proof (run_atomic 0 spec (ag_host s)) as [_ Hr]. rewrite Hh in Hr.
  destruct (runContainerdContainer 0 spec (ag_host s)) as [[e|[]] e']; simpl in *; [done|].
  unfold track. apply wp_bind, wp_get. unfold set_procs. apply wp_bind, wp_get, wp_put. simpl.
  split; [apply Hr|]. rewrite lookup_insert_eq. eauto.
Qed.


(** *** Orphans *)

Definition orphan (wanted : gset string) (id : string) : Prop := HasPrefix id "nimbus-" = true ∧ id ∉ wanted.

(** The loop over the tasks, when those of [seen] have been visited. *)
Definition swept (wanted : gset string) (h0 : gmap string bool) (seen : list string) (s : agent_state (host_state E)) : Prop :=
  connected (ag_host s) ∧
  ∀ id, held (ag_host s) !! id = if decide (id ∈ seen ∧ orphan wanted id) then None else h0 !! id.

Lemma swept_step wanted h0 seen name s :
  swept wanted h0 seen s →
  wp (if negb (HasPrefix name "nimbus-") || bool_decide (name ∈ wanted) then mret ()
      else hdo (h_RemoveContainer name)) (λ r s', r = Ok tt ∧ swept wanted h0 (seen ++ [name]) s') s.
Proof.
  intros [Hc Hs]. destruct (negb _ || _) eqn:Hk.
  - apply wp_ret. split; [done|]. split; [done|]. intros id. rewrite Hs. apply decide_ext.
    apply orb_true_iff in Hk. unfold orphan. rewrite elem_of_app, list_elem_of_singleton.
    split; [tauto|]. intros [[?| ->] [Hp Hw]]; [done|].
    destruct Hk as [Hk|Hk%bool_decide_eq_true]; [by rewrite Hp in Hk|done].
  - apply orb_false_iff in Hk as [Hp%negb_false_iff Hw%bool_decide_eq_false].
    destruct (remove_exact name (ag_host s) (connected_dials _ Hc)) as [Hc' Hh].
    apply wp_hcall. simpl. split; [done|]. split; [done|]. intros id. simpl. rewrite Hh.
    destruct (decide (name = id)) as [<-|Hne].
    + rewrite lookup_delete_eq, decide_True; [done|]. unfold orphan. set_solver.
    + rewrite lookup_delete_ne, Hs by done. apply decide_ext. set_solver.
Qed.

(** Orphans are removed, and only they.  When the tasks can be listed, afterwards
    exactly those containers are gone that have a task, the prefix of the agent
    and no wanted pod: containers of others stay, and so does a container of the
    agent that has no task. *)
Theorem orphans_removed wanted s statuses :
  dials (ag_host s) → (listContainerdTaskStatuses (ag_host s)).1 = inr statuses →
  wp (removeOrphanContainers wanted) (λ r s', r = Ok tt ∧ ∀ id,
    held (ag_host s') !! id =
      if decide (held (ag_host s) !! id = Some true ∧ orphan wanted id) then None else held (ag_host s) !! id) s.
Proof.
  intros Hd Hl. unfold removeOrphanContainers. apply wp_bind, wp_attempt, wp_hcall. simpl.
  destruct (wpN_statuses (λ r s', held s' = held (ag_host s) ∧ connected s' ∧
    (∀ m, r = inr m → ∀ id, is_Some (m !! id) ↔ held (ag_host s) !! id = Some true)) (ag_host s) Hd) as (Hh & Hc & Hm); [auto|].
  rewrite Hl in *. specialize (Hm _ eq_refl). apply wp_bind, wp_range. intros names Hn.
  apply (wp_for_each (λ k s', ∃ seen, names = seen ++ k ∧ swept wanted (held (ag_host s)) seen s')).
  - exists []. split; [done|]. split; [done|]. intros id. rewrite decide_False; [simpl; by rewrite Hh|]. set_solver.
  - intros name k s' (seen & -> & Hs). eapply wp_mono; [by apply swept_step|].
    intros r s'' [-> Hs'']. split; [done|]. exists (seen ++ [name]). by rewrite <- app_assoc.
  - intros s' (seen & Hseen & Hs). rewrite app_nil_r in Hseen. subst seen. split; [done|]. intros id. rewrite (proj2 Hs).
    apply decide_ext. rewrite Hn, <- Hm, list_elem_of_fmap. split.
    + intros [([? x] & -> & Hx%elem_of_map_to_list) ?]. eauto.
    + intros [[x Hx] ?]. split; [|done]. exists (id, x). by rewrite elem_of_map_to_list.
Qed.
End Node.

(** ** The environment and the limits of a container *)

Section Spec.
Context {E : Type} {CD : Containerd E} {Sh : Shuffle}.

Lemma env_keys t (env : gmap string string) :
  let keys := merge_sort String.le (shuffle t (map_to_list env).*1) in
  Sorted String.le keys ∧ keys ≡ₚ (map_to_list env).*1.
Proof. split; [apply Sorted_merge_sort, _|]. by rewrite merge_sort_Permutation, shuffle_perm. Qed.

Lemma envSlice_order t t' env : envSlice t env = envSlice t' env.
Proof.
  unfold envSlice. f_equal. destruct (env_keys t env) as [Hs Hp]. destruct (env_keys t' env) as [Hs' Hp'].
  apply (Sorted_unique String.le); [done..|]. by rewrite Hp, Hp'.
Qed.

(** The container does not depend on the order in which Go iterates over the
    map of the environment: every order gives the same calls and results. *)
Theorem run_order_irrelevant t t' spec s : @runContainerdContainer E _ _ t spec s = runContainerdContainer t' spec s.
Proof.
  unfold runContainerdContainer, specOpts. by rewrite (envSlice_order t t').
Qed.

(** Every variable is passed once, with its value, in the order of the names. *)
Lemma envSlice_exact t env :
  ∃ keys, Sorted String.le keys ∧ NoDup keys ∧ (∀ k, k ∈ keys ↔ is_Some (env !! k)) ∧
    envSlice t env = (λ k, k +:+ "=" +:+ default "" (env !! k)) <$> keys.
Proof.
  destruct (env_keys t env) as [Hs Hp]. eexists. split; [exact Hs|]. split; [|split; [|done]].
  - rewrite Hp. apply NoDup_fst_map_to_list.
  - intros k. rewrite Hp, list_elem_of_fmap. split.
    + intros ([? v] & -> & Hv%elem_of_map_to_list). eauto.
    + intros [v Hv]. exists (k, v). by rewrite elem_of_map_to_list.
Qed.

(** The share of the CPU is the limit: quota over period is millis over 1000, as
    long as the product fits; beyond, the quota wraps around. *)
Lemma cpu_quota t hostname spec :
  0 < rs_cpuMillis spec →
  ∃ quota, WithCPUCFS quota 100000 ∈ specOpts t hostname spec ∧
    (rs_cpuMillis spec ≤ 92233720368547758 → quota * 1000 = rs_cpuMillis spec * 100000) ∧
    (rs_cpuMillis spec = 92233720368547759 → quota < 0).
Proof.
  intros Hp. exists (wrap64 (rs_cpuMillis spec * 100)). split; [|split].
  - unfold specOpts. rewrite (proj2 (Z.ltb_lt _ _) Hp), !elem_of_app, list_elem_of_singleton. auto.
  - intros Hle. rewrite wrap64_id; [lia|]. unfold in_int64. lia.
  - intros ->. done.
Qed.

(** *** A client that could not be dialled *)

(** The error of the first connection stays.  Every later call of the client
    fails with it, without asking containerd, and leaves everything as it is. *)
Lemma client_error_sticky err s :
  hs_client s = Some (inl err) →
  listContainerdTaskStatuses s = (inl err, s) ∧ (∀ id, containerdTaskPID id s = (inl err, s)) ∧
  (∀ ref, pullContainerdImage ref s = (inl err, s)) ∧ (∀ ref, localContainerdImage ref s = (inl err, s)) ∧
  (∀ t spec, runContainerdContainer t spec s = (inl err, s)) ∧ (∀ id, removeContainerdContainer id s = s).
Proof.
  intros Hs. assert (containerdClient s = (inl err, s)) as Hc by (unfold containerdClient; by rewrite Hs).
  repeat split; intros; unfold listContainerdTaskStatuses, containerdTaskPID, containerdTasks, pullContainerdImage,
    localContainerdImage, runContainerdContainer, removeContainerdContainer, remove_container, bindN; by rewrite Hc.
Qed.

(** So a pod with an image is never started again on this node: each attempt
    fails with the old error and does nothing. *)
Theorem dial_error_stops_pods {O : OS E} {BE : BuildEnv E} {NE : NodeEnv E} cfg pod s t err :
  hs_client (ag_host s) = Some (inl err) → Container_GetBuildSource (firstContainer pod) = None →
  startContainerd cfg pod (World s t) = (Err err, World s t).
Proof.
  intros Hs Hb. destruct (client_error_sticky err _ Hs) as (_ & _ & Hpull & _ & _ & Hrm).
  unfold startContainerd. rewrite Hb. unfold mbind, M_mbind, M_bind, hdo, hcall. simpl. rewrite Hrm. simpl.
  rewrite Hpull. by destruct s.
Qed.

End Spec.

(** ** What of a pod reaches the node *)

Section Reach.
Context {E : Type} {HH : Host E} (cfg : Config).

(** The fields of a container that the agent reads, the others being dropped:
    the name, the requests, the security context and the ports. *)
Definition node_container (c : Container) : Container :=
  MkContainer "" (Container_Image c)
    (Some (MkResourceRequirements None (ResourceRequirements_GetLimits (Container_Resources c)))) None
    (Container_Command c) (Container_WasmModulePath c) [] (Container_Env c) (Container_BuildSource c).

(** A pod with those fields of its first container only. *)
Definition node_pod (pod : Pod) : Pod :=
  MkPod (Pod_Metadata pod)
    ((λ sp, MkPodSpec (node_container <$> take 1 (PodSpec_Containers sp)) (PodSpec_NodeName sp) (PodSpec_Volumes sp)
        (PodSpec_RestartPolicy sp)) <$> Pod_Spec pod) (Pod_Status pod).

Definition node_process (tp : trackedProcess) : trackedProcess :=
  MkTrackedProcess (node_pod (tp_pod tp)) (tp_cmd tp) (tp_wasmRuntime tp) (tp_containerID tp) (tp_restarts tp).

(** Two states of the agent that differ at most in fields of recorded pods that
    do not reach the node. *)
Definition alike (w w' : world (agent_state E)) : Prop :=
  let s := w_store w in let s' := w_store w' in
  w_tick w = w_tick w' ∧ ag_host s = ag_host s' ∧ ag_missingStreaks s = ag_missingStreaks s' ∧
  ag_exited s = ag_exited s' ∧ ag_active s = ag_active s' ∧ ag_reports s = ag_reports s' ∧
  node_process <$> ag_procs s = node_process <$> ag_procs s'.

Definition same_run {B} (m m' : M (agent_state E) B) : Prop :=
  ∀ w, (m w).1 = (m' w).1 ∧ alike (m w).2 (m' w).2.

Lemma same_run_refl {B} (m : M (agent_state E) B) : same_run m m.
Proof. done. Qed.

Lemma same_run_bind {B C} (m : M (agent_state E) B) (f f' : B → M (agent_state E) C) :
  (∀ b, same_run (f b) (f' b)) → same_run (m ≫= f) (m ≫= f').
Proof. intros Hf w. unfold mbind, M_mbind, M_bind. destruct (m w) as [[b|e|] w']; [apply Hf|done|done]. Qed.

Lemma node_container_idemp c : node_container (node_container c) = node_container c.
Proof. done. Qed.

Lemma node_pod_idemp pod : node_pod (node_pod pod) = node_pod pod.
Proof. destruct pod as [m [[[|c cs] n v r]|] st]; done. Qed.

Lemma first_node_pod pod : firstContainer (node_pod pod) = node_container <$> firstContainer pod.
Proof. destruct pod as [m [[[|c cs] n v r]|] st]; done. Qed.

Lemma same_track key pod cmd wasm id : same_run (track (E := E) key pod cmd wasm id) (track key (node_pod pod) cmd wasm id).
Proof.
  intros w. split; [done|]. repeat split. simpl. rewrite !fmap_insert. f_equal.
  unfold node_process; simpl. by rewrite node_pod_idemp.
Qed.

(** The getters of the agent see no difference. *)
Lemma node_getters (o : option Container) :
  Container_GetWasmModulePath (node_container <$> o) = Container_GetWasmModulePath o ∧
  Container_GetImage (node_container <$> o) = Container_GetImage o ∧
  Container_GetBuildSource (node_container <$> o) = Container_GetBuildSource o ∧
  Container_GetCommand (node_container <$> o) = Container_GetCommand o ∧
  Container_GetEnv (node_container <$> o) = Container_GetEnv o ∧
  ResourceRequirements_GetLimits (Container_GetResources (node_container <$> o)) =
    ResourceRequirements_GetLimits (Container_GetResources o).
Proof. by destruct o. Qed.

Lemma node_mounts pod : pod_mounts cfg (node_pod pod) = pod_mounts cfg pod.
Proof. by destruct pod as [m [[cs n v r]|] st]. Qed.

Lemma same_containerd pod : same_run (startContainerd cfg pod) (startContainerd cfg (node_pod pod)).
Proof.
  unfold startContainerd. rewrite first_node_pod, node_mounts.
  destruct (node_getters (firstContainer pod)) as (_ & -> & -> & -> & -> & ->).
  repeat first [apply same_track | apply same_run_bind; intros ?].
Qed.

Lemma same_process pod : same_run (startProcess pod) (startProcess (node_pod pod)).
Proof.
  unfold startProcess. rewrite first_node_pod. destruct (node_getters (firstContainer pod)) as (_ & _ & _ & -> & _).
  destruct (Container_GetCommand _); [apply same_run_refl|]. apply same_run_bind; intros ?. apply same_track.
Qed.

Lemma same_wasm pod path : same_run (startWASM pod path) (startWASM (node_pod pod) path).
Proof. unfold startWASM. repeat first [apply same_track | apply same_run_bind; intros ?]. Qed.

(** Only those fields matter.  Starting a pod and starting the pod reduced to
    what reaches the node make the same calls with the same results: further
    containers of the pod are not run, and the security contexts that admission
    insists on are not applied to the container that is. *)
Theorem only_node_fields_matter pod : same_run (start cfg pod) (start cfg (node_pod pod)).
Proof.
  unfold start. rewrite first_node_pod. destruct (node_getters (firstContainer pod)) as (-> & -> & -> & _).
  destruct (negb _); [apply same_wasm|]. destruct (_ || _); [apply same_containerd|apply same_process].
Qed.
End Reach.

(** ** Witnesses *)

Module ContainerdDemo.
Import MemFs BuildDemo.

(** A node with a daemon and a file system in memory.  The daemon pulls every
    image and has a task for a container as long as it is not deleted; the
    container of the pod "bad" cannot be started. *)
Abbreviation node := (gmap string bool * fs)%type.

Definition files {A} (f : fs → A * fs) (e : node) : A * node := let '(r, s) := f e.2 in (r, (e.1, s)).
Definition files_do (f : fs → fs) (e : node) : node := (e.1, f e.2).

#[export] Instance demo_os : OS node := {|
  os_MkdirAll p := files (os_MkdirAll p);
  os_ReadDir p := files (os_ReadDir p);
  os_EntryInfo p n := files (os_EntryInfo p n);
  os_ReadFile p := files (os_ReadFile p);
  os_WriteFile p b := files (os_WriteFile p b);
  os_Stat p := files (os_Stat p);
  os_Lstat p := files (os_Lstat p);
  os_Remove p := files (os_Remove p);
  os_RemoveAll p := files (os_RemoveAll p);
  os_Symlink old p := files (os_Symlink old p);
  os_IsNotExist := os_IsNotExist;
  os_ErrorText := os_ErrorText;
|}.

#[export] Instance demo_build_node : BuildEnv node := {|
  git_PlainClone dir opts := files (git_PlainClone dir opts);
  log_Create p := files (log_Create p);
  log_Write p text := files_do (log_Write p text);
  buildctl_Run args log := files (buildctl_Run args log);
  package_Unmarshal := package_Unmarshal;
  json_String := json_String;
  GetCloneToken := GetCloneToken;
|}.

Definition no_such (what : string) : error := Errorf (what +:+ " not found").

#[export] Instance demo_containerd : Containerd node := {|
  cd_New _ _ e := (inr (), e);
  cd_Pull ref e := (inr ref, e);
  cd_GetImage ref e := (inr ref, e);
  os_Hostname e := (inr "node-1", e);
  cd_NewContainer id _ _ e :=
    match e.1 !! id with Some _ => (inl (Errorf "already exists"), e) | None => (inr (), (<[id := false]> e.1, e.2)) end;
  cd_NewTask id _ e :=
    match e.1 !! id with Some false => (inr (), (<[id := true]> e.1, e.2)) | _ => (inl (no_such id), e) end;
  cd_Start id e := if bool_decide (id = "nimbus-default-bad") then (inl (Errorf "exec format error"), e) else (inr (), e);
  cd_LoadContainer id e := match e.1 !! id with Some _ => (inr (), e) | None => (inl (no_such id), e) end;
  cd_Task id e := match e.1 !! id with Some true => (inr (), e) | _ => (inl (no_such id), e) end;
  cd_TaskDelete id e := match e.1 !! id with Some true => (inr (), (<[id := false]> e.1, e.2)) | _ => (inl (no_such id), e) end;
  cd_Delete id e := match e.1 !! id with Some false => (inr (), (delete id e.1, e.2)) | _ => (inl (no_such id), e) end;
  cd_List e := (inr ((λ id, MkTask id 100 TASK_RUNNING) <$> (map_to_list (filter (λ kv, kv.2 = true) e.1)).*1), e);
|}.

#[export] Instance demo_node : NodeEnv node := {|
  nd_ListPods e := (inr [], e);
  nd_ListServices e := (inr [], e);
  nd_UpdatePodStatus _ e := (inr (), e);
  nd_Exec _ e := (inr 7, e);
  nd_Kill _ e := e;
  nd_RSS _ e := (inr 4096, e);
  nd_Listen _ e := (inr (), e);
  nd_CloseListener _ e := e;
  nd_WasmNew e := (inr 1, e);
  nd_WasmClose _ e := e;
  filepath_Abs p e := (inr (path_Join ["/root"; p]), e);
  os_TempDir := "/tmp";
|}.

#[export] Program Instance demo_laws : ContainerdLaws node := {| cd_held e := e.1 |}.
Solve All Obligations with (simpl; intros; repeat case_match; simplify_eq/=; eauto).
Next Obligation.
  simpl. intros id e r e' H. repeat case_match; simplify_eq/=; (split; [done|]); intros; simplify_eq; done.
Qed.
Next Obligation.
  simpl. intros e r e' [= <- <-]. split; [done|]. intros ps [= <-] id. split.
  - intros ([? ? ?] & -> & (x & [= <- _ _] & ([? ?] & -> & Hx)%list_elem_of_fmap)%list_elem_of_fmap)%list_elem_of_fmap.
    apply elem_of_map_to_list, map_lookup_filter_Some in Hx as [Hx Ht]. simpl in *. congruence.
  - intros Hid. rewrite <- list_fmap_compose. apply list_elem_of_fmap. exists id. split; [done|].
    apply list_elem_of_fmap. exists (id, true). split; [done|]. by apply elem_of_map_to_list, map_lookup_filter_Some.
Qed.

#[export] Instance demo_answers : ContainerdAnswers node.
Proof.
  split; simpl; [intros id e [b ->]; eauto|intros id e ->; eauto..].
Qed.

Lemma files_held {A} (f : fs → A * fs) e : (files f e).2.1 = e.1.
Proof. unfold files. by destruct (f e.2). Qed.

#[export] Instance demo_neutral : NodeNeutral node.
Proof. split; intros; simpl; try apply files_held; done. Qed.

Definition cfg : Config := MkConfig "node-1" "10.0.0.1" "/var/log/nimbus" "" "" "/var/lib/nimbus" false.

Definition privileged : SecurityContext := MkSecurityContext "unconfined" ["SYS_ADMIN"] true true false.

Definition web (name : string) : Pod :=
  MkPod (Some (MkObjectMeta name "default" "" "" ∅ 0))
    (Some (MkPodSpec [MkContainer "web" "nginx" None (Some privileged) [] "" [] {["B" := "2"; "A" := "1"]} None]
             "node-1" [MkVolumeMount "data" "/data" true] RESTART_POLICY_ALWAYS)) None.

Definition fresh_agent (held : gmap string bool) : agent_state (host_state node) :=
  MkAgentState ∅ ∅ [] ∅ [] (MkHost None (held, ∅)).

#[local] Instance demo_shuffle : Shuffle := shuffle_alt.

Definition held0 : gmap string bool := {["nimbus-default-web" := true; "nimbus-default-bad" := true; "buildkitd" := true; "nimbus-x" := false]}.
Definition agent0 : agent_state (host_state node) := fresh_agent held0.

Lemma agent0_dials : dials (ag_host agent0).
Proof. vm_compute. reflexivity. Qed.


(** The restarted container is wanted, the others of the agent that run are not. *)
Lemma orphans_removed_witness :
  let h := held (ag_host (w_store (removeOrphanContainers {["nimbus-default-web"]} (World agent0 0)).2)) in
  h !! "nimbus-default-bad" = None ∧ h !! "nimbus-default-web" = Some true ∧ h !! "nimbus-x" = Some false ∧ h !! "buildkitd" = Some true.
Proof.
  destruct (orphans_removed {["nimbus-default-web"]} agent0
    {["nimbus-default-web" := true; "nimbus-default-bad" := true; "buildkitd" := true]} agent0_dials) with (t := 0%nat) as [_ [_ H]].
  - vm_compute. reflexivity.
  - cbv zeta. rewrite !H. vm_compute. done.
Defined.

Lemma dial_error_stops_pods_witness :
  let s := MkAgentState ∅ ∅ [] ∅ [] (MkHost (Some (inl (Errorf "connection refused"))) (∅, ∅)) in
  startContainerd cfg (web "web") (World s 0) = (Err (Errorf "connection refused"), World s 0).
Proof. apply (dial_error_stops_pods cfg (web "web")); reflexivity. Defined.

(** What containerd is asked to run. *)
Lemma spec_example :
  specOpts 1 "node-1" (MkRunSpec "id" "img" [] {["B" := "2"; "A" := "1"]} 500 0 [] "") =
  [WithDefaultSpec; WithDefaultUnixDevices; WithImageConfig "img"; WithEnv ["A=1"; "B=2"]; WithHostNamespace "network";
   WithHostHostsFile; WithHostResolvconf; WithEnv ["HOSTNAME=node-1"]; WithCPUCFS 50000 100000].
Proof. vm_compute. reflexivity. Qed.

End ContainerdDemo.
