(* ===== verification/Cli.v ===== *)
(** * Cli: the command line client and the flags of the servers

    cmd/nimbusctl (config.go, client.go, get.go, apply.go, run.go, delete.go,
    main.go), splitCSV and defaultNodeID of cmd/nimbus-apiserver/main.go and
    parseAccelerators of cmd/nimbus-agent/main.go.  A command enrols with the
    control plane as a client and calls one method of the API, through the
    interceptor of the server.  Not modelled: cobra, the alignment of the tables
    and the TLS handshake.  JSON on the configuration and on manifests is
    [ConfigCodec] and [ManifestCodec]. *)

From stdpp Require Import gmap strings list pretty.
From Stdlib Require Import Ascii ZArith Lia.
From S2P Require Import Prelude Api Codec Store Registry Cluster Admission Rbac Services System Text Path Http Identity.

Local Open Scope Z_scope.

(** ** The configuration file (config.go) *)

Record nimbusConfig := MkNimbusConfig {
  nc_ControlPlaneAddr : string; nc_JoinToken : string; nc_ClientName : string;
}.

Definition noConfig : nimbusConfig := MkNimbusConfig "" "" "".

Definition config_text (c : nimbusConfig) : bool :=
  ascii_text (nc_ControlPlaneAddr c) && ascii_text (nc_JoinToken c) && ascii_text (nc_ClientName c).

(** encoding/json on [nimbusConfig]. *)
Class ConfigCodec := {
  config_Marshal : nimbusConfig → result bytes;
  config_Unmarshal : bytes → result nimbusConfig;
  config_roundtrip : ∀ c b, config_text c → config_Marshal c = Ok b → config_Unmarshal b = Ok c;
}.

Fixpoint firstNonEmpty (vals : list string) : string :=
  match vals with
  | [] => ""
  | v :: vals => if bool_decide (v = "") then firstNonEmpty vals else v
  end.

Section Config.
Context {CC : ConfigCodec} {E : Type} {O : OS E}.

(** [home] is what os.UserHomeDir returns. *)
Definition configPath (home : result string) : result string :=
  h ← wrap_result "resolve home directory" home;
  Ok (path_Join [h; ".nimbus"; "config.json"]).

Definition loadConfig (home : result string) (s : E) : nimbusConfig * E :=
  match configPath home with
  | Ok path =>
    match os_ReadFile path s with
    | (inl _, s) => (noConfig, s)
    | (inr raw, s) => (match config_Unmarshal raw with Ok cfg => cfg | _ => noConfig end, s)
    end
  | _ => (noConfig, s)
  end.

Definition saveConfig (home : result string) (cfg : nimbusConfig) (s : E) : result string * E :=
  match configPath home with
  | Panic => (Panic, s)
  | Err e => (Err e, s)
  | Ok path =>
    match os_MkdirAll (Dir path) s with
    | (inl e, s) => (Err (Wrapf "create" e), s)
    | (inr _, s) =>
      match config_Marshal cfg with
      | Panic => (Panic, s)
      | Err e => (Err e, s)
      | Ok raw =>
        match os_WriteFile path raw s with
        | (inl e, s) => (Err (Wrapf "write" e), s)
        | (inr _, s) => (Ok path, s)
        end
      end
    end
  end.

(** The fields that set-context changes are those that were given. *)
Definition merge_config (addr token name : string) (cfg : nimbusConfig) : nimbusConfig :=
  MkNimbusConfig (if bool_decide (addr = "") then nc_ControlPlaneAddr cfg else addr)
    (if bool_decide (token = "") then nc_JoinToken cfg else token)
    (if bool_decide (name = "") then nc_ClientName cfg else name).

Definition set_context (home : result string) (addr token name : string) (s : E) : result string * E :=
  if bool_decide (addr = "") && bool_decide (token = "") && bool_decide (name = "")
  then (Err (Errorf "nothing to save"), s)
  else let '(cfg, s) := loadConfig home s in saveConfig home (merge_config addr token name cfg) s.

End Config.

(** [host] is what os.Hostname returns. *)
Definition defaultClientName (host : result string) : string :=
  "nimbusctl-" +:+ match host with Ok h => if bool_decide (h = "") then "client" else h | _ => "client" end.

(** nimbus-apiserver defaultNodeID and nimbus-agent defaultNodeName *)
Definition defaultNodeID (host : result string) : string :=
  match host with Ok h => if bool_decide (h = "") then "node" else h | _ => "node" end.

Record clientConfig := MkClientConfig { cc_controlPlaneAddr : string; cc_joinToken : string; cc_clientName : string }.

(** main: a flag, if given, else the environment, else the file. *)
Definition client_flags (flagAddr flagToken flagName : option string) (envAddr envToken : string)
    (host : result string) (cfg : nimbusConfig) : clientConfig :=
  MkClientConfig
    (default (firstNonEmpty [envAddr; nc_ControlPlaneAddr cfg]) flagAddr)
    (default (firstNonEmpty [envToken; nc_JoinToken cfg]) flagToken)
    (default (firstNonEmpty [nc_ClientName cfg; defaultClientName host]) flagName).

(** ** Flags of the servers *)

Definition splitCSV (s : string) : list string :=
  if bool_decide (s = "") then []
  else filter (λ p, p ≠ "") (TrimSpace <$> Split ","%char s).

(** parseAccelerators; an error ends the process ([log.Fatal]). *)
Fixpoint accelerator_entries (l : list string) (out : gmap string Z) : result (gmap string Z) :=
  match l with
  | [] => Ok out
  | entry :: l =>
    let entry := TrimSpace entry in
    if bool_decide (entry = "") then accelerator_entries l out
    else
    match Cut "="%char entry with
    | None => Err (Errorf "agent: invalid -accelerators entry, want name=count")
    | Some (name, countStr) =>
      match parse_int64 (TrimSpace countStr) with
      | None => Err (Errorf "agent: invalid count in -accelerators entry")
      | Some count => accelerator_entries l (<[TrimSpace name := count]> out)
      end
    end
  end.

Definition parseAccelerators (s : string) : result (gmap string Z) :=
  if bool_decide (s = "") then Ok ∅ else accelerator_entries (Split ","%char s) ∅.

(** ** The connection (client.go) *)

Section Client.
Context {X : X509} {SP : Spiffe} {SI : SpiffeIDs}.

(** [newClient] is grpc.NewClient, which fails on a malformed address. *)
Definition dial (gen : result priv) (request : string → der → string → SVIDRole → result RequestSVIDResponse)
    (newClient : string → result unit) (cfg : clientConfig) : result SVID :=
  if bool_decide (cc_controlPlaneAddr cfg = "") then Err (Errorf "--control-plane-addr (or $NIMBUS_API_ADDR) is required")
  else if bool_decide (cc_joinToken cfg = "") then Err (Errorf "--join-token (or $NIMBUS_JOIN_TOKEN) is required")
  else
  '(svid, _) ← wrap_result "enroll with control plane"
                 (Enroll gen request (cc_joinToken cfg) (cc_clientName cfg) SVID_ROLE_CLIENT);
  _ ← SVID_ID svid;
  _ ← wrap_result "dial" (newClient (cc_controlPlaneAddr cfg));
  Ok svid.

(** What the server sees of a caller with that identity. *)
Definition peer_of (svid : SVID) : call_context :=
  Some (TLSInfo [[MkCertificate (tm_URIs (cert_fields (sv_cert svid)))]]).

(** ** Commands *)

(** encoding/json on the envelope of a manifest, protojson on its object. *)
Class ManifestCodec := {
  manifest_Kind : bytes → result string;
  manifest_Pod : bytes → result Pod;
  manifest_Deployment : bytes → result Deployment;
  manifest_Node : bytes → result Node;
  manifest_Service : bytes → result Service;
}.

Context {MC : ManifestCodec}.
Context {S : Type} `{!Store S} {Sh : Shuffle} {CE : CelEnv}.
Context `{AM : !ApiMessages, MM : !MoreMessages}.
Context (expect : ID → result unit) (authz : Authorizer) (chain : list (Validator S CE)).

(** A call over the connection: the interceptor of the server, then the handler. *)
Definition call {A} (svid : SVID) (method : string) (handler : M S A) : M S A :=
  AuthInterceptor expect authz (peer_of svid) ("/nimbuscore.v1." +:+ method) handler.

(** A row of the table of [get]. *)
Abbreviation row := (list string).

Definition PodPhase_String (p : PodPhase) : string :=
  match p with
  | POD_PHASE_UNSPECIFIED => "POD_PHASE_UNSPECIFIED"
  | POD_PHASE_PENDING => "POD_PHASE_PENDING"
  | POD_PHASE_RUNNING => "POD_PHASE_RUNNING"
  | POD_PHASE_SUCCEEDED => "POD_PHASE_SUCCEEDED"
  | POD_PHASE_FAILED => "POD_PHASE_FAILED"
  | POD_PHASE_UNKNOWN => "POD_PHASE_UNKNOWN"
  | PodPhase_Other n => pretty n
  end.

Definition pod_row (p : Pod) : row :=
  [ObjectMeta_GetName (Pod_Metadata p); ObjectMeta_GetNamespace (Pod_Metadata p);
   PodPhase_String (PodStatus_GetPhase (Pod_Status p)); PodSpec_GetNodeName (Pod_Spec p);
   pretty (PodStatus_GetRestartCount (Pod_Status p))].

Definition bool_String (b : bool) : string := if b then "true" else "false".

Definition node_row (n : Node) : row :=
  let st := Node_Status n in
  [ObjectMeta_GetName (Node_Metadata n); bool_String (NodeStatus_GetReady st); NodeStatus_GetInternalIp st;
   pretty (ResourceList_GetCpuMillis (NodeStatus_GetAllocatable st)) +:+ "m";
   pretty (ResourceList_GetMemoryBytes (NodeStatus_GetAllocatable st))].

Definition endpoint_String (e : ServiceEndpoint) : string :=
  ServiceEndpoint_NodeIp e +:+ ":" +:+ pretty (ServiceEndpoint_NodePort e).

Definition service_row (s : Service) : row :=
  let endpoints := Join "," (endpoint_String <$> ServiceStatus_GetEndpoints (Service_Status s)) in
  [ObjectMeta_GetName (Service_Metadata s); ObjectMeta_GetNamespace (Service_Metadata s);
   pretty (ServiceSpec_GetPort (Service_Spec s));
   if bool_decide (endpoints = "") then "<none>" else endpoints].

Definition deployment_row (d : Deployment) : row :=
  [ObjectMeta_GetName (Deployment_Metadata d); ObjectMeta_GetNamespace (Deployment_Metadata d);
   pretty (DeploymentSpec_GetReplicas (Deployment_Spec d));
   pretty (DeploymentStatus_GetReadyReplicas (Deployment_Status d))].

Definition get_cmd (conn : result SVID) (resource namespace : string) (allNamespaces : bool) : M S (list row) :=
  svid ← lift conn;
  let ns := if allNamespaces then "" else namespace in
  if bool_decide (resource ∈ ["pods"; "pod"]) then
    items ← call svid "PodService/ListPods" (ListPods ns);
    mret (["NAME"; "NAMESPACE"; "PHASE"; "NODE"; "RESTARTS"] :: (pod_row <$> items))
  else if bool_decide (resource ∈ ["nodes"; "node"]) then
    items ← call svid "NodeService/ListNodes" ListNodes;
    mret (["NAME"; "READY"; "INTERNAL-IP"; "CPU-ALLOCATABLE"; "MEMORY-ALLOCATABLE"] :: (node_row <$> items))
  else if bool_decide (resource ∈ ["deployments"; "deployment"; "deploy"]) then
    items ← call svid "DeploymentService/ListDeployments" (ListDeployments ns);
    mret (["NAME"; "NAMESPACE"; "REPLICAS"; "READY"] :: (deployment_row <$> items))
  else if bool_decide (resource ∈ ["services"; "service"; "svc"]) then
    items ← call svid "ServiceService/ListServices" (ListServices ns);
    mret (["NAME"; "NAMESPACE"; "PORT"; "ENDPOINTS"] :: (service_row <$> items))
  else fail (Errorf "unknown resource").

Definition delete_cmd (conn : result SVID) (resource name namespace : string) : M S string :=
  svid ← lift conn;
  if bool_decide (resource ∈ ["pods"; "pod"]) then
    _ ← call svid "PodService/DeletePod" (DeletePod namespace name); mret ("pod/" +:+ name +:+ " deleted")
  else if bool_decide (resource ∈ ["nodes"; "node"]) then
    _ ← call svid "NodeService/DeleteNode" (DeleteNode name); mret ("node/" +:+ name +:+ " deleted")
  else if bool_decide (resource ∈ ["deployments"; "deployment"; "deploy"]) then
    _ ← call svid "DeploymentService/DeleteDeployment" (DeleteDeployment namespace name);
    mret ("deployment/" +:+ name +:+ " deleted")
  else fail (Errorf "unknown resource").

(** What a create call says, with the policy cache of the server. *)
Definition said {T} (f : T → string) (r : cache * result T) : cache * result string :=
  (r.1, t ← r.2; Ok (f t)).

Definition applied (kind verb : string) (m : option ObjectMeta) : string := kind +:+ "/" +:+ ObjectMeta_GetName m +:+ verb.

Definition CreatePod_call (svid : SVID) (verb : string) (pod : Pod) (c : cache) : M S (cache * result string) :=
  r ← call svid "PodService/CreatePod" (CreatePod chain (Some pod) c);
  mret (said (λ p, applied "pod" verb (Pod_Metadata p)) r).

Definition CreateDeployment_call (svid : SVID) (verb : string) (d : Deployment) (c : cache) : M S (cache * result string) :=
  r ← call svid "DeploymentService/CreateDeployment" (CreateDeployment chain (Some d) c);
  mret (said (λ d, applied "deployment" verb (Deployment_Metadata d)) r).

(** apply: [file] is what os.ReadFile returned. *)
Definition apply_cmd (conn : result SVID) (file : error + bytes) (c : cache) : M S (cache * result string) :=
  match file with
  | inl e => fail (Wrapf "read" e)
  | inr raw =>
    kind ← lift (wrap_result "parse" (manifest_Kind raw));
    if bool_decide (kind = "") then fail (Errorf "missing required kind field (Pod, Deployment, Node, Service)")
    else
    svid ← lift conn;
    if bool_decide (kind = "Pod") then
      pod ← lift (wrap_result "parse Pod manifest" (manifest_Pod raw)); CreatePod_call svid " applied" pod c
    else if bool_decide (kind = "Deployment") then
      d ← lift (wrap_result "parse Deployment manifest" (manifest_Deployment raw)); CreateDeployment_call svid " applied" d c
    else if bool_decide (kind = "Node") then
      n ← lift (wrap_result "parse Node manifest" (manifest_Node raw));
      n ← call svid "NodeService/CreateNode" (CreateNode (Some n));
      mret (c, Ok (applied "node" " applied" (Node_Metadata n)))
    else if bool_decide (kind = "Service") then
      s ← lift (wrap_result "parse Service manifest" (manifest_Service raw));
      s ← call svid "ServiceService/CreateService" (CreateService (Some s));
      mret (c, Ok (applied "service" " applied" (Service_Metadata s)))
    else fail (Errorf "unsupported kind")
  end.

(** run: the arguments before and after the dash. *)
Definition run_args (args : list string) (dash : option nat) : result (string * list string) :=
  let nameArgs := match dash with Some n => take n args | None => args end in
  let command := match dash with Some n => drop n args | None => [] end in
  match nameArgs with
  | [name] => Ok (name, command)
  | _ => Err (Errorf "expected exactly one resource name")
  end.

Definition run_container (name image : string) (command : list string) (ports : list Z) : Container :=
  MkContainer name image None None command "" ports ∅ None.

Definition run_pod (name namespace : string) (c : Container) : Pod :=
  MkPod (Some (MkObjectMeta name namespace "" "" {["app" := name]} 0))
    (Some (MkPodSpec [c] "" [] (PodSpec_RestartPolicy PodSpec_zero))) None.

Definition run_deployment (name namespace : string) (replicas : Z) (c : Container) : Deployment :=
  MkDeployment (Some (MkObjectMeta name namespace "" "" ∅ 0))
    (Some (MkDeploymentSpec replicas {["app" := name]}
      (Some (MkPodSpec [c] "" [] (PodSpec_RestartPolicy PodSpec_zero))) 0 0)) None.

Definition run_cmd (conn : result SVID) (args : list string) (dash : option nat) (image namespace : string)
    (replicas : Z) (ports : list Z) (c : cache) : M S (cache * result string) :=
  '(name, command) ← lift (run_args args dash);
  let container := run_container name image command ports in
  svid ← lift conn;
  if replicas <=? 1 then CreatePod_call svid " created" (run_pod name namespace container) c
  else CreateDeployment_call svid " created" (run_deployment name namespace replicas container) c.

End Client.

(** ** The configuration *)

Section ConfigCorrect.
Context {CC : ConfigCodec} {E : Type} {O : OS E} {L : OSLaws E}.

Lemma save_load_config home cfg s path s' :
  config_text cfg → saveConfig home cfg s = (Ok path, s') → loadConfig home s' = (cfg, s').
Proof.
  intros Ht. unfold saveConfig, loadConfig. destruct (configPath home) as [p| |]; [|done..].
  destruct (os_MkdirAll _ s) as [[?|?] s1]; [done|]. destruct (config_Marshal cfg) as [raw| |] eqn:Hm; [|done..].
  destruct (os_WriteFile p raw s1) as [[?|[]] s2] eqn:Hw; [done|]. intros [= <- <-].
  by rewrite (os_write_read _ _ _ _ Hw), (config_roundtrip _ _ Ht Hm).
Qed.

(** Set-context saves what it was given and keeps the rest.  It refuses to run
    without an argument; otherwise, once it succeeds, the next command finds
    the given fields changed and the others as they were. *)
Theorem set_context_roundtrip home addr token name s r s' :
  set_context home addr token name s = (r, s') →
  config_text (merge_config addr token name (loadConfig home s).1) →
  (addr = "" ∧ token = "" ∧ name = "" → s' = s ∧ ∀ p, r ≠ Ok p) ∧
  (∀ p, r = Ok p → loadConfig home s' = (merge_config addr token name (loadConfig home s).1, s')).
Proof.
  unfold set_context. intros H Ht. split.
  - intros (-> & -> & ->). simpl in H. by injection H as <- <-.
  - intros p ->. destruct (_ && _ && _); [done|]. destruct (loadConfig home s) as [cfg s1].
    by apply save_load_config in H.
Qed.

End ConfigCorrect.

(** ** The flags *)

Lemma filter_all {A} (P : A → Prop) `{!∀ x, Decision (P x)} (l : list A) : Forall P l → filter P l = l.
Proof. induction 1 as [|x l Hx Hl IH]; [done|]. rewrite filter_cons_True by done. by rewrite IH. Qed.

Lemma fmap_id_on {A} (f : A → A) l : Forall (λ x, f x = x) l → f <$> l = l.
Proof. induction 1 as [|x l Hx Hl IH]; [done|]. by rewrite fmap_cons, Hx, IH. Qed.

(** SplitCSV reads back any list of words.  Words that are not empty, have no
    comma and no white space around them survive being joined by commas, and
    nothing that splitCSV returns is empty. *)
Theorem splitCSV_words :
  (∀ l, Forall (λ w, w ≠ "" ∧ contains_char ","%char w = false ∧ TrimSpace w = w) l → splitCSV (Join "," l) = l) ∧
  ∀ s, "" ∉ splitCSV s.
Proof.
  split.
  - intros l Hl. unfold splitCSV. case_bool_decide as He.
    { destruct l as [|w l]; [done|]. inv Hl as [|?? (Hw & _)]. destruct l as [|w' l]; simpl in He; [done|].
      destruct w; done. }
    assert (l ≠ []) as Hne by (by intros ->).
    rewrite (Split_Join ","%char) by (done || (eapply Forall_impl; [exact Hl|naive_solver])).
    rewrite fmap_id_on by (eapply Forall_impl; [exact Hl|naive_solver]).
    apply filter_all. eapply Forall_impl; [exact Hl|naive_solver].
  - intros s. unfold splitCSV. case_bool_decide; [apply not_elem_of_nil|]. rewrite list_elem_of_filter. naive_solver.
Qed.

(** One entry of the flag -accelerators. *)
Definition accelerator_entry (e : string * Z) : string := e.1 +:+ "=" +:+ pretty e.2.

Definition entry_ok (e : string * Z) : Prop :=
  contains_char ","%char e.1 = false ∧ contains_char "="%char e.1 = false ∧ spaceless e.1 ∧ 0 ≤ e.2 < 2 ^ 63.

Lemma accelerator_entries_list l out :
  Forall entry_ok l →
  accelerator_entries (accelerator_entry <$> l) out = Ok (foldl (λ m e, <[e.1 := e.2]> m) out l).
Proof.
  intros Hl. revert out. induction Hl as [|[n k] l (H1 & H2 & H3 & H4) Hl IH]; intros out; [done|].
  simpl in H1, H2, H3, H4. cbn [fmap list_fmap accelerator_entries foldl].
  cbv zeta. change (accelerator_entry (n, k)) with (n +:+ "=" +:+ pretty k).
  rewrite (TrimSpace_spaceless (n +:+ "=" +:+ pretty k)).
  2: { apply spaceless_app; [done|]. apply spaceless_app; [|apply spaceless_pretty]. intros c Hc. simpl.
       rewrite bool_decide_eq_false_2; [done|]. by intros <-. }
  rewrite bool_decide_eq_false_2 by (by destruct n).
  rewrite (proj2 (Cut_Some "="%char (n +:+ "=" +:+ pretty k) n (pretty k))) by done.
  rewrite (TrimSpace_spaceless (pretty k)) by apply spaceless_pretty.
  change (parse_int64 (pretty k)) with (Atoi (pretty k)). rewrite Atoi_pretty_Z by done.
  rewrite (TrimSpace_spaceless n) by done. apply IH.
Qed.

(** The flag -accelerators round-trips.  A list of names and counts, printed as
    name=count with commas, is read as the map from each name to its last
    count. *)
Theorem accelerators_roundtrip l :
  l ≠ [] → Forall entry_ok l →
  parseAccelerators (Join "," (accelerator_entry <$> l)) = Ok (foldl (λ m e, <[e.1 := e.2]> m) ∅ l).
Proof.
  intros Hne Hl. unfold parseAccelerators.
  assert (accelerator_entry <$> l ≠ []) as Hne' by (by destruct l).
  assert (Forall (λ w, contains_char ","%char w = false) (accelerator_entry <$> l)) as Hc.
  { rewrite Forall_fmap. eapply Forall_impl; [exact Hl|]. intros [n k] (H1 & _). unfold accelerator_entry, compose. simpl.
    simpl in H1. rewrite !contains_char_app, H1. simpl. by apply contains_pretty. }
  rewrite (bool_decide_eq_false_2 (Join _ _ = _)).
  - rewrite (Split_Join ","%char) by done. by apply accelerator_entries_list.
  - intros H. pose proof (Split_Join ","%char _ Hne' Hc) as Hs. change (char ",") with "," in Hs. rewrite H in Hs.
    destruct l as [|[n k] [|]]; [done| |done]. injection Hs as Hs. by destruct n.
Qed.

(** ** Commands against the default bindings *)

Section ClientCorrect.
Context {X : X509} {XL : X509Laws} {SP : Spiffe} {SI : SpiffeIDs} {MC : ManifestCodec}.
Context {S : Type} `{!Store S, !StoreLaws S} {Sh : Shuffle} {CE : CelEnv}.
Context `{AM : !ApiMessages, AL : !ApiLaws, MM : !MoreMessages, ML : !MoreLaws}.
Context (expect : ID → result unit) (chain : list (Validator S CE)).

(** An identity that the server accepts as a client of that name. *)
Definition client_identity (svid : SVID) (name : string) : Prop :=
  ∃ id, PeerSPIFFEID (peer_of svid) = Ok id ∧ id_Path id = "/client/" +:+ name ∧ expect id = Ok ().

(** A dialled connection has the identity that the cluster issued. *)
Lemma dial_client svc gen serial now newClient cfg svid :
  dial gen (RequestSVID svc serial now) newClient cfg = Ok svid →
  (∀ id, id_TrustDomain id = ca_trustDomain (is_ca svc) → expect id = Ok ()) →
  client_identity svid (cc_clientName cfg) ∧ cc_joinToken cfg = is_joinToken svc.
Proof.
  unfold dial. intros H He. case_bool_decide as Ha; [done|]. case_bool_decide as Hj; [done|].
  apply result_bind_Ok in H as ([svid' dek] & H1 & H). apply result_bind_Ok in H as (id & _ & H).
  apply result_bind_Ok in H as (u & _ & [= <-]). apply wrap_result_Ok in H1. unfold Enroll in H1.
  apply result_bind_Ok in H1 as ([csrDER key] & _ & H1). apply result_bind_Ok in H1 as (resp & Hr%wrap_result_Ok & H1).
  apply result_bind_Ok in H1 as (c & Hc%wrap_result_Ok & H1). apply result_bind_Ok in H1 as (ca & _ & [= <- _]).
  rewrite parse_raw in Hc. injection Hc as <-.
  apply RequestSVID_Ok in Hr as (Ht & _ & _ & path & [= <-] & Hid & _). split; [|done].
  unfold cert_ID in Hid.
  exists (MkID (ca_trustDomain (is_ca svc)) ("/client/" +:+ cc_clientName cfg)). split_and!; [|done|by apply He].
  unfold PeerSPIFFEID, peer_of. simpl. by destruct (tm_URIs _) as [|? [|]].
Qed.

Lemma bind_lift {A B} (a : A) (f : A → M S B) : lift (Ok a) ≫= f = f a.
Proof. done. Qed.

(** A call of a client: the handler, or refused before it. *)
Lemma call_client {A} svid name method r v (h : M S A) :
  client_identity svid name → method_lookup ("/nimbuscore.v1." +:+ method) = Some (r, v) →
  bool_decide ("/nimbuscore.v1." +:+ method ∈ unauthenticatedMethods) = false →
  call expect default_authorizer svid method h =
    if rules_allow client_rules r v then h else fail (Status PermissionDenied "identity is not authorized").
Proof.
  intros (id & Hid & Hp & He) Hm Hu. unfold call, AuthInterceptor. rewrite Hu, Hid, He, Hm, Hp, default_allow_client.
  by destruct (rules_allow client_rules r v).
Qed.

Lemma call_refused {A} svid name method r v (h : M S A) w :
  client_identity svid name → method_lookup ("/nimbuscore.v1." +:+ method) = Some (r, v) →
  bool_decide ("/nimbuscore.v1." +:+ method ∈ unauthenticatedMethods) = false → rules_allow client_rules r v = false →
  call expect default_authorizer svid method h w = (Err (Status PermissionDenied "identity is not authorized"), w).
Proof. intros H1 H2 H3 H4. by rewrite (call_client svid name method r v h H1 H2 H3), H4. Qed.

(** Nimbusctl cannot manage nodes.  It always enrols as a client, and the
    default bindings give clients no right to create or delete nodes: its
    subcommand delete nodes, and apply on a manifest of kind Node, are refused
    in every state of the cluster, and change nothing. *)
Theorem client_cannot_manage_nodes svc gen serial now newClient cfg svid resource name ns raw n c w :
  dial gen (RequestSVID svc serial now) newClient cfg = Ok svid →
  (∀ id, id_TrustDomain id = ca_trustDomain (is_ca svc) → expect id = Ok ()) →
  resource ∈ ["nodes"; "node"] → manifest_Kind raw = Ok "Node" → manifest_Node raw = Ok n →
  let denied := Status PermissionDenied "identity is not authorized" in
  delete_cmd expect default_authorizer (Ok svid) resource name ns w = (Err denied, w) ∧
  apply_cmd expect default_authorizer chain (Ok svid) (inr raw) c w = (Err denied, w).
Proof.
  intros Hd He Hr Hk Hn. destruct (dial_client _ _ _ _ _ _ _ Hd He) as [Hc _]. cbv zeta.
  assert (∀ A (h : M S A), call expect default_authorizer svid "NodeService/DeleteNode" h w =
    (Err (Status PermissionDenied "identity is not authorized"), w)) as Hdel
    by (intros; eapply call_refused; [exact Hc|vm_compute; reflexivity..]).
  assert (∀ A (h : M S A), call expect default_authorizer svid "NodeService/CreateNode" h w =
    (Err (Status PermissionDenied "identity is not authorized"), w)) as Hcre
    by (intros; eapply call_refused; [exact Hc|vm_compute; reflexivity..]).
  split.
  - unfold delete_cmd. rewrite bind_lift.
    rewrite bool_decide_eq_false_2, bool_decide_eq_true_2 by set_solver. by apply bind_run_Err.
  - unfold apply_cmd. rewrite Hk, Hn. cbn [wrap_result]. rewrite !bind_lift. by apply bind_run_Err.
Qed.

(** What a successful CreatePod stores. *)
Lemma CreatePod_stores allowed Verify quota pod c w c' pod' w' cl :
  (∀ ref, reads_only (Verify ref)) → holds w cl →
  CreatePod (System.chain allowed Verify quota) (Some pod) c w = (Ok (c', Ok pod'), w') →
  pod' = pod_set_spec (secured_spec (Pod_Spec pod)) pod ∧
  holds w' (MkCluster (<[reg_key podsR (ObjectMeta_GetNamespace (Pod_Metadata pod)) (ObjectMeta_GetName (Pod_Metadata pod)) := pod']>
    (c_pods cl)) (c_nodes cl) (c_deployments cl) (c_volumes cl)).
Proof.
  intros Hv Hw H. unfold CreatePod in H. cbn zeta in H. case_decide as Hn; [done|]. minv H.
  destruct a as [a [[]|e|]]; [|done..]. minv H1. injection H3 as _ H3 <-.
  destruct a0 as [[]| |]; [|done..]. injection H3 as <-.
  destruct (chain_guarantees allowed Verify quota _ _ _ _ Hv H0) as (Hs & _ & _ & _ & _ & Hst). simpl in *.
  split; [by rewrite Hs|]. rewrite Hs in *.
  destruct (put_pod w0 cl (ObjectMeta_GetNamespace (Pod_Metadata pod)) (ObjectMeta_GetName (Pod_Metadata pod))
    (pod_set_spec (secured_spec (Pod_Spec pod)) pod)) as (w2 & Hp & Hw2); [by eapply holds_store|].
  unfold attempt, statusM in H2. rewrite Hp in H2. by injection H2 as ->.
Qed.

(** What run creates, get shows.  A successful run of a single replica reports
    the pod, and get pods in its namespace then succeeds and has a row for it:
    not yet scheduled, without restarts. *)
Theorem run_then_get svc gen serial now newClient cfg svid allowed Verify quota
    args dash name command image ns replicas ports c c' msg w w' cl :
  dial gen (RequestSVID svc serial now) newClient cfg = Ok svid →
  (∀ id, id_TrustDomain id = ca_trustDomain (is_ca svc) → expect id = Ok ()) →
  (∀ ref, reads_only (Verify ref)) → holds w cl → run_args args dash = Ok (name, command) → replicas ≤ 1 →
  run_cmd expect default_authorizer (System.chain allowed Verify quota) (Ok svid) args dash image ns replicas ports c w
    = (Ok (c', Ok msg), w') →
  msg = "pod/" +:+ name +:+ " created" ∧
  ∃ rows w'', get_cmd expect default_authorizer (Ok svid) "pods" ns false w' = (Ok rows, w'') ∧
    [name; ns; "POD_PHASE_UNSPECIFIED"; ""; "0"] ∈ rows.
Proof.
  intros Hd He Hv Hw Ha Hrep H. destruct (dial_client _ _ _ _ _ _ _ Hd He) as [Hc _].
  unfold run_cmd in H. rewrite Ha, bind_lift in H. cbn beta iota zeta in H. rewrite bind_lift in H.
  rewrite (proj2 (Z.leb_le _ _) Hrep) in H. unfold CreatePod_call in H.
  rewrite (call_client svid _ _ "pods" "create" _ Hc) in H by (vm_compute; reflexivity).
  replace (rules_allow client_rules "pods" "create") with true in H by (vm_compute; reflexivity). minv H.
  destruct a as [c1 r]. injection H1 as <- H1 ->. simpl in H1. destruct r as [pod| |]; [|done..]. injection H1 as <-.
  destruct (CreatePod_stores _ _ _ _ _ _ _ _ _ _ Hv Hw H0) as [-> Hw']. split; [done|].
  destruct (list_pods w' _ ns Hw') as (l & w2 & Hl & _ & Hp).
  exists (["NAME"; "NAMESPACE"; "PHASE"; "NODE"; "RESTARTS"] :: (pod_row <$> l)), w2. split.
  - unfold get_cmd. rewrite bind_lift, bool_decide_eq_true_2 by set_solver. cbv zeta.
    rewrite (call_client svid _ _ "pods" "list" _ Hc) by (vm_compute; reflexivity).
    replace (rules_allow client_rules "pods" "list") with true by (vm_compute; reflexivity).
    assert (ListPods ns w' = (Ok l, w2)) as Hlp by (unfold ListPods, statusM; by rewrite Hl).
    by rewrite (bind_run_Ok _ _ _ _ _ Hlp).
  - apply elem_of_cons. right. set (pod := run_pod name ns (run_container name image command ports)) in *.
    apply list_elem_of_fmap. exists (pod_set_spec (secured_spec (Pod_Spec pod)) pod). split; [reflexivity|].
    rewrite Hp. apply list_elem_of_fmap. exists (reg_key podsR ns name, pod_set_spec (secured_spec (Pod_Spec pod)) pod).
    split; [done|]. apply elem_of_map_to_list, with_prefix_lookup.
    split; [apply lookup_insert_eq|apply reg_key_prefix_ns].
Qed.

End ClientCorrect.

(** ** Witnesses *)

Module CliDemo.
Import IdentityDemo MemFs Codec.Reference DemoAdmission.

#[local] Existing Instance toy_cel.
#[local] Existing Instance demo_spiffe.
#[local] Existing Instance shuffle_id.
#[local] Instance cli_messages : ApiMessages := Build_ApiMessages _ _ _ _.
#[local] Instance cli_laws : ApiLaws := Build_ApiLaws _ _ _ _ _.
#[local] Instance cli_more : MoreMessages := Build_MoreMessages _ _ _ _ _ _.
#[local] Instance cli_more_laws : MoreLaws := Build_MoreLaws _ _ _ _ _ _ _.

Abbreviation config_tuple := (string * string * string)%type.

#[export] Program Instance toy_config : ConfigCodec := {|
  config_Marshal c := Ok (String.list_byte_of_string (Bits.to_text (nc_ControlPlaneAddr c, nc_JoinToken c, nc_ClientName c)));
  config_Unmarshal b :=
    match (Bits.of_text (String.string_of_list_byte b) : option config_tuple) with
    | Some (a, t, n) => Ok (MkNimbusConfig a t n)
    | None => Err (Errorf "invalid configuration")
    end;
|}.
Next Obligation.
  intros [a t n] b _ [= <-]. cbn. by rewrite String.string_of_list_byte_of_string, Bits.of_to_text.
Qed.

Definition home : result string := Ok "/home/u".
Definition saved : fs := (set_context home "10.0.0.1:7443" "token" "" ∅).2.

Lemma set_context_roundtrip_witness :
  loadConfig home saved = (MkNimbusConfig "10.0.0.1:7443" "token" "", saved).
Proof.
  refine (proj2 (set_context_roundtrip home "10.0.0.1:7443" "token" "" ∅ _ saved (surjective_pairing _) _) "/home/u/.nimbus/config.json" _).
  - done.
  - vm_compute. done.
Defined.

Lemma accelerators_roundtrip_witness :
  parseAccelerators "nvidia.com/gpu=2,fpga=1" = Ok (<["fpga" := 1]> (<["nvidia.com/gpu" := 2]> ∅)).
Proof.
  refine (accelerators_roundtrip [("nvidia.com/gpu", 2); ("fpga", 1)] _ _); [done|].
  repeat constructor; try done; intros c Hc; simpl; repeat (rewrite bool_decide_eq_false_2; [|by intros <-]); done.
Defined.

#[local] Instance toy_manifest : ManifestCodec := {|
  manifest_Kind _ := Ok "Node";
  manifest_Pod _ := Ok Pod_zero;
  manifest_Deployment _ := Ok Deployment_zero;
  manifest_Node _ := Ok Node_zero;
  manifest_Service _ := Ok Service_zero;
|}.

Definition any_id (id : ID) : result unit := Ok ().
Definition cli_cfg : clientConfig := MkClientConfig "10.0.0.1:7443" "token" "nimbusctl-laptop".
Definition key9 : result (@priv toy_x509) := Ok 9%nat.
Definition dialled : result SVID := dial key9 (RequestSVID svc0 (Ok 3) (100 * day)) (λ _, Ok ()) cli_cfg.
Definition cli_svid : SVID := match dialled with Ok s => s | _ => svid0 end.

Lemma Ok_or {A} (r : result A) d :
  match r with Ok _ => true | _ => false end = true → r = Ok (match r with Ok a => a | _ => d end).
Proof. by destruct r. Qed.

Lemma dialled_Ok : dialled = Ok cli_svid.
Proof. apply Ok_or. vm_compute. reflexivity. Qed.

Lemma client_cannot_manage_nodes_witness :
  (delete_cmd any_id default_authorizer (Ok cli_svid) "nodes" "n1" "default" demo_world).2 = demo_world.
Proof.
  rewrite (proj1 (client_cannot_manage_nodes any_id [] svc0 key9 (Ok 3) (100 * day) (λ _, Ok ()) cli_cfg cli_svid "nodes" "n1" "default"
    [] Node_zero ∅ demo_world dialled_Ok (λ _ _, eq_refl) ltac:(by left) eq_refl eq_refl)).
  reflexivity.
Defined.

Lemma run_then_get_witness :
  ∃ rows w'', get_cmd any_id default_authorizer (Ok cli_svid) "pods" "default" false
      (run_cmd any_id default_authorizer (System.chain [] allow_all None) (Ok cli_svid) ["web"; "serve"] (Some 1%nat) "nginx" "default" 1 [80] ∅ demo_world).2
    = (Ok rows, w'') ∧ ["web"; "default"; "POD_PHASE_UNSPECIFIED"; ""; "0"] ∈ rows.
Proof.
  set (run := run_cmd any_id default_authorizer (System.chain [] allow_all None) (Ok cli_svid) ["web"; "serve"] (Some 1%nat) "nginx" "default" 1 [80] ∅ demo_world).
  assert (∃ c msg, run.1 = Ok (c, Ok msg)) as (c & msg & Hr) by (eexists _, _; vm_compute; reflexivity).
  exact (proj2 (run_then_get any_id svc0 key9 (Ok 3) (100 * day) (λ _, Ok ()) cli_cfg cli_svid [] allow_all None
    ["web"; "serve"] (Some 1%nat) "web" ["serve"] "nginx" "default" 1 [80] ∅ c msg demo_world run.2 _
    dialled_Ok (λ _ _, eq_refl) (λ _, reads_ret tt) holds_demo_world eq_refl ltac:(done) (run_result run _ Hr))).
Defined.

End CliDemo.
