(* ===== verification/Node.v ===== *)
(** * Node: how a node joins the cluster and stays in it

    cmd/nimbus-agent/main.go: the registration of the node and the heartbeat
    loop, against the node service of the API server and the health check of
    the controllers.  The calls go through the mesh client of Mesh.v and the
    interceptor of Rbac.v, which are left out here: an event is a call that
    arrived. *)

From stdpp Require Import gmap strings list.
From Stdlib Require Import ZArith Lia.
From S2P Require Import Prelude Api Codec Store Registry Cluster Controllers Admission Services ServicesCorrect.

Local Open Scope Z_scope.


(** [time.Now().Unix()] at a time in nanoseconds. *)
Definition unix (t : Z) : Z := t / 1000000000.

(** The address that the node announces: -node-ip, or what the route to the
    control plane shows; an error ends the process. *)
Definition internal_ip (nodeIP : string) (detected : result string) : result string :=
  if bool_decide (nodeIP = "") then wrap_result "agent: detect node IP" detected else Ok nodeIP.

(** The node as the agent registers it. *)
Definition registered_node (name ip : string) (capacity : ResourceList) (t : Z) : Node :=
  MkNode (Some (MkObjectMeta name "" "" "" ∅ 0)) None
    (Some (MkNodeStatus (Some capacity) (Some capacity) true [] (unix t) ip)).

Section Node.
Context {S : Type} `{!Store S} {Sh : Shuffle} {CE : CelEnv}.
Context `{AM : !ApiMessages, MM : !MoreMessages}.

Definition register_node (name nodeIP : string) (detected : result string) (capacity : ResourceList) (t : Z) : M S unit :=
  ip ← lift (internal_ip nodeIP detected);
  _ ← wrapM "agent: register node" (CreateNode (Some (registered_node name ip capacity t)));
  mret ().

(** One tick of heartbeatLoop: an error is only logged. *)
Definition heartbeat_tick (name : string) (capacity : ResourceList) (t : Z) : M S unit :=
  logged (_ ← Heartbeat (unix t) name (Some capacity) (Some capacity); mret ()).

(** Heartbeats of one node and health checks of the controllers, in the order in
    which the store sees them. *)
Inductive node_event :=
  | Beat (t : Z)
  | HealthCheck (t : Z).

Definition node_step (name : string) (capacity : ResourceList) (timeout resync : Z) (e : node_event) : M S unit :=
  match e with
  | Beat t => heartbeat_tick name capacity t
  | HealthCheck t => checkAll (NewNodeHealthReconciler nodesR timeout resync) t
  end.

(** No check comes later than the timeout after the heartbeat before it. *)
Fixpoint timely (timeout last : Z) (l : list node_event) : Prop :=
  match l with
  | [] => True
  | Beat t :: l => timely timeout t l
  | HealthCheck t :: l => t ≤ last + timeout ∧ timely timeout last l
  end.

Fixpoint last_beat (last : Z) (l : list node_event) : Z :=
  match l with
  | [] => last
  | Beat t :: l => last_beat t l
  | HealthCheck _ :: l => last_beat last l
  end.

End Node.

Section Correct.
Context {S : Type} `{!Store S, !StoreLaws S} {Sh : Shuffle} {CE : CelEnv}.
Context `{AM : !ApiMessages, AL : !ApiLaws, MM : !MoreMessages, ML : !MoreLaws}.

Lemma run_heartbeat name capacity t n w c :
  holds w c → c_nodes c !! reg_key nodesR "" name = Some n →
  ∃ w', heartbeat_tick name capacity t w = (Ok tt, w') ∧
    holds w' (MkCluster (c_pods c) (<[reg_key nodesR "" name := heartbeat (unix t) (Some capacity) (Some capacity) n]> (c_nodes c))
      (c_deployments c) (c_volumes c)).
Proof.
  intros Hw Hn. pose proof (get_node w c "" name Hw) as Hg. rewrite Hn in Hg.
  destruct (put_node w c "" name (heartbeat (unix t) (Some capacity) (Some capacity) n) Hw) as (w1 & Hp & Hw1).
  exists w1. split; [|done]. unfold heartbeat_tick, Heartbeat. apply logged_run_Ok.
  rewrite (bind_run_Ok _ _ _ true w1); [done|].
  mstep (statusM_run_Ok NotFound "node" _ _ _ _ Hg). by mstep (statusM_run_Ok Internal "update node" _ _ _ _ Hp).
Qed.

(** A check keeps every node under its name. *)
Lemma wf_refresh cutoff N : wf_nodes N → wf_nodes (refresh cutoff <$> N).
Proof.
  intros Hwf k n. rewrite lookup_fmap, fmap_Some. intros (m & Hm & ->). rewrite (Hwf k m Hm).
  unfold refresh. case_match; [|done]. unfold mark_not_ready, nodeName. by destruct m.
Qed.

(** The node is as the heartbeat of time [t] left it. *)
Definition alive (name ip : string) (capacity : ResourceList) (t : Z) (c : cluster) : Prop :=
  wf_nodes (c_nodes c) ∧ c_nodes c !! reg_key nodesR "" name = Some (registered_node name ip capacity t).

Lemma alive_beat name ip capacity t t' w c :
  holds w c → alive name ip capacity t c →
  ∃ w' c', heartbeat_tick name capacity t' w = (Ok tt, w') ∧ holds w' c' ∧ alive name ip capacity t' c'.
Proof.
  intros Hw [Hwf Hn]. destruct (run_heartbeat name capacity t' _ w c Hw Hn) as (w' & Hr & Hw').
  eexists w', _. split; [done|]. split; [exact Hw'|]. split; [|apply lookup_insert_eq].
  intros k n. simpl. intros [[<- <-]|[_ Hk]]%lookup_insert_Some; [done|by apply Hwf].
Qed.

Lemma alive_check name ip capacity t t' timeout resync w c :
  let limit := nh_timeout (NewNodeHealthReconciler nodesR timeout resync) in
  holds w c → alive name ip capacity t c → t' ≤ t + limit →
  ∃ w' c', checkAll (NewNodeHealthReconciler nodesR timeout resync) t' w = (Ok tt, w') ∧ holds w' c' ∧ alive name ip capacity t c'.
Proof.
  intros limit Hw [Hwf Hn] Ht. destruct (checkAll_spec timeout resync t' w c Hw Hwf) as (w' & Hr & Hw').
  eexists w', _. split; [done|]. split; [exact Hw'|]. split.
  - by apply wf_refresh.
  - cbn [c_nodes]. rewrite lookup_fmap, Hn. cbn [fmap option_fmap option_map]. f_equal.
    assert (cutoff_of t' limit ≤ unix t) as Hc%Z.leb_le by (apply Z.div_le_mono; lia).
    assert (stale (cutoff_of t' limit) (registered_node name ip capacity t) = false) as Hs.
    { unfold stale. change (nodeHeartbeat _) with (unix t). by rewrite Hc, andb_false_r. }
    fold limit. unfold refresh. by rewrite Hs.
Qed.

(** C13: a node that reports in time stays ready.  The agent registers its node and
    then sends heartbeats while the controllers check all nodes, in any order:
    as long as no check comes later than the timeout after the heartbeat before
    it, the node is there at the end, ready, with its address and capacity and
    the time of its last heartbeat. *)
Theorem node_stays_ready name nodeIP detected ip capacity t0 timeout resync l w c :
  let limit := nh_timeout (NewNodeHealthReconciler nodesR timeout resync) in
  holds w c → wf_nodes (c_nodes c) → name ≠ "" → internal_ip nodeIP detected = Ok ip → timely limit t0 l →
  ∃ w' c', (_ ← register_node name nodeIP detected capacity t0; for_each l (node_step name capacity timeout resync)) w = (Ok tt, w') ∧
    holds w' c' ∧ c_nodes c' !! reg_key nodesR "" name = Some (registered_node name ip capacity (last_beat t0 l)) ∧
    nodeIsReady (registered_node name ip capacity (last_beat t0 l)) = true.
Proof.
  intros limit Hw Hwf Hname Hip Hl.
  assert (∃ w1 c1, register_node name nodeIP detected capacity t0 w = (Ok tt, w1) ∧ holds w1 c1 ∧ alive name ip capacity t0 c1)
    as (w1 & c1 & Hr & Hw1 & Ha).
  { destruct (put_node w c "" name (registered_node name ip capacity t0) Hw) as (w1 & Hp & Hw1).
    eexists w1, _. split; [|split; [exact Hw1|]].
    - assert (CreateNode (Some (registered_node name ip capacity t0)) w = (Ok (registered_node name ip capacity t0), w1)) as Hc.
      { unfold CreateNode. rewrite decide_False by done. by mstep (statusM_run_Ok Internal "create node" _ _ _ _ Hp). }
      unfold register_node. rewrite Hip. rewrite (bind_run_Ok _ _ w ip w) by done.
      by rewrite (bind_run_Ok _ _ _ _ _ (wrapM_run_Ok "agent: register node" _ _ _ _ Hc)).
    - split; [|apply lookup_insert_eq]. intros k n. simpl. intros [[<- <-]|[_ Hk]]%lookup_insert_Some; [done|by apply Hwf]. }
  rewrite (bind_run_Ok _ _ _ _ _ Hr). clear Hr Hw Hwf w c.
  revert t0 w1 c1 Hl Hw1 Ha. induction l as [|e l IH]; intros t0 w c Hl Hw Ha.
  - exists w, c. split_and!; [done|done|apply Ha|done].
  - cbn [for_each]. destruct e as [t|t]; simpl in Hl.
    + destruct (alive_beat name ip capacity t0 t w c Hw Ha) as (w1 & c1 & Hr & Hw1 & Ha1).
      cbn [node_step]. rewrite (bind_run_Ok _ _ _ _ _ Hr). by apply (IH t w1 c1).
    + destruct Hl as [Ht Hl].
      destruct (alive_check name ip capacity t0 t timeout resync w c Hw Ha Ht) as (w1 & c1 & Hr & Hw1 & Ha1).
      cbn [node_step]. rewrite (bind_run_Ok _ _ _ _ _ Hr). by apply (IH t0 w1 c1).
Qed.

(** A node that was removed does not come back.  The agent registers once and
    heartbeats only update what is there: after the node was deleted, whatever
    heartbeats its agent still sends, and whatever checks run, it is not in the
    cluster again. *)
Theorem deleted_node_stays_gone name capacity timeout resync l w c :
  holds w c → wf_nodes (c_nodes c) →
  ∃ w' c', (_ ← DeleteNode name; for_each l (node_step name capacity timeout resync)) w = (Ok tt, w') ∧
    holds w' c' ∧ c_nodes c' !! reg_key nodesR "" name = None.
Proof.
  intros Hw Hwf. destruct (delete_node w c "" name Hw) as (w1 & Hd & Hw1).
  assert (DeleteNode name w = (Ok tt, w1)) as Hd' by (by apply statusM_run_Ok).
  rewrite (bind_run_Ok _ _ _ _ _ Hd').
  assert (wf_nodes (delete (reg_key nodesR "" name) (c_nodes c))) as Hwf1
    by (intros k n [_ Hk]%lookup_delete_Some; by apply Hwf).
  set (c1 := MkCluster _ _ _ _) in Hw1.
  assert (c_nodes c1 !! reg_key nodesR "" name = None) as Hn by apply lookup_delete_eq.
  change (wf_nodes (c_nodes c1)) in Hwf1. clearbody c1. clear Hd Hd' Hw Hwf w c.
  revert w1 c1 Hw1 Hwf1 Hn. induction l as [|e l IH]; intros w c Hw Hwf Hn; [by exists w, c|].
  cbn [for_each]. destruct e as [t|t].
  - assert (heartbeat_tick name capacity t w = (Ok tt, w)) as Hr.
    { pose proof (get_node w c "" name Hw) as Hg. rewrite Hn in Hg. unfold heartbeat_tick, Heartbeat, logged.
      unfold mbind, M_mbind, M_bind, statusM. by rewrite Hg. }
    cbn [node_step]. rewrite (bind_run_Ok _ _ _ _ _ Hr). by apply (IH w c).
  - destruct (checkAll_spec timeout resync t w c Hw Hwf) as (w1 & Hr & Hw1). cbn [node_step].
    rewrite (bind_run_Ok _ _ _ _ _ Hr). apply (IH w1 _ Hw1).
    + by apply wf_refresh.
    + simpl. by rewrite lookup_fmap, Hn.
Qed.

End Correct.

(** ** Witnesses *)

Module NodeDemo.
Import Codec.Reference DemoAdmission DemoServices.

#[local] Existing Instance toy_cel.
#[local] Existing Instance shuffle_id.
#[local] Instance node_messages : ApiMessages := Build_ApiMessages _ _ _ _.
#[local] Instance node_laws : ApiLaws := Build_ApiLaws _ _ _ _ _.
#[local] Instance node_more : MoreMessages := Build_MoreMessages _ _ _ _ _ _.
#[local] Instance node_more_laws : MoreLaws := Build_MoreLaws _ _ _ _ _ _ _.

Definition two_cores : ResourceList := MkResourceList 2000 (Z.shiftl 2 30) ∅.

(** Heartbeats every five seconds from 1000 s on, with a check before each. *)
Definition ticks : list node_event :=
  [HealthCheck 1004000000000; Beat 1005000000000; HealthCheck 1009000000000; Beat 1010000000000; HealthCheck 1025000000000].

Lemma no_nodes : wf_nodes (c_nodes empty).
Proof. by intros ? ? ?. Qed.

Lemma node_stays_ready_witness :
  ∃ w c, holds w c ∧ c_nodes c !! reg_key nodesR "" "node-a" =
    Some (MkNode (Some (MkObjectMeta "node-a" "" "" "" ∅ 0)) None
      (Some (MkNodeStatus (Some two_cores) (Some two_cores) true [] 1010 "10.0.0.7"))).
Proof.
  destruct (node_stays_ready "node-a" "10.0.0.7" (Err (Errorf "no route")) "10.0.0.7" two_cores 1000000000000 0 0 ticks
    demo_world empty empty_holds no_nodes) as (w & c & _ & Hw & Hn & _).
  - discriminate.
  - reflexivity.
  - vm_compute. repeat split; discriminate.
  - exists w, c. split; [exact Hw|exact Hn].
Defined.

Lemma deleted_node_stays_gone_witness :
  ∃ w c, holds w c ∧ c_nodes c !! reg_key nodesR "" "node-a" = None.
Proof.
  destruct (deleted_node_stays_gone "node-a" two_cores 0 0 ticks demo_world empty empty_holds no_nodes) as (w & c & _ & Hw & Hn).
  exists w, c. split; [exact Hw|exact Hn].
Defined.

End NodeDemo.
