(* ===== verification/Replicas.v ===== *)
(** * Replicas: a cluster of replicated stores

    Several [RaftStore]s (internal/store/raft.go) that share one log.  The Raft
    library is a parameter, and what it is documented to do is in the rules of
    [cstep]: committed entries form one log that only grows, every replica applies
    them in order, a write that is acknowledged has been committed and applied on
    the replica that acknowledges it, one that is not may have been committed or
    lost, leadership may move at any time, and a restarted or new replica recovers
    the state after some prefix of the log.  Everything a replica does itself
    (encrypting, encoding, applying, taking and restoring snapshots, rotating keys)
    is the code of RaftStore.v. *)

From stdpp Require Import gmap strings list relations.
From Stdlib Require Import Strings.Byte.
From S2P Require Import Prelude Store Codec RaftStore.

(** ** The cluster *)

(** A committed entry: the write it stands for, the key of the replica that
    proposed it, and the bytes in the log. *)
Inductive write := WPut (k : string) (v : bytes) | WDelete (k : string).
Record entry := MkEntry { e_write : write; e_key : bytes; e_bytes : bytes }.

Section Cluster.
Context `{!RaftEnv}.

(** The log, and each replica with the number of entries it has applied. *)
Record cluster := MkReplicas { c_log : list entry; c_replicas : gmap string (RaftStore * nat) }.

Definition log_state (es : list entry) : fsm := fsm_replay (e_bytes <$> es) (MkFsm ∅).

(** What raft.Apply is documented to guarantee: [applied] and [committed] are
    where the entry went, [n] of the [len] entries were applied before. *)
Definition raft_contract (res : result unit) (applied committed : bool) (n len : nat) : Prop :=
  (res = Ok tt → applied = true) ∧ (applied = true → committed = true ∧ n = len).

Definition extend (committed : bool) (e : entry) (log : list entry) : list entry :=
  if committed then log ++ [e] else log.
Definition advance (applied : bool) (n : nat) : nat := if applied then S n else n.

Inductive cstep : cluster → cluster → Prop :=
  | cs_put log R i s n k v c s1 b res applied committed rf :
      R !! i = Some (s, n) → IsLeader s = true →
      rs_encrypt v s = (Ok c, s1) → json_Marshal_command (MkCommand "put" k c) = Ok b →
      raft_Apply b (rs_raft s1) = (res, applied, rf) → raft_contract res applied committed n (length log) →
      cstep (MkReplicas log R)
        (MkReplicas (extend committed (MkEntry (WPut k v) (rs_encKey s) b) log)
                    (<[i := ((rs_Put k v s).2, advance applied n)]> R))
  | cs_delete log R i s n k b res applied committed rf :
      R !! i = Some (s, n) → IsLeader s = true →
      json_Marshal_command (MkCommand "delete" k []) = Ok b →
      raft_Apply b (rs_raft s) = (res, applied, rf) → raft_contract res applied committed n (length log) →
      cstep (MkReplicas log R)
        (MkReplicas (extend committed (MkEntry (WDelete k) (rs_encKey s) b) log)
                    (<[i := ((rs_Delete k s).2, advance applied n)]> R))
  | cs_apply log R i s n e :
      R !! i = Some (s, n) → log !! n = Some e →
      cstep (MkReplicas log R)
        (MkReplicas log (<[i := (rs_set_fsm (rs_raft s) (fsm_Apply (e_bytes e) (rs_fsm s)).2 s, S n)]> R))
  | cs_install log R i si ni j sj nj snap :
      R !! i = Some (si, ni) → R !! j = Some (sj, nj) → nj ≤ ni →
      fsmSnapshot_Persist (fsm_Snapshot (rs_fsm si)) = Ok snap →
      cstep (MkReplicas log R)
        (MkReplicas log (<[j := (rs_set_fsm (rs_raft sj) (fsm_Restore snap (rs_fsm sj)).2 sj, ni)]> R))
  | cs_start log R i cfg s k :
      NewRaftStore cfg = Ok s → valid_key (cfg_EncryptionKey cfg) →
      k ≤ length log → rs_fsm s = log_state (take k log) →
      cstep (MkReplicas log R) (MkReplicas log (<[i := (s, k)]> R))
  | cs_role log R i s n rf :
      R !! i = Some (s, n) →
      cstep (MkReplicas log R) (MkReplicas log (<[i := (rs_set_fsm rf (rs_fsm s) s, n)]> R))
  | cs_rotate log R i s n key s' :
      R !! i = Some (s, n) → RotateEncryptionKey key s = (Ok tt, s') →
      cstep (MkReplicas log R) (MkReplicas log (<[i := (s', n)]> R))
  | cs_forget log R i s n :
      R !! i = Some (s, n) →
      cstep (MkReplicas log R) (MkReplicas log (<[i := (rs_set_keys (rs_encKey s) [] s, n)]> R)).

(** A cluster before its first replica. *)
Definition no_replicas : cluster := MkReplicas [] ∅.

(** ** The specification: a map that the log writes to *)

(** Each value with the key it was sealed under when it was written. *)
Definition apply_entry (m : gmap string (bytes * bytes)) (e : entry) : gmap string (bytes * bytes) :=
  match e_write e with
  | WPut k v => <[k := (v, e_key e)]> m
  | WDelete k => delete k m
  end.
Definition spec_map (es : list entry) : gmap string (bytes * bytes) := foldl apply_entry ∅ es.

(** The stored data is the map, each value sealed under its key. *)
Definition represents (m : gmap string (bytes * bytes)) (data : gmap string bytes) : Prop :=
  ∀ key, option_Forall2 (λ vk c, valid_key vk.2 ∧ sealed vk.2 c vk.1) (m !! key) (data !! key).

(** The bytes of an entry are the command of its write. *)
Definition entry_ok (e : entry) : Prop :=
  match e_write e with
  | WPut k v => ∃ c, json_Unmarshal_command (e_bytes e) = Ok (MkCommand "put" k c) ∧ valid_key (e_key e) ∧ sealed (e_key e) c v
  | WDelete k => json_Unmarshal_command (e_bytes e) = Ok (MkCommand "delete" k [])
  end.

(** A replica is at a position of the log, in the state of that position, and
    has usable keys. *)
Definition replica_ok (log : list entry) (p : RaftStore * nat) : Prop :=
  p.2 ≤ length log ∧ rs_fsm p.1 = log_state (take p.2 log) ∧ valid_key (rs_encKey p.1) ∧
  (rs_prevEncKey p.1 = [] ∨ valid_key (rs_prevEncKey p.1)).

Definition cluster_ok (C : cluster) : Prop :=
  Forall entry_ok (c_log C) ∧ map_Forall (λ _, replica_ok (c_log C)) (c_replicas C).

Context `{!RaftEnvLaws}.

Lemma log_state_snoc es e : log_state (es ++ [e]) = (fsm_Apply (e_bytes e) (log_state es)).2.
Proof.
  unfold log_state. rewrite fmap_app. generalize (MkFsm ∅). induction (e_bytes <$> es) as [|b l IH]; intros f; simpl; [done|apply IH].
Qed.

Lemma replica_ok_extend log log' p : log `prefix_of` log' → replica_ok log p → replica_ok log' p.
Proof.
  intros [l ->] (Hn & Hs & Hk). split; [rewrite length_app; lia|]. by rewrite take_app_le.
Qed.

Lemma extend_prefix committed e log : log `prefix_of` extend committed e log.
Proof. destruct committed; [by eexists|done]. Qed.

(** The log only grows. *)
Lemma cstep_log C C' : cstep C C' → c_log C `prefix_of` c_log C'.
Proof. destruct 1; simpl; first [apply extend_prefix | done]. Qed.

Lemma cluster_ok_update log log' R i p :
  log `prefix_of` log' → Forall entry_ok log' → map_Forall (λ _, replica_ok log) R → replica_ok log' p →
  cluster_ok (MkReplicas log' (<[i := p]> R)).
Proof.
  intros Hl He HR Hp. split; [done|]. simpl. apply map_Forall_insert_2; [done|].
  eapply map_Forall_impl; [exact HR|]. intros j q. by apply replica_ok_extend.
Qed.

(** *** Writes *)

(** What a proposal does to the replica that makes it. *)
Lemma apply_result cmd s b res applied rf :
  IsLeader s = true → json_Marshal_command cmd = Ok b → raft_Apply b (rs_raft s) = (res, applied, rf) →
  rs_apply cmd s = (res, rs_set_fsm rf (if applied then (fsm_Apply b (rs_fsm s)).2 else rs_fsm s) s).
Proof. unfold rs_apply. by intros -> -> ->. Qed.

Lemma encrypt_result v s c s1 :
  valid_key (rs_encKey s) → rs_encrypt v s = (Ok c, s1) → sealed (rs_encKey s) c v ∧ s1 = rs_next_read s.
Proof.
  intros Hk. unfold rs_encrypt. destruct (rs_encKey s) as [|x key] eqn:E; [done|].
  intros [= He <-]. split; [|done]. unfold encryptValue in He. rewrite newGCM_valid in He by done. simpl in He.
  destruct (rand_Read _ _) as [nonce| |] eqn:Hr; simplify_eq/=. exists nonce. split; [|done]. by eapply rand_Read_length.
Qed.

(** A proposal keeps its replica in step with the log. *)
Lemma write_ok log s n e res applied committed rf s1 :
  replica_ok log (s, n) → raft_contract res applied committed n (length log) →
  rs_fsm s1 = rs_fsm s → rs_encKey s1 = rs_encKey s → rs_prevEncKey s1 = rs_prevEncKey s →
  replica_ok (extend committed e log)
    (rs_set_fsm rf (if applied then (fsm_Apply (e_bytes e) (rs_fsm s1)).2 else rs_fsm s1) s1, advance applied n).
Proof.
  intros Hok [_ Hc] Hf Hk Hp. destruct applied; simpl.
  - destruct (Hc eq_refl) as [-> ->]. destruct Hok as (_ & Hs & Hkeys). simpl in Hs. rewrite firstn_all in Hs.
    unfold replica_ok, extend. simpl. rewrite length_app, Hk, Hp. simpl. split; [lia|]. split; [|done].
    rewrite take_ge by (rewrite length_app; simpl; lia). by rewrite log_state_snoc, Hf, Hs.
  - eapply replica_ok_extend; [apply extend_prefix|]. destruct Hok as (? & ? & ?).
    unfold replica_ok. simpl. by rewrite Hf, Hk, Hp.
Qed.

Lemma extend_ok committed e log : Forall entry_ok log → entry_ok e → Forall entry_ok (extend committed e log).
Proof. intros. destruct committed; [|done]. apply Forall_app. auto. Qed.

(** Every step keeps every replica at a position of the log. *)
Lemma cstep_ok C C' : cstep C C' → cluster_ok C → cluster_ok C'.
Proof.
  destruct 1 as [log R i s n k v c s1 b res applied committed rf Hi Hl He Hb Hr Hc
    |log R i s n k b res applied committed rf Hi Hl Hb Hr Hc|log R i s n e Hi Hn|log R i si ni j sj nj snap Hi Hj Hle Hsnap
    |log R i cfg s k Hs Hk Hle Hst|log R i s n rf Hi|log R i s n key s' Hi Hrot|log R i s n Hi]; intros [Hlog HR]; simpl in *;
    (eapply cluster_ok_update; [|try done|exact HR|]; [first [apply extend_prefix | done] |..]);
    try pose proof (HR _ _ Hi) as Hok.
  - apply extend_ok; [done|]. destruct (encrypt_result _ _ _ _ (proj1 (proj2 (proj2 Hok))) He) as [Hse _].
    exists c. simpl. split; [by apply json_command_roundtrip|]. split; [apply Hok|done].
  - destruct (encrypt_result _ _ _ _ (proj1 (proj2 (proj2 Hok))) He) as [_ ->]. unfold rs_Put. rewrite He. simpl.
    rewrite (apply_result _ (rs_next_read s) _ _ _ _ Hl Hb Hr).
    by eapply (write_ok log s n (MkEntry _ _ b) _ _ _ rf (rs_next_read s)).
  - apply extend_ok; [done|]. by apply json_command_roundtrip.
  - unfold rs_Delete. rewrite (apply_result _ _ _ _ _ _ Hl Hb Hr). 
    by eapply (write_ok log s n (MkEntry _ _ b) _ _ _ rf s).
  - destruct Hok as (Hle & Hs & Hkeys). simpl in *. apply lookup_lt_Some in Hn as Hlt. split; [simpl; lia|]. simpl. split; [|done].
    by rewrite (take_S_r _ _ _ Hn), log_state_snoc, Hs.
  - pose proof (HR _ _ Hj) as (_ & _ & Hkeys). destruct Hok as (Hn & Hs & _). split; [done|]. simpl in *. split; [|done].
    unfold fsm_Restore. unfold fsmSnapshot_Persist in Hsnap. rewrite (json_map_roundtrip _ _ Hsnap). simpl.
    unfold fsm_Snapshot. rewrite Hs. by destruct (log_state _).
  - unfold NewRaftStore in Hs. repeat case_decide; try done. destruct (raft_open cfg) as [[r data]| |]; simplify_eq/=.
    split; [done|]. simpl. auto.
  - by destruct Hok as (? & ? & ?).
  - unfold RotateEncryptionKey in Hrot. case_decide as Hlen; [done|]. injection Hrot as <-.
    destruct Hok as (? & ? & ? & ?). repeat split; simpl; auto.
  - destruct Hok as (? & ? & ? & ?). repeat split; simpl; auto.
Qed.

Lemma steps_ok C : rtc cstep no_replicas C → cluster_ok C.
Proof.
  intros Hr. assert (cluster_ok no_replicas) as Hno by (split; [constructor|apply map_Forall_empty]).
  revert Hno. induction Hr; eauto using cstep_ok.
Qed.

(** ** What replicas hold *)

Lemma represents_insert m data k v key c :
  represents m data → valid_key key → sealed key c v → represents (<[k := (v, key)]> m) (<[k := c]> data).
Proof.
  intros Hm Hk Hc k'. destruct (decide (k = k')) as [<-|Hne].
  - rewrite !lookup_insert_eq. by constructor.
  - by rewrite !lookup_insert_ne by done.
Qed.

Lemma represents_delete m data k : represents m data → represents (delete k m) (delete k data).
Proof.
  intros Hm k'. destruct (decide (k = k')) as [<-|Hne].
  - rewrite !lookup_delete_eq. constructor.
  - by rewrite !lookup_delete_ne by done.
Qed.

Lemma represents_log es : Forall entry_ok es → represents (spec_map es) (fsm_data (log_state es)).
Proof.
  induction es as [|e es IH] using rev_ind; intros Hes; [intros k; constructor|].
  apply Forall_app in Hes as [Hes [He _]%Forall_cons]. specialize (IH Hes).
  rewrite log_state_snoc. unfold spec_map. rewrite foldl_snoc. fold (spec_map es).
  unfold entry_ok in He. unfold apply_entry, fsm_Apply. destruct (e_write e) as [k v|k].
  - destruct He as (c & -> & Hk & Hc). simpl. by apply represents_insert.
  - rewrite He. simpl. by apply represents_delete.
Qed.

(** What a replica answers to a read, given the map at its position: the value
    if it holds the key the value was sealed under, an error otherwise. *)
Definition answer (s : RaftStore) (m : gmap string (bytes * bytes)) (key : string) (r : result bytes) : Prop :=
  match m !! key with
  | None => r = Err ErrNotFound
  | Some (v, k) => if decide (k = rs_encKey s ∨ k = rs_prevEncKey s) then r = Ok v else ∃ e, r = Err e
  end.

Lemma get_answer s m key :
  represents m (fsm_data (rs_fsm s)) → valid_key (rs_encKey s) →
  rs_prevEncKey s = [] ∨ valid_key (rs_prevEncKey s) → answer s m key (rs_Get key s).
Proof.
  intros Hm Hk Hp. unfold answer, rs_Get, fsm_get. specialize (Hm key).
  inversion Hm as [[v k] c [Hvk Hc] Hq Hd|]; simpl; [|done]. simpl in *.
  destruct (decide (k = rs_encKey s)) as [->|Hne].
  { rewrite decide_True by auto. by apply rs_decrypt_current. }
  destruct (decide (k = rs_prevEncKey s)) as [->|Hnp].
  - rewrite decide_True by auto. by apply rs_decrypt_previous.
  - rewrite decide_False by tauto. by eapply rs_decrypt_lost.
Qed.

(** C18: Every replica serves a past state of one history.  However the replicas
    write, apply, restart, install snapshots, change roles and rotate keys, each
    of them answers a read as the map after the first [n] entries of the
    common log would, [n] being its position: with the value written last, or with
    an error when that value was sealed under a key this replica does not hold. *)
Theorem replica_reads_exact C i s n key :
  rtc cstep no_replicas C → c_replicas C !! i = Some (s, n) →
  n ≤ length (c_log C) ∧ answer s (spec_map (take n (c_log C))) key (rs_Get key s).
Proof.
  intros [Hl HR]%steps_ok Hi. destruct (HR _ _ Hi) as (Hn & Hs & Hk & Hp). split; [done|].
  apply get_answer; [|done..]. simpl in Hs. rewrite Hs. by apply represents_log, Forall_take.
Qed.

(** Replicas agree.  Two replicas at the same position hold the same data, byte
    for byte, and one that is behind reaches the state of the other by applying
    the entries between them. *)
Theorem replicas_agree C i j si sj ni nj :
  rtc cstep no_replicas C → c_replicas C !! i = Some (si, ni) → c_replicas C !! j = Some (sj, nj) → ni ≤ nj →
  rs_fsm sj = fsm_replay (e_bytes <$> take (nj - ni) (drop ni (c_log C))) (rs_fsm si).
Proof.
  intros [Hl HR]%steps_ok Hi Hj Hle. destruct (HR _ _ Hi) as (Hni & Hsi & _). destruct (HR _ _ Hj) as (Hnj & Hsj & _).
  simpl in *. rewrite Hsi, Hsj.
  replace (take nj (c_log C)) with (take ni (c_log C) ++ take (nj - ni) (drop ni (c_log C)))
    by (rewrite take_take_drop; f_equal; lia).
  unfold log_state. rewrite fmap_app.
  generalize (MkFsm ∅). induction (e_bytes <$> take ni (c_log C)) as [|b l IH]; intros f; simpl; auto.
Qed.

End Cluster.

(** ** A cluster of two *)

Module DemoReplicas.
Import DemoRaft.

(** The environment of [DemoRaft] with replicas that start empty, the one with
    -bootstrap as the leader. *)
Definition cluster_env : RaftEnv := {|
  raft := bool;
  raft_is_leader r := r;
  raft_Apply b r := (Ok tt, true, r);
  raft_AddVoter _ _ r := (Ok tt, r);
  raft_open cfg := Ok (cfg_Bootstrap cfg, ∅);
  json_Marshal_command := demo_marshal;
  json_Unmarshal_command := demo_unmarshal;
  json_Encode_map := demo_encode;
  json_Decode_map := demo_decode;
  aes_NewCipher k := Ok tt;
  gcm_NonceSize := 12;
  gcm_Seal := demo_seal;
  gcm_Open := demo_open;
  rand_Read i n := Ok (replicate n x00);
|}.

#[local] Existing Instance cluster_env.

Lemma cluster_laws : @RaftEnvLaws cluster_env.
Proof.
  exact (@Build_RaftEnvLaws cluster_env (@json_command_roundtrip demo_env demo_laws) (@json_command_total demo_env demo_laws)
    (@json_map_roundtrip demo_env demo_laws) (@aes_key_size demo_env demo_laws) (@gcm_roundtrip demo_env demo_laws)
    (@gcm_wrong_key demo_env demo_laws) (@rand_Read_length demo_env demo_laws)).
Qed.
#[local] Existing Instance cluster_laws.

Definition replica_cfg (bootstrap : bool) : RaftConfig := MkRaftConfig "n" ":7946" "./data" bootstrap key0.

(** The replicas along the run: as they start, the leader after a write, after
    the rotation of its key and after writing the value again. *)
Definition fresh (leads : bool) : RaftStore := MkRaftStore (leads : @raft cluster_env) (MkFsm ∅) key0 [] 0.
Definition secret : bytes := [x2a].
Definition l1 : RaftStore := (rs_Put "k" secret (fresh true)).2.
Definition l2 : RaftStore := rs_set_keys key1 key0 l1.
Definition l3 : RaftStore := (rs_Put "k" secret l2).2.
Definition l4 : RaftStore := rs_set_keys key1 [] l3.

Definition put_bytes (key : bytes) : bytes :=
  ser ("put", ("k", replicate 12 x00 ++ demo_seal key (replicate 12 x00) secret)).
Definition e1 : entry := MkEntry (WPut "k" secret) key0 (put_bytes key0).
Definition e2 : entry := MkEntry (WPut "k" secret) key1 (put_bytes key1).

Definition f1 : RaftStore := rs_set_fsm (false : @raft cluster_env) (fsm_Apply (put_bytes key0) (MkFsm ∅)).2 (fresh false).
Definition f2 : RaftStore := rs_set_fsm (false : @raft cluster_env) (fsm_Apply (put_bytes key1) (rs_fsm f1)).2 f1.
Definition f3 : RaftStore := rs_set_fsm (true : @raft cluster_env) (rs_fsm f2) f2.

Definition after_failover : cluster :=
  MkReplicas [e1; e2] (<["b" := (f3, 2)]> (<["b" := (f2, 2)]> (<["b" := (f1, 1)]>
    (<["a" := (l4, 2)]> (<["a" := (l3, 2)]> (<["a" := (l2, 1)]> (<["a" := (l1, 1)]>
      (<["b" := (fresh false, 0)]> (<["a" := (fresh true, 0)]> ∅))))))))).

Lemma failover_run : rtc cstep no_replicas after_failover.
Proof.
  eapply rtc_l; [apply (cs_start [] ∅ "a" (replica_cfg true) (fresh true) 0); done|].
  eapply rtc_l; [apply (cs_start [] _ "b" (replica_cfg false) (fresh false) 0); done|].
  eapply rtc_l.
  { eapply (cs_put [] _ "a" (fresh true) 0 "k" secret _ _ (put_bytes key0) (Ok tt) true true true); [reflexivity..|].
    by split. }
  eapply rtc_l; [by apply (cs_rotate _ _ "a" l1 1 key1 l2)|].
  eapply rtc_l.
  { eapply (cs_put _ _ "a" l2 1 "k" secret _ _ (put_bytes key1) (Ok tt) true true true); [reflexivity..|]. by split. }
  eapply rtc_l; [by apply (cs_forget _ _ "a" l3 2)|].
  eapply rtc_l; [by apply (cs_apply _ _ "b" (fresh false) 0 e1)|].
  eapply rtc_l; [by apply (cs_apply _ _ "b" f1 1 e2)|].
  eapply rtc_l; [by apply (cs_role _ _ "b" f2 2 (true : @raft cluster_env))|].
  apply rtc_refl.
Qed.

(** A failover after a rotation loses the data.  Key rotation changes the key of
    the leader only, so when leadership moves to the other replica, which has
    applied every entry, the value can be read by the old leader and not by the
    new one. *)
Lemma failover_after_rotation :
  ∃ C old new, rtc cstep no_replicas C ∧
    c_replicas C !! "a" = Some (old, length (c_log C)) ∧ c_replicas C !! "b" = Some (new, length (c_log C)) ∧
    IsLeader new = true ∧ rs_Get "k" old = Ok secret ∧ ∃ e, rs_Get "k" new = Err e.
Proof.
  exists after_failover, l4, f3. split; [apply failover_run|].
  split; [reflexivity|]. split; [reflexivity|]. split; [reflexivity|]. split; [vm_compute; reflexivity|].
  vm_compute. eauto.
Qed.

Lemma replica_reads_exact_witness :
  answer l4 (spec_map [e1; e2]) "k" (rs_Get "k" l4) ∧ answer f3 (spec_map [e1; e2]) "k" (rs_Get "k" f3).
Proof.
  split.
  - apply (replica_reads_exact after_failover "a" l4 2 "k" failover_run). reflexivity.
  - apply (replica_reads_exact after_failover "b" f3 2 "k" failover_run). reflexivity.
Defined.

Lemma replicas_agree_witness : rs_fsm f3 = rs_fsm l4.
Proof. apply (replicas_agree after_failover "a" "b" l4 f3 2 2 failover_run); reflexivity. Defined.

End DemoReplicas.
