(* ===== verification/Proxy.v ===== *)
(** * Proxy: the connections of a node port

    internal/agent/nodeport.go: startPortProxy and proxyConn, the goroutines
    behind a listening port (which ports listen is Agent.v).  A proxy accepts
    connections; each gets a goroutine that dials the target and two more that copy
    one direction each and announce on a channel that they have finished; it returns
    on the first announcement or when the proxy is cancelled, and closes both ends.

    The goroutines run in any order: [conn_step] and [proxy_step] make one step
    of one of them, or of the peers, which send bytes and close their side. *)

From stdpp Require Import base list strings relations well_founded.
From Stdlib Require Import Strings.Byte.
From S2P Require Import Prelude.

(** ** One connection *)

(** The two directions: from the client to the target, and back. *)
Inductive direction := Up | Down.
#[export] Instance direction_eq_decision : EqDecision direction.
Proof. solve_decision. Defined.

(** The goroutine of a direction: not started yet, in io.Copy, or past its
    announcement. *)
Inductive copier := Waiting | Running | Finished.
#[export] Instance copier_eq_decision : EqDecision copier.
Proof. solve_decision. Defined.

(** A direction: what its sender has written so far, whether the sender has closed
    its side, and what was passed on. *)
Record stream := MkStream { st_sent : bytes; st_eof : bool; st_fwd : bytes; st_copier : copier }.

(** proxyConn: before net.Dial returned, in the select, or returned (with both
    ends closed by the deferred calls). *)
Inductive phase := Dialing | Selecting | Returned.
#[export] Instance phase_eq_decision : EqDecision phase.
Proof. solve_decision. Defined.

(** [c_done] is the number of announcements in the channel; [c_broken] is a ghost:
    an end of the connection failed. *)
Record conn := MkConn { c_phase : phase; c_up : stream; c_down : stream; c_done : nat; c_broken : bool }.

Definition done_capacity : nat := 2.

Definition side (d : direction) (c : conn) : stream := match d with Up => c_up c | Down => c_down c end.
Definition set_side (d : direction) (s : stream) (c : conn) : conn :=
  match d with
  | Up => MkConn (c_phase c) s (c_down c) (c_done c) (c_broken c)
  | Down => MkConn (c_phase c) (c_up c) s (c_done c) (c_broken c)
  end.
Definition set_copier (x : copier) (s : stream) : stream := MkStream (st_sent s) (st_eof s) (st_fwd s) x.

(** go proxyConn(ctx, conn, target), on a connection that was just accepted *)
Definition new_stream : stream := MkStream [] false [] Waiting.
Definition new_conn : conn := MkConn Dialing new_stream new_stream 0 false.

Inductive action :=
  | Send (d : direction) (b : bytes)   (** a peer writes *)
  | CloseWrite (d : direction)         (** a peer closes its side *)
  | Break                              (** an end of the connection fails *)
  | Dial (ok : bool)
  | Copy (d : direction) (n : nat)     (** io.Copy passes on n bytes *)
  | CopyEnd (d : direction)            (** io.Copy returns, done <- struct{}{} *)
  | Return.

(** io.Copy returns: at the end of the stream when all of it was passed on, or on
    an error, when an end has failed or was closed. *)
Definition copy_returns (c : conn) (s : stream) : bool :=
  (st_eof s && bool_decide (st_fwd s = st_sent s)) || c_broken c || bool_decide (c_phase c = Returned).

(** One step of a connection of a proxy whose context is [cancelled] or not; [None]
    when the step is not possible. *)
Definition conn_step (cancelled : bool) (a : action) (c : conn) : option conn :=
  match a with
  | Send d b =>
      let s := side d c in
      if st_eof s then None else Some (set_side d (MkStream (st_sent s ++ b) false (st_fwd s) (st_copier s)) c)
  | CloseWrite d =>
      let s := side d c in Some (set_side d (MkStream (st_sent s) true (st_fwd s) (st_copier s)) c)
  | Break => Some (MkConn (c_phase c) (c_up c) (c_down c) (c_done c) true)
  | Dial ok =>
      if bool_decide (c_phase c = Dialing) then
        Some (if ok : bool
              then MkConn Selecting (set_copier Running (c_up c)) (set_copier Running (c_down c)) (c_done c) (c_broken c)
              else MkConn Returned (c_up c) (c_down c) (c_done c) (c_broken c))
      else None
  | Copy d n =>
      let s := side d c in
      if bool_decide (st_copier s = Running) && bool_decide (c_phase c = Selecting) && negb (c_broken c)
         && (0 <? n)%nat && (length (st_fwd s) + n <=? length (st_sent s))%nat
      then Some (set_side d (MkStream (st_sent s) (st_eof s) (take (length (st_fwd s) + n) (st_sent s)) Running) c)
      else None
  | CopyEnd d =>
      let s := side d c in
      if bool_decide (st_copier s = Running) && copy_returns c s && (c_done c <? done_capacity)%nat
      then let c := set_side d (set_copier Finished s) c in
           Some (MkConn (c_phase c) (c_up c) (c_down c) (S (c_done c)) (c_broken c))
      else None
  | Return =>
      if bool_decide (c_phase c = Selecting) then
        match c_done c with
        | S n => Some (MkConn Returned (c_up c) (c_down c) n (c_broken c))
        | O => if cancelled : bool then Some (MkConn Returned (c_up c) (c_down c) 0 (c_broken c)) else None
        end
      else None
  end.

(** ** A proxy *)

(** portProxy with the goroutine that accepts: the target, whether the listener is
    open and the context cancelled, and the connections accepted so far. *)
Record proxy := MkProxy { px_target : string; px_listening : bool; px_cancelled : bool; px_conns : list conn }.

(** startPortProxy *)
Definition startPortProxy (target : string) : proxy := MkProxy target true false [].

(** existing.cancel(); existing.listener.Close() *)
Definition stop_proxy (p : proxy) : proxy := MkProxy (px_target p) false true (px_conns p).

Inductive paction := Accept | Conn (i : nat) (a : action) | Stop.

Definition proxy_step (a : paction) (p : proxy) : option proxy :=
  match a with
  | Accept => if px_listening p then Some (MkProxy (px_target p) true (px_cancelled p) (px_conns p ++ [new_conn])) else None
  | Conn i a =>
      c ← px_conns p !! i; c' ← conn_step (px_cancelled p) a c;
      Some (MkProxy (px_target p) (px_listening p) (px_cancelled p) (<[i := c']> (px_conns p)))
  | Stop => Some (stop_proxy p)
  end.

Definition pstep (p p' : proxy) : Prop := ∃ a, proxy_step a p = Some p'.

(** Steps of the proxy itself, not of the peers or the agent. *)
Definition own_action (a : action) : bool :=
  match a with Dial _ | Copy _ _ | CopyEnd _ | Return => true | _ => false end.
Definition own_step (p p' : proxy) : Prop := ∃ i a, own_action a = true ∧ proxy_step (Conn i a) p = Some p'.

Fixpoint run_actions (l : list paction) (p : proxy) : option proxy :=
  match l with [] => Some p | a :: l => p ← proxy_step a p; run_actions l p end.

Lemma run_actions_steps l p p' : run_actions l p = Some p' → rtc pstep p p'.
Proof.
  revert p. induction l as [|a l IH]; intros p; simpl; [by intros [= ->]; apply rtc_refl|].
  intros (p1 & H1 & H2)%bind_Some. eapply rtc_l; [by exists a|auto].
Qed.

(** ** What a connection delivers *)

Definition finished (s : stream) : nat := if bool_decide (st_copier s = Finished) then 1 else 0.

(** All of a stream was passed on, to its end. *)
Definition complete (s : stream) : Prop := st_copier s = Finished ∧ st_eof s = true ∧ st_fwd s = st_sent s.

(** The invariant of a stream: what was passed on is a prefix of what was sent,
    and nothing before there is a copier. *)
Definition stream_ok (s : stream) : Prop :=
  st_fwd s `prefix_of` st_sent s ∧ (st_copier s = Waiting → st_fwd s = []).

(** The invariant of a connection: the copiers run after dialling, every
    announcement was made by a copier that has finished, and proxyConn returns only
    for a reason. *)
Definition conn_ok (cancelled : bool) (c : conn) : Prop :=
  (∀ d, stream_ok (side d c)) ∧
  c_done c ≤ finished (c_up c) + finished (c_down c) ∧
  match c_phase c with
  | Dialing => ∀ d, st_copier (side d c) = Waiting
  | Selecting => ∀ d, st_copier (side d c) = Running ∨ c_broken c = true ∧ st_copier (side d c) = Finished ∨ complete (side d c)
  | Returned => (∀ d, st_copier (side d c) = Waiting) ∨
                ((∀ d, st_copier (side d c) ≠ Waiting) ∧ (cancelled = true ∨ c_broken c = true ∨ ∃ d, complete (side d c)))
  end.

Lemma side_set d d' s c : side d' (set_side d s c) = if decide (d = d') then s else side d' c.
Proof. by destruct d, d'. Qed.

Lemma set_side_rest d s c :
  c_phase (set_side d s c) = c_phase c ∧ c_done (set_side d s c) = c_done c ∧ c_broken (set_side d s c) = c_broken c.
Proof. by destruct d. Qed.

Lemma finished_set d s c :
  finished (c_up (set_side d s c)) + finished (c_down (set_side d s c)) + finished (side d c) =
  finished (c_up c) + finished (c_down c) + finished s.
Proof. destruct d; simpl; lia. Qed.

Lemma new_conn_ok cancelled : conn_ok cancelled new_conn.
Proof. split; [by intros []; split|]. split; [simpl; lia|]. by intros []. Qed.

(** A change of one stream that keeps its copier, and its bytes once complete. *)
Lemma set_side_ok cancelled d s c :
  conn_ok cancelled c → stream_ok s → st_copier s = st_copier (side d c) → (complete (side d c) → complete s) →
  conn_ok cancelled (set_side d s c).
Proof.
  intros (Hs & Hd & Hp) Hok Hc Hcomp. destruct (set_side_rest d s c) as (Hph & Hdn & Hbr).
  pose proof (finished_set d s c) as Hf. unfold finished in Hf at 3 6. rewrite Hc in Hf.
  split; [intros d'; rewrite side_set; by destruct (decide (d = d'))|]. rewrite Hdn. split; [lia|].
  rewrite Hph, Hbr. destruct (c_phase c).
  - intros d'. rewrite side_set. destruct (decide (d = d')) as [<-|]; [rewrite Hc|]; auto.
  - intros d'. rewrite side_set. destruct (decide (d = d')) as [<-|]; [|auto]. rewrite Hc.
    destruct (Hp d) as [?|[?|?]]; auto.
  - destruct Hp as [Hp|[Hp Hr]]; [left|right; split].
    + intros d'. rewrite side_set. destruct (decide (d = d')) as [<-|]; [rewrite Hc|]; auto.
    + intros d'. rewrite side_set. destruct (decide (d = d')) as [<-|]; [rewrite Hc|]; auto.
    + destruct Hr as [?|[?|[d' Hd']]]; [auto..|]. right; right. exists d'. rewrite side_set.
      destruct (decide (d = d')) as [<-|]; auto.
Qed.

Lemma copier_set_ok s x : stream_ok s → x ≠ Waiting → stream_ok (set_copier x s).
Proof. by intros [Hp _] Hx; split. Qed.

Lemma dial_ok cancelled c ok c' : conn_ok cancelled c → conn_step cancelled (Dial ok) c = Some c' → conn_ok cancelled c'.
Proof.
  intros (Hs & Hd & Hp). simpl. case_bool_decide as Hph; [|done]. rewrite Hph in Hp.
  assert (c_done c = 0) as H0.
  { unfold finished in Hd. pose proof (Hp Up) as Hu. pose proof (Hp Down) as Hw. simpl in Hu, Hw. rewrite Hu, Hw in Hd. simpl in Hd. lia. }
  destruct ok; intros [= <-].
  - split; [intros []; apply copier_set_ok; [apply (Hs Up)|done|apply (Hs Down)|done]|]. simpl. rewrite H0.
    split; [lia|]. intros []; by left.
  - split; [done|]. split; [done|]. by left.
Qed.

Lemma copy_ok cancelled c d n c' : conn_ok cancelled c → conn_step cancelled (Copy d n) c = Some c' → conn_ok cancelled c'.
Proof.
  intros Hok. simpl. destruct (bool_decide (st_copier _ = _)) eqn:Hc; [|done]. apply bool_decide_eq_true in Hc.
  destruct (_ && _ && _ && _); [|done]. intros [= <-]. apply set_side_ok; [done| |done|].
  - split; [apply prefix_take|done].
  - intros (Hf & _). by rewrite Hc in Hf.
Qed.

Lemma copy_end_ok cancelled c d c' : conn_ok cancelled c → conn_step cancelled (CopyEnd d) c = Some c' → conn_ok cancelled c'.
Proof.
  intros (Hs & Hd & Hp). simpl. destruct (bool_decide (st_copier _ = _)) eqn:Hc; [|done]. apply bool_decide_eq_true in Hc.
  destruct (copy_returns c (side d c)) eqn:Hr; [|done]. simpl. destruct (_ <? _); [|done].
  destruct (set_side_rest d (set_copier Finished (side d c)) c) as (-> & -> & ->). intros [= <-].
  assert (∀ d', side d' (MkConn (c_phase c) (c_up (set_side d (set_copier Finished (side d c)) c))
      (c_down (set_side d (set_copier Finished (side d c)) c)) (S (c_done c)) (c_broken c)) =
    if decide (d = d') then set_copier Finished (side d c) else side d' c) as Hside by (by intros []; destruct d).
  split; [intros d'; rewrite Hside; destruct (decide (d = d')); [by apply copier_set_ok|done]|]. simpl. split.
  { pose proof (finished_set d (set_copier Finished (side d c)) c) as Hf.
    unfold finished in Hf at 3 6. simpl in Hf. rewrite Hc in Hf. simpl in Hf. lia. }
  destruct (c_phase c) eqn:Hph.
  - by rewrite (Hp d) in Hc.
  - intros d'. rewrite Hside. destruct (decide (d = d')) as [<-|]; [|apply Hp]. right. unfold copy_returns in Hr.
    rewrite Hph in Hr. apply orb_true_iff in Hr as [[[He Hf%bool_decide_eq_true]%andb_true_iff|Hb]%orb_true_iff|?%bool_decide_eq_true];
      [right; by split|by left|done].
  - destruct Hp as [Hp|[Hp Hq]]; [by rewrite (Hp d) in Hc|]. right. split.
    + intros d'. rewrite Hside. by destruct (decide (d = d')).
    + destruct Hq as [?|[?|[d' Hd']]]; [auto..|]. right; right. exists d'. rewrite Hside.
      destruct (decide (d = d')) as [<-|]; [|done]. by destruct Hd' as [Hf _]; rewrite Hc in Hf.
Qed.

Lemma return_ok cancelled c c' : conn_ok cancelled c → conn_step cancelled Return c = Some c' → conn_ok cancelled c'.
Proof.
  intros (Hs & Hd & Hp). simpl. case_bool_decide as Hph; [|done]. rewrite Hph in Hp.
  assert (∀ d, st_copier (side d c) ≠ Waiting) as Hw.
  { intros d Hwait. destruct (Hp d) as [Hr|[[_ Hr]|[Hr _]]]; by rewrite Hwait in Hr. }
  destruct (c_done c) as [|n] eqn:Hn.
  - destruct cancelled; [|done]. intros [= <-]. split; [done|]. split; [simpl; lia|]. right. split; [done|by left].
  - intros [= <-]. split; [done|]. split; [simpl; lia|]. right. split; [done|]. right.
    assert (∃ d, st_copier (side d c) = Finished) as [d Hf].
    { unfold finished in Hd. case_bool_decide; [by exists Up|]. case_bool_decide; [by exists Down|]. lia. }
    destruct (Hp d) as [Hr|[[? _]|?]]; [by rewrite Hf in Hr|by left|right; by exists d].
Qed.

Lemma conn_step_ok cancelled a c c' : conn_ok cancelled c → conn_step cancelled a c = Some c' → conn_ok cancelled c'.
Proof.
  intros Hok. destruct a as [d b|d| |ok|d n|d|]; try (by eauto using dial_ok, copy_ok, copy_end_ok, return_ok).
  - simpl. destruct (st_eof _) eqn:He; [done|]. intros [= <-]. destruct (proj1 Hok d) as [Hp Hw].
    apply set_side_ok; [done| |done|]; [split; [by apply prefix_app_r|done]|]. intros (_ & Hf & _). by rewrite He in Hf.
  - simpl. intros [= <-]. apply set_side_ok; [done|apply (proj1 Hok d)|done|]. by intros (? & ? & ?).
  - simpl. intros [= <-]. destruct Hok as (Hs & Hd & Hp). split; [done|]. split; [done|]. simpl.
    destruct (c_phase c); [done| |].
    + intros d. destruct (Hp d) as [?|[[_ ?]|?]]; auto.
    + destruct Hp as [?|[? _]]; auto.
Qed.

Lemma conn_ok_cancel cancelled c : conn_ok cancelled c → conn_ok true c.
Proof.
  intros (Hs & Hd & Hp). split; [done|]. split; [done|]. destruct (c_phase c); [done..|].
  destruct Hp as [?|[? _]]; auto.
Qed.

Definition proxy_ok (p : proxy) : Prop := Forall (conn_ok (px_cancelled p)) (px_conns p).

Lemma proxy_step_ok p p' : pstep p p' → proxy_ok p → proxy_ok p'.
Proof.
  intros [[|i a|] Hs] Hp; simpl in Hs.
  - destruct (px_listening p); simplify_eq. apply Forall_app. split; [done|]. apply Forall_singleton, new_conn_ok.
  - apply bind_Some in Hs as (c & Hc & (c' & Hc' & [= <-])%bind_Some). unfold proxy_ok in *. simpl.
    apply Forall_insert; [done|]. eapply conn_step_ok; [|exact Hc']. by eapply Forall_lookup_1.
  - simplify_eq. unfold proxy_ok in *. simpl. eapply Forall_impl; [exact Hp|]. intros c. apply conn_ok_cancel.
Qed.

Lemma proxy_reach_ok target p : rtc pstep (startPortProxy target) p → proxy_ok p ∧ px_target p = target.
Proof.
  intros Hr. remember (startPortProxy target) as p0 eqn:Hp0.
  assert (proxy_ok p0 ∧ px_target p0 = target) as H by (subst; split; [constructor|done]). clear Hp0.
  induction Hr as [|p p1 p2 Hs Hr IH]; [done|]. apply IH. destruct H as [Hok Ht]. split; [by eapply proxy_step_ok|].
  destruct Hs as [[|i a|] Hs]; simpl in Hs; [by destruct (px_listening p); simplify_eq| |by simplify_eq].
  by apply bind_Some in Hs as (c & _ & (c' & _ & [= <-])%bind_Some).
Qed.

(** C24: Bytes arrive in order and unaltered.  Whatever the order of the goroutines,
    each peer has received a prefix of what the other sent; and a connection that
    ended while the proxy was not stopped and neither end failed either never
    reached the target, or has delivered one of its directions to the end. *)
Theorem proxy_delivers target p i c :
  rtc pstep (startPortProxy target) p → px_conns p !! i = Some c →
  (∀ d, st_fwd (side d c) `prefix_of` st_sent (side d c)) ∧
  (c_phase c = Returned → px_cancelled p = false → c_broken c = false →
     (∀ d, st_fwd (side d c) = []) ∨ ∃ d, st_eof (side d c) = true ∧ st_fwd (side d c) = st_sent (side d c)).
Proof.
  intros [Hp _]%proxy_reach_ok Hi. destruct (Forall_lookup_1 _ _ _ _ Hp Hi) as (Hs & _ & Hph).
  split; [intros d; apply Hs|]. intros Hr Hc Hb. rewrite Hr in Hph. destruct Hph as [Hw|[_ [H|[H|[d (_ & ? & ?)]]]]].
  - left. intros d. by apply Hs, Hw.
  - congruence.
  - congruence.
  - right. eauto.
Qed.

(** ** Stopping *)

(** What is left to do for a connection: the bytes to pass on, the copiers that
    run, the phases to come. *)
Definition copier_left (s : stream) : nat := if bool_decide (st_copier s = Running) then 1 else 0.
Definition stream_left (s : stream) : nat := (length (st_sent s) - length (st_fwd s)) + copier_left s.
Definition phase_left (x : phase) : nat := match x with Dialing => 6 | Selecting => 3 | Returned => 0 end.
Definition conn_left (c : conn) : nat := phase_left (c_phase c) + stream_left (c_up c) + stream_left (c_down c).

Lemma conn_left_set d s c : conn_left (set_side d s c) + stream_left (side d c) = conn_left c + stream_left s.
Proof. destruct d; unfold conn_left; simpl; lia. Qed.

Lemma own_step_left cancelled a c c' : own_action a = true → conn_step cancelled a c = Some c' → conn_left c' < conn_left c.
Proof.
  destruct a as [| | |ok|d n|d|]; try done; intros _; simpl.
  - case_bool_decide as Hp; [|done]. intros [= <-]. unfold conn_left. rewrite Hp.
    destruct ok; simpl; [|lia]. unfold stream_left, copier_left. simpl. do 2 case_bool_decide; lia.
  - destruct (bool_decide (st_copier _ = _)) eqn:Hc; [|done]. destruct (bool_decide (c_phase c = _)); [|done].
    destruct (negb _); [|done]. simpl. destruct (0 <? n) eqn:Hn; [|done]. destruct (_ <=? _) eqn:Hl; [|done]. intros [= <-].
    apply Nat.ltb_lt in Hn. apply Nat.leb_le in Hl.
    match goal with |- conn_left (set_side d ?s c) < _ => pose proof (conn_left_set d s c) as Hs end.
    unfold stream_left, copier_left in Hs. rewrite Hc in Hs. simpl in Hs. rewrite length_take in Hs. lia.
  - destruct (bool_decide (st_copier _ = _)) eqn:Hc; [|done]. destruct (_ && _); [|done]. simpl. intros [= <-].
    change (conn_left (set_side d (set_copier Finished (side d c)) c) < conn_left c).
    pose proof (conn_left_set d (set_copier Finished (side d c)) c) as Hs.
    unfold stream_left, copier_left in Hs. rewrite Hc in Hs. simpl in Hs. lia.
  - case_bool_decide as Hp; [|done]. unfold conn_left. rewrite Hp. destruct (c_done c); [destruct cancelled; [|done]|];
      intros [= <-]; simpl; lia.
Qed.

Definition proxy_left (p : proxy) : nat := sum_list (conn_left <$> px_conns p).

Lemma sum_insert (l : list conn) i c c' :
  l !! i = Some c → sum_list (conn_left <$> <[i := c']> l) + conn_left c = sum_list (conn_left <$> l) + conn_left c'.
Proof. revert i. induction l as [|x l IH]; intros [|i] Hi; simplify_eq/=; [lia|]. specialize (IH _ Hi). lia. Qed.

Lemma own_step_decreases p p' : own_step p p' → proxy_left p' < proxy_left p.
Proof.
  intros (i & a & Ha & (c & Hc & (c' & Hc' & [= <-])%bind_Some)%bind_Some).
  pose proof (own_step_left _ _ _ _ Ha Hc'). pose proof (sum_insert _ i c c' Hc). unfold proxy_left. simpl. lia.
Qed.

(** No goroutine of the connection is left. *)
Definition drained (c : conn) : Prop := c_phase c = Returned ∧ ∀ d, st_copier (side d c) ≠ Running.

(** A connection of a stopped proxy that is not drained has a step to make: in
    particular an announcement never blocks on the channel. *)
Lemma undrained_steps c : conn_ok true c → drained c ∨ ∃ a c', own_action a = true ∧ conn_step true a c = Some c'.
Proof.
  intros (Hs & Hd & Hp). destruct (c_phase c) eqn:Hph.
  - right. exists (Dial false). simpl. rewrite Hph. eauto.
  - right. exists Return. simpl. rewrite Hph. destruct (c_done c); eauto.
  - assert (∀ d, st_copier (side d c) = Running → ∃ a c', own_action a = true ∧ conn_step true a c = Some c') as Hrun.
    { intros d Hr. exists (CopyEnd d). eexists. split; [done|]. simpl. rewrite Hr. unfold copy_returns. rewrite Hph.
      rewrite (bool_decide_eq_true_2 _ eq_refl), (bool_decide_eq_true_2 _ eq_refl), orb_true_r. simpl.
      assert (c_done c < done_capacity) as Hlt; [|by rewrite (proj2 (Nat.ltb_lt _ _) Hlt)].
      unfold done_capacity. unfold finished in Hd. destruct d; simpl in Hr; rewrite Hr in Hd; simpl in Hd; case_bool_decide; lia. }
    destruct (decide (st_copier (side Up c) = Running)); [by right; apply (Hrun Up)|].
    destruct (decide (st_copier (side Down c) = Running)); [by right; apply (Hrun Down)|].
    left. split; [done|]. by intros [].
Qed.

Lemma own_step_sn q : sn own_step q.
Proof.
  assert (∀ n q, proxy_left q < n → sn own_step q) as Hn; [|by apply (Hn (S (proxy_left q))); lia].
  induction n as [|n IH]; intros q' Hq; [lia|]. constructor. intros q'' Hs%own_step_decreases. apply IH. lia.
Qed.

Lemma own_step_stopped p p' : own_step p p' → px_cancelled p = true ∧ px_listening p = false → px_cancelled p' = true ∧ px_listening p' = false.
Proof. intros (i & a & _ & (c & _ & (c' & _ & [= <-])%bind_Some)%bind_Some). done. Qed.

(** A stopped proxy comes to rest.  Its goroutines cannot run forever, and once
    none of them can make a step, no matter in which order they ran, every
    connection is closed and none of its goroutines is left; no connection is
    accepted in the meantime. *)
Theorem stopped_proxy_drains target p :
  rtc pstep (startPortProxy target) p →
  sn own_step (stop_proxy p) ∧
  (∀ p', rtc own_step (stop_proxy p) p' → proxy_step Accept p' = None ∧ (nf own_step p' → Forall drained (px_conns p'))).
Proof.
  intros [Hok _]%proxy_reach_ok. split; [apply own_step_sn|]. intros p' Hr.
  assert (proxy_ok (stop_proxy p) ∧ px_cancelled (stop_proxy p) = true ∧ px_listening (stop_proxy p) = false) as Hst.
  { split; [|done]. apply (proxy_step_ok p); [by exists Stop|done]. }
  revert Hst. clear Hok. generalize (stop_proxy p) Hr. clear Hr p. intros q Hr.
  induction Hr as [q|q q1 q2 Hs Hr IH].
  - intros (Hok & Hc & Hl). split; [simpl; by rewrite Hl|]. intros Hnf. apply Forall_lookup_2. intros i c Hi.
    unfold proxy_ok in Hok. rewrite Hc in Hok.
    destruct (undrained_steps c (Forall_lookup_1 _ _ _ _ Hok Hi)) as [|(a & c' & Ha & Hstep)]; [done|].
    exfalso. apply Hnf. eexists. exists i, a. split; [done|]. simpl. rewrite Hi. simpl. rewrite Hc, Hstep. reflexivity.
  - intros (Hok & Hcl). apply IH. split; [|by eapply own_step_stopped].
    apply (proxy_step_ok q); [|done]. destruct Hs as (i & a & _ & Hs). by exists (Conn i a).
Qed.

(** ** Half-closed connections *)

(** Once a connection has returned nothing more is passed on. *)
Lemma returned_fwd cancelled a c c' d :
  conn_step cancelled a c = Some c' → c_phase c = Returned → c_phase c' = Returned ∧ st_fwd (side d c') = st_fwd (side d c).
Proof.
  intros Hs Hp. destruct a as [d' b|d'| |ok|d' n|d'|]; simpl in Hs; rewrite ?Hp in Hs; simpl in Hs.
  - destruct (st_eof _); simplify_eq. rewrite side_set. destruct (set_side_rest d' (MkStream (st_sent (side d' c) ++ b) false (st_fwd (side d' c)) (st_copier (side d' c))) c) as (-> & _).
    split; [done|]. by destruct (decide (d' = d)) as [->|].
  - simplify_eq. rewrite side_set. destruct (set_side_rest d' (MkStream (st_sent (side d' c)) true (st_fwd (side d' c)) (st_copier (side d' c))) c) as (-> & _).
    split; [done|]. by destruct (decide (d' = d)) as [->|].
  - by simplify_eq.
  - done.
  - by rewrite andb_false_r in Hs.
  - destruct (_ && _ && _); simplify_eq. split; [by destruct d'|]. by destruct d, d'.
  - done.
Qed.

Lemma returned_fwd_steps p p' i c d :
  rtc pstep p p' → px_conns p !! i = Some c → c_phase c = Returned →
  ∃ c', px_conns p' !! i = Some c' ∧ c_phase c' = Returned ∧ st_fwd (side d c') = st_fwd (side d c).
Proof.
  intros Hr. revert c. induction Hr as [p|p p1 p2 [a Hs] Hr IH]; intros c Hi Hp; [by exists c|].
  assert (∃ c1, px_conns p1 !! i = Some c1 ∧ c_phase c1 = Returned ∧ st_fwd (side d c1) = st_fwd (side d c)) as (c1 & Hi1 & Hp1 & Hf1).
  { destruct a as [|j a|]; simpl in Hs.
    - destruct (px_listening p); simplify_eq/=. exists c. by rewrite (lookup_app_l_Some _ _ _ _ Hi).
    - apply bind_Some in Hs as (c0 & H0 & (c1 & H1 & [= <-])%bind_Some). simpl.
      destruct (decide (j = i)) as [->|Hne].
      + simplify_eq. exists c1. rewrite list_lookup_insert_eq by (by eapply lookup_lt_Some). split; [done|]. by eapply returned_fwd.
      + exists c. by rewrite list_lookup_insert_ne by done.
    - simplify_eq. by exists c. }
  destruct (IH c1 Hi1 Hp1) as (c' & ? & ? & ?). exists c'. split_and!; [done..|congruence].
Qed.

(** A client that closes its side after the request gets no answer.  The copy of
    the request ends, proxyConn returns and closes both ends: from then on nothing
    that the target sends reaches the client, although the proxy was not stopped
    and no end failed. *)
Theorem half_close_truncates target request n :
  length request = S n →
  let run := [Accept; Conn 0 (Dial true); Conn 0 (Send Up request); Conn 0 (CloseWrite Up);
              Conn 0 (Copy Up (S n)); Conn 0 (CopyEnd Up); Conn 0 Return] in
  ∃ p c, run_actions run (startPortProxy target) = Some p ∧ px_conns p !! 0 = Some c ∧
    px_cancelled p = false ∧ c_broken c = false ∧ st_fwd (side Up c) = request ∧
    ∀ p', rtc pstep p p' → ∃ c', px_conns p' !! 0 = Some c' ∧ st_fwd (side Down c') = [].
Proof.
  intros Hn run.
  set (c := MkConn Returned (MkStream request true request Finished) (MkStream [] false [] Running) 0 false).
  exists (MkProxy target true false [c]), c. split; [|split_and!; [done..|]].
  - unfold run. simpl. rewrite Hn, Nat.leb_refl. simpl. unfold copy_returns. simpl. rewrite take_ge by lia.
    by rewrite (bool_decide_eq_true_2 (request = request)) by done.
  - intros p' Hr. destruct (returned_fwd_steps _ _ 0 c Down Hr) as (c' & Hc & _ & Hf); [done..|]. eauto.
Qed.

(** ** Witnesses *)

Module ProxyDemo.

(** A request and its answer through one connection, the target closing first. *)
Definition demo_run : list paction :=
  [Accept; Conn 0 (Send Up [x01; x02]); Conn 0 (Dial true); Conn 0 (Copy Up 1); Conn 0 (Copy Up 1);
   Conn 0 (Send Down [x03]); Conn 0 (CloseWrite Down); Conn 0 (Copy Down 1); Conn 0 (CopyEnd Down); Conn 0 Return].
Definition served : proxy := default (startPortProxy "") (run_actions demo_run (startPortProxy "10.0.0.2:80")).

Lemma served_reached : rtc pstep (startPortProxy "10.0.0.2:80") served.
Proof. apply (run_actions_steps demo_run). vm_compute. reflexivity. Qed.

Definition served_conn : conn :=
  MkConn Returned (MkStream [x01; x02] false [x01; x02] Running) (MkStream [x03] true [x03] Finished) 0 false.

Lemma proxy_delivers_witness :
  px_conns served !! 0 = Some served_conn ∧ ∀ d, st_fwd (side d served_conn) `prefix_of` st_sent (side d served_conn).
Proof.
  split; [vm_compute; reflexivity|].
  apply (proxy_delivers "10.0.0.2:80" served 0 served_conn served_reached). vm_compute. reflexivity.
Defined.

Lemma stopped_proxy_drains_witness : sn own_step (stop_proxy served).
Proof. apply (stopped_proxy_drains "10.0.0.2:80" served served_reached). Defined.

Lemma half_close_truncates_witness :
  ∃ p c, px_conns p !! 0 = Some c ∧ st_fwd (side Up c) = [x01; x02] ∧ px_cancelled p = false.
Proof.
  destruct (half_close_truncates "10.0.0.2:80" [x01; x02] 1 eq_refl) as (p & c & _ & H1 & H2 & _ & H3 & _).
  exists p, c. auto.
Defined.

End ProxyDemo.
