(* ===== verification/AgentTypes.v ===== *)
(** * AgentTypes: the state of the agent is well formed

    The table of processes, the streaks, the queue and the reports of the agent
    (Agent.v) have the shape their types and the code promise: every turn of the
    loop keeps [agent_wf], whatever the host answers. *)

From stdpp Require Import gmap strings list pretty.
From Stdlib Require Import Ascii ZArith Lia.
From S2P Require Import Prelude Api Agent AgentCorrect.

Local Open Scope Z_scope.

(** A tracked process is a container, a command or a WebAssembly module, and
    only one of them. *)
Definition one_handle (tp : trackedProcess) : Prop :=
  (tp_containerID tp = containerName (tp_pod tp) ∧ tp_cmd tp = None ∧ tp_wasmRuntime tp = None) ∨
  (tp_containerID tp = "" ∧ is_Some (tp_cmd tp) ∧ tp_wasmRuntime tp = None) ∨
  (tp_containerID tp = "" ∧ tp_cmd tp = None ∧ is_Some (tp_wasmRuntime tp)).

(** An entry of the table: filed under the key of its pod, with an int32. *)
Definition wf_process (key : string) (tp : trackedProcess) : Prop :=
  podKey (tp_pod tp) = key ∧ one_handle tp ∧ in_int32 (tp_restarts tp).

Definition wf_report (r : statusReport) : Prop :=
  in_int32 (PodStatus_RestartCount (sr_Status r)) ∧ in_int64 (PodStatus_MemoryUsageBytes (sr_Status r)).

Section types.
Context {E : Type} {HH : Host E} {Sh : Shuffle} (cfg : Config).
Implicit Types s : agent_state E.

Definition agent_wf s : Prop :=
  map_Forall wf_process (ag_procs s) ∧
  map_Forall (λ _ n, 1 ≤ n < containerdMissingConfirmations) (ag_missingStreaks s) ∧
  (length (ag_exited s) ≤ exited_capacity)%nat ∧
  Forall wf_report (ag_reports s).

(** Programs that keep the state well formed and whose result satisfies [P]. *)
Definition keeps {B} (P : B → Prop) (m : M (agent_state E) B) : Prop :=
  ∀ s, agent_wf s → wp m (λ r s', agent_wf s' ∧ (∀ b, r = Ok b → P b)) s.

Abbreviation any := (λ _, True).

Lemma keeps_ret {B} (P : B → Prop) b : P b → keeps P (mret b).
Proof. intros Hb s Hs. apply wp_ret. split; [done|]. by intros ? [= <-]. Qed.

Lemma keeps_fail {B} (P : B → Prop) e : keeps P (fail e).
Proof. intros s Hs. apply wp_fail. by split. Qed.

Lemma keeps_bind {B C} (P : B → Prop) (Q : C → Prop) (m : M (agent_state E) B) f :
  keeps P m → (∀ b, P b → keeps Q (f b)) → keeps Q (m ≫= f).
Proof.
  intros Hm Hf s Hs. apply wp_bind. intros t. destruct (Hm s Hs t) as [Hp [Hs' HP]]. split; [done|].
  destruct (m (World s t)).1 as [b|e|] eqn:Hr; [apply Hf; auto|by split|done].
Qed.

Lemma keeps_any {B} (P : B → Prop) (m : M (agent_state E) B) : keeps P m → keeps any m.
Proof. intros Hm s Hs. eapply wp_mono; [by apply Hm|]. by intros r s' []. Qed.

Lemma keeps_attempt {B} (m : M (agent_state E) B) : keeps any m → keeps any (attempt m).
Proof. intros Hm s Hs. apply wp_attempt. eapply wp_mono; [by apply Hm|]. by intros r s' []. Qed.

Lemma keeps_wrapM {B} msg (m : M (agent_state E) B) : keeps any m → keeps any (wrapM msg m).
Proof. intros Hm s Hs. apply wp_wrapM. eapply wp_mono; [by apply Hm|]. by intros r s' []. Qed.

Lemma keeps_logged (m : M (agent_state E) unit) : keeps any m → keeps any (logged m).
Proof. intros Hm s Hs. apply wp_logged. eapply wp_mono; [by apply Hm|]. by intros r s' []. Qed.

Lemma keeps_hcall {B} (f : E → (error + B) * E) : keeps any (hcall f).
Proof. intros s Hs. apply wp_hcall. by split. Qed.

Lemma keeps_range {B} (l : list B) : keeps (λ l', l' ≡ₚ l) (range l).
Proof. intros s Hs. apply wp_range. intros l' Hl. split; [done|]. by intros ? [= <-]. Qed.

Lemma keeps_for_each {B} (P : B → Prop) (l : list B) f : Forall P l → (∀ x, P x → keeps any (f x)) → keeps any (for_each l f).
Proof.
  intros Hl Hf. induction Hl as [|x l Hx Hl IH]; simpl; [by apply keeps_ret|]. eapply keeps_bind; [by apply Hf|]. auto.
Qed.

Lemma keeps_map_each {B C} (l : list B) (f : B → M (agent_state E) (list C)) : (∀ x, keeps any (f x)) → keeps any (map_each l f).
Proof.
  intros Hf. induction l as [|x l IH]; simpl; [by apply keeps_ret|]. eapply keeps_bind; [apply Hf|]. intros ys _.
  eapply keeps_bind; [apply IH|]. intros zs _. by apply keeps_ret.
Qed.

(** Reading the state gives a well-formed one; writing one keeps it so. *)
Lemma keeps_get : keeps agent_wf get.
Proof. intros s Hs. apply wp_get. split; [done|]. by intros ? [= <-]. Qed.

Lemma keeps_put s' : agent_wf s' → keeps any (put s').
Proof. intros Hs' s _. by apply wp_put. Qed.

Lemma keeps_set_procs procs : map_Forall wf_process procs → keeps any (set_procs procs).
Proof.
  intros Hp. eapply keeps_bind; [apply keeps_get|]. intros s (_ & Hm & He & Hr). by apply keeps_put.
Qed.

Lemma keeps_set_streaks streaks :
  map_Forall (λ _ n, 1 ≤ n < containerdMissingConfirmations) streaks → keeps any (set_streaks streaks).
Proof. intros Hm. eapply keeps_bind; [apply keeps_get|]. intros s (Hp & _ & He & Hr). by apply keeps_put. Qed.

Lemma keeps_set_active active : keeps any (set_active active).
Proof. eapply keeps_bind; [apply keeps_get|]. intros s Hs. by apply keeps_put. Qed.

Hint Resolve keeps_hcall keeps_set_active keeps_attempt keeps_wrapM keeps_logged : nimbus.

(** *** The operations *)

Lemma keeps_send ev : keeps any (send ev).
Proof.
  eapply keeps_bind; [apply keeps_get|]. intros s (Hp & Hm & He & Hr). destruct (_ <? _)%nat eqn:Hl; [|by apply keeps_ret].
  apply Nat.ltb_lt in Hl. eapply keeps_bind; [apply keeps_put|intros; by apply keeps_ret].
  split_and!; simpl; [done..| |done]. rewrite length_app. simpl. lia.
Qed.

Lemma keeps_send_all evs : keeps any (send_all evs).
Proof.
  induction evs as [|ev evs IH]; simpl; [by apply keeps_ret|]. eapply keeps_bind; [apply keeps_send|].
  intros [] _; [done|by apply keeps_ret].
Qed.

Lemma keeps_has key : keeps any (has key).
Proof. eapply keeps_bind; [apply keeps_get|]. intros s _. by apply keeps_ret. Qed.

Lemma keeps_keys : keeps any keys.
Proof. eapply keeps_bind; [apply keeps_get|]. intros s _. eapply keeps_any, keeps_range. Qed.

Lemma keeps_restartCount key : keeps in_int32 (restartCount key).
Proof.
  eapply keeps_bind; [apply keeps_get|]. intros s (Hp & _). apply keeps_ret.
  destruct (ag_procs s !! key) as [tp|] eqn:Hk; [|done]. apply (Hp _ _ Hk).
Qed.

Lemma keeps_podOf key : keeps (λ o, ∀ pod, o = Some pod → podKey pod = key) (podOf key).
Proof.
  eapply keeps_bind; [apply keeps_get|]. intros s (Hp & _). apply keeps_ret. intros pod (tp & Hk & ->)%fmap_Some.
  apply (Hp _ _ Hk).
Qed.

Lemma keeps_rss pid : keeps in_int64 (rss pid).
Proof.
  eapply keeps_bind; [auto with nimbus|]. intros [v|e|] _; apply keeps_ret; [apply wrap64_range|done..].
Qed.

Lemma keeps_memory key : keeps in_int64 (memoryUsageBytes key).
Proof.
  eapply keeps_bind; [apply keeps_get|]. intros s _. destruct (ag_procs s !! key) as [tp|]; [|by apply keeps_ret].
  destruct (negb _).
  - eapply keeps_bind; [auto with nimbus|]. intros [pid|e|] _; [apply keeps_rss|by apply keeps_ret..].
  - destruct (tp_cmd tp); [apply keeps_rss|by apply keeps_ret].
Qed.

(** Filing a process under the key of its pod. *)
Lemma keeps_track pod cmd wasm id :
  one_handle (MkTrackedProcess pod cmd wasm id 0) → keeps any (track (podKey pod) pod cmd wasm id).
Proof.
  intros Hh. eapply keeps_bind; [apply keeps_get|]. intros s (Hp & _). apply keeps_set_procs.
  apply map_Forall_insert_2; [|done]. split; [done|]. split; [done|]. simpl.
  destruct (ag_procs s !! podKey pod) as [tp|] eqn:Hk; [apply (Hp _ _ Hk)|done].
Qed.

Lemma keeps_startContainerd pod : keeps any (startContainerd cfg pod).
Proof.
  eapply keeps_bind; [apply keeps_hcall|]. intros _ _. eapply keeps_bind.
  { destruct (Container_GetBuildSource _); apply keeps_hcall. }
  intros image _. eapply keeps_bind; [destruct (decide _); [by apply (keeps_ret any)|apply keeps_hcall]|]. intros logPath _.
  eapply keeps_bind.
  { unfold pod_mounts. destruct (decide _); [by apply (keeps_ret any)|]. apply keeps_map_each. intros m.
    eapply keeps_bind; [apply keeps_hcall|]. intros d _. by apply keeps_ret. }
  intros mounts _. eapply keeps_bind; [apply keeps_hcall|]. intros _ _. apply keeps_track. by left.
Qed.

Lemma keeps_start pod : keeps any (start cfg pod).
Proof.
  unfold start. destruct (negb _); [|destruct (_ || _); [apply keeps_startContainerd|]].
  - unfold startWASM. eapply keeps_bind; [auto with nimbus|]. intros _ _. eapply keeps_bind; [auto with nimbus|].
    intros rt _. apply keeps_track. right; right. by eauto.
  - unfold startProcess. destruct (Container_GetCommand _); [apply keeps_fail|]. eapply keeps_bind; [apply keeps_hcall|].
    intros pid _. apply keeps_track. right; left. by eauto.
Qed.

Lemma keeps_adopt pod : keeps any (adoptIfRunning pod).
Proof.
  unfold adoptIfRunning. destruct (_ && _); [by apply keeps_ret|]. eapply keeps_bind; [auto with nimbus|].
  intros [m|e|] _; [|by apply keeps_ret..]. destruct (default false _); [|by apply keeps_ret].
  eapply keeps_bind; [apply keeps_get|]. intros s (Hp & _). eapply keeps_bind; [|intros _ _; by apply keeps_ret].
  apply keeps_set_procs. apply map_Forall_insert_2; [|done]. split; [done|]. split; [by left|done].
Qed.

Lemma miss_step_streaks statuses streaks key tp :
  map_Forall (λ _ n, 1 ≤ n < containerdMissingConfirmations) streaks →
  map_Forall (λ _ n, 1 ≤ n < containerdMissingConfirmations) (miss_step statuses streaks key tp).1.
Proof.
  intros Hs. unfold miss_step. destruct (decide _); [done|]. destruct (default false _); [by apply map_Forall_delete|].
  assert (0 ≤ zlookup streaks key < containerdMissingConfirmations) as Hz.
  { unfold zlookup. destruct (streaks !! key) as [k|] eqn:Hn; [|done]. specialize (Hs _ _ Hn). simpl in *. lia. }
  unfold containerdMissingConfirmations in *. rewrite wrap64_id by (unfold in_int64; lia).
  destruct (_ <? _) eqn:Hl; [|by apply map_Forall_delete]. apply Z.ltb_lt in Hl. apply map_Forall_insert_2; [lia|done].
Qed.

Lemma miss_loop_streaks statuses procs streaks :
  map_Forall (λ _ n, 1 ≤ n < containerdMissingConfirmations) streaks →
  map_Forall (λ _ n, 1 ≤ n < containerdMissingConfirmations) (miss_loop statuses procs streaks).1.
Proof.
  unfold miss_loop. generalize (@nil exitEvent). revert streaks. induction procs as [|kv procs IH]; intros streaks exits Hs; simpl; [done|].
  pose proof (miss_step_streaks statuses streaks kv.1 kv.2 Hs). destruct (miss_step _ _ _ _) as [streaks' evs]. by apply IH.
Qed.

Lemma keeps_check : keeps any checkContainerdExits.
Proof.
  eapply keeps_bind; [auto with nimbus|]. intros [m|e|] _; [|by apply keeps_ret..].
  eapply keeps_bind; [apply keeps_get|]. intros s (_ & Hm & _). eapply keeps_bind; [apply keeps_range|]. intros procs _.
  pose proof (miss_loop_streaks m procs _ Hm). destruct (miss_loop _ _ _) as [streaks exits].
  eapply keeps_bind; [by apply keeps_set_streaks|]. intros _ _. apply keeps_send_all.
Qed.

Lemma keeps_stillRunning key : keeps any (stillRunning key).
Proof.
  eapply keeps_bind; [apply keeps_get|]. intros s _. destruct (ag_procs s !! key); [|by apply keeps_ret].
  destruct (decide _); [by apply keeps_ret|]. eapply keeps_bind; [auto with nimbus|]. intros r _. by apply keeps_ret.
Qed.

Lemma keeps_restart pod : keeps any (restart cfg pod).
Proof.
  eapply keeps_bind; [apply keeps_get|]. intros s (Hp & _). eapply keeps_bind; [|intros _ _; apply keeps_start].
  apply keeps_set_procs. intros key tp. rewrite lookup_alter. destruct (decide (podKey pod = key)) as [->|]; [|apply Hp].
  intros (tp0 & H0 & ->)%fmap_Some. destruct (Hp _ _ H0) as (? & ? & ?). split; [done|]. split; [done|]. apply wrap32_range.
Qed.

Lemma keeps_stop key : keeps any (stop key).
Proof.
  eapply keeps_bind; [apply keeps_get|]. intros s (Hp & _). eapply keeps_bind; [by apply keeps_set_procs, map_Forall_delete|].
  intros _ _. destruct (ag_procs s !! key) as [tp|]; [|by apply keeps_ret].
  eapply keeps_bind; [destruct (decide _); [by apply (keeps_ret any)|apply keeps_hcall]|]. intros _ _.
  eapply keeps_bind; [destruct (tp_cmd tp); [apply keeps_hcall|by apply (keeps_ret any)]|]. intros _ _.
  destruct (tp_wasmRuntime tp); [apply keeps_hcall|by apply keeps_ret].
Qed.

(** *** Reports *)

Lemma keeps_report pod phase message restarts memory :
  in_int32 restarts → in_int64 memory → keeps any (reportStatus pod phase message restarts memory).
Proof.
  intros Hr Hm. eapply keeps_bind; [apply keeps_get|]. intros s (Hp & Hst & He & Hrep).
  eapply keeps_bind; [apply keeps_put|intros _ _; auto with nimbus].
  split_and!; simpl; [done..|]. apply Forall_app. split; [done|]. by apply Forall_singleton.
Qed.

Lemma keeps_startPod pod : keeps any (startPod cfg pod).
Proof.
  eapply keeps_bind; [apply keeps_attempt, keeps_start|]. intros [u|e|] _; by apply keeps_report.
Qed.

Lemma keeps_ensure_pod pod : keeps any (ensure_pod cfg pod).
Proof.
  eapply keeps_bind; [apply keeps_has|]. intros [] _; [by apply keeps_ret|].
  eapply keeps_bind; [apply keeps_adopt|]. intros [] _; [by apply keeps_ret|apply keeps_startPod].
Qed.

Lemma keeps_report_running key : keeps any (report_running key).
Proof.
  eapply keeps_bind; [apply keeps_podOf|]. intros [pod|] _; [|by apply keeps_ret].
  eapply keeps_bind; [apply keeps_restartCount|]. intros restarts Hr.
  eapply keeps_bind; [apply keeps_memory|]. intros memory Hm. by apply keeps_report.
Qed.

Lemma keeps_orphans desired : keeps any (reconcileOrphanContainers desired).
Proof.
  eapply keeps_bind; [auto with nimbus|]. intros [m|e|] _; [|by apply keeps_ret..].
  eapply keeps_bind; [apply keeps_range|]. intros names _.
  apply (keeps_for_each any); [by apply Forall_true|]. intros name _. destruct (_ || _); [by apply keeps_ret|apply keeps_hcall].
Qed.

Lemma keeps_reconcile : keeps any (agent_reconcile cfg).
Proof.
  eapply keeps_bind; [auto with nimbus|]. intros [pods|e|] _; [|by apply keeps_ret..].
  eapply keeps_bind; [apply keeps_check|]. intros [] _; [|by apply keeps_ret].
  eapply keeps_bind; [apply keeps_orphans|]. intros _ _. eapply keeps_bind; [apply keeps_range|]. intros wanted _.
  eapply keeps_bind.
  { apply (keeps_for_each any); [by apply Forall_true|]. intros kv _. apply keeps_ensure_pod. }
  intros _ _. eapply keeps_bind; [apply keeps_keys|]. intros ks _. eapply keeps_bind.
  { apply (keeps_for_each any); [by apply Forall_true|]. intros key _. unfold stop_unwanted.
    case_bool_decide; [by apply keeps_ret|apply keeps_stop]. }
  intros _ _. eapply keeps_bind; [apply keeps_keys|]. intros ks' _. eapply keeps_bind; [|intros _ _; by apply keeps_ret].
  apply (keeps_for_each any); [by apply Forall_true|]. intros key _. apply keeps_report_running.
Qed.

Lemma keeps_drop_proxy desired port : keeps any (drop_proxy desired port).
Proof.
  unfold drop_proxy. case_bool_decide; [by apply keeps_ret|]. eapply keeps_bind; [apply keeps_hcall|]. intros _ _.
  eapply keeps_bind; [apply keeps_get|]. intros s _. apply keeps_set_active.
Qed.

Lemma keeps_drop_all desired : keeps any (s ← get; active ← range (map_to_list (ag_active s)).*1; for_each active (drop_proxy desired)).
Proof.
  eapply keeps_bind; [apply keeps_get|]. intros s _. eapply keeps_bind; [apply keeps_range|]. intros active _.
  apply (keeps_for_each any); [by apply Forall_true|]. intros port _. apply keeps_drop_proxy.
Qed.

Lemma keeps_ensure_proxy port target : keeps any (ensure_proxy port target).
Proof.
  eapply keeps_bind; [apply keeps_get|]. intros s _. cbv zeta. case_bool_decide; [by apply keeps_ret|].
  eapply keeps_bind.
  { destruct (ag_active s !! port); [|by apply (keeps_ret any)]. eapply keeps_bind; [apply keeps_hcall|]. intros _ _. apply keeps_set_active. }
  intros _ _. eapply keeps_bind; [auto with nimbus|]. intros [u|e|] _; [|by apply keeps_ret..].
  eapply keeps_bind; [apply keeps_get|]. intros s' _. apply keeps_set_active.
Qed.

Lemma keeps_services : keeps any (reconcileServices cfg).
Proof.
  unfold reconcileServices. destruct (_ || _); [by apply keeps_ret|]. eapply keeps_bind; [auto with nimbus|].
  intros [services|e|] _; [|by apply keeps_ret..]. eapply keeps_bind; [apply keeps_range|]. intros wanted _.
  eapply keeps_bind; [|intros _ _; apply keeps_drop_all].
  apply (keeps_for_each any); [by apply Forall_true|]. intros kv _. apply keeps_ensure_proxy.
Qed.

Lemma keeps_handleExit ev : keeps any (handleExit cfg ev).
Proof.
  eapply keeps_bind; [apply keeps_podOf|]. intros [pod|] _; [|by apply keeps_ret].
  eapply keeps_bind; [apply keeps_stillRunning|]. intros [] _; [by apply keeps_ret|]. destruct (should_restart _ _).
  - eapply keeps_bind; [apply keeps_attempt, keeps_restart|]. intros r _.
    eapply keeps_bind; [apply keeps_restartCount|]. intros n Hn. destruct r; by apply keeps_report.
  - eapply keeps_bind; [apply keeps_stop|]. intros _ _. by apply keeps_report.
Qed.

Lemma keeps_turn e : keeps any (agent_turn cfg e).
Proof.
  destruct e; simpl.
  - eapply keeps_bind.
    { eapply keeps_bind; [apply keeps_keys|]. intros ks _. apply (keeps_for_each any); [by apply Forall_true|]. intros key _. apply keeps_stop. }
    intros _ _. eapply keeps_bind; [apply (keeps_drop_all ∅)|]. intros _ _. by apply keeps_ret.
  - eapply keeps_bind; [apply keeps_get|]. intros s (Hp & Hm & He & Hr). destruct (ag_exited s) as [|ev q]; [by apply keeps_ret|].
    eapply keeps_bind; [apply keeps_put; split_and!; simpl in *; [done..|lia|done]|]. intros _ _.
    eapply keeps_bind; [apply keeps_handleExit|]. intros _ _. by apply keeps_ret.
  - eapply keeps_bind; [apply keeps_reconcile|]. intros [] _; [|by apply keeps_ret].
    eapply keeps_bind; [apply keeps_services|]. intros _ _. by apply keeps_ret.
Qed.

Lemma turns_wf (events : list agent_event) (w : world (agent_state E)) :
  agent_wf (w_store w) → agent_wf (w_store (foldl (λ w e, (agent_turn cfg e w).2) w events)).
Proof.
  revert w. induction events as [|e events IH]; intros [s t] Hs; simpl; [done|]. apply IH, (keeps_turn e s Hs t).
Qed.

(** C23: The state of the agent stays well formed.  However the host answers and
    whatever happens in which order, after any number of turns every tracked process
    is filed under the key of its pod and is exactly one of container, command and
    module, a container having the name of its pod; restart counts are int32 and
    memory figures int64, also in everything that was reported; streaks of misses
    stay below the number that counts as an exit and the queue within its capacity;
    and no turn panics. *)
Theorem agent_stays_well_formed (events : list agent_event) (w : world (agent_state E)) :
  agent_wf (w_store w) →
  let turns := foldl (λ w e, (agent_turn cfg e w).2) w events in
  agent_wf (w_store turns) ∧ ∀ e, (agent_turn cfg e turns).1 ≠ Panic.
Proof.
  intros Hs turns. pose proof (turns_wf events w Hs) as Hwf. fold turns in Hwf. split; [done|].
  intros e. destruct turns as [s t]. apply (keeps_turn e s Hwf t).
Qed.

End types.

(** ** Witness *)

Module TypesDemo.
Import DemoAgent.
#[local] Existing Instance host.
#[local] Existing Instance shuffle_id.

Lemma agent_stays_well_formed_witness :
  agent_wf (w_store (foldl (λ w e, (agent_turn cfg e w).2) running [Tick; ExitReceived; Tick; ContextDone])).
Proof.
  apply (agent_stays_well_formed cfg [Tick; ExitReceived; Tick; ContextDone] running).
  split; [|split_and!; [done|simpl; lia|constructor]].
  apply map_Forall_singleton. split; [reflexivity|]. split; [right; left; repeat split; by eexists|done].
Defined.

End TypesDemo.
