(* ===== verification/Wasm.v ===== *)
(** * Wasm: the WebAssembly runtime of the agent

    internal/wasmrt/runtime.go, over the parameter [Wazero] (one method per call
    of the wazero library).  What is shown is that runtimes and modules are closed
    again on every path, and what an exit code means. *)

From stdpp Require Import gmap strings list.
From Stdlib Require Import Ascii ZArith Lia.
From S2P Require Import Prelude.

Local Open Scope Z_scope.

(** An error of wazero: sys.ExitError, which errors.As finds, or another one. *)
Inductive wz_error := ExitError (code : Z) | OtherError (e : error).

(** Runtimes, modules and functions are handles. *)
Class Wazero (E : Type) := {
  wz_NewRuntime : E → Z * E;
  (** wasi_snapshot_preview1.Instantiate *)
  wz_WASI : Z → E → (error + unit) * E;
  wz_Close : Z → E → (error + unit) * E;
  wz_Instantiate : Z → bytes → E → (error + Z) * E;
  (** the module, if there is one, and the error *)
  wz_InstantiateWithConfig : Z → bytes → E → (option Z * option wz_error) * E;
  wz_CloseModule : Z → E → E;
  wz_ExportedFunction : Z → string → E → option Z;
  wz_Call : Z → list Z → E → (error + list Z) * E;
}.

Section Runtime.
Context {E : Type} {W : Wazero E}.

Definition wasm_New (s : E) : (error + Z) * E :=
  let '(rt, s) := wz_NewRuntime s in
  match wz_WASI rt s with
  | (inl e, s) => (inl (Wrapf "wasmrt: instantiate WASI" e), (wz_Close rt s).2)
  | (inr _, s) => (inr rt, s)
  end.

Definition wasm_Close (rt : Z) (s : E) : (error + unit) * E := wz_Close rt s.

(** The deferred mod.Close runs after everything else. *)
Definition CallFunc (rt : Z) (wasmBytes : bytes) (funcName : string) (args : list Z) (s : E) : (error + list Z) * E :=
  match wz_Instantiate rt wasmBytes s with
  | (inl e, s) => (inl (Wrapf "wasmrt: instantiate module" e), s)
  | (inr mod_, s) =>
    match wz_ExportedFunction mod_ funcName s with
    | None => (inl (Errorf ("wasmrt: function not exported: " +:+ funcName)), wz_CloseModule mod_ s)
    | Some fn =>
      match wz_Call fn args s with
      | (inl e, s) => (inl (Wrapf ("wasmrt: call " +:+ funcName) e), wz_CloseModule mod_ s)
      | (inr results, s) => (inr results, wz_CloseModule mod_ s)
      end
    end
  end.

Definition wasm_Run (rt : Z) (wasmBytes : bytes) (s : E) : (error + Z) * E :=
  let '((mod_, err), s) := wz_InstantiateWithConfig rt wasmBytes s in
  let s := match mod_ with Some m => wz_CloseModule m s | None => s end in
  match err with
  | None => (inr 0, s)
  | Some (ExitError code) => (inr code, s)
  | Some (OtherError e) => (inl (Wrapf "wasmrt: run" e), s)
  end.

(** The library keeps open runtimes and modules: creating adds one, closing removes
    it, failing and calling change neither. *)
Class WazeroLaws := {
  wz_runtimes : E → gset Z;
  wz_modules : E → gset Z;
  wz_NewRuntime_open s rt s' : wz_NewRuntime s = (rt, s') →
    (rt ∉ wz_runtimes s) ∧ wz_runtimes s' = {[rt]} ∪ wz_runtimes s ∧ wz_modules s' = wz_modules s;
  wz_WASI_open rt s : wz_runtimes (wz_WASI rt s).2 = wz_runtimes s ∧ wz_modules (wz_WASI rt s).2 = wz_modules s;
  wz_Close_open rt s : wz_runtimes (wz_Close rt s).2 = wz_runtimes s ∖ {[rt]} ∧ wz_modules (wz_Close rt s).2 = wz_modules s;
  wz_Instantiate_open rt b s r s' : wz_Instantiate rt b s = (r, s') → wz_runtimes s' = wz_runtimes s ∧
    match r with inl _ => wz_modules s' = wz_modules s | inr m => (m ∉ wz_modules s) ∧ wz_modules s' = {[m]} ∪ wz_modules s end;
  wz_Config_open rt b s mo err s' : wz_InstantiateWithConfig rt b s = ((mo, err), s') → wz_runtimes s' = wz_runtimes s ∧
    match mo with None => wz_modules s' = wz_modules s | Some m => (m ∉ wz_modules s) ∧ wz_modules s' = {[m]} ∪ wz_modules s end;
  wz_CloseModule_open m s : wz_runtimes (wz_CloseModule m s) = wz_runtimes s ∧ wz_modules (wz_CloseModule m s) = wz_modules s ∖ {[m]};
  wz_Call_open fn args s : wz_runtimes (wz_Call fn args s).2 = wz_runtimes s ∧ wz_modules (wz_Call fn args s).2 = wz_modules s;
}.
Context {L : WazeroLaws}.

(** What is open. *)
Definition open (s : E) : gset Z * gset Z := (wz_runtimes s, wz_modules s).

Lemma close_fresh (X : gset Z) m : m ∉ X → ({[m]} ∪ X) ∖ {[m]} = X.
Proof. set_solver. Qed.

(** A module is closed again. *)
Lemma close_module m s s' :
  wz_runtimes s' = wz_runtimes s → m ∉ wz_modules s → wz_modules s' = {[m]} ∪ wz_modules s → open (wz_CloseModule m s') = open s.
Proof.
  intros Hr Hm Hm'. unfold open. destruct (wz_CloseModule_open m s') as [-> ->]. by rewrite Hr, Hm', close_fresh.
Qed.

(** Nothing leaks.  A runtime that cannot be set up is closed, one that can is the
    only thing new; calling a function or running a program leaves no module
    behind, whether it succeeds or fails. *)
Theorem wasm_no_leak rt wasmBytes funcName args s :
  (match wasm_New s with
   | (inl _, s') => open s' = open s
   | (inr r, s') => (r ∉ wz_runtimes s) ∧ open s' = ({[r]} ∪ wz_runtimes s, wz_modules s)
   end) ∧
  open (CallFunc rt wasmBytes funcName args s).2 = open s ∧ open (wasm_Run rt wasmBytes s).2 = open s.
Proof.
  split_and!.
  - unfold wasm_New. destruct (wz_NewRuntime s) as [r s1] eqn:Hn. destruct (wz_NewRuntime_open _ _ _ Hn) as (Hf & Hr & Hm).
    pose proof (wz_WASI_open r s1) as [Hr1 Hm1]. destruct (wz_WASI r s1) as [[e|[]] s2]; simpl in *; unfold open.
    + destruct (wz_Close_open r s2) as [-> ->]. by rewrite Hr1, Hm1, Hr, Hm, close_fresh.
    + split; [done|]. by rewrite Hr1, Hm1, Hr, Hm.
  - unfold CallFunc. destruct (wz_Instantiate rt wasmBytes s) as [r s1] eqn:Hi.
    destruct (wz_Instantiate_open _ _ _ _ _ Hi) as [Hr Hm]. destruct r as [e|m]; simpl.
    + unfold open. by rewrite Hr, Hm.
    + destruct Hm as [Hf Hm]. destruct (wz_ExportedFunction m funcName s1) as [fn|]; [|by apply close_module].
      pose proof (wz_Call_open fn args s1) as [Hr2 Hm2].
      destruct (wz_Call fn args s1) as [[e|results] s2]; simpl in *; apply close_module; congruence.
  - unfold wasm_Run. destruct (wz_InstantiateWithConfig rt wasmBytes s) as [[mo err] s1] eqn:Hi.
    destruct (wz_Config_open _ _ _ _ _ _ Hi) as [Hr Hm]. destruct mo as [m|].
    + destruct Hm as [Hf Hm]. destruct err as [[]|]; simpl; by apply close_module.
    + destruct err as [[]|]; simpl; unfold open; by rewrite Hr, Hm.
Qed.

End Runtime.

(** ** A library in memory *)

Module WasmDemo.

(** The open runtimes and the open modules.  Every module exports the function
    "add", which returns its arguments, and ends with exit code 3. *)
Abbreviation lib := (gset Z * gset Z)%type.

#[export] Instance demo_wazero : Wazero lib := {|
  wz_NewRuntime s := let rt := fresh s.1 in (rt, ({[rt]} ∪ s.1, s.2));
  wz_WASI rt s := (inr (), s);
  wz_Close rt s := (inr (), (s.1 ∖ {[rt]}, s.2));
  wz_Instantiate rt b s := let m := fresh s.2 in (inr m, (s.1, {[m]} ∪ s.2));
  wz_InstantiateWithConfig rt b s := let m := fresh s.2 in ((Some m, Some (ExitError 3)), (s.1, {[m]} ∪ s.2));
  wz_CloseModule m s := (s.1, s.2 ∖ {[m]});
  wz_ExportedFunction m f s := if decide (f = "add") then Some 1 else None;
  wz_Call fn args s := (inr args, s);
|}.

#[export] Instance demo_wazero_laws : WazeroLaws (E := lib).
Proof.
  refine {| wz_runtimes := fst; wz_modules := snd |}; simpl.
  - intros s rt s' [= <- <-]. split; [apply is_fresh|done].
  - done.
  - done.
  - intros rt b s r s' [= <- <-]. split; [done|]. split; [apply is_fresh|done].
  - intros rt b s mo err s' [= <- <- <-]. split; [done|]. split; [apply is_fresh|done].
  - done.
  - done.
Defined.

Lemma wasm_no_leak_witness :
  open (CallFunc 0 [] "add" [1; 2] (({[0]}, ∅) : lib)).2 = ({[0]}, ∅) ∧ open (wasm_Run 0 [] (({[0]}, ∅) : lib)).2 = ({[0]}, ∅).
Proof. exact (proj2 (wasm_no_leak 0 [] "add" [1; 2] (({[0]}, ∅) : lib))). Defined.

Lemma wasm_exit_example : (wasm_Run 0 [] (({[0]}, ∅) : lib)).1 = inr 3.
Proof. reflexivity. Qed.

End WasmDemo.
