(* ===== verification/Processes.v ===== *)
(** * Processes: the goroutines that wait for processes

    internal/agent/process.go: startProcess and startWASM leave a goroutine behind
    that waits for the process to end and then puts an exit event on the queue of
    the loop (Agent.v).  Here the loop runs together with these goroutines: a node
    has the agent, the goroutines that still wait and those that are about to
    send, and takes one step of one of them at a time. *)

From stdpp Require Import gmap strings list relations pretty.
From Stdlib Require Import Ascii ZArith Lia.
From S2P Require Import Prelude Api Agent AgentCorrect AgentTypes Wasm.

Local Open Scope Z_scope.

(** ** The goroutines *)

(** What cmd.Wait returns: nothing, an exec.ExitError with its code (-1 for a
    signal), or another error. *)
Inductive wait_result := WaitOk | WaitExit (code : Z) | WaitError.

(** The exit code that startProcess sends, and the one that startWASM sends. *)
Definition process_code (r : wait_result) : Z :=
  match r with WaitOk => 0 | WaitExit code => code | WaitError => -1 end.
Definition module_code (r : error + Z) : Z := match r with inr code => code | inl _ => -1 end.

(** What a goroutine waits for. *)
Inductive handle := Cmd (pid : Z) | Module_ (rt : Z).

#[export] Instance handle_eq_decision : EqDecision handle.
Proof. solve_decision. Defined.

Definition handle_of (tp : trackedProcess) : option handle :=
  match tp_cmd tp, tp_wasmRuntime tp with
  | Some pid, _ => Some (Cmd pid)
  | None, Some rt => Some (Module_ rt)
  | None, None => None
  end.

(** The goroutines started when the table went from [before] to [after]: one for
    every process that was not in the table. *)
Definition spawned (before after : gmap string trackedProcess) : list (string * handle) :=
  omap (λ '(key, tp), h ← handle_of tp;
    if decide ((before !! key) ≫= handle_of = Some h) then None else Some (key, h)) (map_to_list after).

Section node.
Context {E : Type} {HH : Host E} {Sh : Shuffle} (cfg : Config).

Record node := MkNode {
  nd_agent : world (agent_state E);
  nd_waiting : list (string * handle);
  nd_sending : list exitEvent;
}.

Definition nd_state (n : node) : agent_state E := w_store (nd_agent n).

(** The event goes on the queue. *)
Definition enqueue (ev : exitEvent) (w : world (agent_state E)) : world (agent_state E) :=
  let s := w_store w in
  World (MkAgentState (ag_procs s) (ag_missingStreaks s) (ag_exited s ++ [ev]) (ag_active s) (ag_reports s) (ag_host s)) (w_tick w).

(** rt.Close, after the module has ended *)
Definition close_module (rt : Z) (w : world (agent_state E)) : world (agent_state E) :=
  World (with_host (h_WasmClose rt (ag_host (w_store w))) (w_store w)) (w_tick w).

Inductive node_step : node → node → Prop :=
  | step_turn e p w w' waiting sending :
      agent_turn cfg e w = (Ok p, w') →
      node_step (MkNode w waiting sending)
        (MkNode w' (waiting ++ spawned (ag_procs (w_store w)) (ag_procs (w_store w'))) sending)
  | step_exit r w l1 key pid l2 sending :
      node_step (MkNode w (l1 ++ (key, Cmd pid) :: l2) sending)
        (MkNode w (l1 ++ l2) (sending ++ [MkExitEvent key (process_code r)]))
  | step_module_exit r w l1 key rt l2 sending :
      node_step (MkNode w (l1 ++ (key, Module_ rt) :: l2) sending)
        (MkNode (close_module rt w) (l1 ++ l2) (sending ++ [MkExitEvent key (module_code r)]))
  | step_send w waiting l1 ev l2 :
      (length (ag_exited (w_store w)) < exited_capacity)%nat →
      node_step (MkNode w waiting (l1 ++ ev :: l2)) (MkNode (enqueue ev w) waiting (l1 ++ l2)).

(** ** Events are handled *)

Lemma node_step_wf n n' : node_step n n' → agent_wf (nd_state n) → agent_wf (nd_state n').
Proof.
  destruct 1 as [e p w w' waiting sending Ht| |r w l1 key rt l2 sending|w waiting l1 ev l2 Hl]; intros Hwf; unfold nd_state in *; simpl in *.
  - destruct w as [s t]. pose proof (keeps_turn cfg e s Hwf t) as [_ [Hs _]]. by rewrite Ht in Hs.
  - done.
  - done.
  - destruct Hwf as (Hp & Hm & He & Hr). split_and!; simpl; [done..| |done]. rewrite length_app. simpl. lia.
Qed.

(** Handling an event always completes, and takes nothing else off the queue. *)
Lemma handleExit_total ev (s : agent_state E) :
  agent_wf s → wp (handleExit cfg ev) (λ r s', r = Ok tt ∧ ag_exited s' = ag_exited s) s.
Proof.
  intros Hwf. destruct (ag_procs s !! ev_key ev) as [tp|] eqn:Htp.
  - destruct (decide (tp_containerID tp = "")) as [Hid|Hid].
    { eapply wp_mono; [apply (handleExit_spec cfg ev tp s); [done|apply (proj1 Hwf _ _ Htp)|by left]|].
      intros r s' (-> & _ & (_ & He & _) & _). done. }
    destruct (match (h_TaskStatuses (ag_host s)).1 with inr m => default false (m !! tp_containerID tp) | inl _ => false end) eqn:Hrun.
    + unfold handleExit, podOf. apply wp_bind, wp_bind, wp_get, wp_ret. rewrite Htp. simpl.
      unfold stillRunning. apply wp_bind, wp_bind, wp_get. rewrite Htp, decide_False by done.
      apply wp_bind, wp_attempt, wp_hcall. destruct (h_TaskStatuses (ag_host s)) as [[e|m] e']; [done|]. simpl in *. rewrite Hrun.
      apply wp_ret. by apply wp_ret.
    + eapply wp_mono; [apply (handleExit_spec cfg ev tp s); [done|apply (proj1 Hwf _ _ Htp)|right]|].
      { by destruct (h_TaskStatuses (ag_host s)).1. }
      intros r s' (-> & _ & (_ & He & _) & _). done.
  - unfold handleExit, podOf. apply wp_bind, wp_bind, wp_get, wp_ret. rewrite Htp. simpl. by apply wp_ret.
Qed.

(** The turn that takes the first event of the queue. *)
Lemma exit_turn (s : agent_state E) t ev q w' :
  ag_exited s = ev :: q →
  handleExit cfg ev (World (MkAgentState (ag_procs s) (ag_missingStreaks s) q (ag_active s) (ag_reports s) (ag_host s)) t) = (Ok tt, w') →
  agent_turn cfg ExitReceived (World s t) = (Ok Done, w').
Proof.
  intros Hq Hh. cbn [agent_turn]. unfold mbind at 1, M_mbind at 1, M_bind at 1. unfold get at 1. cbn [w_store]. rewrite Hq.
  unfold mbind at 1, M_mbind at 1, M_bind at 1. unfold put at 1. cbn [w_tick].
  unfold mbind, M_mbind, M_bind. by rewrite Hh.
Qed.

(** The loop can always take an event from a queue that has one. *)
Lemma turn_takes_event w waiting sending ev q :
  agent_wf (w_store w) → ag_exited (w_store w) = ev :: q →
  ∃ w' waiting', node_step (MkNode w waiting sending) (MkNode w' waiting' sending) ∧ ag_exited (w_store w') = q.
Proof.
  intros Hwf Hq. destruct w as [s t]. simpl in *.
  set (s1 := MkAgentState (ag_procs s) (ag_missingStreaks s) q (ag_active s) (ag_reports s) (ag_host s)).
  assert (agent_wf s1) as Hwf1.
  { destruct Hwf as (Hp & Hm & He & Hr). rewrite Hq in He. simpl in He. split_and!; simpl; [done..|lia|done]. }
  destruct (handleExit_total ev s1 Hwf1 t) as (_ & Hr & Hx).
  destruct (handleExit cfg ev (World s1 t)) as [r w'] eqn:Hh. simpl in Hr, Hx. subst r. do 2 eexists. split; [|exact Hx].
  eapply (step_turn ExitReceived Done). by apply exit_turn with ev q.
Qed.

(** The loop can empty the queue. *)
Lemma queue_empties sending k w waiting :
  length (ag_exited (w_store w)) = k → agent_wf (w_store w) →
  ∃ w' waiting', rtc node_step (MkNode w waiting sending) (MkNode w' waiting' sending) ∧
    ag_exited (w_store w') = [] ∧ agent_wf (w_store w').
Proof.
  revert w waiting. induction k as [|k IH]; intros w waiting Hk Hwf.
  - exists w, waiting. split; [apply rtc_refl|]. split; [by apply length_zero_iff_nil|done].
  - destruct (ag_exited (w_store w)) as [|ev q] eqn:Hex; [done|].
    destruct (turn_takes_event w waiting sending ev q Hwf Hex) as (w1 & waiting1 & Hs & Hq1).
    destruct (IH w1 waiting1) as (w2 & waiting2 & Hr & Hq2 & Hwf2); [simpl in Hk; rewrite Hq1; lia|by apply (node_step_wf _ _ Hs)|].
    exists w2, waiting2. split; [by eapply rtc_l|done].
Qed.


(** ** Events of the past *)

(** A pod whose first container is a plain command. *)
Definition command_pod (pod : Pod) (args : list string) : Prop :=
  Container_GetWasmModulePath (firstContainer pod) = "" ∧ Container_GetImage (firstContainer pod) = "" ∧
  Container_GetBuildSource (firstContainer pod) = None ∧ Container_GetCommand (firstContainer pod) = args.

Lemma start_command pod a args (s : agent_state E) pid e :
  command_pod pod (a :: args) → h_Exec (a :: args) (ag_host s) = (inr pid, e) →
  wp (start cfg pod) (λ r s', r = Ok tt ∧ same_rest s s' ∧
    ag_procs s' = <[podKey pod := MkTrackedProcess pod (Some pid) None "" (restarts_of s (podKey pod))]> (ag_procs s)) s.
Proof.
  intros (Hw & Hi & Hb & Hc) Hx. unfold start. rewrite Hw, Hi, Hb. simpl. unfold startProcess. rewrite Hc.
  apply wp_bind, wp_hcall. rewrite Hx. simpl. unfold track. apply wp_bind, wp_get. unfold set_procs.
  apply wp_bind, wp_get, wp_put. by split.
Qed.

(** Handling an exit event of a running command starts another one in its place. *)
Lemma handleExit_command ev tp a args (s : agent_state E) pid' e :
  ag_procs s !! ev_key ev = Some tp → podKey (tp_pod tp) = ev_key ev → tp_containerID tp = "" →
  command_pod (tp_pod tp) (a :: args) → should_restart (PodSpec_GetRestartPolicy (Pod_Spec (tp_pod tp))) (ev_exitCode ev) = true →
  h_Exec (a :: args) (ag_host s) = (inr pid', e) →
  wp (handleExit cfg ev) (λ r s', r = Ok tt ∧ ag_procs s' !! ev_key ev =
    Some (MkTrackedProcess (tp_pod tp) (Some pid') None "" (wrap32 (tp_restarts tp + 1)))) s.
Proof.
  intros Htp Hkey Hid Hcmd Hsh Hx. unfold handleExit, podOf. apply wp_bind, wp_bind, wp_get, wp_ret. rewrite Htp. simpl.
  unfold stillRunning. apply wp_bind, wp_bind, wp_get. rewrite Htp, Hid. simpl. apply wp_ret. rewrite Hsh.
  apply wp_bind, wp_attempt. unfold restart, set_procs. apply wp_bind, wp_get, wp_bind, wp_bind, wp_get, wp_put.
  eapply wp_mono; [by eapply start_command|]. intros r s1 (-> & _ & Hp1). unfold restartCount. apply wp_bind, wp_bind, wp_get, wp_ret.
  eapply wp_mono; [apply reportStatus_spec|]. intros r s2 (-> & -> & _). split; [done|].
  rewrite Hp1. unfold restarts_of. simpl. rewrite Hkey, lookup_insert_eq. by rewrite lookup_alter_eq, Htp.
Qed.

Lemma spawned_new before after key tp h :
  after !! key = Some tp → handle_of tp = Some h → (before !! key) ≫= handle_of ≠ Some h → (key, h) ∈ spawned before after.
Proof.
  intros Ha Hh Hb. unfold spawned. apply list_elem_of_omap. exists (key, tp). rewrite elem_of_map_to_list. split; [done|].
  rewrite Hh. simpl. by rewrite decide_False.
Qed.

(** An event of an earlier process starts a second one.  Exit events name the pod
    and not the process.  When a pod is deleted and created again, the event of
    the process that was killed arrives when the new process runs already: the
    loop takes it for the exit of the new one and starts another.  The running
    process [pid] is then in no table, so nothing will ever stop it, and its
    goroutine will deliver one more event of the same kind. *)
Theorem stale_exit_leaks_process w waiting sending ev q tp a args pid pid' e :
  let key := ev_key ev in let s := w_store w in
  ag_exited s = ev :: q → ag_procs s !! key = Some tp → podKey (tp_pod tp) = key →
  tp_containerID tp = "" → tp_cmd tp = Some pid → (key, Cmd pid) ∈ waiting →
  command_pod (tp_pod tp) (a :: args) → should_restart (PodSpec_GetRestartPolicy (Pod_Spec (tp_pod tp))) (ev_exitCode ev) = true →
  h_Exec (a :: args) (ag_host s) = (inr pid', e) → pid ≠ pid' →
  ∃ n, node_step (MkNode w waiting sending) n ∧ (key, Cmd pid) ∈ nd_waiting n ∧ (key, Cmd pid') ∈ nd_waiting n ∧
    tp_cmd <$> ag_procs (nd_state n) !! key = Some (Some pid').
Proof.
  intros key s Hq Htp Hkey Hid Hpid Hw Hcmd Hsh Hx Hne. destruct w as [s0 t]. simpl in s. subst s. rename s0 into s.
  set (s1 := MkAgentState (ag_procs s) (ag_missingStreaks s) q (ag_active s) (ag_reports s) (ag_host s)).
  destruct (handleExit_command ev tp a args s1 pid' e Htp Hkey Hid Hcmd Hsh Hx t) as (_ & Hr & Hp).
  destruct (handleExit cfg ev (World s1 t)) as [r w'] eqn:Hh. simpl in Hr, Hp. subst r.
  eexists. split; [apply (step_turn ExitReceived Done _ w')|].
  { by apply exit_turn with ev q. }
  simpl. rewrite !elem_of_app. split_and!; [by left| |].
  - right. eapply spawned_new; [exact Hp|done|]. rewrite Htp. simpl. unfold handle_of. rewrite Hpid. congruence.
  - unfold nd_state. simpl. fold key in Hp. by rewrite Hp.
Qed.

End node.

(** ** Pods that are done *)

(** A finished pod is started again.  When the restart policy says that a process
    is not to be restarted, its exit is reported and the pod leaves the table; but
    the tick starts every pod of the node that is not in the table, finished or
    not.  So with the next tick the pod runs again (or its start was attempted and
    failed), policy never or on-failure notwithstanding. *)
Theorem completed_pod_runs_again {E} {HH : Host E} {Sh : Shuffle} cfg ev tp pods (w : world (agent_state E)) :
  ag_procs (w_store w) !! ev_key ev = Some tp → podKey (tp_pod tp) = ev_key ev → not_running (w_store w) tp →
  should_restart (PodSpec_GetRestartPolicy (Pod_Spec (tp_pod tp))) (ev_exitCode ev) = false →
  tp_pod tp ∈ pods → podNodeName (tp_pod tp) = cfg_NodeName cfg →
  ∃ w1, handleExit cfg ev w = (Ok tt, w1) ∧ ag_procs (w_store w1) !! ev_key ev = None ∧
    last (ag_reports (w_store w1)) =
      Some (report (tp_pod tp) (if ev_exitCode ev =? 0 then POD_PHASE_SUCCEEDED else POD_PHASE_FAILED) "" 0 0) ∧
    ∀ w2, (h_ListPods (ag_host (w_store w1))).1 = inr pods → agent_reconcile cfg w1 = (Ok Done, w2) →
      is_Some (ag_procs (w_store w2) !! ev_key ev) ∨
      ∃ pod msg, podKey pod = ev_key ev ∧ report pod POD_PHASE_FAILED msg 0 0 ∈ ag_reports (w_store w2).
Proof.
  destruct w as [s t]. simpl. intros Htp Hkey Hnr Hsh Hin Hnode.
  destruct (handleExit_spec cfg ev tp s Htp Hkey Hnr t) as (_ & Hok & Hh & _).
  destruct (handleExit cfg ev (World s t)) as [r [s1 t1]] eqn:Hrun. simpl in Hok, Hh. subst r.
  unfold exit_handled in Hh. rewrite Hsh in Hh. destruct Hh as [Hp Hr]. exists (World s1 t1). split; [done|]. simpl.
  split; [by rewrite Hp, lookup_delete_eq|]. split; [by rewrite Hr, last_snoc|]. intros w2 Hlist Hrec.
  destruct (reconcile_spec cfg pods s1 Hlist t1) as (_ & p & Hdone & HQ). rewrite Hrec in Hdone, HQ. simpl in Hdone, HQ. injection Hdone as <-.
  destruct HQ as (sent & Hsent & _ & _ & Hcov & _).
  destruct (proj2 (desired_pods_spec cfg pods (ev_key ev))) as [pod Hpod]; [by exists (tp_pod tp)|].
  destruct (Hcov _ _ Hpod) as [?|[msg Hm]]; [by left|]. right. exists pod, msg.
  split; [by apply (desired_pods_key cfg pods)|]. rewrite Hsent. apply elem_of_app. by right.
Qed.

(** Streaks outlive the pods they were counted for.  Stopping a pod leaves its streak of
    misses, so a pod that is created again under the same name counts as exited
    after a single miss when the old one had been missed twice. *)
Lemma streak_survives_stop {E} {HH : Host E} key (s : agent_state E) tp statuses :
  ag_missingStreaks s !! key = Some 2 → tp_containerID tp ≠ "" → statuses !! tp_containerID tp = None →
  wp (stop key) (λ r s', r = Ok tt ∧
    (miss_step statuses (ag_missingStreaks s') key tp).2 = [MkExitEvent key (-1)]) s.
Proof.
  intros Hk Hid Hst. eapply wp_mono; [apply stop_spec|]. intros r s' (-> & _ & (-> & _) & _). split; [done|].
  unfold miss_step. rewrite decide_False, Hst by done. simpl. unfold zlookup. by rewrite Hk.
Qed.

(** ** Witnesses *)

Module ProcessesDemo.

(** A host that answers ListPods from a script, numbers the processes it starts and
    remembers which are alive. *)
Record os := MkOs { os_script : list (list Pod); os_next : Z; os_live : gset Z }.

Definition list_pods (e : os) : (error + list Pod) * os :=
  match os_script e with
  | [] => (inl (Errorf "unavailable"), e)
  | pods :: rest => (inr pods, MkOs rest (os_next e) (os_live e))
  end.

#[export] Instance demo_host : Host os := {|
  h_ListPods := list_pods;
  h_ListServices := λ e, (inr [], e);
  h_UpdatePodStatus := λ _ e, (inr tt, e);
  h_TaskStatuses := λ e, (inr ∅, e);
  h_TaskPID := λ _ e, (inl (Errorf "task not found"), e);
  h_RemoveContainer := λ _ e, e;
  h_PullImage := λ ref e, (inr ref, e);
  h_RunContainer := λ _ e, (inr tt, e);
  h_BuildImage := λ _ _ _ id _ e, (inr id, e);
  h_PrepareLog := λ dir _ e, (inr dir, e);
  h_EnsureVolumeDir := λ dir _ _ e, (inr dir, e);
  h_Exec := λ _ e, (inr (os_next e), MkOs (os_script e) (os_next e + 1) ({[os_next e]} ∪ os_live e));
  h_Kill := λ pid e, MkOs (os_script e) (os_next e) (os_live e ∖ {[pid]});
  h_ReadFile := λ _ e, (inr [], e);
  h_RSS := λ _ e, (inr 4096, e);
  h_Listen := λ _ e, (inr tt, e);
  h_CloseListener := λ _ e, e;
  h_WasmNew := λ e, (inr 0, e);
  h_WasmClose := λ _ e, e;
  h_ErrorText := λ _, "error";
|}.
#[export] Instance demo_order : Shuffle := shuffle_id.

Definition cfg : Config := MkConfig "n1" "10.0.0.1" "" "" "" "" true.

Definition job (policy : RestartPolicy) : Pod :=
  MkPod (Some (MkObjectMeta "job" "default" "" "" ∅ 0))
    (Some (MkPodSpec [MkContainer "main" "" None None ["serve"] "" [] ∅ None] "n1" [] policy)) None.
Definition always : Pod := job RESTART_POLICY_ALWAYS.

(** The pod is there, deleted, and there again. *)
Definition boot : world (agent_state os) := World (MkAgentState ∅ ∅ [] ∅ [] (MkOs [[always]; []; [always]] 1 ∅)) 0.
Definition turns (events : list agent_event) (w : world (agent_state os)) : world (agent_state os) :=
  foldl (λ w e, (agent_turn cfg e w).2) w events.
Definition recreated : world (agent_state os) := turns [Tick; Tick; Tick] boot.

Lemma recreated_wf : agent_wf (w_store recreated).
Proof. unfold recreated, turns. apply turns_wf. split_and!; [done..|simpl; lia|constructor]. Qed.

(** The first process was killed, the second runs, and the event of the first has
    arrived. *)
Definition stale : exitEvent := MkExitEvent "default/job" (process_code (WaitExit (-1))).
Definition arrived : world (agent_state os) := enqueue stale recreated.
Definition tracked : trackedProcess := MkTrackedProcess always (Some 2) None "" 0.

Lemma stale_run :
  rtc (node_step cfg) (MkNode boot [] []) (MkNode arrived [("default/job", Cmd 2)] []).
Proof.
  eapply rtc_l; [eapply (step_turn cfg Tick Done _ (turns [Tick] boot)); vm_compute; reflexivity|].
  eapply rtc_l; [eapply (step_turn cfg Tick Done _ (turns [Tick; Tick] boot)); vm_compute; reflexivity|].
  eapply rtc_l; [eapply (step_turn cfg Tick Done _ recreated); vm_compute; reflexivity|].
  eapply rtc_l; [apply (step_exit cfg (WaitExit (-1)) recreated [] "default/job" 1 [("default/job", Cmd 2)] [])|].
  eapply rtc_l; [apply (step_send cfg recreated _ [] stale []); vm_compute; lia|].
  apply rtc_refl.
Qed.

Lemma stale_exit_leaks_process_witness :
  ∃ n, node_step cfg (MkNode arrived [("default/job", Cmd 2)] []) n ∧ ("default/job", Cmd 2) ∈ nd_waiting n ∧
    ("default/job", Cmd 3) ∈ nd_waiting n.
Proof.
  destruct (stale_exit_leaks_process cfg arrived [("default/job", Cmd 2)] [] stale [] tracked "serve" [] 2 3
    (h_Exec ["serve"] (ag_host (w_store arrived))).2) as (n & H1 & H2 & H3 & _);
    [reflexivity|vm_compute; reflexivity|reflexivity|reflexivity|reflexivity|by apply list_elem_of_singleton
    |repeat split|reflexivity|vm_compute; reflexivity|discriminate|].
  by exists n.
Defined.

(** Both processes are alive afterwards, and only the last is known. *)
Lemma leaked_example :
  os_live (ag_host (w_store (turns [ExitReceived] arrived))) = {[2; 3]} ∧
  tp_cmd <$> ag_procs (w_store (turns [ExitReceived] arrived)) !! "default/job" = Some (Some 3).
Proof. split; vm_compute; reflexivity. Qed.


(** A job with policy never that ends with code 0 runs again after the next tick. *)
Definition never : Pod := job RESTART_POLICY_NEVER.
Definition done_ : exitEvent := MkExitEvent "default/job" 0.
Definition finished_job : trackedProcess := MkTrackedProcess never (Some 1) None "" 0.
Definition ended : world (agent_state os) :=
  World (MkAgentState {["default/job" := finished_job]} ∅ [] ∅ [] (MkOs [[never]] 2 ∅)) 0.

Lemma completed_pod_runs_again_witness :
  ∃ w1 w2, handleExit cfg done_ ended = (Ok tt, w1) ∧ agent_reconcile cfg w1 = (Ok Done, w2) ∧
    last (ag_reports (w_store w1)) = Some (report never POD_PHASE_SUCCEEDED "" 0 0) ∧
    tp_cmd <$> ag_procs (w_store w2) !! "default/job" = Some (Some 2).
Proof.
  destruct (completed_pod_runs_again cfg done_ finished_job [never] ended) as (w1 & H1 & _ & H2 & _);
    [reflexivity|reflexivity|left; reflexivity|reflexivity|by apply list_elem_of_singleton|reflexivity|].
  exists w1, (agent_reconcile cfg w1).2. split; [exact H1|].
  assert (w1 = (handleExit cfg done_ ended).2) as -> by (rewrite H1; reflexivity).
  split; [vm_compute; reflexivity|]. split; [exact H2|vm_compute; reflexivity].
Defined.

End ProcessesDemo.
