(* ===== verification/GitRepo.v ===== *)
(** * GitRepo: the working copy behind GitOps

    internal/gitops/reconciler.go: fetchRepo, headCommit, and Sync and Reconcile
    on a real working copy.  GitOps.v takes one synchronisation apart given what the
    working copy answers; here the answers come from the file system ([OS]) and the
    git library ([Git]), and [GitLaws] says what the library does. *)

From stdpp Require Import gmap strings list.
From Stdlib Require Import Ascii ZArith Lia.
From S2P Require Import Prelude Api Codec Store Registry Cluster GitOps Text Path Http.

Local Open Scope Z_scope.

(** ** The library *)

(** Repositories and working trees are handles. *)
Class Git (E : Type) := {
  git_PlainClone : string → string → string → E → (error + unit) * E;
  git_PlainOpen : string → E → (error + Z) * E;
  git_Worktree : Z → E → (error + Z) * E;
  git_Pull : Z → string → E → (error + unit) * E;
  git_Head : Z → E → (error + string) * E;
  (** errors.Is(err, git.NoErrAlreadyUpToDate) *)
  git_UpToDate : error → bool;
}.

Section Repo.
Context {E : Type} {O : OS E} {G : Git E}.

(** plumbing.NewBranchReferenceName *)
Definition branch_ref (branch : string) : string := "refs/heads/" +:+ branch.

Definition fetchRepo (cfg : GitConfig) (s : E) : option error * E :=
  let ref := branch_ref (g_Branch cfg) in
  let '(st, s) := os_Stat (path_Join [g_WorkDir cfg; ".git"]) s in
  if match st with inl e => os_IsNotExist e | inr _ => false end then
    match git_PlainClone (g_WorkDir cfg) (g_RepoURL cfg) ref s with
    | (inl e, s) => (Some e, s)
    | (inr _, s) => (None, s)
    end
  else
    match git_PlainOpen (g_WorkDir cfg) s with
    | (inl e, s) => (Some (Wrapf "open working copy" e), s)
    | (inr repo, s) =>
      match git_Worktree repo s with
      | (inl e, s) => (Some (Wrapf "open worktree" e), s)
      | (inr wt, s) =>
        match git_Pull wt ref s with
        | (inl e, s) => (if git_UpToDate e then None else Some (Wrapf "pull" e), s)
        | (inr _, s) => (None, s)
        end
      end
    end.

Definition headCommit (cfg : GitConfig) (s : E) : (error + string) * E :=
  match git_PlainOpen (g_WorkDir cfg) s with
  | (inl e, s) => (inl e, s)
  | (inr repo, s) => git_Head repo s
  end.

Definition manifest_dir (cfg : GitConfig) : string := path_Join [g_WorkDir cfg; g_Path cfg].

Definition entry_of (d : dir_entry) : string * bool := (de_Name d, de_IsDir d).

(** The answers of the working copy to one synchronisation at time [now], and the
    state they leave.  Files are read as they are when the directory was listed. *)
Definition repo_env (unmarshal : bytes → error + Deployment) (now : Z) (cfg : GitConfig) (s : E) : git_env * E :=
  let '(fetched, s) := fetchRepo cfg s in
  match fetched with
  | Some e => (MkGitEnv (Some e) (inl e) (inl e) (λ _, inl e) unmarshal now os_ErrorText, s)
  | None =>
    let '(head, s) := headCommit cfg s in
    let '(dir, s) := os_ReadDir (manifest_dir cfg) s in
    (MkGitEnv None head (match dir with inl e => inl e | inr es => inr (entry_of <$> es) end)
       (λ name, (os_ReadFile (path_Join [manifest_dir cfg; name]) s).1) unmarshal now os_ErrorText, s)
  end.

Section Loop.
Context {S : Type} `{!Store S} {Sh : Shuffle} `{AM : !ApiMessages}.
Context (unmarshal : bytes → error + Deployment).

(** Sync on the working copy. *)
Definition SyncRepo (r : GitReconciler) (now : Z) (s : E) : M S (option error * GitReconciler * E) :=
  let '(env, s) := repo_env unmarshal now (gr_cfg r) s in
  '(err, r) ← Sync r env;
  mret (err, r, s).

(** Reconcile: a synchronisation at once and one at every tick, until the context
    ends ([None]); errors are logged.  The reconciler and the node as they are
    after the events. *)
Fixpoint git_loop (r : GitReconciler) (ticks : list (option Z)) (s : E) : M S (GitReconciler * E) :=
  match ticks with
  | [] => mret (r, s)
  | None :: _ => mret (r, s)
  | Some now :: ticks => '(_, r, s) ← SyncRepo r now s; git_loop r ticks s
  end.
Definition git_Reconcile (r : GitReconciler) (start : Z) (ticks : list (option Z)) (s : E) : M S (GitReconciler * E) :=
  '(_, r, s) ← SyncRepo r start s; git_loop r ticks s.
End Loop.
End Repo.

(** ** What the library does *)

(** A commit and its files.  [checkout] is the commit a working copy has checked
    out, [origin] the URL it was cloned from, and [remote] the commit a branch of a
    URL is at.  Cloning and pulling move the working copy to the branch of its
    origin or fail without touching it. *)
Class GitLaws (E : Type) {O : OS E} {G : Git E} := {
  commit : Type;
  commit_hash : commit → string;
  commit_dir : commit → string → error + list dir_entry;
  commit_file : commit → string → string → error + bytes;
  checkout : E → string → option commit;
  origin : E → string → string;
  remote : E → string → string → option commit;
  tree_of : Z → E → string;

  stat_pure p s : (os_Stat p s).2 = s;
  stat_git dir s : match (os_Stat (path_Join [dir; ".git"]) s).1 with
                   | inl e => os_IsNotExist e = true → checkout s dir = None
                   | inr _ => True end;
  clone_checkout dir url ref s s' : git_PlainClone dir url ref s = (inr tt, s') →
    is_Some (checkout s' dir) ∧ checkout s' dir = remote s url ref ∧ origin s' dir = url;
  open_pure dir s : (git_PlainOpen dir s).2 = s;
  open_tree dir s repo : (git_PlainOpen dir s).1 = inr repo → is_Some (checkout s dir) ∧ tree_of repo s = dir;
  worktree_pure repo s : (git_Worktree repo s).2 = s;
  worktree_tree repo s wt : (git_Worktree repo s).1 = inr wt → tree_of wt s = tree_of repo s;
  pull_checkout wt ref s r s' : git_Pull wt ref s = (r, s') →
    match r with inr _ => True | inl e => git_UpToDate e = true end →
    is_Some (checkout s' (tree_of wt s)) ∧ checkout s' (tree_of wt s) = remote s (origin s (tree_of wt s)) ref;
  head_pure repo s : (git_Head repo s).2 = s;
  head_checkout repo s c : checkout s (tree_of repo s) = Some c → (git_Head repo s).1 = inr (commit_hash c);
  open_checkout dir s c : checkout s dir = Some c → ∃ repo, (git_PlainOpen dir s).1 = inr repo;
  read_dir_checkout dir path s c : checkout s dir = Some c →
    os_ReadDir (path_Join [dir; path]) s = (commit_dir c path, s);
  read_file_checkout dir path name s c : checkout s dir = Some c →
    (os_ReadFile (path_Join [path_Join [dir; path]; name]) s).1 = commit_file c path name;
}.

Section Correct.
Context {E : Type} {O : OS E} {G : Git E} {GL : GitLaws E}.

(** After a fetch that succeeds the working copy is at the branch of its origin,
    which for a new working copy is the configured repository. *)
Lemma fetchRepo_checkout cfg s s' :
  fetchRepo cfg s = (None, s') →
  let url := match checkout s (g_WorkDir cfg) with Some _ => origin s (g_WorkDir cfg) | None => g_RepoURL cfg end in
  ∃ c, checkout s' (g_WorkDir cfg) = Some c ∧ remote s url (branch_ref (g_Branch cfg)) = Some c.
Proof.
  unfold fetchRepo. pose proof (stat_pure (path_Join [g_WorkDir cfg; ".git"]) s) as Hp.
  pose proof (stat_git (g_WorkDir cfg) s) as Hg. destruct (os_Stat _ s) as [st s1]. simpl in Hp, Hg. subst s1.
  destruct (match st with inl e => os_IsNotExist e | inr _ => false end) eqn:Hst.
  - destruct st as [e|]; [|done]. rewrite (Hg Hst). destruct (git_PlainClone _ _ _ s) as [[e'|[]] s1] eqn:Hc; [done|].
    intros [= <-]. destruct (clone_checkout _ _ _ _ _ Hc) as ([c Hs] & Hr & _). exists c. by rewrite <-Hr.
  - pose proof (open_pure (g_WorkDir cfg) s) as Hop. pose proof (open_tree (g_WorkDir cfg) s) as Hot.
    destruct (git_PlainOpen _ s) as [[e|repo] s1]; [done|]. simpl in Hop, Hot. subst s1. destruct (Hot _ eq_refl) as [[c0 Hc0] Ht].
    pose proof (worktree_pure repo s) as Hwp. pose proof (worktree_tree repo s) as Hwt.
    destruct (git_Worktree repo s) as [[e|wt] s1]; [done|]. simpl in Hwp, Hwt. subst s1. specialize (Hwt _ eq_refl).
    destruct (git_Pull wt _ s) as [r s1] eqn:Hpull. intros Hret.
    assert (s1 = s' ∧ match r with inr _ => True | inl e => git_UpToDate e = true end) as [-> Hok].
    { destruct r as [e|]; [destruct (git_UpToDate e) eqn:Hu; simplify_eq; by split|by simplify_eq]. }
    destruct (pull_checkout _ _ _ _ _ Hpull Hok) as ([c Hs] & Hr). rewrite Hwt, Ht in Hs, Hr. exists c.
    rewrite Hc0. simpl. by rewrite <-Hr.
Qed.

(** What a synchronisation sees once the fetch has succeeded. *)
Lemma repo_env_checkout unmarshal now cfg s s1 c :
  fetchRepo cfg s = (None, s1) → checkout s1 (g_WorkDir cfg) = Some c →
  let env := (repo_env unmarshal now cfg s).1 in
  ge_fetch env = None ∧ ge_head env = inr (commit_hash c) ∧ ge_now env = now ∧ ge_unmarshal env = unmarshal ∧
  ge_readDir env = match commit_dir c (g_Path cfg) with inl e => inl e | inr es => inr (entry_of <$> es) end ∧
  (∀ name, ge_readFile env name = commit_file c (g_Path cfg) name) ∧ (repo_env unmarshal now cfg s).2 = s1.
Proof.
  intros Hf Hc. unfold repo_env. rewrite Hf. unfold headCommit.
  destruct (open_checkout _ _ _ Hc) as [repo Hrepo]. pose proof (open_pure (g_WorkDir cfg) s1) as Hop.
  destruct (open_tree _ _ _ Hrepo) as [_ Ht].
  destruct (git_PlainOpen _ s1) as [r s2]. simpl in Hrepo, Hop. subst r s2.
  pose proof (head_pure repo s1) as Hhp. rewrite <-Ht in Hc. pose proof (head_checkout _ _ _ Hc) as Hh. rewrite Ht in Hc.
  destruct (git_Head repo s1) as [r s2]. simpl in Hh, Hhp. subst r s2.
  unfold manifest_dir. rewrite (read_dir_checkout _ (g_Path cfg) _ _ Hc). simpl. split_and!; [done..| |done].
  intros name. by apply read_file_checkout.
Qed.

(** The commit decides what is applied. *)
Definition commit_env (unmarshal : bytes → error + Deployment) (now : Z) (path : string) (c : commit) : git_env :=
  MkGitEnv None (inr (commit_hash c)) (match commit_dir c path with inl e => inl e | inr es => inr (entry_of <$> es) end)
    (commit_file c path) unmarshal now os_ErrorText.


Lemma manifest_ext env env' e :
  (∀ name, ge_readFile env name = ge_readFile env' name) → ge_unmarshal env = ge_unmarshal env' → manifest env e = manifest env' e.
Proof. intros Hr Hu. unfold manifest. by rewrite Hr, Hu. Qed.

Lemma omap_pointwise {A B} (f g : A → option B) (l : list A) : (∀ x, f x = g x) → omap f l = omap g l.
Proof. intros Hfg. induction l as [|x l IH]; [done|]. csimpl. rewrite Hfg. by destruct (g x); rewrite IH. Qed.

Section Store.
Context {S : Type} `{!Store S, !StoreLaws S} {Sh : Shuffle} `{AM : !ApiMessages, AL : !ApiLaws}.
Context (unmarshal : bytes → error + Deployment).

(** Which repository a working copy follows. *)
Definition followed (cfg : GitConfig) (s : E) : string :=
  match checkout s (g_WorkDir cfg) with Some _ => origin s (g_WorkDir cfg) | None => g_RepoURL cfg end.

Lemma sync_same_registry r r' env l (w : world S) :
  gr_deployments r = gr_deployments r' → for_each l (sync_entry r env) w = for_each l (sync_entry r' env) w.
Proof. unfold sync_entry. by intros ->. Qed.


(** A fetch that fails changes nothing but the status, which keeps the last commit. *)
Theorem failed_fetch_keeps_cluster r now s e s' (w : world S) :
  fetchRepo (gr_cfg r) s = (Some e, s') →
  ∃ r', SyncRepo unmarshal r now s w = (Ok (Some (Wrapf "gitops: fetch" e), r', s'), w) ∧
    gs_LastCommit (gr_status r') = gs_LastCommit (gr_status r) ∧ gs_LastError (gr_status r') = os_ErrorText e.
Proof. intros Hf. unfold SyncRepo, repo_env. rewrite Hf. eexists. split; [reflexivity|]. done. Qed.

End Store.

(** A new repository URL is ignored while the working copy exists: the fetch pulls
    from where it was cloned. *)
Definition with_url (url : string) (cfg : GitConfig) : GitConfig := MkGitConfig url (g_Branch cfg) (g_Path cfg) (g_WorkDir cfg).

Theorem url_change_ignored cfg url s fi :
  (os_Stat (path_Join [g_WorkDir cfg; ".git"]) s).1 = inr fi → fetchRepo (with_url url cfg) s = fetchRepo cfg s.
Proof. unfold fetchRepo. simpl. destruct (os_Stat _ s) as [st s1]. simpl. by intros ->. Qed.

End Correct.

(** ** Examples *)

Module RepoDemo.
Import Codec.Reference DemoGit.

#[local] Instance repo_messages : ApiMessages := Build_ApiMessages _ _ _ _.
#[local] Instance repo_api_laws : ApiLaws := Build_ApiLaws _ _ _ _ _.
#[local] Existing Instance shuffle_id.

(** A machine with one working copy, at [/work], and one repository, at [url].
    Commits are numbered; the repository is at commit [ds_head]. *)
Record disk := MkDisk { ds_copy : option Z; ds_origin : string; ds_head : Z }.

Definition hash (c : Z) : string := if c =? 1 then "c1" else "c2".
Definition at_url (url ref : string) (s : disk) : option Z :=
  if decide (url = "url" ∧ ref = "refs/heads/main") then Some (ds_head s) else None.
Definition listing (c : Z) (dir : string) : error + list dir_entry :=
  if decide (dir = "/work/deploy") then inr (DirEntry "README.md" false :: if c =? 1 then [] else [DirEntry "root.json" false])
  else inl (Errorf "io").
Definition contents (file : string) : error + bytes := if decide (file = "/work/deploy/root.json") then inr [] else inl ErrNotFound.
Definition refused {A} (s : disk) : (error + A) * disk := (inl (Errorf "io"), s).

Definition up_to_date : error := Errorf "already up-to-date".

#[export] Instance disk_os : OS disk := {|
  os_MkdirAll _ := refused;
  os_ReadDir p s := match ds_copy s with Some c => (listing c p, s) | None => refused s end;
  os_EntryInfo _ _ := refused;
  os_ReadFile p s := match ds_copy s with Some c => (contents p, s) | None => refused s end;
  os_WriteFile _ _ := refused;
  os_Stat p s := (match ds_copy s with
                  | Some _ => if decide (p = "/work/.git") then inr (FileInfo true 0 0) else inl (Errorf "io")
                  | None => inl ErrNotFound end, s);
  os_Lstat _ := refused;
  os_Remove _ := refused;
  os_RemoveAll _ := refused;
  os_Symlink _ _ := refused;
  os_IsNotExist e := errors_Is e ErrNotFound;
  os_ErrorText _ := "error";
|}.

#[export] Instance disk_git : Git disk := {|
  git_PlainClone dir url ref s :=
    if decide (dir = "/work") then
      match at_url url ref s with Some c => (inr tt, MkDisk (Some c) url (ds_head s)) | None => refused s end
    else refused s;
  git_PlainOpen dir s := if decide (dir = "/work" ∧ is_Some (ds_copy s)) then (inr 0, s) else refused s;
  git_Worktree repo s := (inr repo, s);
  git_Pull wt ref s :=
    match ds_copy s, at_url (ds_origin s) ref s with
    | Some c, Some c' => if c =? c' then (inl up_to_date, s) else (inr tt, MkDisk (Some c') (ds_origin s) (ds_head s))
    | _, _ => refused s
    end;
  git_Head repo s := match ds_copy s with Some c => (inr (hash c), s) | None => refused s end;
  git_UpToDate e := errors_Is e up_to_date;
|}.

#[export] Program Instance disk_laws : GitLaws disk := {|
  commit := Z;
  commit_hash := hash;
  commit_dir c path := listing c (path_Join ["/work"; path]);
  commit_file _ path name := contents (path_Join [path_Join ["/work"; path]; name]);
  checkout s dir := if decide (dir = "/work") then ds_copy s else None;
  origin s _ := ds_origin s;
  remote s url ref := at_url url ref s;
  tree_of _ _ := "/work";
|}.
Next Obligation. done. Qed.
Next Obligation. intros dir s. simpl. destruct (ds_copy s); repeat case_decide; simpl; try done. Qed.
Next Obligation.
  intros dir url ref s s'. simpl. case_decide as Hd; [|done]. destruct (at_url url ref s) eqn:Hu; [|done].
  intros [= <-]. simpl. rewrite ?decide_True by done. by split; [eexists|].
Qed.
Next Obligation. intros dir s. simpl. by case_decide. Qed.
Next Obligation. intros dir s repo. simpl. case_decide as H; [|done]. destruct H as [-> H]. intros [= <-]. by rewrite ?decide_True. Qed.
Next Obligation. done. Qed.
Next Obligation. done. Qed.
Next Obligation.
  intros wt ref s r s'. simpl. destruct (ds_copy s) as [c|] eqn:Hc; [|by intros [= <- <-]].
  destruct (at_url _ ref s) as [c'|] eqn:Hu; [|by intros [= <- <-]]. rewrite ?decide_True by done.
  destruct (Z.eqb_spec c c') as [->|]; intros [= <- <-] _; simpl; rewrite ?Hc; by eauto.
Qed.
Next Obligation. intros repo s. simpl. by destruct (ds_copy s). Qed.
Next Obligation. intros repo s c. simpl. rewrite ?decide_True by done. by intros ->. Qed.
Next Obligation. intros dir s c. simpl. case_decide; [|done]. intros ->. rewrite ?decide_True by done. by eexists. Qed.
Next Obligation. intros dir path s c. simpl. case_decide; [|done]. subst. by intros ->. Qed.
Next Obligation. intros dir path name s c. simpl. case_decide; [|done]. subst. by intros ->. Qed.

Definition cfg : GitConfig := MkGitConfig "url" "main" "deploy" "/work".
Definition follower : GitReconciler := NewReconciler cfg deploymentsR 0.

(** The branch has moved to commit 2 since the working copy was cloned. *)
Definition behind : disk := MkDisk (Some 1) "url" 2.
Definition up_to_branch : disk := MkDisk (Some 2) "url" 2.


(** The same with the URL changed: the working copy still follows the old one. *)
Lemma url_change_ignored_witness : fetchRepo (with_url "elsewhere" cfg) behind = (None, up_to_branch).
Proof. rewrite (url_change_ignored cfg "elsewhere" behind (FileInfo true 0 0)); reflexivity. Defined.
End RepoDemo.
