(* ===== verification/Rotation.v ===== *)
(** * Rotation: re-encryption while clients write

    internal/store/raft.go ReencryptAll and internal/controller/key_rotation.go.
    RaftStore.v runs a re-encryption in one piece.  In the program it runs beside
    the API services: nothing is locked between its List and its Puts, so requests
    of clients fall between its steps.  Here the re-encryption is a sequence of
    steps, and the steps of clients come in any order between them. *)

From stdpp Require Import gmap strings list.
From Stdlib Require Import ZArith Lia Strings.Byte.
From S2P Require Import Prelude Store Codec RaftStore Api Registry Cluster Controllers.

(** ** The controller *)

Record KeyRotationReconciler := MkKeyRotationReconciler { kr_interval : Z (** nanoseconds *) }.

Definition NewKeyRotationReconciler (interval : Z) : KeyRotationReconciler :=
  MkKeyRotationReconciler (if (interval <=? 0)%Z then 86400000000000%Z else interval).

(** Reconcile on the events of its select: the end of the context ([None]) or a tick
    with what the random source and the map order give the rotation.  The store,
    and whether the loop has returned. *)
Fixpoint rotation_Reconcile {S} `{!KeyRotator S}
    (es : list (option (result bytes * (list (string * bytes) → list (string * bytes))))) (s : S) : bool * S :=
  match es with
  | [] => (false, s)
  | None :: _ => (true, s)
  | Some (rnd, order) :: es => rotation_Reconcile es (rotate rnd order s)
  end.

(** ** One re-encryption as steps *)

(** Where ReencryptAll is: before its List, with entries left to write, or returned
    with its count and error. *)
Inductive rotator :=
  | Listing
  | Rewriting (count : nat) (rest : list (string * bytes))
  | Finished (count : nat) (r : result unit).

Inductive actor := Rotator | Client (o : store_op).

Section Steps.
Context `{!RaftEnv} (order : list (string * bytes) → list (string * bytes)).

Definition rotator_step (t : rotator) (s : RaftStore) : rotator * RaftStore :=
  match t with
  | Listing =>
      match rs_List "" s with
      | Ok all => (Rewriting 0 (order (map_to_list all)), s)
      | Err e => (Finished 0 (Err (Wrapf "store: list values to re-encrypt" e)), s)
      | Panic => (Finished 0 Panic, s)
      end
  | Rewriting count [] => (Finished count (Ok tt), rs_set_keys (rs_encKey s) [] s)
  | Rewriting count ((k, v) :: rest) =>
      let '(r, s') := rs_Put k v s in
      match r with
      | Ok _ => (Rewriting (S count) rest, s')
      | r => (Finished count (wrap_result "store: re-encrypt" r), s')
      end
  | Finished _ _ => (t, s)
  end.

Definition actor_step (a : actor) (t : rotator) (s : RaftStore) : rotator * RaftStore :=
  match a with
  | Rotator => rotator_step t s
  | Client o => (t, (run_op o s).2)
  end.

Fixpoint interleave (es : list actor) (t : rotator) (s : RaftStore) : rotator * RaftStore :=
  match es with
  | [] => (t, s)
  | a :: es => let '(t, s) := actor_step a t s in interleave es t s
  end.

Lemma interleave_app es1 es2 t s :
  interleave (es1 ++ es2) t s = let '(t, s) := interleave es1 t s in interleave es2 t s.
Proof. revert t s. induction es1 as [|a es1 IH]; intros t s; simpl; [done|]. destruct (actor_step a t s). apply IH. Qed.

Lemma interleave_clients os t s : interleave (Client <$> os) t s = (t, (run_ops os s).2).
Proof.
  revert s. induction os as [|o os IH]; intros s; simpl; [done|]. rewrite IH.
  destruct (run_op o s) as [r s1]. simpl. by destruct (run_ops os s1).
Qed.

(** Nothing happens after the return. *)
Lemma rotator_finished n c r s : interleave (replicate n Rotator) (Finished c r) s = (Finished c r, s).
Proof. induction n; simpl; done. Qed.

Lemma rewriting_steps count rest s :
  interleave (replicate (S (length rest)) Rotator) (Rewriting count rest) s =
    let '(c, r, s') := reencrypt_loop count rest s in
    (Finished c r, match r with Ok _ => rs_set_keys (rs_encKey s') [] s' | _ => s' end).
Proof.
  revert count s. induction rest as [|[k v] rest IH]; intros count s; [done|].
  cbn [length replicate interleave actor_step rotator_step reencrypt_loop].
  destruct (rs_Put k v s) as [[[]|e|] s1]; [apply IH|..]; simpl; by rewrite rotator_finished.
Qed.

(** Without clients in between, the steps are ReencryptAll. *)
Theorem reencrypt_in_steps s :
  ∃ n, interleave (replicate n Rotator) Listing s =
    let '(c, r, s') := ReencryptAll order s in (Finished c r, s').
Proof.
  unfold ReencryptAll. destruct (rs_List "" s) as [all|e|] eqn:Hl.
  - exists (S (S (length (order (map_to_list all))))).
    change (replicate (S ?n) Rotator) with (Rotator :: replicate n Rotator).
    cbn [interleave actor_step rotator_step]. rewrite Hl. etrans; [apply rewriting_steps|].
    by destruct (reencrypt_loop _ _ s) as [[c [[]|e|]] s'].
  - exists 1. simpl. by rewrite Hl.
  - exists 1. simpl. by rewrite Hl.
Qed.

End Steps.

(** ** Safety with clients *)

Section Safety.
Context {RE : RaftEnv} {REL : RaftEnvLaws} {RR : RaftReliable}.
Context (order : list (string * bytes) → list (string * bytes)) (order_perm : ∀ l, order l ≡ₚ l).
Context (k0 k1 : bytes) (Hk0 : valid_key k0) (Hk1 : valid_key k1) (Hne : k0 ≠ k1).

Definition sealed_by (k c : bytes) : Prop := ∃ p, sealed k c p.

(** The keys whose values may still be sealed under the old key. *)
Definition pending (t : rotator) (key : string) : Prop :=
  match t with
  | Listing => True
  | Rewriting _ rest => key ∈ rest.*1
  | Finished _ _ => False
  end.

Definition rotation_inv (t : rotator) (s : RaftStore) : Prop :=
  raft_stable (rs_raft s) ∧ rs_encKey s = k1 ∧
  map_Forall (λ key c, sealed_by k1 c ∨ (sealed_by k0 c ∧ pending t key)) (fsm_data (rs_fsm s)) ∧
  match t with Finished _ r => r = Ok tt ∧ rs_prevEncKey s = [] | _ => rs_prevEncKey s = k0 end.

Lemma decrypt_new s c p : rs_encKey s = k1 → sealed k1 c p → rs_decrypt c s = Ok p.
Proof. intros Hk Hc. apply rs_decrypt_current; by rewrite Hk. Qed.

Lemma decrypt_old s c p : rs_encKey s = k1 → rs_prevEncKey s = k0 → sealed k0 c p → rs_decrypt c s = Ok p.
Proof. intros Hk Hp Hc. apply rs_decrypt_previous; by rewrite ?Hk, ?Hp. Qed.

(** The store serves its clients at every step. *)
Lemma rotation_inv_healthy t s : rotation_inv t s → rs_healthy s.
Proof.
  intros (Hr & Hk & Hd & Ht). split; [done|]. split; [right; by rewrite Hk|].
  intros key c Hc. destruct (Hd _ _ Hc) as [[p Hp]|[[p Hp] Hpend]]; exists p; [by apply decrypt_new|].
  destruct t; [by apply decrypt_old..|done].
Qed.

Lemma inv_put t s k v :
  rotation_inv t s → ∃ s', rs_Put k v s = (Ok tt, s') ∧ plain_view s' = <[k := v]> (plain_view s) ∧
    raft_stable (rs_raft s') ∧ rs_encKey s' = k1 ∧ rs_prevEncKey s' = rs_prevEncKey s ∧
    ∃ c, sealed_by k1 c ∧ fsm_data (rs_fsm s') = <[k := c]> (fsm_data (rs_fsm s)).
Proof.
  intros (Hr & Hk & _). destruct (rs_Put_stable k v s Hr) as (s' & c & -> & Hr' & Hk' & Hp' & Hd & Hc & Hse); [right; by rewrite Hk|].
  exists s'. split_and!; [done|by eapply plain_view_insert|done|congruence|done|].
  exists c. split; [|done]. rewrite <-Hk. exists v. apply Hse. by rewrite Hk.
Qed.

Lemma inv_client o t s : rotation_inv t s → rotation_inv t (run_op o s).2.
Proof.
  intros Hi. destruct o as [k|k v|k|p]; simpl; [done| | |done].
  - destruct (inv_put t s k v Hi) as (s' & Hput & _ & Hr' & Hk' & Hp' & c & Hc & Hd). rewrite Hput.
    destruct Hi as (_ & _ & Hall & Ht). split_and!; [done|done|simpl|by destruct t; simpl; rewrite ?Hp'].
    rewrite Hd. apply map_Forall_insert_2; [by left|done].
  - destruct Hi as (Hr & Hk & Hall & Ht). destruct (rs_Delete_stable k s Hr) as (s' & -> & Hr' & Hk' & Hp' & Hd).
    split_and!; [done|by simpl; rewrite Hk'|simpl|by destruct t; simpl; rewrite ?Hp'].
    rewrite Hd. by apply map_Forall_delete.
Qed.

Lemma clear_previous s :
  rs_encKey s = k1 → map_Forall (λ _ c, sealed_by k1 c) (fsm_data (rs_fsm s)) →
  plain_view (rs_set_keys (rs_encKey s) [] s) = plain_view s.
Proof.
  intros Hk Hall. apply map_eq. intros key. rewrite !plain_view_lookup. simpl.
  destruct (fsm_data (rs_fsm s) !! key) as [c|] eqn:Hc; [|done]. destruct (Hall _ _ Hc) as [p Hp]. simpl.
  by rewrite !(decrypt_new _ _ p).
Qed.

Lemma pending_nil count s :
  rotation_inv (Rewriting count []) s → map_Forall (λ _ c, sealed_by k1 c) (fsm_data (rs_fsm s)).
Proof. intros (_ & _ & Hall & _) key c Hc. destruct (Hall _ _ Hc) as [?|[_ Hin]]; [done|]. by apply not_elem_of_nil in Hin. Qed.

Lemma inv_rotator t s :
  rotation_inv t s → let '(t', s') := rotator_step order t s in rotation_inv t' s'.
Proof.
  intros Hi. pose proof (rotation_inv_healthy _ _ Hi) as (_ & _ & Hread). destruct t as [|count [|[k v] rest]|c r]; simpl; [| | |done].
  - rewrite rs_List_readable, with_prefix_empty by done. destruct Hi as (Hr & Hk & Hall & Ht). split_and!; [done..| |done].
    intros key c Hc. destruct (Hall _ _ Hc) as [?|[Hold _]]; [by left|right]. split; [done|]. simpl.
    rewrite order_perm. apply list_elem_of_fmap. destruct (Hread _ _ Hc) as [p Hp].
    exists (key, p). split; [done|]. apply elem_of_map_to_list. rewrite plain_view_lookup, Hc. simpl. by rewrite Hp.
  - pose proof (pending_nil _ _ Hi) as Hall. destruct Hi as (Hr & Hk & _ & Ht). split_and!; try done.
    intros key c Hc. left. by eapply Hall.
  - destruct (inv_put _ _ k v Hi) as (s' & Hput & _ & Hr' & Hk' & Hp' & c & Hc & Hd). rewrite Hput.
    destruct Hi as (_ & _ & Hall & Ht). split_and!; [done|done|simpl|by rewrite Hp'].
    rewrite Hd. intros key d [[<- <-]|[Hn Hd']]%lookup_insert_Some; [by left|].
    destruct (Hall _ _ Hd') as [?|[? [?|?]%elem_of_cons]]; [by left|by subst|by right].
Qed.

Lemma inv_interleave es t s :
  rotation_inv t s → let '(t', s') := interleave order es t s in rotation_inv t' s'.
Proof.
  revert t s. induction es as [|[|o] es IH]; intros t s Hi; simpl; [done| |].
  - pose proof (inv_rotator _ _ Hi) as H. destruct (rotator_step order t s). by apply IH.
  - by apply IH, inv_client.
Qed.

Definition put_back (l : list (string * bytes)) (m : gmap string bytes) : gmap string bytes :=
  foldl (λ m kv, <[kv.1 := kv.2]> m) m l.

(** What the rewriting does to the contents: it puts back what it listed. *)
Lemma rewriting_view count rest s :
  rotation_inv (Rewriting count rest) s →
  ∃ s', interleave order (replicate (S (length rest)) Rotator) (Rewriting count rest) s = (Finished (count + length rest) (Ok tt), s') ∧
    plain_view s' = put_back rest (plain_view s).
Proof.
  revert count s. induction rest as [|[k v] rest IH]; intros count s Hi; simpl.
  - eexists. rewrite Nat.add_0_r. split; [done|]. apply clear_previous; [apply Hi|by eapply pending_nil].
  - pose proof (inv_rotator _ _ Hi) as Hn. destruct (inv_put _ _ k v Hi) as (s1 & Hput & Hv & _).
    cbn [rotator_step] in Hn. rewrite Hput in Hn |- *. destruct (IH _ _ Hn) as (s' & Hrun & Hv').
    exists s'. rewrite Hv' , Hv. split; [|done]. rewrite <-Nat.add_succ_comm. exact Hrun.
Qed.

Lemma put_back_other (l : list (string * bytes)) m k : k ∉ l.*1 → put_back l m !! k = m !! k.
Proof.
  revert m. induction l as [|[k' v'] l IH]; intros m; csimpl; [done|]. rewrite not_elem_of_cons. intros [Hk Hl].
  rewrite IH by done. by rewrite lookup_insert_ne.
Qed.

Lemma put_back_listed (l : list (string * bytes)) m k v :
  NoDup l.*1 → (k, v) ∈ l → put_back l m !! k = Some v.
Proof.
  revert m. induction l as [|[k' v'] l IH]; intros m; csimpl; [by intros _ ?%not_elem_of_nil|].
  intros [Hk Hl]%NoDup_cons [[= -> ->]|Hin]%elem_of_cons; [|by apply IH].
  rewrite put_back_other by done. by rewrite lookup_insert_eq.
Qed.

(** Taking up the new key. *)
Lemma rotate_key_inv m s s1 :
  raft_stable (rs_raft s) → rs_encKey s = k0 → sealed_as k0 m (fsm_data (rs_fsm s)) →
  RotateEncryptionKey k1 s = (Ok tt, s1) → rotation_inv Listing s1.
Proof.
  intros Hr Hk Hm. unfold RotateEncryptionKey. rewrite decide_False by (unfold valid_key in *; lia). intros [= <-].
  split_and!; [done..| |done]. intros key c Hc. right. split; [|done]. simpl in Hc. specialize (Hm key). rewrite Hc in Hm.
  inversion Hm as [p c' Hp|]; subst. by exists p.
Qed.


(** C39: It can undo what its clients do.  Requests that are served after the values were
    listed and before they are written back are answered as usual, and then every key
    that was listed gets its old value again: updates are lost, and what was deleted
    comes back. *)
Theorem rotation_undoes_writes m s s1 os :
  raft_stable (rs_raft s) → rs_encKey s = k0 → sealed_as k0 m (fsm_data (rs_fsm s)) →
  RotateEncryptionKey k1 s = (Ok tt, s1) →
  ∃ t s2 n c s3, interleave order (Rotator :: (Client <$> os)) Listing s1 = (t, s2) ∧
    plain_view s2 = mem_data (run_ops os (MkMemStore m)).2 ∧
    interleave order (replicate n Rotator) t s2 = (Finished c (Ok tt), s3) ∧
    ∀ k v, m !! k = Some v → rs_Get k s3 = Ok v.
Proof.
  intros Hr Hk Hm H1. pose proof (rotate_key_inv _ _ _ Hr Hk Hm H1) as Hi.
  assert (plain_view s1 = m) as Hv1.
  { unfold RotateEncryptionKey in H1. rewrite decide_False in H1 by (unfold valid_key in *; lia). injection H1 as <-.
    apply (plain_view_sealed _ m k0); [done|]. intros c p. apply decrypt_old; simpl; congruence. }
  pose proof (inv_rotator _ _ Hi) as Hn. pose proof (rotation_inv_healthy _ _ Hi) as (_ & _ & Hread).
  cbn [rotator_step] in Hn. rewrite rs_List_readable, with_prefix_empty, Hv1 in Hn by done.
  pose proof (inv_interleave (Client <$> os) _ _ Hn) as Hc. pose proof (run_ops_simulates_map os s1 (rotation_inv_healthy _ _ Hi)) as Hsim.
  cbn [store_view RaftStore_laws] in Hsim. rewrite Hv1 in Hsim. rewrite interleave_clients in Hc.
  destruct (rewriting_view _ _ _ Hc) as (s3 & Hs3 & Hv3).
  eexists _, _, _, _, s3. split; [|split; [|split; [exact Hs3|]]].
  - cbn [interleave actor_step rotator_step]. rewrite rs_List_readable, with_prefix_empty, Hv1 by done. apply interleave_clients.
  - destruct (run_ops os s1), (run_ops os (MkMemStore m)). by destruct Hsim as (_ & _ & ?).
  - intros k v Hkv. pose proof (inv_interleave (replicate (S (length (order (map_to_list m)))) Rotator) _ _ Hc) as Hf. rewrite Hs3 in Hf.
    pose proof (store_Get_law (S := RaftStore) s3 k (rotation_inv_healthy _ _ Hf)) as Hget.
    cbn [store_Get RaftStore_Store store_view RaftStore_laws] in Hget. rewrite Hget, Hv3.
    erewrite put_back_listed; [done|rewrite order_perm; apply NoDup_fst_map_to_list|].
    rewrite order_perm. by apply elem_of_map_to_list.
Qed.
End Safety.

(** ** Examples *)

Module DemoRotation.
Import RaftStore.DemoRaft.

Definition rotated : RaftStore := rs_set_keys key1 key0 leader.
Definition web0 : string := "/registry/pods/default/web-0".


(** A pod that is deleted while the key is being rotated comes back. *)
Lemma rotation_undoes_writes_witness :
  ∃ t s2 n c s3, interleave id [Rotator; Client (OpDelete web0)] Listing rotated = (t, s2) ∧
    plain_view s2 !! web0 = None ∧
    interleave id (replicate n Rotator) t s2 = (Finished c (Ok tt), s3) ∧ rs_Get web0 s3 = Ok [x2a].
Proof.
  destruct (rotation_undoes_writes id (λ l, Permutation_refl l) key0 key1 eq_refl eq_refl ltac:(discriminate)
    contents leader rotated [OpDelete web0] eq_refl eq_refl (sealed_contents_ok key0) eq_refl) as (t & s2 & n & c & s3 & H1 & H2 & H3 & H4).
  exists t, s2, n, c, s3. split; [exact H1|]. split; [by rewrite H2; vm_compute|]. split; [exact H3|]. by apply H4; vm_compute.
Defined.
End DemoRotation.
