(* ===== verification/Manager.v ===== *)
(** * Manager: the goroutines behind the controllers

    internal/controller/manager.go: Manager.Run starts a goroutine for each
    reconciler and waits for all of them on a WaitGroup; RunWhileLeader starts Run in
    a goroutine of its own for every term of leadership, cancels its context when
    the term is over and waits for it.  Controllers.v describes the loop of
    RunWhileLeader alone; this file has the goroutines as well, and every
    interleaving of their steps.

    The timer loops of the single controllers are here too. *)

From stdpp Require Import gmap strings list relations.
From Stdlib Require Import ZArith Lia.
From S2P Require Import Prelude Api Codec Store Registry Cluster Scheduler Scheduling Deployment Float Hpa Controllers.

(** ** The loops of the controllers *)

Section Loops.
Context {S : Type} `{!Store S} {Sh : Shuffle} `{AM : !ApiMessages} `{!Scheduler} {FC : FloatConv}.

Definition pod_Reconcile (r : PodReconciler) (es : list event) : M S unit := Reconcile (pod_reconcileAll r) es.
Definition hpa_Reconcile (r : HorizontalAutoscaler) (es : list event) : M S unit := Reconcile (hpa_reconcileAll r) es.

(** Every tick has its own time. *)
Fixpoint nodehealth_Reconcile (r : NodeHealthReconciler) (es : list (option Z)) : M S unit :=
  match es with
  | [] => mret ()
  | None :: _ => fail ErrContextCanceled
  | Some now :: es => _ ← checkAll r now; nodehealth_Reconcile r es
  end.
End Loops.

(** ** Goroutines *)

(** The goroutine of a reconciler: in its select, in the body of a tick with so many
    accesses to the store to go, or ended after its context was done. *)
Inductive task := Idle | Working (accesses : nat) | Ended.

(** One call of Manager.Run with its context: whether that is cancelled, the
    reconcilers not started yet, the goroutines started, the counter of the
    WaitGroup, and whether Run has returned and [done] is closed. *)
Record run := MkRun {
  run_cancelled : bool;
  run_unstarted : nat;
  run_tasks : list task;
  run_wg : nat;
  run_done : bool;
}.

Definition new_run (n : nat) : run := MkRun false n [] 0 false.
Definition cancel_run (r : run) : run := MkRun true (run_unstarted r) (run_tasks r) (run_wg r) (run_done r).

(** What a step is, for counting: a tick starts a body of so many accesses, anything else is work. *)
Inductive label := LTick (accesses : nat) | LWork.

(** Steps of a run whose context is done if [cancelled].  The select of a
    goroutine may take a tick also when the context is done: Go picks one of the
    cases that are ready. *)
Inductive run_step (cancelled : bool) : run → label → run → Prop :=
  | rs_start c n ts wg :
      (* wg.Add(1); go func(r Reconciler) { ... } *)
      run_step cancelled (MkRun c (S n) ts wg false) LWork (MkRun c n (ts ++ [Idle]) (S wg) false)
  | rs_tick c n ts wg d i accesses :
      ts !! i = Some Idle →
      run_step cancelled (MkRun c n ts wg d) (LTick accesses) (MkRun c n (<[i := Working accesses]> ts) wg d)
  | rs_access c n ts wg d i k :
      ts !! i = Some (Working (S k)) →
      run_step cancelled (MkRun c n ts wg d) LWork (MkRun c n (<[i := Working k]> ts) wg d)
  | rs_body_end c n ts wg d i :
      ts !! i = Some (Working 0) →
      run_step cancelled (MkRun c n ts wg d) LWork (MkRun c n (<[i := Idle]> ts) wg d)
  | rs_end c n ts wg d i :
      (* case <-ctx.Done(): return; defer wg.Done() *)
      cancelled = true → ts !! i = Some Idle →
      run_step cancelled (MkRun c n ts wg d) LWork (MkRun c n (<[i := Ended]> ts) (pred wg) d)
  | rs_wait c ts :
      (* wg.Wait() returns; close(done) *)
      run_step cancelled (MkRun c 0 ts 0 false) LWork (MkRun c 0 ts 0 true).

(** ** RunWhileLeader *)

Inductive mphase := MOuter | MLeading | MDraining | MReturned.

(** Whether the context is cancelled, where the loop is, and all the runs it has started. *)
Record manager := MkMgr { mg_cancelled : bool; mg_phase : mphase; mg_runs : list run }.

Definition mg_init : manager := MkMgr false MOuter [].

Section Machine.
Context (n : nat).  (** the number of registered reconcilers *)

Inductive mstep : manager → label → manager → Prop :=
  | ms_cancel p rs :
      mstep (MkMgr false p rs) LWork (MkMgr true p rs)
  | ms_return rs :
      mstep (MkMgr true MOuter rs) LWork (MkMgr true MReturned rs)
  | ms_follow rs :
      (* !isLeader.IsLeader(): sleep *)
      mstep (MkMgr false MOuter rs) LWork (MkMgr false MOuter rs)
  | ms_lead rs :
      mstep (MkMgr false MOuter rs) LWork (MkMgr false MLeading (rs ++ [new_run n]))
  | ms_stay rs :
      mstep (MkMgr false MLeading rs) LWork (MkMgr false MLeading rs)
  | ms_stop c rs r o :
      (* the context is done or leadership is lost: cancel() *)
      poll_cancelled o = c → poll_cancelled o || negb (poll_leader o) = true →
      mstep (MkMgr c MLeading (rs ++ [r])) LWork (MkMgr c MDraining (rs ++ [cancel_run r]))
  | ms_done c rs r :
      (* <-done *)
      run_done r = true → mstep (MkMgr c MDraining (rs ++ [r])) LWork (MkMgr c MOuter (rs ++ [r]))
  | ms_run c p rs1 r l r' rs2 :
      run_step (c || run_cancelled r) r l r' →
      mstep (MkMgr c p (rs1 ++ r :: rs2)) l (MkMgr c p (rs1 ++ r' :: rs2)).

Inductive mrun : manager → list label → manager → Prop :=
  | mrun_nil s : mrun s [] s
  | mrun_cons s l s1 ls s2 : mstep s l s1 → mrun s1 ls s2 → mrun s (l :: ls) s2.

(** ** The invariant *)

Definition live (t : task) : Prop := t ≠ Ended.
#[export] Instance live_dec t : Decision (live t).
Proof. destruct t; [left|left|right]; unfold live; congruence. Defined.

Definition live_count (ts : list task) : nat := length (filter live ts).

Definition run_ok (r : run) : Prop :=
  run_wg r = live_count (run_tasks r) ∧ length (run_tasks r) + run_unstarted r = n ∧
  (run_done r = true → run_unstarted r = 0 ∧ run_wg r = 0).

Definition finished (r : run) : Prop := run_done r = true.

Definition manager_inv (s : manager) : Prop :=
  Forall run_ok (mg_runs s) ∧
  match mg_phase s with
  | MOuter | MReturned => Forall finished (mg_runs s)
  | MLeading => ∃ rs r, mg_runs s = rs ++ [r] ∧ Forall finished rs
  | MDraining => ∃ rs r, mg_runs s = rs ++ [r] ∧ Forall finished rs ∧ run_cancelled r = true
  end ∧ (mg_phase s = MReturned → mg_cancelled s = true).

Lemma live_count_insert ts i t t' :
  ts !! i = Some t → live t →
  live_count (<[i := t']> ts) = (if decide (live t') then live_count ts else pred (live_count ts)).
Proof.
  intros Hi Ht.
  assert (live_count ts = S (length (filter live (take i ts)) + length (filter live (drop (S i) ts)))) as ->.
  { unfold live_count. rewrite <-(take_drop_middle ts i t Hi) at 1. rewrite filter_app, filter_cons, (decide_True _ _ Ht), length_app. simpl. lia. }
  rewrite insert_take_drop by (by eapply lookup_lt_Some).
  unfold live_count. rewrite filter_app, filter_cons, length_app. destruct (decide (live t')); simpl; lia.
Qed.

Lemma live_count_pos ts i t : ts !! i = Some t → live t → live_count ts ≠ 0.
Proof.
  intros Hi Ht H. apply length_zero_iff_nil in H.
  assert (t ∈ filter live ts) as Hin by (apply list_elem_of_filter; split; [done|by eapply list_elem_of_lookup_2]).
  rewrite H in Hin. by apply not_elem_of_nil in Hin.
Qed.

(** A run keeps its books right; once it is done nothing of it is alive. *)
Lemma run_step_ok c r l r' : run_step c r l r' → run_ok r → run_ok r' ∧ (run_done r = true → run_done r' = true) ∧ run_cancelled r' = run_cancelled r.
Proof.
  unfold run_ok. destruct 1 as [? ? ts|? ? ts ? ? i a Hi|? ? ts ? ? i k Hi|? ? ts ? ? i Hi|? ? ts ? ? i ? Hi|]; simpl; intros (Hw & Hn & Hd).
  - split; [|done]. split; [|split; [rewrite length_app; simpl; lia|done]]. rewrite Hw. unfold live_count. rewrite filter_app, length_app. simpl. lia.
  - rewrite (live_count_insert _ _ _ _ Hi), length_insert by done. done.
  - rewrite (live_count_insert _ _ _ _ Hi), length_insert by done. done.
  - rewrite (live_count_insert _ _ _ _ Hi), length_insert by done. done.
  - rewrite (live_count_insert _ _ _ _ Hi), length_insert by done. rewrite decide_False by (unfold live; naive_solver).
    split_and!; [congruence|done| |done|done]. intros Hdone. by destruct (Hd Hdone) as [? ->].
  - done.
Qed.

Lemma run_ok_done_dead r : run_ok r → finished r → Forall (λ t, t = Ended) (run_tasks r) ∧ length (run_tasks r) = n.
Proof.
  intros (Hw & Hn & Hd) Hf. destruct (Hd Hf) as [Hu H0]. split; [|lia].
  apply Forall_lookup. intros i t Hi. destruct (decide (live t)) as [Hl|Hl].
  - exfalso. eapply live_count_pos; [done..|congruence].
  - unfold live in Hl. destruct t; [exfalso; by apply Hl..|done].
Qed.

Lemma mstep_inv s l s' : mstep s l s' → manager_inv s → manager_inv s'.
Proof.
  unfold manager_inv. destruct 1 as [p rs|rs|rs|rs|rs|c rs r o Hc Ho|c rs r Hdone|c p rs1 r l r' rs2 Hstep]; simpl; intros (Hok & Hp & Hr).
  - split_and!; [done| |done]. by destruct p.
  - done.
  - done.
  - split_and!; [|by eexists _, _|done]. apply Forall_app. split; [done|]. by repeat constructor.
  - done.
  - apply Forall_app in Hok as [Hok1 [Hok2 _]%Forall_cons]. destruct Hp as (rs' & r' & [<- <-]%app_inj_tail & Hf).
    split_and!; [|eexists _, _; by split_and!|by destruct c]. apply Forall_app. split; [done|]. apply Forall_singleton; exact Hok2.
  - destruct Hp as (rs' & r' & [<- <-]%app_inj_tail & Hf & _). split_and!; [done| |done]. apply Forall_app. by split; [|constructor].
  - apply Forall_app in Hok as [Hok1 [Hokr Hok2]%Forall_cons]. destruct (run_step_ok _ _ _ _ Hstep Hokr) as (Hokr' & Hd & Hcan).
    assert (∀ a, Forall finished (a ++ r :: rs2) → Forall finished (a ++ r' :: rs2)) as Hfin.
    { intros a [? [? ?]%Forall_cons]%Forall_app. apply Forall_app. split; [done|]. constructor; [by apply Hd|done]. }
    assert (∀ rs last, rs1 ++ r :: rs2 = rs ++ [last] → Forall finished rs →
      ∃ rs' last', rs1 ++ r' :: rs2 = rs' ++ [last'] ∧ Forall finished rs' ∧ run_cancelled last' = run_cancelled last) as Hlast.
    { intros rs last Heq Hf. destruct rs2 as [|x rs2 _] using rev_ind.
      - apply app_inj_tail in Heq as [-> ->]. by exists rs, r'.
      - rewrite !app_comm_cons, !app_assoc in *. apply app_inj_tail in Heq as [<- <-].
        eexists _, _. split; [done|]. split; [|done]. apply Forall_app in Hf as [? [? ?]%Forall_cons].
        apply Forall_app. split; [done|]. constructor; [by apply Hd|done]. }
    split_and!; [apply Forall_app; by split; [|constructor]| |done].
    destruct p; [by apply Hfin| | |by apply Hfin].
    + destruct Hp as (rs & last & Heq & Hf). destruct (Hlast _ _ Heq Hf) as (? & ? & ? & ? & _). by eexists _, _.
    + destruct Hp as (rs & last & Heq & Hf & Hcl). destruct (Hlast _ _ Heq Hf) as (? & ? & ? & ? & Hc'). eexists _, _. split_and!; [done..|congruence].
Qed.

Lemma mrun_inv s ls s' : mrun s ls s' → manager_inv s → manager_inv s'.
Proof. induction 1; [done|]. eauto using mstep_inv. Qed.

Lemma mg_init_inv : manager_inv mg_init.
Proof. split_and!; try done. constructor. Qed.

(** ** One term at a time *)

Definition alive (r : run) : Prop := Exists live (run_tasks r).

Lemma finished_not_alive r : run_ok r → finished r → ¬ alive r.
Proof.
  intros Hok Hf Ha. destruct (run_ok_done_dead _ Hok Hf) as [Hd _]. apply Exists_exists in Ha as (t & Hin & Hl).
  rewrite Forall_forall in Hd. by apply Hl, Hd.
Qed.

Lemma all_finished_dead s : manager_inv s → Forall finished (mg_runs s) → Forall (λ r, ¬ alive r) (mg_runs s).
Proof.
  intros (Hok & _) Hf. apply Forall_forall. intros r Hr. rewrite Forall_forall in Hok, Hf. apply finished_not_alive; auto.
Qed.

(** C20: The controllers of two terms never run at the same time.  In every state that
    RunWhileLeader and the goroutines it starts can reach, only the last run has
    goroutines that have not ended, it has at most one per registered reconciler,
    and outside a term (at the head of the loop and after the return) there are none. *)
Theorem one_term_at_a_time ls s :
  mrun mg_init ls s →
  (∀ i r, mg_runs s !! i = Some r → alive r → S i = length (mg_runs s)) ∧
  Forall (λ r, length (run_tasks r) ≤ n) (mg_runs s) ∧
  (mg_phase s = MOuter ∨ mg_phase s = MReturned → Forall (λ r, ¬ alive r) (mg_runs s)).
Proof.
  intros Hrun. pose proof (mrun_inv _ _ _ Hrun mg_init_inv) as Hinv.
  assert (∀ rs last, mg_runs s = rs ++ [last] → Forall finished rs →
    ∀ i r, mg_runs s !! i = Some r → alive r → S i = length (mg_runs s)) as Hlast.
  { intros rs last Heq Hf i r Hi Ha. destruct Hinv as (Hok & _). rewrite Heq in *. rewrite length_app. simpl.
    apply lookup_app_Some in Hi as [Hi|[Hle [Hi _]%list_lookup_singleton_Some]]; [|lia]. exfalso.
    apply Forall_app in Hok as [Hok _]. eapply finished_not_alive; [..|done]; by eapply Forall_lookup_1. }
  assert (Forall finished (mg_runs s) → ∀ i r, mg_runs s !! i = Some r → alive r → S i = length (mg_runs s)) as Hnone.
  { intros Hf i r Hi Ha. pose proof (all_finished_dead _ Hinv Hf) as Hd. by destruct (Forall_lookup_1 _ _ _ _ Hd Hi). }
  destruct (Hinv) as (Hok & Hp & _). split_and!.
  - destruct (mg_phase s); [by apply Hnone|destruct Hp as (rs & r & ? & ?); by eapply Hlast|
      destruct Hp as (rs & r & ? & ? & _); by eapply Hlast|by apply Hnone].
  - eapply Forall_impl; [exact Hok|]. intros r (_ & ? & _). lia.
  - intros [E|E]; rewrite E in Hp; by apply all_finished_dead.
Qed.

(** ** The end *)

Definition task_work (t : task) : nat := match t with Idle => 1 | Working k => S (S k) | Ended => 0 end.
Definition run_work (r : run) : nat :=
  2 * run_unstarted r + sum_list_with task_work (run_tasks r) + (if run_done r then 0 else 1).
Definition phase_work (p : mphase) : nat := match p with MLeading => 3 | MDraining => 2 | MOuter => 1 | MReturned => 0 end.
Definition work (s : manager) : nat := phase_work (mg_phase s) + sum_list_with run_work (mg_runs s).

(** What a step may add: a tick the accesses of its body. *)
Definition added (l : label) : nat := match l with LTick k => S k | LWork => 0 end.
Definition spent (l : label) : nat := match l with LTick _ => 0 | LWork => 1 end.

Lemma task_work_insert ts i t t' :
  ts !! i = Some t → sum_list_with task_work (<[i := t']> ts) + task_work t = sum_list_with task_work ts + task_work t'.
Proof.
  intros Hi. rewrite insert_take_drop by (by eapply lookup_lt_Some). rewrite <-(take_drop_middle ts i t Hi) at 3.
  rewrite !sum_list_with_app. simpl. lia.
Qed.

Lemma run_step_work c r l r' : run_step c r l r' → spent l + run_work r' ≤ run_work r + added l.
Proof.
  unfold run_work. destruct 1 as [? ? ts|? ? ts ? ? i a Hi|? ? ts ? ? i k Hi|? ? ts ? ? i Hi|? ? ts ? ? i ? Hi|];
    cbn [run_unstarted run_tasks run_done spent added];
    try (pose proof (task_work_insert _ _ _ (Working a) Hi)); try (pose proof (task_work_insert _ _ _ (Working k) Hi));
    try (pose proof (task_work_insert _ _ _ Idle Hi)); try (pose proof (task_work_insert _ _ _ Ended Hi));
    rewrite ?sum_list_with_app; simpl in *; lia.
Qed.

Lemma mstep_work s l s' : mg_cancelled s = true → mstep s l s' → mg_cancelled s' = true ∧ spent l + work s' ≤ work s + added l.
Proof.
  unfold work. intros Hc. destruct 1; simpl in *; subst; try done; (split; [done|]); rewrite ?sum_list_with_app; simpl; try lia.
  - change (run_work (cancel_run r)) with (run_work r). lia.
  - match goal with H : run_step _ _ _ _ |- _ => pose proof (run_step_work _ _ _ _ H) end. lia.
Qed.

Lemma mrun_work s ls s' : mrun s ls s' → mg_cancelled s = true →
  mg_cancelled s' = true ∧ sum_list_with spent ls + work s' ≤ work s + sum_list_with added ls.
Proof.
  induction 1 as [|s l s1 ls s2 Hstep Hrun IH]; intros Hc; [split; [done|simpl; lia]|]. destruct (mstep_work _ _ _ Hc Hstep) as [Hc1 Hw].
  destruct (IH Hc1) as [? ?]. split; [done|]. simpl. lia.
Qed.

(** A run whose context is done can always go on until it is done. *)
Lemma run_progress r : run_ok r → run_done r = false → ∃ r', run_step true r LWork r'.
Proof.
  intros (Hw & _ & _) Hd. destruct r as [c u ts wg d]. simpl in *. subst d. destruct u as [|u]; [|by eexists; apply rs_start].
  destruct wg as [|wg]; [by eexists; apply rs_wait|].
  assert (∃ i t, ts !! i = Some t ∧ live t) as (i & t & Hi & Hl).
  { unfold live_count in Hw. destruct (filter live ts) as [|t l] eqn:E; [done|].
    assert (t ∈ filter live ts) as [Hl [i Hi]%list_elem_of_lookup]%list_elem_of_filter by (rewrite E; left). by exists i, t. }
  destruct t as [|[|k]|]; [eexists; by apply (rs_end _ _ _ _ _ _ i)|eexists; by apply (rs_body_end _ _ _ _ _ _ i)|
    eexists; by apply (rs_access _ _ _ _ _ _ i k)|done].
Qed.

(** C27: Cancelling ends everything.  Once the context is cancelled the program is never
    stuck before RunWhileLeader has returned; apart from the ticks that goroutines
    still take it makes a bounded number of steps, the bound being the work left plus
    the accesses of those ticks; and when it has returned no controller is running. *)
Theorem cancel_drains ls s ls' s' :
  mrun mg_init ls s → mg_cancelled s = true → mrun s ls' s' →
  sum_list_with spent ls' ≤ work s + sum_list_with added ls' ∧
  (mg_phase s' = MReturned → Forall (λ r, ¬ alive r) (mg_runs s')) ∧
  (mg_phase s' ≠ MReturned → ∃ s'', mstep s' LWork s'').
Proof.
  intros H0 Hc H1. pose proof (mrun_inv _ _ _ H1 (mrun_inv _ _ _ H0 mg_init_inv)) as Hinv.
  destruct (mrun_work _ _ _ H1 Hc) as [Hc' Hw]. split; [lia|]. split.
  - intros E. destruct (Hinv) as (_ & Hp & _). rewrite E in Hp. by apply all_finished_dead.
  - destruct Hinv as (Hok & Hp & _). destruct s' as [c p rs]. simpl in *. subst c. intros Hp'. destruct p; [|..|done].
    + eexists. apply ms_return.
    + destruct Hp as (rs' & r & -> & _). eexists. by apply (ms_stop _ _ _ (MkPoll true true)).
    + destruct Hp as (rs' & r & -> & _ & Hcan). apply Forall_app in Hok as [_ [Hr _]%Forall_cons]. destruct (run_done r) eqn:Hd.
      * eexists. by apply ms_done.
      * destruct (run_progress _ Hr Hd) as [r' Hstep]. eexists. by apply (ms_run true _ rs' r _ r' []).
Qed.

(** ** The abstract loop *)

(** A term counts as stopped when the loop has waited for its goroutines. *)
Definition abstract (s : manager) : leader_state :=
  let k := length (mg_runs s) in
  match mg_phase s with
  | MOuter => MkLeaderState Outer k k
  | MLeading | MDraining => MkLeaderState Leading k (pred k)
  | MReturned => MkLeaderState Returned k k
  end.

Lemma mstep_abstract s l s' : mstep s l s' → manager_inv s → abstract s' = abstract s ∨ ∃ o, abstract s' = leader_next (abstract s) o.
Proof.
  intros Hs (_ & Hp & _). destruct Hs as [p rs|rs|rs|rs|rs|c rs r o Hc Ho|c rs r Hdone|c p rs1 r l r' rs2 Hstep];
    unfold abstract, leader_next; simpl in *; rewrite ?length_app; simpl.
  - by left; destruct p.
  - right. by exists (MkPoll true false).
  - by left.
  - right. exists (MkPoll false true). simpl. f_equal; lia.
  - by left.
  - by left.
  - right. exists (MkPoll true false). simpl. f_equal; lia.
  - by left.
Qed.

(** The goroutines implement the loop: however they interleave, the state that
    RunWhileLeader is in is one that the polling loop of Controllers.v reaches. *)
Theorem manager_refines_leader ls s : mrun mg_init ls s → ∃ os, abstract s = RunWhileLeader os.
Proof.
  assert (∀ s0, mrun s0 ls s → manager_inv s0 → (∃ os, abstract s0 = RunWhileLeader os) → ∃ os, abstract s = RunWhileLeader os) as H.
  { intros s0 Hrun. induction Hrun as [|s0 l s1 ls s2 Hstep _ IH]; [done|]. intros Hi [os Hos].
    apply IH; [by eapply mstep_inv|]. destruct (mstep_abstract _ _ _ Hstep Hi) as [->|[o ->]]; [by exists os|].
    exists (os ++ [o]). unfold RunWhileLeader. rewrite foldl_app. simpl. by f_equal. }
  intros Hrun. apply (H _ Hrun mg_init_inv). by exists [].
Qed.
End Machine.

(** ** Examples *)

Module DemoManager.

(** A term with one controller: it starts, works through a tick of one access, and is
    caught by the cancellation of the program. *)
Definition leading : manager := MkMgr false MLeading [MkRun false 0 [Working 1] 1 false].
Definition cancelled : manager := MkMgr true MDraining [MkRun true 0 [Working 1] 1 false].
Definition returned : manager := MkMgr true MReturned [MkRun true 0 [Ended] 0 true].

Ltac step_list e :=
  eapply mrun_cons; [e|].

Lemma reach_leading : mrun 1 mg_init [LWork; LWork; LTick 1] leading.
Proof.
  step_list ltac:(apply ms_lead). step_list ltac:(apply (ms_run _ _ _ []); apply rs_start).
  step_list ltac:(apply (ms_run _ _ _ []); by apply (rs_tick _ _ _ _ _ _ 0 1)). constructor.
Qed.

Lemma reach_cancelled : mrun 1 mg_init ([LWork; LWork; LTick 1] ++ [LWork; LWork]) cancelled.
Proof.
  step_list ltac:(apply ms_lead). step_list ltac:(apply (ms_run _ _ _ []); apply rs_start).
  step_list ltac:(apply (ms_run _ _ _ []); by apply (rs_tick _ _ _ _ _ _ 0 1)).
  step_list ltac:(apply ms_cancel). step_list ltac:(by apply (ms_stop _ true [] _ (MkPoll true true))). constructor.
Qed.

Lemma drain : mrun 1 cancelled (replicate 6 LWork) returned.
Proof.
  step_list ltac:(apply (ms_run _ _ _ []); by apply (rs_access _ _ _ _ _ _ 0 0)).
  step_list ltac:(apply (ms_run _ _ _ []); by apply (rs_body_end _ _ _ _ _ _ 0)).
  step_list ltac:(apply (ms_run _ _ _ []); by apply (rs_end _ _ _ _ _ _ 0)).
  step_list ltac:(apply (ms_run _ _ _ []); apply rs_wait).
  step_list ltac:(by apply (ms_done _ _ [])). step_list ltac:(apply ms_return). constructor.
Qed.

Lemma one_term_at_a_time_witness : Forall (λ r, length (run_tasks r) ≤ 1) (mg_runs leading).
Proof. apply (one_term_at_a_time 1 _ _ reach_leading). Defined.

Lemma cancel_drains_witness : Forall (λ r, ¬ alive r) (mg_runs returned).
Proof. apply (cancel_drains 1 _ cancelled _ returned reach_cancelled eq_refl drain). reflexivity. Defined.

Lemma manager_refines_leader_witness : ∃ os, MkLeaderState Leading 1 0 = RunWhileLeader os.
Proof. apply (manager_refines_leader 1 _ _ reach_leading). Defined.
End DemoManager.
