(* ===== verification/Tls.v ===== *)
(** * Tls: what the two ends of a connection know of each other

    The TLS configurations that an identity gives (internal/identity/svid.go), the
    one used to enrol (enroll.go), the gRPC server (apiserver/server.go), and a
    handshake between them: which certificates are presented, what each end checks
    and what the interceptor of the server is told.  The handshake is that of
    crypto/tls as far as these configurations steer it. *)

From stdpp Require Import gmap strings list.
From Stdlib Require Import Ascii ZArith Lia.
From S2P Require Import Prelude Text Path Http Store Registry Cluster Rbac Identity.

Local Open Scope Z_scope.

(** ** Configurations *)

(** [tls.VersionTLS13] *)
Definition VersionTLS13 : Z := 772.

(** The policies of [tls.ClientAuth] that the program uses. *)
Inductive ClientAuthType := NoClientCert | VerifyClientCertIfGiven.

Section Tls.
Context {X : X509} {SP : Spiffe} {SI : SpiffeIDs}.

(** [tls.Certificate] *)
Record tls_Certificate := MkTlsCertificate { tc_Certificate : list der; tc_PrivateKey : priv; tc_Leaf : cert }.

(** The fields of [tls.Config] of a server and of a client.  The callbacks that
    give the certificate take the identity as it is at the time of the handshake:
    they close over the pointer, not over its contents. *)
Record server_config := MkServerConfig {
  sc_MinVersion : Z;
  sc_GetCertificate : SVID → result tls_Certificate;
  sc_ClientAuth : ClientAuthType;
  sc_ClientCAs : list cert;
}.
Record client_config := MkClientConfig {
  cc_MinVersion : Z;
  cc_GetClientCertificate : option (SVID → result tls_Certificate);
  cc_RootCAs : list cert;
  cc_InsecureSkipVerify : bool;
  cc_VerifyPeerCertificate : option (Z → list der → result unit);
}.

(** The material of an identity always has a certificate: NewSVID and Rotate store both. *)
Definition tlsCertificate (s : SVID) : result tls_Certificate :=
  let '(key, c) := Materials s in Ok (MkTlsCertificate [cert_Raw c] key c).

Definition ServerTLSConfig (s : SVID) : server_config :=
  MkServerConfig VersionTLS13 tlsCertificate VerifyClientCertIfGiven (sv_bundle s).

Definition ClientTLSConfig (s : SVID) (expect : ID → result unit) : client_config :=
  MkClientConfig VersionTLS13 (Some tlsCertificate) (sv_bundle s) true (Some (verifyPeerSPIFFE (sv_bundle s) expect)).

(** The configuration of Enroll, which has no identity yet. *)
Definition bootstrapTLS : client_config := MkClientConfig VersionTLS13 None [] true None.

(** [spiffeid.MatchMemberOf] *)
Definition MatchMemberOf (td : string) (id : ID) : result unit :=
  if MemberOf id td then Ok () else Err (Errorf "unexpected trust domain").

(** ** The handshake (crypto/tls) *)

(** The client's check of the server: the chain of its own unless that is turned
    off, then the callback. *)
Definition check_server (cfg : client_config) (now : Z) (raw : list der) : result unit :=
  _ ← (if cc_InsecureSkipVerify cfg then Ok ()
       else match raw with
            | [] => Err (Errorf "tls: received empty certificates message")
            | d :: rest =>
              leaf ← x509_ParseCertificate d;
              ints ← parse_all rest;
              x509_Verify (cc_RootCAs cfg) ints now leaf
            end);
  match cc_VerifyPeerCertificate cfg with Some f => f now raw | None => Ok () end.

(** The server's check of the client, and the verified chains: none for a client
    without a certificate.  Of a chain only the leaf is kept. *)
Definition check_client (cfg : server_config) (now : Z) (raw : list der) : result (list (list certificate)) :=
  match sc_ClientAuth cfg, raw with
  | NoClientCert, _ => Ok []
  | VerifyClientCertIfGiven, [] => Ok []
  | VerifyClientCertIfGiven, d :: rest =>
      leaf ← x509_ParseCertificate d;
      ints ← parse_all rest;
      _ ← x509_Verify (sc_ClientCAs cfg) ints now leaf;
      Ok [[MkCertificate (tm_URIs (cert_fields leaf))]]
  end.

(** A handshake at time [now] between a client with the identity [cs], if it has
    one, and a server with [ss]: what the server learns about its peer. *)
Definition handshake (ccfg : client_config) (cs : option SVID) (scfg : server_config) (ss : SVID) (now : Z) : result call_context :=
  server ← sc_GetCertificate scfg ss;
  _ ← check_server ccfg now (tc_Certificate server);
  presented ← match cc_GetClientCertificate ccfg, cs with
              | Some get, Some s => c ← get s; Ok (tc_Certificate c)
              | _, _ => Ok []
              end;
  chains ← check_client scfg now presented;
  Ok (Some (TLSInfo chains)).

(** ** The gRPC server (server.go) *)

(** An interceptor: the context and the method of a call, and its handler. *)
Definition interceptor (S : Type) := ∀ A, call_context → string → M S A → M S A.

Record Config (S : Type) := MkConfig {
  so_Addr : string;
  so_TLSConfig : option server_config;
  so_AuthInterceptor : option (interceptor S);
}.
Record Server (S : Type) := MkServer {
  srv_addr : string;
  srv_creds : option server_config;
  srv_unary : option (interceptor S);
}.

(** New; the stats handler only observes. *)
Definition New {S} (cfg : Config S) : Server S :=
  MkServer S (so_Addr S cfg) (so_TLSConfig S cfg) (so_AuthInterceptor S cfg).

(** A call on a connection: the handshake if the server has credentials, the
    interceptor if it has one, and the handler.  A failed handshake is an error of
    the transport at the client. *)
Definition serve_call {S A} (srv : Server S) (connect : server_config → result call_context) (method : string) (handler : M S A) : M S A :=
  ctx ← match srv_creds S srv with Some cfg => lift (connect cfg) | None => mret (Some OtherAuthInfo) end;
  match srv_unary S srv with Some f => f A ctx method handler | None => handler end.

End Tls.

(** ** Correctness *)

Section Correct.
Context {X : X509} {XL : X509Laws} {SP : Spiffe} {SI : SpiffeIDs}.

(** An identity issued by the authority at time [t], and what it trusts. *)
Definition issued_to (ca : CA) (path : string) (t ttl : Z) (s : SVID) : Prop :=
  ∃ serial p id, spiffeid_FromPath (ca_trustDomain ca) path = Ok id ∧
    IssueSVID ca serial t p id ttl = Ok (sv_cert s) ∧ sv_bundle s = TrustBundle ca.

Lemma issued_verify ca path t ttl s now :
  ca_ok ca → ca_valid ca now → issued_to ca path t ttl s →
  x509_Verify (TrustBundle ca) [] now (sv_cert s) = Ok () ↔ in_validity t ttl now.
Proof.
  intros Hca Hv (serial & p & id & Hid & Hi & _). destruct (IssueSVID_spec _ _ _ _ _ _ _ Hi) as (_ & _ & _ & Hval & Hs).
  rewrite Hval. apply (verify_root _ _ _ _ (ca_cert ca)); [by left|apply Hca|by apply Hs|done].
Qed.

Lemma issued_uris ca path t ttl s :
  issued_to ca path t ttl s → ∃ id, spiffeid_FromPath (ca_trustDomain ca) path = Ok id ∧ tm_URIs (cert_fields (sv_cert s)) = [spiffeid_URL id].
Proof. intros (serial & p & id & Hid & Hi & _). exists id. split; [done|]. by destruct (IssueSVID_spec _ _ _ _ _ _ _ Hi) as (_ & _ & ? & _). Qed.

Lemma expect_member ca path id : spiffeid_FromPath (ca_trustDomain ca) path = Ok id → MatchMemberOf (ca_trustDomain ca) id = Ok ().
Proof. intros ->%FromPath_Ok. unfold MatchMemberOf, MemberOf. by rewrite bool_decide_eq_true_2. Qed.

(** The server's check of an issued certificate. *)
Lemma check_client_issued ca path t ttl s0 s now :
  ca_ok ca → ca_valid ca now → issued_to ca path t ttl s → sv_bundle s0 = TrustBundle ca →
  (in_validity t ttl now ∧ check_client (ServerTLSConfig s0) now [cert_Raw (sv_cert s)] =
     Ok [[MkCertificate (tm_URIs (cert_fields (sv_cert s)))]]) ∨
  (¬ in_validity t ttl now ∧ ¬ is_Ok (check_client (ServerTLSConfig s0) now [cert_Raw (sv_cert s)])).
Proof.
  intros Hca Hv Hs Hb. pose proof (issued_verify _ _ _ _ _ _ Hca Hv Hs) as Hver. unfold check_client. simpl. rewrite Hb, parse_raw. simpl.
  destruct (x509_Verify _ _ _ _) as [[]|e|]; simpl.
  - left. split; [by apply Hver|done].
  - right. split; [by intros H%Hver|]. by intros [? ?].
  - right. split; [by intros H%Hver|]. by intros [? ?].
Qed.

(** The outcome of a handshake between two identities of the authority; the
    configurations may come from earlier versions of them. *)
Lemma handshake_issued ca cpath ct cttl c0 c spath st sttl s0 s now :
  ca_ok ca → ca_valid ca now → issued_to ca cpath ct cttl c → issued_to ca spath st sttl s →
  sv_bundle c0 = TrustBundle ca → sv_bundle s0 = TrustBundle ca →
  let run := handshake (ClientTLSConfig c0 (MatchMemberOf (ca_trustDomain ca))) (Some c) (ServerTLSConfig s0) s now in
  (in_validity ct cttl now → in_validity st sttl now →
     run = Ok (Some (TLSInfo [[MkCertificate (tm_URIs (cert_fields (sv_cert c)))]]))) ∧
  (is_Ok run → in_validity ct cttl now ∧ in_validity st sttl now).
Proof.
  intros Hca Hv Hc Hs Hcb Hsb run.
  assert (check_server (ClientTLSConfig c0 (MatchMemberOf (ca_trustDomain ca))) now [cert_Raw (sv_cert s)] = Ok () ↔ in_validity st sttl now) as Hserver.
  { destruct Hs as (serial & p & id & Hid & Hi & _). 
    change (check_server _ now ?l) with (verifyPeerSPIFFE (sv_bundle c0) (MatchMemberOf (ca_trustDomain ca)) now l).
    rewrite Hcb, (issued_accepted _ _ _ _ _ _ _ _ _ now Hca Hv Hid Hi). by rewrite (expect_member _ _ _ Hid); naive_solver. }
  unfold run, handshake. cbn [sc_GetCertificate ServerTLSConfig cc_GetClientCertificate ClientTLSConfig]. simpl.
  fold (ClientTLSConfig c0 (MatchMemberOf (ca_trustDomain ca))).
  change (MkServerConfig VersionTLS13 tlsCertificate VerifyClientCertIfGiven (sv_bundle s0)) with (ServerTLSConfig s0).
  destruct (check_client_issued ca cpath ct cttl s0 c now Hca Hv Hc Hsb) as [[Hin Hok]|[Hout Hno]]; split.
  - intros _ Hst. by rewrite (proj2 Hserver Hst), Hok.
  - destruct (check_server _ _ _) as [[]| |]; simpl; [|by intros [? ?]..]. intros _. split; [done|by apply Hserver].
  - done.
  - destruct (check_server _ _ _) as [[]| |]; simpl; [|by intros [? ?]..].
    destruct (check_client _ _ _); simpl; [|by intros [? ?]..]. intros _. destruct Hno. by eexists.
Qed.

(** Mutual authentication.  Two identities of one authority connect exactly while
    both certificates are valid, and then the interceptor of the server is told the
    identity of the caller.  The configurations made at the start serve every later
    version of the identities: rotating needs no new connection settings. *)
Theorem mutual_tls ca cpath ct cttl c0 c spath st sttl s0 s now :
  ca_ok ca → ca_valid ca now → issued_to ca cpath ct cttl c → issued_to ca spath st sttl s →
  sv_bundle c0 = TrustBundle ca → sv_bundle s0 = TrustBundle ca →
  let run := handshake (ClientTLSConfig c0 (MatchMemberOf (ca_trustDomain ca))) (Some c) (ServerTLSConfig s0) s now in
  (is_Ok run ↔ in_validity ct cttl now ∧ in_validity st sttl now) ∧
  (∀ ctx, run = Ok ctx → PeerSPIFFEID ctx = Ok (MkID (ca_trustDomain ca) cpath)).
Proof.
  intros Hca Hv Hc Hs Hcb Hsb run.
  destruct (handshake_issued _ _ _ _ _ _ _ _ _ _ _ _ Hca Hv Hc Hs Hcb Hsb) as [Hrun Hval].
  split; [split; [done|intros []; eexists; by apply Hrun]|].
  intros ctx Hctx. destruct Hval as [H1 H2]; [by eexists|]. unfold run in Hctx. rewrite (Hrun H1 H2) in Hctx. injection Hctx as <-.
  destruct (issued_uris _ _ _ _ _ Hc) as (id & Hid & ->). simpl. rewrite (FromURI_URL _ _ _ Hid). by rewrite (FromPath_Ok _ _ _ Hid).
Qed.

(** A caller without an identity is let in by the handshake, so that it can enrol,
    and is turned away by the interceptor from everything else. *)
Theorem anonymous_can_only_enrol {S A} s0 s now expect authz method (handler : M S A) w :
  handshake bootstrapTLS None (ServerTLSConfig s0) s now = Ok (Some (TLSInfo [])) ∧
  AuthInterceptor expect authz (Some (TLSInfo [])) method handler w =
    if bool_decide (method = "/nimbuscore.v1.IdentityService/RequestSVID") then handler w
    else (Err (Status Unauthenticated "peer identity"), w).
Proof.
  split; [done|]. unfold AuthInterceptor, unauthenticatedMethods. rewrite (bool_decide_ext _ _ (list_elem_of_singleton method _)).
  by case_bool_decide.
Qed.

(** Enrolling does not authenticate the server: whatever certificate it presents,
    the handshake succeeds and the join token is sent to it. *)
Theorem enrolment_trusts_any_server s0 s now : check_server bootstrapTLS now [cert_Raw (sv_cert s)] = Ok () ∧
  ∃ ctx, handshake bootstrapTLS None (ServerTLSConfig s0) s now = Ok ctx.
Proof. split; [done|]. by eexists. Qed.

(** *** From enrolment to authorisation *)

Lemma request_issued svc serial now token csrDer name role resp :
  RequestSVID svc serial now token csrDer name role = Ok resp →
  ∃ path p id, role_path role name = Some path ∧ spiffeid_FromPath (ca_trustDomain (is_ca svc)) path = Ok id ∧
    IssueSVID (is_ca svc) serial now p id (is_svidTTL svc) = Ok (rs_Cert resp) ∧ rs_TrustBundle resp = ca_cert (is_ca svc).
Proof.
  unfold RequestSVID. case_bool_decide; [|done]. case_bool_decide; [done|]. simpl negb. cbv iota.
  intros (req & _ & H')%result_bind_Ok. apply result_bind_Ok in H' as (u & _ & H').
  destruct (csr_ECDSA req) as [p|]; [|done]. destruct (role_path role name) as [path|]; [|done].
  apply result_bind_Ok in H' as (id & Hid & H'). apply result_bind_Ok in H' as (c & Hc & H'). injection H' as <-.
  apply status_result_Ok in Hid, Hc. by exists path, p, id.
Qed.

Lemma enrolled_issued svc serial t gen token name role svid dek :
  Enroll gen (RequestSVID svc serial t) token name role = Ok (svid, dek) →
  ∃ path, role_path role name = Some path ∧ issued_to (is_ca svc) path t (is_svidTTL svc) svid.
Proof.
  unfold Enroll. intros ([csrDER key] & _ & H)%result_bind_Ok. apply result_bind_Ok in H as (resp & Hr & H).
  apply wrap_result_Ok in Hr. rewrite !parse_raw in H. simpl in H. injection H as <- _.
  destruct (request_issued _ _ _ _ _ _ _ _ Hr) as (path & p & id & Hpath & Hid & Hi & Hb).
  exists path. split; [done|]. exists serial, p, id. simpl. by rewrite Hb.
Qed.

(** What a role may do. *)
Definition role_allows (role : SVIDRole) (r v : string) : bool :=
  match role with
  | SVID_ROLE_NODE => rules_allow node_rules r v
  | SVID_ROLE_CLIENT => rules_allow client_rules r v
  | SVID_ROLE_CONTROL_PLANE => true
  | SVID_ROLE_UNSPECIFIED => false
  end.

Lemma role_path_allows role name path r v : role_path role name = Some path → Allow default_authorizer path r v = role_allows role r v.
Proof. destruct role; simpl; intros; simplify_eq; [apply default_allow_node|apply default_allow_control_plane|apply default_allow_client]. Qed.

End Correct.

(** ** Examples *)

Module DemoTls.
Import IdentityDemo.

Definition now0 : Z := 100 * day + Minute.

(** A node that has enrolled, and the server. *)
Definition enrolled : result (SVID * option bytes) :=
  Enroll (Ok 11%nat) (RequestSVID svc0 (Ok 3) (100 * day)) "token" "n1" SVID_ROLE_NODE.
Definition node_svid : SVID := match enrolled with Ok (s, _) => s | _ => svid0 end.

Lemma enrolled_eq : enrolled = Ok (node_svid, None).
Proof. reflexivity. Qed.

Lemma svid0_issued : issued_to ca0 "/control-plane/cp-1" (100 * day) 0 svid0.
Proof. exists (Ok 2), 9%nat, id0. split_and!; reflexivity. Qed.

Lemma node_issued : issued_to ca0 "/node/n1" (100 * day) 0 node_svid.
Proof. exists (Ok 3), 11%nat, (MkID "cluster" "/node/n1"). split_and!; reflexivity. Qed.

Lemma ca0_ok : ca_ok ca0.
Proof. by split. Qed.
Lemma ca0_valid : ca_valid ca0 now0.
Proof. by split. Qed.

Lemma mutual_tls_witness :
  ∃ ctx, handshake (ClientTLSConfig node_svid (MatchMemberOf "cluster")) (Some node_svid) (ServerTLSConfig svid0) svid0 now0 = Ok ctx ∧
    PeerSPIFFEID ctx = Ok (MkID "cluster" "/node/n1").
Proof.
  destruct (mutual_tls ca0 "/node/n1" (100 * day) 0 node_svid node_svid "/control-plane/cp-1" (100 * day) 0 svid0 svid0 now0
    ca0_ok ca0_valid node_issued svid0_issued eq_refl eq_refl) as [Hok Hid].
  destruct (proj2 Hok) as [ctx Hctx]; [split; split; done|]. exists ctx. split; [exact Hctx|]. exact (Hid ctx Hctx).
Defined.

End DemoTls.
