(* ===== verification/Telemetry.v ===== *)
(** * Telemetry: setting up and shutting down the exporters

    internal/telemetry/telemetry.go, over the parameter [Otel]: the constructors of
    the OpenTelemetry exporters and providers, the global providers, and the
    shutdown of a provider. *)

From stdpp Require Import gmap strings list.
From Stdlib Require Import ZArith Lia.
From S2P Require Import Prelude.

(** Exporters and providers are handles; a provider owns its exporter. *)
Class Otel (E : Type) := {
  stdouttrace_New : E → (error + Z) * E;
  stdoutmetric_New : E → (error + Z) * E;
  otlptracegrpc_New : string → E → (error + Z) * E;
  otlpmetricgrpc_New : string → E → (error + Z) * E;
  sdktrace_NewTracerProvider : Z → string → E → Z * E;
  sdkmetric_NewMeterProvider : Z → string → E → Z * E;
  otel_SetTracerProvider : Z → E → E;
  otel_SetMeterProvider : Z → E → E;
  TracerProvider_Shutdown : Z → E → option error * E;
  MeterProvider_Shutdown : Z → E → option error * E;
}.

Section Telemetry.
Context {E : Type} {OT : Otel E}.

Record Config := MkConfig { tel_ServiceName : string; tel_Exporter : string; tel_OTLPEndpoint : string }.

(** The providers, [None] for the ones that do nothing, which also have nothing to shut down. *)
Record Provider := MkProvider { tel_TracerProvider : option Z; tel_MeterProvider : option Z }.

(** The part of setupStdout and setupOTLP after the exporters are made. *)
Definition install (serviceName : string) (traceExporter metricExporter : Z) (s : E) : Provider * E :=
  let '(tp, s) := sdktrace_NewTracerProvider traceExporter serviceName s in
  let '(mp, s) := sdkmetric_NewMeterProvider metricExporter serviceName s in
  let s := otel_SetTracerProvider tp s in
  let s := otel_SetMeterProvider mp s in
  (MkProvider (Some tp) (Some mp), s).

Definition setup_with (newTrace newMetric : E → (error + Z) * E) (what : string) (cfg : Config) (s : E) : (error + Provider) * E :=
  match newTrace s with
  | (inl e, s) => (inl (Wrapf ("telemetry: " +:+ what +:+ " trace exporter") e), s)
  | (inr t, s) =>
    match newMetric s with
    | (inl e, s) => (inl (Wrapf ("telemetry: " +:+ what +:+ " metric exporter") e), s)
    | (inr m, s) => let '(p, s) := install (tel_ServiceName cfg) t m s in (inr p, s)
    end
  end.

Definition setupStdout (cfg : Config) : E → (error + Provider) * E := setup_with stdouttrace_New stdoutmetric_New "stdout" cfg.

Definition setupOTLP (cfg : Config) : E → (error + Provider) * E :=
  setup_with (otlptracegrpc_New (tel_OTLPEndpoint cfg)) (otlpmetricgrpc_New (tel_OTLPEndpoint cfg)) "otlp" cfg.

Definition Setup (cfg : Config) (s : E) : (error + Provider) * E :=
  if bool_decide (tel_Exporter cfg = "") || bool_decide (tel_Exporter cfg = "none") then (inr (MkProvider None None), s)
  else if bool_decide (tel_Exporter cfg = "stdout") then setupStdout cfg s
  else if bool_decide (tel_Exporter cfg = "otlp") then setupOTLP cfg s
  else (inl (Errorf "telemetry: unknown exporter"), s).

Definition Shutdown (p : Provider) (s : E) : option error * E :=
  match tel_TracerProvider p, tel_MeterProvider p with
  | Some tp, Some mp =>
      match TracerProvider_Shutdown tp s with
      | (Some e, s) => (Some e, s)
      | (None, s) => MeterProvider_Shutdown mp s
      end
  | _, _ => (None, s)
  end.
End Telemetry.

(** What the library does with the exporters that are open and with the globals. *)
Class OtelLaws (E : Type) {OT : Otel E} := {
  open_exporters : E → gset Z;
  globals : E → option Z * option Z;
  new_exporter : ∀ ep f, f ∈ [stdouttrace_New; stdoutmetric_New; otlptracegrpc_New ep; otlpmetricgrpc_New ep] → ∀ s r s', f s = (r, s') →
    globals s' = globals s ∧
    match r with inl _ => open_exporters s' = open_exporters s
               | inr h => h ∉ open_exporters s ∧ (open_exporters s' = {[h]} ∪ open_exporters s) end;
  new_tracer : ∀ x n s p s', sdktrace_NewTracerProvider x n s = (p, s') → globals s' = globals s ∧ open_exporters s' = open_exporters s;
  new_meter : ∀ x n s p s', sdkmetric_NewMeterProvider x n s = (p, s') → globals s' = globals s ∧ open_exporters s' = open_exporters s;
  set_tracer : ∀ p s, globals (otel_SetTracerProvider p s) = (Some p, (globals s).2) ∧ open_exporters (otel_SetTracerProvider p s) = open_exporters s;
  set_meter : ∀ p s, globals (otel_SetMeterProvider p s) = ((globals s).1, Some p) ∧ open_exporters (otel_SetMeterProvider p s) = open_exporters s;
}.

Section Correct.
Context {E : Type} {OT : Otel E} {OL : OtelLaws E}.

Lemma install_spec name t m s p s' :
  install name t m s = (p, s') → globals s' = (tel_TracerProvider p, tel_MeterProvider p) ∧ open_exporters s' = open_exporters s.
Proof.
  unfold install. destruct (sdktrace_NewTracerProvider _ _ _) as [tp s1] eqn:H1. destruct (sdkmetric_NewMeterProvider _ _ _) as [mp s2] eqn:H2.
  intros [= <- <-]. destruct (new_tracer _ _ _ _ _ H1) as [Hg1 Ho1], (new_meter _ _ _ _ _ H2) as [Hg2 Ho2].
  destruct (set_tracer tp s2) as [Hg3 Ho3], (set_meter mp (otel_SetTracerProvider tp s2)) as [Hg4 Ho4]. simpl.
  rewrite Hg4, Hg3, Ho4, Ho3, Ho2, Ho1. done.
Qed.

Lemma setup_with_spec ft fm what cfg s r s' :
  (∃ ep, ft ∈ [stdouttrace_New; stdoutmetric_New; otlptracegrpc_New ep; otlpmetricgrpc_New ep]) →
  (∃ ep, fm ∈ [stdouttrace_New; stdoutmetric_New; otlptracegrpc_New ep; otlpmetricgrpc_New ep]) →
  setup_with ft fm what cfg s = (r, s') →
  match r with
  | inl _ => globals s' = globals s ∧
      (open_exporters s' = open_exporters s ∨ ∃ t, t ∉ open_exporters s ∧ (open_exporters s' = {[t]} ∪ open_exporters s))
  | inr p => globals s' = (tel_TracerProvider p, tel_MeterProvider p)
  end.
Proof.
  intros [ep1 H1] [ep2 H2]. unfold setup_with. destruct (ft s) as [[e|t] s1] eqn:Ht; destruct (new_exporter _ _ H1 _ _ _ Ht) as [Hg1 Ho1].
  { intros [= <- <-]. split; [done|by left]. }
  destruct (fm s1) as [[e|m] s2] eqn:Hm; destruct (new_exporter _ _ H2 _ _ _ Hm) as [Hg2 Ho2].
  { intros [= <- <-]. rewrite Hg2, Hg1, Ho2. split; [done|]. right. by exists t. }
  destruct (install _ t m s2) as [p s3] eqn:Hi. intros [= <- <-]. by destruct (install_spec _ _ _ _ _ _ Hi).
Qed.

(** Telemetry is set up completely or not at all: when Setup returns a provider, the
    global tracer and meter are its own (and untouched if it does nothing); when it
    returns an error, the globals are as they were.  What it does not undo is an
    exporter: after the metric exporter could not be made, the trace exporter stays
    open. *)
Theorem setup_all_or_nothing cfg s r s' :
  Setup cfg s = (r, s') →
  match r with
  | inl _ => globals s' = globals s ∧
      (open_exporters s' = open_exporters s ∨ ∃ t, t ∉ open_exporters s ∧ (open_exporters s' = {[t]} ∪ open_exporters s))
  | inr (MkProvider None None) => s' = s ∧ (tel_Exporter cfg = "" ∨ tel_Exporter cfg = "none")
  | inr p => globals s' = (tel_TracerProvider p, tel_MeterProvider p)
  end.
Proof.
  unfold Setup. case_bool_decide as H1; [intros [= <- <-]; by eauto|]. case_bool_decide as H2; [intros [= <- <-]; by eauto|]. simpl.
  assert (∀ ft fm what, (∃ ep, ft ∈ [stdouttrace_New; stdoutmetric_New; otlptracegrpc_New ep; otlpmetricgrpc_New ep]) →
    (∃ ep, fm ∈ [stdouttrace_New; stdoutmetric_New; otlptracegrpc_New ep; otlpmetricgrpc_New ep]) →
    setup_with ft fm what cfg s = (r, s') → match r with inr p => p ≠ MkProvider None None | _ => True end) as Hreal.
  { intros ft fm what _ _. unfold setup_with, install. repeat case_match; intros; simplify_eq; done. }
  assert (∃ ep : string, stdouttrace_New (E := E) ∈ [stdouttrace_New; stdoutmetric_New; otlptracegrpc_New ep; otlpmetricgrpc_New ep]) as F1 by (exists ""; left).
  assert (∃ ep : string, stdoutmetric_New (E := E) ∈ [stdouttrace_New; stdoutmetric_New; otlptracegrpc_New ep; otlpmetricgrpc_New ep]) as F2 by (exists ""; right; left).
  assert (∃ ep, otlptracegrpc_New (tel_OTLPEndpoint cfg) ∈ [stdouttrace_New (E := E); stdoutmetric_New; otlptracegrpc_New ep; otlpmetricgrpc_New ep]) as F3 by (eexists; do 2 right; left).
  assert (∃ ep, otlpmetricgrpc_New (tel_OTLPEndpoint cfg) ∈ [stdouttrace_New (E := E); stdoutmetric_New; otlptracegrpc_New ep; otlpmetricgrpc_New ep]) as F4 by (eexists; do 3 right; left).
  case_bool_decide; [|case_bool_decide].
  - intros Hs. pose proof (setup_with_spec _ _ _ _ _ _ _ F1 F2 Hs) as Hspec. pose proof (Hreal _ _ _ F1 F2 Hs). repeat case_match; done.
  - intros Hs. pose proof (setup_with_spec _ _ _ _ _ _ _ F3 F4 Hs) as Hspec. pose proof (Hreal _ _ _ F3 F4 Hs). repeat case_match; done.
  - intros [= <- <-]. split; [done|by left].
Qed.

(** Shutting down flushes the meter only after the tracer: when the tracer cannot be
    shut down, the error is returned and the meter is left as it is. *)
Theorem shutdown_stops_at_tracer tp mp s e s' :
  TracerProvider_Shutdown tp s = (Some e, s') → Shutdown (MkProvider (Some tp) (Some mp)) s = (Some e, s').
Proof. unfold Shutdown. simpl. by intros ->. Qed.
End Correct.

(** ** Examples *)

Module DemoTelemetry.

(** The open exporters, the globals and the next handle; no metric exporter can be made for the collector [down]. *)
Abbreviation sdk := (gset Z * (option Z * option Z) * Z)%type.

Definition fresh (s : sdk) : (error + Z) * sdk :=
  let '(o, g, n) := s in let h := set_fold Z.max n o in (inr (h + 1)%Z, ({[(h + 1)%Z]} ∪ o, g, n)).

#[export] Instance demo_otel : Otel sdk := {|
  stdouttrace_New := fresh;
  stdoutmetric_New := fresh;
  otlptracegrpc_New _ := fresh;
  otlpmetricgrpc_New ep s := if bool_decide (ep = "down") then (inl (Errorf "unavailable"), s) else fresh s;
  sdktrace_NewTracerProvider x _ s := (x, s);
  sdkmetric_NewMeterProvider x _ s := (x, s);
  otel_SetTracerProvider p s := let '(o, g, n) := s in (o, (Some p, g.2), n);
  otel_SetMeterProvider p s := let '(o, g, n) := s in (o, (g.1, Some p), n);
  TracerProvider_Shutdown _ s := (Some (Errorf "deadline exceeded"), s);
  MeterProvider_Shutdown p s := let '(o, g, n) := s in (None, (o ∖ {[p]}, g, n));
|}.

Lemma max_above (o : gset Z) n x : x ∈ o → (x ≤ set_fold Z.max n o)%Z.
Proof.
  revert x. refine (set_fold_ind_L (λ b (X : gset Z), ∀ x, x ∈ X → (x ≤ b)%Z) Z.max n _ _ o).
  - intros x. by rewrite elem_of_empty.
  - intros x X b Hx IH y [->%elem_of_singleton|Hy]%elem_of_union; [lia|]. specialize (IH y Hy). lia.
Qed.

#[export] Program Instance demo_otel_laws : OtelLaws sdk := {| open_exporters s := s.1.1; globals s := s.1.2 |}.
Next Obligation.
  assert (∀ s : sdk, ∀ r s', fresh s = (r, s') → s'.1.2 = s.1.2 ∧
    match r with inl _ => s'.1.1 = s.1.1 | inr h => h ∉ s.1.1 ∧ s'.1.1 = ({[h]} ∪ s.1.1) end) as Hf.
  { intros [[o g] n] r s'. unfold fresh. intros [= <- <-]. simpl. split_and!; [done| |done]. intros H%(max_above _ n). lia. }
  intros ep f Hin s r s' Hrun. rewrite !elem_of_cons, elem_of_nil in Hin.
  destruct Hin as [->|[->|[->|[->|[]]]]]; simpl in Hrun; [by apply Hf..|].
  case_bool_decide; [by injection Hrun as <- <-|by apply Hf].
Qed.
Next Obligation. intros x nm s p s' [= <- <-]. done. Qed.
Next Obligation. intros x nm s p s' [= <- <-]. done. Qed.
Next Obligation. by intros p [[o g] n]. Qed.
Next Obligation. by intros p [[o g] n]. Qed.

Definition off : sdk := (∅, (None, None), 0%Z).

(** A collector that refuses the metric exporter leaves the trace exporter open. *)
Lemma setup_all_or_nothing_witness :
  ∃ e s', Setup (MkConfig "nimbus-agent" "otlp" "down") off = (inl e, s') ∧ globals s' = (None, None) ∧ open_exporters s' = {[1%Z]}.
Proof.
  destruct (Setup (MkConfig "nimbus-agent" "otlp" "down") off) as [r s'] eqn:H.
  pose proof (setup_all_or_nothing (MkConfig "nimbus-agent" "otlp" "down") off r s' H) as Hs.
  vm_compute in H. injection H as <- <-. eexists _, _. split; [reflexivity|]. split; [apply Hs|reflexivity].
Defined.

Lemma shutdown_stops_at_tracer_witness : ∃ e, Shutdown (MkProvider (Some 1%Z) (Some 2%Z)) off = (Some e, off).
Proof. eexists. apply shutdown_stops_at_tracer. reflexivity. Defined.
End DemoTelemetry.
