(* ===== verification/Boot.v ===== *)
(** * Boot: how the two servers start and stop

    cmd/nimbus-apiserver/main.go and cmd/nimbus-agent/main.go: the checks of the
    flags, the order in which the parts are made, what is wired to what, which
    goroutines run, and what a [log.Fatal] or a return leaves behind.  The parts are
    those of the other files. *)

From stdpp Require Import gmap strings list.
From Stdlib Require Import Ascii ZArith Lia Strings.Byte.
From S2P Require Import Prelude Api Codec Store RaftStore Registry Cluster Scheduler Scheduling Deployment Float Hpa Controllers Admission Rbac Services.
From S2P Require Import ServicesCorrect GitOps Text Path Http Hostpath Finops Dashboard Identity Imagesign Cli Mesh Node Rotation Telemetry Tls.
From S2P Require Import Agent.

Local Open Scope Z_scope.

(** ** A process that starts *)

(** A main function goes on, ends in [log.Fatal], which exits at once, or panics. *)
Inductive outcome (A : Type) := Go (a : A) | Fatal (msg : string) (e : error) | Crash.
Arguments Go {A} a.
Arguments Fatal {A} msg e.
Arguments Crash {A}.

(** What main defers, and the goroutines it starts. *)
Inductive deferred := DStopSignals | DShutdownTelemetry (p : Provider) | DShutdownStore | DCloseConn.
Inductive goroutine := GSelfIssue (path : string) | GReenroll (role : SVIDRole) | GLeader | GDashboard | GHeartbeat | GLogServer | GFilesServer.

(** The machine, the deferred calls (the last one first) and the goroutines. *)
Record process (E : Type) := MkProcess { p_machine : E; p_deferred : list deferred; p_goroutines : list goroutine }.
Arguments MkProcess {E} _ _ _.
Arguments p_machine {E} _.
Arguments p_deferred {E} _.
Arguments p_goroutines {E} _.

Definition boot (E A : Type) : Type := process E → outcome A * process E.

Section Monad.
Context {E : Type}.

#[export] Instance boot_ret : MRet (boot E) := λ A a p, (Go a, p).
#[export] Instance boot_bind : MBind (boot E) := λ A B f m p,
  match m p with (Go a, p) => f a p | (Fatal s e, p) => (Fatal s e, p) | (Crash, p) => (Crash, p) end.

(** [if err != nil { log.Fatalf(msg) }] *)
Definition must {A} (msg : string) (r : result A) : boot E A := λ p,
  match r with Ok a => (Go a, p) | Err e => (Fatal msg e, p) | Panic => (Crash, p) end.
Definition must_run {A} (msg : string) (f : E → result A * E) : boot E A := λ p,
  let '(r, s) := f (p_machine p) in must msg r (MkProcess s (p_deferred p) (p_goroutines p)).
(** [if bad { log.Fatal(msg) }] *)
Definition fatal_if (bad : bool) (msg : string) : boot E unit := λ p,
  if bad then (Fatal msg (Errorf msg), p) else (Go (), p).
Definition defer (d : deferred) : boot E unit := λ p, (Go (), MkProcess (p_machine p) (d :: p_deferred p) (p_goroutines p)).
Definition go (g : goroutine) : boot E unit := λ p, (Go (), MkProcess (p_machine p) (p_deferred p) (p_goroutines p ++ [g])).

(** What runs when main is over: the deferred calls on a return or a panic, none
    of them after [log.Fatal], which is [os.Exit]. *)
Definition at_exit {A} (r : outcome A * process E) : list deferred :=
  match r.1 with Fatal _ _ => [] | _ => p_deferred r.2 end.

Definition boot_of (s : E) : process E := MkProcess s [] [].
End Monad.

(** ** nimbus-apiserver *)

Record flags := MkFlags {
  f_nodeID : string;
  f_apiAddr : string;
  f_raftAddr : string;
  f_dataDir : string;
  f_trustDomain : string;
  f_bootstrap : bool;
  f_joinAddr : string;
  f_joinToken : string;
  f_imagePubKeyFile : string;
  f_imageTrustFile : string;
  f_insecureSkipImageVerification : bool;
  f_allowedCapabilities : string;
  f_cpuQuotaMillis : Z;
  f_memQuotaBytes : Z;
  f_otelExporter : string;
  f_otlpEndpoint : string;
  f_csiHostpathDir : string;
  f_secretKeyRotationInterval : Z;
  f_gitOpsRepoURL : string;
  f_gitOpsBranch : string;
  f_gitOpsPath : string;
  f_gitOpsWorkDir : string;
  f_gitOpsSyncInterval : Z;
  f_costCPUCoreHour : float64;
  f_costMemoryGBHour : float64;
  f_dashboardAddr : string;
  f_dashboardUsername : string;
  f_dashboardPassword : string;
  f_agentLogPort : Z;
  f_agentFilesPort : Z;
}.

(** The flags without arguments on a host. *)
Definition default_flags (host : result string) : flags :=
  MkFlags (defaultNodeID host) ":7443" "127.0.0.1:7946" "./data" "nimbuscore.local" false "" "" "" "" false "" 0 0
    "none" "127.0.0.1:4317" "./data/volumes" (24 * 3600 * 1000000000) "" "main" "" "./data/gitops" (30 * 1000000000)
    (CPUCoreHour DefaultCostModel) (MemoryGBHour DefaultCostModel) ":8080" "admin" "" 10250 10251.

Inductive reconciler :=
  | RDeployment (r : DeploymentReconciler)
  | RPod (r : PodReconciler)
  | RNodeHealth (r : NodeHealthReconciler)
  | RAutoscaler (r : HorizontalAutoscaler)
  | RKeyRotation (r : KeyRotationReconciler)
  | RGitOps (r : GitReconciler).

Section ApiServer.
Context {X : X509} {SP : Spiffe} {SI : SpiffeIDs} {BC : BootstrapCodec} {EC : Ecdsa} {TC : TrustCodec} {MC : MetaCodec}.
Context {RE : RaftEnv} {CE : CelEnv} {Sh : Shuffle} `{AM : !ApiMessages, MM : !MoreMessages}.
Context {E : Type} {O : OS E} {OT : Otel E}.

(** What the environment answers to one start. *)
Record boot_env := MkBootEnv {
  be_request : string → der → string → SVIDRole → result RequestSVIDResponse;  (** RequestSVID at -join-api-addr *)
  be_genCA : result priv;
  be_gen : result priv;
  be_serialCA : result Z;
  be_serial : result Z;
  be_random : result bytes;
  be_now : Z;
  be_newClient : string → result unit;  (** grpc.NewClient *)
  be_JoinRaft : client_config → string → string → result unit;  (** the call JoinRaft over a connection *)
  be_policyEngine : result unit;  (** the CEL environment *)
  be_csi : Driver → string → Z → M RaftStore Z;  (** CreateVolume of the driver, as the dashboard calls it *)
  be_static : result unit;  (** the embedded static files *)
  be_listen : string → result unit;
  be_serve : result unit;  (** [grpc.Server.Serve], which ends with the context *)
}.

(** joinRaftCluster: the connection, and the call within thirty seconds. *)
Definition joinRaftCluster (env : boot_env) (svid : SVID) (expect : ID → result unit) (joinAddr nodeID raftAddr : string) : result unit :=
  _ ← be_newClient env joinAddr;
  be_JoinRaft env (ClientTLSConfig svid expect) nodeID raftAddr.

(** A server that is ready to serve. *)
Record apiserver := MkApiServer {
  a_svid : SVID;
  a_store : RaftStore;
  a_server : Server RaftStore;
  a_services : list string;
  a_chain : list (Validator RaftStore CE);
  a_identity : option identityService;
  a_images : option pub;
  a_manager : Manager reconciler;
  a_dashboard : Dashboard.Config (S := RaftStore);
}.

(** The services that are always registered, in the order of main, and the two that are not. *)
Definition core_services : list string :=
  ["PodService"; "NodeService"; "DeploymentService"; "AdminService"; "VolumeService"; "NetworkPolicyService"; "ServiceService";
   "NamespaceService"; "PolicyService"; "SecretService"; "BackupService"; "FederationService"; "FinOpsService"].
Definition image_service : string := "ImageRegistryService".
Definition identity_service : string := "IdentityService".

Definition registered (images ca : bool) : list string :=
  core_services ++ (if images then [image_service] else []) ++ (if ca then [identity_service] else []).

(** The reconcilers as main registers them. *)
Definition build_manager (f : flags) : Manager reconciler * option GitReconciler :=
  let mgr := NewManager in
  let mgr := Register (RDeployment (NewDeploymentReconciler deploymentsR podsR nodesR volumesR 0)) mgr in
  let mgr := Register (RPod (NewPodReconciler podsR nodesR 0)) mgr in
  let mgr := Register (RNodeHealth (NewNodeHealthReconciler nodesR 0 0)) mgr in
  let mgr := Register (RAutoscaler (NewHorizontalAutoscaler deploymentsR podsR nodesR 0)) mgr in
  let mgr := Register (RKeyRotation (NewKeyRotationReconciler (f_secretKeyRotationInterval f))) mgr in
  if bool_decide (f_gitOpsRepoURL f = "") then (mgr, None)
  else
    let git := NewReconciler (MkGitConfig (f_gitOpsRepoURL f) (f_gitOpsBranch f) (f_gitOpsPath f) (f_gitOpsWorkDir f))
                 deploymentsR (f_gitOpsSyncInterval f) in
    (Register (RGitOps git) mgr, Some git).

(** The admission chain as main builds it. *)
Definition build_chain (f : flags) (v : ImageVerifier) : list (Validator RaftStore CE) :=
  default_chain (splitCSV (f_allowedCapabilities f)) (server_Verify v)
    (Some (MkResourceList (f_cpuQuotaMillis f) (f_memQuotaBytes f) ∅)).

(** The dashboard as main configures it. *)
Definition build_dashboard (f : flags) (chain : list (Validator RaftStore CE)) (csi : string → Z → M RaftStore Z)
    (git : option GitReconciler) : Dashboard.Config (S := RaftStore) :=
  Dashboard.MkConfig chain csi git (MkCostModel (f_costCPUCoreHour f) (f_costMemoryGBHour f) ∅)
    (f_dashboardUsername f) (f_dashboardPassword f) (f_agentLogPort f) (f_agentFilesPort f).

(** main up to the call of Serve. *)
Definition apiserver_start (f : flags) (env : boot_env) : boot E apiserver :=
  _ ← fatal_if (bool_decide (f_joinToken f = "")) "apiserver: -join-token is required";
  _ ← fatal_if (negb (f_bootstrap f) && bool_decide (f_joinAddr f = "")) "apiserver: -join-api-addr is required unless -bootstrap is set";
  _ ← defer DStopSignals;
  otel ← must_run "apiserver: telemetry" (λ s,
    let '(r, s) := Setup (Telemetry.MkConfig "nimbus-apiserver" (f_otelExporter f) (f_otlpEndpoint f)) s in
    (match r with inl e => Err e | inr p => Ok p end, s));
  _ ← defer (DShutdownTelemetry otel);
  '(svid, ca, dek) ← must_run "apiserver" (loadOrBootstrapIdentity (f_bootstrap f) (be_request env) (be_genCA env) (be_gen env)
    (be_serialCA env) (be_serial env) (be_random env) (be_now env) (f_trustDomain f) (f_nodeID f) (f_joinToken f) (f_dataDir f));
  store ← must "apiserver: raft"
    (NewRaftStore (MkRaftConfig (f_nodeID f) (f_raftAddr f) (f_dataDir f) (f_bootstrap f) (default [] dek)));
  _ ← defer DShutdownStore;
  selfID ← must "apiserver" (SVID_ID svid);
  let expectMember := MatchMemberOf (id_TrustDomain selfID) in
  _ ← go (match ca with Some _ => GSelfIssue ("/control-plane/" +:+ f_nodeID f) | None => GReenroll SVID_ROLE_CONTROL_PLANE end);
  _ ← (if f_bootstrap f then mret ()
       else _ ← must "apiserver: join raft cluster" (joinRaftCluster env svid expectMember (f_joinAddr f) (f_nodeID f) (f_raftAddr f)); mret ());
  let srv := Tls.New (Tls.MkConfig RaftStore (f_apiAddr f) (Some (ServerTLSConfig svid))
               (Some (λ A, AuthInterceptor expectMember (NewAuthorizer DefaultRBACBindings)))) in
  _ ← must "apiserver: policy engine" (be_policyEngine env);
  '(verifier, pub) ← must_run "apiserver" (loadImageVerifier (f_imageTrustFile f) (f_imagePubKeyFile f) (f_insecureSkipImageVerification f));
  let chain := build_chain f verifier in
  csi ← must_run "apiserver: csi hostpath driver" (Hostpath.New (f_nodeID f) (f_csiHostpathDir f));
  let identity := (λ ca, MkIdentityService ca (f_joinToken f) DefaultSVIDTTL (default [] dek)) <$> ca in
  let '(mgr, git) := build_manager f in
  _ ← go GLeader;
  _ ← must "apiserver: dashboard" (be_static env);
  let dash := build_dashboard f chain (be_csi env csi) git in
  _ ← go GDashboard;
  mret (MkApiServer svid store srv (registered (bool_decide (is_Some pub)) (bool_decide (is_Some ca))) chain identity pub mgr dash).

(** Server.Serve: the listener, then the library until the context ends. *)
Definition Serve (env : boot_env) (srv : Server RaftStore) : result unit :=
  _ ← be_listen env (srv_addr RaftStore srv);
  be_serve env.

Definition apiserver_main (f : flags) (env : boot_env) : boot E apiserver :=
  a ← apiserver_start f env;
  _ ← must "apiserver" (Serve env (a_server a));
  mret a.
End ApiServer.

(** ** nimbus-agent *)

Record agent_flags := MkAgentFlags {
  af_nodeName : string;
  af_controlPlaneAddr : string;
  af_joinToken : string;
  af_cpuMillis : Z;
  af_memoryBytes : Z;
  af_accelerators : string;
  af_nodeIP : string;
  af_heartbeatInterval : Z;
  af_otelExporter : string;
  af_otlpEndpoint : string;
  af_logDir : string;
  af_logAddr : string;
  af_buildDir : string;
  af_buildkitAddr : string;
  af_volumesDir : string;
  af_filesAddr : string;
}.

(** The flags without arguments on a host; the two required ones are empty. *)
Definition default_agent_flags (host : result string) : agent_flags :=
  MkAgentFlags (defaultNodeID host) "" "" 2000 (Z.shiftl 2 30) "" "" (5 * 1000000000) "none" "127.0.0.1:4317"
    "./data/logs" ":10250" "./data/builds" "unix:///run/buildkit/buildkitd.sock" "./data/volumes" ":10251".

Section AgentMain.
Context {X : X509} {SP : Spiffe} {SI : SpiffeIDs}.
Context {E : Type} {OT : Otel E}.

Record agent_env := MkAgentEnv {
  ae_request : string → der → string → SVIDRole → result RequestSVIDResponse;
  ae_gen : result priv;
  ae_newClient : string → result unit;
  ae_detected : result string;  (** detectOutboundIP *)
  ae_CreateNode : client_config → Node → result unit;
  ae_now : Z;
  ae_Run : result unit;  (** [Agent.Run], which ends with the context *)
}.

Record node_agent := MkNodeAgent {
  na_svid : SVID;
  na_breaker : CircuitBreaker;
  na_node : Node;
  na_config : Agent.Config;
}.

(** main up to the call of Run. *)
Definition agent_start (f : agent_flags) (env : agent_env) : boot E node_agent :=
  _ ← fatal_if (bool_decide (af_controlPlaneAddr f = "") || bool_decide (af_joinToken f = ""))
        "agent: -control-plane-addr and -join-token are required";
  _ ← defer DStopSignals;
  otel ← must_run "agent: telemetry" (λ s,
    let '(r, s) := Setup (Telemetry.MkConfig "nimbus-agent" (af_otelExporter f) (af_otlpEndpoint f)) s in
    (match r with inl e => Err e | inr p => Ok p end, s));
  _ ← defer (DShutdownTelemetry otel);
  '(svid, _) ← must "agent: enroll" (Enroll (ae_gen env) (ae_request env) (af_joinToken f) (af_nodeName f) SVID_ROLE_NODE);
  selfID ← must "agent" (SVID_ID svid);
  _ ← go (GReenroll SVID_ROLE_NODE);
  let breaker := NewCircuitBreaker 5 (30 * 1000000000) in
  _ ← must "agent: dial control plane" (ae_newClient env (af_controlPlaneAddr f));
  _ ← defer DCloseConn;
  ip ← must "agent: detect node IP" (internal_ip (af_nodeIP f) (ae_detected env));
  accelerators ← must "agent" (parseAccelerators (af_accelerators f));
  let capacity := MkResourceList (af_cpuMillis f) (af_memoryBytes f) accelerators in
  let node := registered_node (af_nodeName f) ip capacity (ae_now env) in
  _ ← must "agent: register node"
        (ae_CreateNode env (ClientTLSConfig svid (MatchMemberOf (id_TrustDomain selfID))) node);
  _ ← go GHeartbeat;
  _ ← go GLogServer;
  _ ← go GFilesServer;
  mret (MkNodeAgent svid breaker node
    (Agent.MkConfig (af_nodeName f) ip (af_logDir f) (af_buildDir f) (af_buildkitAddr f) (af_volumesDir f) true)).

(** Run ends the process with an error unless the context was cancelled. *)
Definition agent_main (f : agent_flags) (env : agent_env) : boot E node_agent :=
  a ← agent_start f env;
  _ ← must "agent" (match ae_Run env with
                    | Err e => if errors_Is e ErrContextCanceled then Ok () else Err e
                    | r => r
                    end);
  mret a.
End AgentMain.

(** ** Correctness *)

Section Lemmas.
Context {E : Type}.

Lemma boot_bind_Go {A B} (m : boot E A) (f : A → boot E B) p b p' :
  (m ≫= f) p = (Go b, p') → ∃ a p1, m p = (Go a, p1) ∧ f a p1 = (Go b, p').
Proof. unfold mbind, boot_bind. destruct (m p) as [[a| |] p1]; intros H; [by exists a, p1|done..]. Qed.

Lemma boot_bind_Fatal {A B} (m : boot E A) (f : A → boot E B) p s e p' :
  (m ≫= f) p = (Fatal s e, p') → m p = (Fatal s e, p') ∨ ∃ a p1, m p = (Go a, p1) ∧ f a p1 = (Fatal s e, p').
Proof. unfold mbind, boot_bind. destruct (m p) as [[a| |] p1]; intros H; [right; by exists a, p1|left; by simplify_eq|done]. Qed.

Lemma must_Go {A} msg (r : result A) (p : process E) a p' : must msg r p = (Go a, p') → r = Ok a ∧ p' = p.
Proof. unfold must. destruct r; intros; by simplify_eq. Qed.

Lemma must_run_Go {A} msg (f : E → result A * E) (p : process E) a p' :
  must_run msg f p = (Go a, p') → f (p_machine p) = (Ok a, p_machine p') ∧ p_deferred p' = p_deferred p ∧ p_goroutines p' = p_goroutines p.
Proof. unfold must_run. destruct (f (p_machine p)) as [r s]. intros [-> ->]%must_Go. done. Qed.

Lemma fatal_if_Go bad msg (p : process E) u p' : fatal_if bad msg p = (Go u, p') → bad = false ∧ p' = p.
Proof. unfold fatal_if. destruct bad; intros; by simplify_eq. Qed.

Lemma defer_Go d (p : process E) u p' :
  defer d p = (Go u, p') → p_machine p' = p_machine p ∧ p_deferred p' = d :: p_deferred p ∧ p_goroutines p' = p_goroutines p.
Proof. intros [= <- <-]. done. Qed.

Lemma go_Go g (p : process E) u p' :
  go g p = (Go u, p') → p_machine p' = p_machine p ∧ p_deferred p' = p_deferred p ∧ p_goroutines p' = p_goroutines p ++ [g].
Proof. intros [= <- <-]. done. Qed.

Lemma ret_Go {A} (a b : A) (p p' : process E) : mret (M := boot E) a p = (Go b, p') → a = b ∧ p' = p.
Proof. intros [= <- <-]. done. Qed.
End Lemmas.

(** Takes a successful run apart, step by step. *)
Ltac boot_inv :=
  repeat match goal with
  | H : (_ ≫= _) _ = (Go _, _) |- _ => apply boot_bind_Go in H as (? & ? & ? & H)
  | H : must _ _ _ = (Go _, _) |- _ => apply must_Go in H as [? ->]
  | H : must_run _ _ _ = (Go _, _) |- _ => apply must_run_Go in H as (? & ? & ?)
  | H : fatal_if _ _ _ = (Go _, _) |- _ => apply fatal_if_Go in H as [? ->]
  | H : defer _ _ = (Go _, _) |- _ => apply defer_Go in H as (? & ? & ?)
  | H : go _ _ = (Go _, _) |- _ => apply go_Go in H as (? & ? & ?)
  | H : mret _ _ = (Go _, _) |- _ => apply ret_Go in H as [? ->]
  | H : (let '(_, _) := ?x in _) _ = (Go _, _) |- _ => destruct x eqn:?
  end.

Section ApiCorrect.
Context {X : X509} {SP : Spiffe} {SI : SpiffeIDs} {BC : BootstrapCodec} {EC : Ecdsa} {TC : TrustCodec} {MC : MetaCodec}.
Context {RE : RaftEnv} {CE : CelEnv} {Sh : Shuffle} `{AM : !ApiMessages, MM : !MoreMessages}.
Context {E : Type} {O : OS E} {OT : Otel E}.

Lemma trust_file_loaded path (s : E) tf s' : LoadTrustFile path s = (Ok tf, s') → ∃ m, tf = MkTrustFile (Some m).
Proof.
  unfold LoadTrustFile. destruct (os_ReadFile path s) as [[e|b] s1].
  - destruct (os_IsNotExist e); intros; simplify_eq; eauto.
  - destruct (trust_Unmarshal b) as [[[m|]]| |]; intros; simplify_eq/=; eauto.
Qed.

Lemma loadImageVerifier_Ok trustFile pubKeyFile insecure (s : E) v pub s' :
  loadImageVerifier trustFile pubKeyFile insecure s = (Ok (v, pub), s') →
  if insecure then v = allowAllVerifier ∧ pub = None
  else ∃ p m, v = TrustVerifier (NewKeyVerifier p (MkTrustFile (Some m))) ∧ pub = Some p.
Proof.
  unfold loadImageVerifier. destruct insecure; [by intros [= <- <-]|].
  destruct (_ || _); [done|]. destruct (os_ReadFile pubKeyFile s) as [[e|b] s1]; [done|].
  destruct (ParsePublicKey b) as [p| |]; [|done..]. destruct (LoadTrustFile trustFile s1) as [[tf| |] s2] eqn:Ht; [|done..].
  apply trust_file_loaded in Ht as [m ->]. intros [= <- <- _]. by eexists _, _.
Qed.

Lemma loadOrBootstrapIdentity_Ok bootstrap request genCA gen sCA sn random now td nodeID token dir (s : E) svid ca dek s' :
  loadOrBootstrapIdentity bootstrap request genCA gen sCA sn random now td nodeID token dir s = (Ok (svid, ca, dek), s') →
  bool_decide (is_Some ca) = bootstrap.
Proof.
  unfold loadOrBootstrapIdentity. destruct bootstrap; simpl.
  - destruct (bootstrapIdentity _ _ _ _ _ _ _ _ _ s) as [[[[? ?] ?]| |] s1]; intros; by simplify_eq.
  - intros H. destruct (Enroll _ _ _ _ _) as [[? ?]| |]; by simplify_eq.
Qed.

Lemma NewRaftStore_key cfg s : NewRaftStore cfg = Ok s → rs_encKey s = cfg_EncryptionKey cfg ∧ rs_prevEncKey s = [].
Proof. unfold NewRaftStore. case_decide; [done|]. case_decide; [done|]. destruct (raft_open cfg) as [[r data]| |]; intros; by simplify_eq/=. Qed.

Lemma join_Go {A} (first : bool) msg (r : result A) (p : process E) u p' :
  (if first then mret () else (_ ← must msg r; mret ())) p = (Go u, p') → p' = p ∧ (first = false → ∃ a, r = Ok a).
Proof. destruct first; intros H; boot_inv; [by subst|]. subst. split; [done|]. eauto. Qed.

(** What a server that has started is. *)
Record server_ready (f : flags) (env : boot_env) (a : apiserver) (p : process E) : Prop := {
  ready_token : f_joinToken f ≠ "";
  (** every connection needs the TLS of the server's own identity, and every call
      passes the interceptor for its own trust domain with the default bindings;
      a server that is not the first of its cluster has been added to the Raft
      cluster over a connection on which it checked its peer *)
  ready_identity : ∃ id, SVID_ID (a_svid a) = Ok id ∧
    a_server a = Tls.New (Tls.MkConfig RaftStore (f_apiAddr f) (Some (ServerTLSConfig (a_svid a)))
                   (Some (λ A, AuthInterceptor (MatchMemberOf (id_TrustDomain id)) default_authorizer))) ∧
    (f_bootstrap f = false →
       joinRaftCluster env (a_svid a) (MatchMemberOf (id_TrustDomain id)) (f_joinAddr f) (f_nodeID f) (f_raftAddr f) = Ok ());
  (** requests pass the complete chain, with a verifier of signatures unless that
      was switched off *)
  ready_chain : ∃ v, a_chain a = build_chain f v ∧
    if f_insecureSkipImageVerification f then v = allowAllVerifier ∧ a_images a = None
    else ∃ pk m, v = TrustVerifier (NewKeyVerifier pk (MkTrustFile (Some m))) ∧ a_images a = Some pk;
  (** the identity service runs on the server that bootstrapped the cluster, with the
      token of the flag and the key that the store was opened with *)
  ready_authority : is_Some (a_identity a) ↔ f_bootstrap f = true;
  ready_authority_key : ∀ svc, a_identity a = Some svc →
    is_joinToken svc = f_joinToken f ∧ is_dataEncryptionKey svc = rs_encKey (a_store a);
  ready_services : a_services a = registered (bool_decide (is_Some (a_images a))) (f_bootstrap f);
  ready_goroutines : p_goroutines p =
    [if f_bootstrap f then GSelfIssue ("/control-plane/" +:+ f_nodeID f) else GReenroll SVID_ROLE_CONTROL_PLANE; GLeader; GDashboard];
  ready_deferred : ∃ otel, p_deferred p = [DShutdownStore; DShutdownTelemetry otel; DStopSignals];
}.

Lemma started_server_ready f env s a p : apiserver_start f env (boot_of s) = (Go a, p) → server_ready f env a p.
Proof.
  unfold apiserver_start. intros H. boot_inv.
  repeat match goal with
  | H : (if f_bootstrap f then _ else _) _ = (Go _, _) |- _ => apply join_Go in H as [? Hjoin]
  | H : loadOrBootstrapIdentity _ _ _ _ _ _ _ _ _ _ _ _ _ = _ |- _ => apply loadOrBootstrapIdentity_Ok in H as Hca; clear H
  | H : loadImageVerifier _ _ _ _ = _ |- _ => apply loadImageVerifier_Ok in H as Hver
  | H : NewRaftStore _ = Ok _ |- _ => apply NewRaftStore_key in H as [Hkey _]
  | H : bool_decide (f_joinToken f = "") = false |- _ => apply bool_decide_eq_false in H
  end. subst. constructor; cbn [a_svid a_server a_chain a_identity a_store a_services a_images].
  - done.
  - eexists. split; [done|]. split; [done|]. intros Hb. by destruct (Hjoin Hb) as [[] ?].
  - by eexists.
  - rewrite fmap_is_Some, <-Hca. by rewrite bool_decide_eq_true.
  - intros svc (ca & -> & ->)%fmap_Some. by rewrite Hkey.
  - by rewrite Hca.
  - rewrite <-Hca. repeat match goal with H : p_goroutines _ = _ |- _ => rewrite H; clear H end. simpl.
    case_bool_decide as Hs; [by destruct Hs as [? ->]|]. by apply eq_None_not_Some in Hs as ->.
  - eexists. repeat match goal with H : p_deferred _ = _ |- _ => rewrite H; clear H end. done.
Qed.


(** [log.Fatal] skips what was deferred: a start that fails shuts nothing down, also
    when the store is open, as it is when a replica cannot join the cluster. *)
Theorem failed_start_shuts_nothing_down f env s msg e p :
  apiserver_start f env (boot_of (E := E) s) = (Fatal msg e, p) → at_exit (apiserver_main f env (boot_of s)) = [].
Proof. intros H. unfold apiserver_main, mbind, boot_bind. by rewrite H. Qed.

Lemma refused_join_store_open f env s0 p svid dek store id e s1 :
  f_joinToken f ≠ "" → f_joinAddr f ≠ "" → f_bootstrap f = false →
  Setup (Telemetry.MkConfig "nimbus-apiserver" (f_otelExporter f) (f_otlpEndpoint f)) s0 = (inr p, s1) →
  Enroll (be_gen env) (be_request env) (f_joinToken f) (f_nodeID f) SVID_ROLE_CONTROL_PLANE = Ok (svid, dek) →
  NewRaftStore (MkRaftConfig (f_nodeID f) (f_raftAddr f) (f_dataDir f) false (default [] dek)) = Ok store →
  SVID_ID svid = Ok id →
  joinRaftCluster env svid (MatchMemberOf (id_TrustDomain id)) (f_joinAddr f) (f_nodeID f) (f_raftAddr f) = Err e →
  ∃ p', apiserver_start f env (boot_of (E := E) s0) = (Fatal "apiserver: join raft cluster" e, p') ∧
    DShutdownStore ∈ p_deferred p' ∧ at_exit (apiserver_main f env (boot_of s0)) = [].
Proof.
  intros H1 H2 Hb Hs He Hr Hid Hj.
  assert (∃ p', apiserver_start f env (boot_of (E := E) s0) = (Fatal "apiserver: join raft cluster" e, p') ∧ DShutdownStore ∈ p_deferred p') as (p' & Hp & Hin).
  { unfold apiserver_start. rewrite Hb, !bool_decide_eq_false_2 by done.
    unfold mbind, boot_bind, fatal_if, defer, must_run, loadOrBootstrapIdentity. cbn [negb andb p_machine boot_of].
    rewrite Hs, He. cbn [must p_machine]. rewrite Hr. cbn [must]. rewrite Hid. cbn [must go]. rewrite Hj. cbn [must].
    eexists. split; [done|]. left. }
  exists p'. split_and!; [done..|]. by eapply failed_start_shuts_nothing_down.
Qed.

(** *** The services and the table of methods *)

(** The service of a method "/nimbuscore.v1.S/M". *)
Definition method_service (method : string) : string :=
  match Cut "/"%char (String.substring 15 (String.length method) method) with Some (s, _) => s | None => "" end.

(** Every service has rows in the table of the interceptor, the identity service
    excepted, and every row is about a service that main registers: nothing that is
    served is unreachable and nothing is mapped in vain. *)
Theorem services_match_rbac :
  Forall (λ s, s ∈ (method_service <$> methodResourceVerb.*1)) (core_services ++ [image_service]) ∧
  Forall (λ m, method_service m ∈ core_services ++ [image_service]) methodResourceVerb.*1 ∧
  (∀ m, method_service m = identity_service → method_lookup m = None).
Proof.
  split; [|split].
  - refine (bool_decide_unpack _ _). vm_compute. exact I.
  - refine (bool_decide_unpack _ _). vm_compute. exact I.
  - intros m Hm. apply not_elem_of_list_to_map_1. intros Hin.
    assert (Forall (λ m, method_service m ≠ identity_service) methodResourceVerb.*1) as Hall by (refine (bool_decide_unpack _ _); vm_compute; exact I).
    rewrite Forall_forall in Hall. by apply (Hall m Hin).
Qed.

(** *** What a started server admits *)

Context {SLaws : RaftEnvLaws} {RR : RaftReliable} `{AL : !ApiLaws, ML : !MoreLaws}.

(** Unless image verification was switched off, a pod or deployment that a started
    server accepts has only images with a signature that verifies under its key. *)
Theorem started_server_runs_signed f env s a p :
  apiserver_start f env (boot_of (E := E) s) = (Go a, p) → f_insecureSkipImageVerification f = false →
  ∃ pk m, a_images a = Some pk ∧
    (∀ pod c w c' pod' w', CreatePod (a_chain a) pod c w = (Ok (c', Ok pod'), w') → Forall (signed_in pk m) (images (Pod_Spec pod'))) ∧
    (∀ d c w c' d' w', CreateDeployment (a_chain a) d c w = (Ok (c', Ok d'), w') → Forall (signed_in pk m) (images (depTemplate d'))).
Proof.
  intros H Hi. destruct (ready_chain _ _ _ _ (started_server_ready _ _ _ _ _ H)) as (v & Hc & Hv). rewrite Hi in Hv. destruct Hv as (pk & m & -> & Hp).
  exists pk, m. split; [done|]. rewrite Hc. apply (accepted_images_signed _ _ pk m).
Qed.

(** C40: A replica that joins after the key was rotated cannot read.  The identity service
    hands out the key its own server was started with, also after a rotation: a new
    replica opens its store with that key, and fails to read every value that is
    sealed under the rotated one. *)
Theorem late_joiner_cannot_read f env s a p svc serial now token csrDer name resp id addr dir st k1 key c v :
  apiserver_start f env (boot_of (E := E) s) = (Go a, p) → a_identity a = Some svc →
  RequestSVID svc serial now token csrDer name SVID_ROLE_CONTROL_PLANE = Ok resp →
  NewRaftStore (MkRaftConfig id addr dir false (default [] (rs_DataEncryptionKey resp))) = Ok st →
  valid_key (rs_encKey (a_store a)) → valid_key k1 → k1 ≠ rs_encKey (a_store a) →
  fsm_data (rs_fsm st) !! key = Some c → sealed k1 c v → ∃ e, rs_Get key st = Err e.
Proof.
  intros H Hsvc Hreq Hst Hk0 Hk1 Hne Hc Hs.
  destruct (ready_authority_key _ _ _ _ (started_server_ready _ _ _ _ _ H) _ Hsvc) as [_ Hdek].
  assert (rs_DataEncryptionKey resp = Some (is_dataEncryptionKey svc)) as Hr.
  { revert Hreq. unfold RequestSVID. case_bool_decide; [|done]. case_bool_decide; [done|]. simpl negb. cbv iota.
    intros (req & _ & H')%result_bind_Ok. apply result_bind_Ok in H' as (u & _ & H').
    destruct (csr_ECDSA req) as [pk|]; [|done]. destruct (role_path _ _) as [path|]; [|done].
    apply result_bind_Ok in H' as (? & _ & H'). apply result_bind_Ok in H' as (? & _ & H'). by injection H' as <-. }
  apply NewRaftStore_key in Hst as [Hk Hp]. rewrite Hr, Hdek in Hk. simpl in Hk.
  unfold rs_Get, fsm_get. rewrite Hc. simpl. eapply rs_decrypt_lost; [by rewrite Hk|by rewrite Hk|by left|rewrite Hp|exact Hs].
  by intros ->.
Qed.

End ApiCorrect.

Section AgentCorrect.
Context {X : X509} {SP : Spiffe} {SI : SpiffeIDs}.
Context {E : Type} {OT : Otel E}.

(** What an agent that has started is. *)
Record agent_ready (f : agent_flags) (env : agent_env) (a : node_agent) (p : process E) : Prop := {
  agent_flags_set : af_controlPlaneAddr f ≠ "" ∧ af_joinToken f ≠ "";
  (** the identity is one that the control plane gave for the role of a node *)
  agent_enrolled : ∃ dek, Enroll (ae_gen env) (ae_request env) (af_joinToken f) (af_nodeName f) SVID_ROLE_NODE = Ok (na_svid a, dek);
  (** the node is registered over a connection on which the agent checked its peer *)
  agent_registered : ∃ id accelerators,
    SVID_ID (na_svid a) = Ok id ∧ parseAccelerators (af_accelerators f) = Ok accelerators ∧
    na_node a = registered_node (af_nodeName f) (cfg_InternalIP (na_config a))
                  (MkResourceList (af_cpuMillis f) (af_memoryBytes f) accelerators) (ae_now env) ∧
    ae_CreateNode env (ClientTLSConfig (na_svid a) (MatchMemberOf (id_TrustDomain id))) (na_node a) = Ok ();
  agent_address : internal_ip (af_nodeIP f) (ae_detected env) = Ok (cfg_InternalIP (na_config a));
  agent_breaker : na_breaker a = NewCircuitBreaker 5 (30 * 1000000000);
  agent_services : cfg_services (na_config a) = true ∧ cfg_NodeName (na_config a) = af_nodeName f;
  agent_goroutines : p_goroutines p = [GReenroll SVID_ROLE_NODE; GHeartbeat; GLogServer; GFilesServer];
  agent_deferred : ∃ otel, p_deferred p = [DCloseConn; DShutdownTelemetry otel; DStopSignals];
}.

(** An agent works only once it is a node.  If main reaches the loop of the agent, it
    holds a node identity, the record of its node with the announced capacity and
    address is acknowledged by the control plane, and heartbeats, logs and files are
    served from then on. *)
Theorem started_agent f env s a p : agent_start f env (boot_of (E := E) s) = (Go a, p) → agent_ready f env a p.
Proof.
  unfold agent_start. intros H. boot_inv.
  repeat match goal with
  | H : _ || _ = false |- _ => apply orb_false_elim in H as [?%bool_decide_eq_false ?%bool_decide_eq_false]
  | H : ae_CreateNode _ _ _ = Ok ?u |- _ => destruct u
  end. subst.
  constructor; cbn [na_svid na_breaker na_node na_config cfg_InternalIP cfg_services cfg_NodeName].
  - done.
  - by eexists.
  - by eexists _, _.
  - done.
  - done.
  - done.
  - repeat match goal with H : p_goroutines _ = _ |- _ => rewrite H; clear H end. done.
  - eexists. repeat match goal with H : p_deferred _ = _ |- _ => rewrite H; clear H end. done.
Qed.
End AgentCorrect.

(** ** Examples *)

Module DemoBoot.
Import Codec.Reference MemFs IdentityDemo ImagesignDemo HostpathDemo DemoRaft DemoAdmission DemoServices.

#[local] Existing Instance toy_cel.
#[local] Existing Instance shuffle_id.
#[local] Instance boot_messages : ApiMessages := Build_ApiMessages _ _ _ _.
#[local] Instance boot_laws : ApiLaws := Build_ApiLaws _ _ _ _ _.
#[local] Instance boot_more : MoreMessages := Build_MoreMessages _ _ _ _ _ _.

(** No exporter is asked for. *)
#[local] Instance no_otel : Otel fs := {|
  stdouttrace_New s := (inr 0, s); stdoutmetric_New s := (inr 0, s); otlptracegrpc_New _ s := (inr 0, s); otlpmetricgrpc_New _ s := (inr 0, s);
  sdktrace_NewTracerProvider _ _ s := (0, s); sdkmetric_NewMeterProvider _ _ s := (0, s);
  otel_SetTracerProvider _ s := s; otel_SetMeterProvider _ s := s;
  TracerProvider_Shutdown _ s := (None, s); MeterProvider_Shutdown _ s := (None, s);
|}.

(** The first server of a cluster, in development. *)
Definition first_flags : flags :=
  MkFlags "cp-1" ":7443" "127.0.0.1:7946" "/data" "cluster" true "" "token" "" "" true "" 0 0 "none" "" "/data/volumes" 0
    "" "main" "" "" 0 (CPUCoreHour DefaultCostModel) (MemoryGBHour DefaultCostModel) ":8080" "admin" "" 10250 10251.

Definition answers : boot_env :=
  MkBootEnv (λ _ _ _ _, Err (Errorf "unreachable")) (Ok 1%nat) (Ok 2%nat) (Ok 1) (Ok 2) (Ok key0) (100 * day)
    (λ _, Ok ()) (λ _ _ _, Ok ()) (Ok ()) (λ _ _ _, mret 0) (Ok ()) (λ _, Ok ()) (Ok ()).

Definition first_start := apiserver_start first_flags answers (boot_of (∅ : fs)).
Definition first_main := apiserver_main first_flags answers (boot_of (∅ : fs)).

Lemma go_outcome {A} (r : outcome A * process fs) : match r.1 with Go _ => true | _ => false end = true → ∃ a p, r = (Go a, p).
Proof. destruct r as [[a| |] p]; [by exists a, p|done..]. Qed.

Lemma first_starts : ∃ a p, first_start = (Go a, p).
Proof. apply go_outcome. vm_compute. reflexivity. Qed.


(** A replica enrols after the first server has rotated to [key1]: Raft gives it values sealed under that key. *)
Definition joining (svc : identityService) : result RequestSVIDResponse :=
  RequestSVID svc (Ok 3) (100 * day) "token" (inr 9%nat) "cp-2" SVID_ROLE_CONTROL_PLANE.

Lemma late_joiner_cannot_read_witness :
  ∃ a p svc resp st e, first_start = (Go a, p) ∧ a_identity a = Some svc ∧ joining svc = Ok resp ∧
    NewRaftStore (MkRaftConfig "cp-2" ":7946" "/data" false (default [] (rs_DataEncryptionKey resp))) = Ok st ∧
    rs_Get "/registry/pods/default/web-0" st = Err e.
Proof.
  destruct first_starts as (a & p & H). pose proof (started_server_ready _ _ _ _ _ H) as Hr.
  destruct (proj2 (ready_authority _ _ _ _ Hr) eq_refl) as [svc Hsvc].
  assert (rs_encKey (a_store a) = key0) as Hk.
  { assert (match first_start.1 with Go a => rs_encKey (a_store a) | _ => [] end = key0) as Hk by (vm_compute; reflexivity). by rewrite H in Hk. }
  assert (∃ resp, joining svc = Ok resp) as [resp Hj].
  { assert (match first_start.1 with Go a => match a_identity a with Some svc => match joining svc with Ok _ => true | _ => false end | None => false end
            | _ => false end = true) as Hj by (vm_compute; reflexivity).
    rewrite H in Hj. cbn [fst] in Hj. rewrite Hsvc in Hj. destruct (joining svc) as [resp| |]; [by exists resp|discriminate Hj..]. }
  assert (rs_DataEncryptionKey resp = Some key0) as Hdek.
  { assert (match first_start.1 with Go a => match a_identity a with Some svc => match joining svc with Ok r => rs_DataEncryptionKey r | _ => None end | None => None end
            | _ => None end = Some key0) as Hd by (vm_compute; reflexivity).
    rewrite H in Hd. cbn [fst] in Hd. by rewrite Hsvc, Hj in Hd. }
  assert (∃ st, NewRaftStore (MkRaftConfig "cp-2" ":7946" "/data" false (default [] (rs_DataEncryptionKey resp))) = Ok st ∧
    fsm_data (rs_fsm st) = sealed_contents key1) as (st & Hst & Hd).
  { rewrite Hdek. eexists. split; reflexivity. }
  destruct (late_joiner_cannot_read first_flags answers ∅ a p svc (Ok 3) (100 * day) "token" (inr 9%nat) "cp-2" resp
    "cp-2" ":7946" "/data" st key1 "/registry/pods/default/web-0" (nonce0 ++ demo_seal key1 nonce0 [x2a]) [x2a] H Hsvc Hj Hst) as [e He].
  - by rewrite Hk.
  - reflexivity.
  - rewrite Hk. discriminate.
  - rewrite Hd. reflexivity.
  - by exists nonce0.
  - by exists a, p, svc, resp, st, e.
Defined.

(** An agent that enrols with the service of the first server. *)
Definition node_flags : agent_flags :=
  MkAgentFlags "n1" "cp:7443" "token" 2000 (Z.shiftl 2 30) "nvidia.com/gpu=2" "10.0.0.7" (5 * 1000000000) "none" ""
    "/logs" ":10250" "/builds" "" "/volumes" ":10251".
Definition node_env : agent_env :=
  MkAgentEnv (RequestSVID svc0 (Ok 3) (100 * day)) (Ok 11%nat) (λ _, Ok ()) (Err (Errorf "no route")) (λ _ _, Ok ()) (100 * day) (Err ErrContextCanceled).

Lemma started_agent_witness :
  ∃ a p, agent_start node_flags node_env (boot_of (∅ : fs)) = (Go a, p) ∧ cfg_InternalIP (na_config a) = "10.0.0.7".
Proof.
  destruct (go_outcome (agent_start node_flags node_env (boot_of (∅ : fs)))) as (a & p & H); [vm_compute; reflexivity|].
  exists a, p. split; [exact H|]. pose proof (agent_address _ _ _ _ (started_agent node_flags node_env ∅ a p H)) as Ha.
  simpl in Ha. by injection Ha.
Defined.

(** The cluster cannot be joined: the store is open, and stays so. *)
Definition second_flags : flags :=
  MkFlags "cp-2" ":7443" "127.0.0.1:7947" "/data" "cluster" false "cp:7443" "token" "" "" true "" 0 0 "none" "" "/data/volumes" 0
    "" "main" "" "" 0 (CPUCoreHour DefaultCostModel) (MemoryGBHour DefaultCostModel) ":8080" "admin" "" 10250 10251.
Definition refusing : boot_env :=
  MkBootEnv (RequestSVID (MkIdentityService ca0 "token" 0 key0) (Ok 3) (100 * day)) (Ok 1%nat) (Ok 2%nat) (Ok 1) (Ok 2) (Ok key0) (100 * day)
    (λ _, Ok ()) (λ _ _ _, Err ErrNotLeader) (Ok ()) (λ _ _ _, mret 0) (Ok ()) (λ _, Ok ()) (Ok ()).

Lemma failed_start_shuts_nothing_down_witness :
  ∃ msg e p, apiserver_start second_flags refusing (boot_of (∅ : fs)) = (Fatal msg e, p) ∧
    at_exit (apiserver_main second_flags refusing (boot_of (∅ : fs))) = [].
Proof.
  assert (match (apiserver_start second_flags refusing (boot_of (∅ : fs))).1 with Fatal _ _ => true | _ => false end = true) as Hf by (vm_compute; reflexivity).
  destruct (apiserver_start second_flags refusing (boot_of (∅ : fs))) as [[a|msg e|] p] eqn:H; [discriminate Hf| |discriminate Hf].
  exists msg, e, p. split; [reflexivity|]. exact (failed_start_shuts_nothing_down second_flags refusing ∅ msg e p H).
Defined.
End DemoBoot.
